(* ===== verification/_CoqProject ===== *)
-Q . S2P
Prelude.v
ErrorCodes.v
KafkaErrors.v
Util.v
TopicPartitionList.v
Config.v
Message.v
ClusterInfo.v
Client.v
Statistics.v
BaseConsumer.v
StreamConsumer.v
NativePtr.v
Ownership.v
QueueCallbacks.v
BaseProducer.v
FutureProducer.v
ThreadedProducer.v
Traits.v
Acknowledged.v
Offsets.v
AtLeastOnce.v
Admin.v
AdminClient.v
Mocking.v
Build.v
Runtime.v
SimpleConsumer.v
Roundtrip.v
SimpleProducer.v
MetadataExample.v
AsyncProcessing.v
