(* ===== verification/Prelude.v ===== *)
(** * A verification library for rust-rdkafka

    rust-rdkafka wraps the C client librdkafka in a safe, typed interface:
    producers, consumers and administrators of Kafka. The C library does the protocol;
    the crate translates data and errors across the boundary, polls the native
    event queues, dispatches events to the user's context, and keeps track of
    who owns what. This library models the Rust code; librdkafka and the user's
    callbacks are parameters (type classes whose methods are the C functions or
    the trait methods), with the documented behaviour that the crate relies on
    as laws of a second class ([TplNativeSpec], [ConfNativeSpec],
    [HeadersNativeSpec], [ClockSpec], [ConsumerQueueSpec], [ProducerSpec],
    [FutureSpec], [AckSpec], [OffsetsSpec], [CommitSpec], [TransactionSpec], [ChannelSpec], [BuildWorldSpec], ...).
    Every class of laws has a concrete instance, against which the witnesses of
    the theorems are evaluated.

    ** Files

    - [Prelude]: results, panics and state ([result], [outcome], [comp]: a
      computation ends with [Done] or with [Panic]), machine integers, UTF-8 and
      C strings, shared lemmas and tactics.
    - [ErrorCodes] (rdkafka-sys/src/types.rs, helpers.rs, bindings.rs): the two
      enumerations of error codes, the conversion between them, their text.
    - [KafkaErrors] (src/error.rs): [KafkaError], [RDKafkaError], [IsError].
    - [Util] (src/util.rs): [Timeout], [Deadline], slices, [ErrBuf]. Durations and
      instants are nanoseconds in [Z] with the bounds of the standard library.
    - [TopicPartitionList] (src/topic_partition_list.rs): [Offset], list elements,
      the list over the native one, equality, conversions from and to maps.
    - [Config] (src/config.rs): the client configuration and its native form.
    - [Message] (src/message.rs): timestamps, headers, borrowed and owned messages.
    - [ClusterInfo] (src/metadata.rs, src/groups.rs): modules [Metadata], [Groups].
    - [Client] (src/client.rs): creation, event dispatch, the token refresh
      handshake, metadata queries.
    - [Statistics] (src/statistics.rs and the provided methods of [ClientContext]):
      the structures of the statistics and the default context.
    - [BaseConsumer] (src/consumer/mod.rs, src/consumer/base_consumer.rs): the
      polling loop, the event handlers, the operations of the [Consumer] trait.
    - [StreamConsumer] (src/consumer/stream_consumer.rs): the waker slab and
      [MessageStream] as a step relation over all interleavings of streams,
      native callbacks and arriving events; [recv], the background task that wakes
      the streams, and partition queues.
    - [NativePtr] ([NativePtr] and [KafkaDrop] of src/util.rs and the implementations
      in all files): the ledger of the native objects that are alive and of who
      destroys them, and a logic of triples over it.
    - [Ownership]: the functions of src/config.rs, src/client.rs, src/message.rs,
      src/topic_partition_list.rs, src/consumer/base_consumer.rs,
      src/producer/base_producer.rs and src/admin.rs that receive, create, pass on or
      drop native objects, over the ledger; programs that call them.
    - [QueueCallbacks] (the callbacks and the drops of src/consumer/base_consumer.rs
      and src/consumer/stream_consumer.rs): a heap with the values that own what
      librdkafka points to, shared through [Arc]s and dropped in any order.
    - [BaseProducer] (src/producer/base_producer.rs, src/producer/mod.rs and
      [IntoOpaque] of src/util.rs): records, sending, delivery reports, flush,
      purge, transactions, custom partitioners.
    - [FutureProducer] (src/producer/future_producer.rs): the delivery context that
      answers a one-shot channel, [send] as a state machine that is attempted,
      resumed, cancelled, and interleaved with the polling thread ([fstep]).
    - [ThreadedProducer] (src/producer/base_producer.rs, from [ThreadedProducer] on):
      the handles, the polling thread and the drop protocol ([threaded_step]).
    - [Traits] ([Consumer] of src/consumer/mod.rs, [Producer] of src/producer/mod.rs,
      the creation traits of src/config.rs): the classes and the instances of the
      crate, forwarding included; the promise of a producer ([ProducerLaws]).
    - [Acknowledged]: what a successful send means for the data; the content of a
      record followed through the steps of [FutureProducer].
    - [Offsets]: the offsets of a consumer group as librdkafka documents them, what a
      consumer context promises of them, and the invariant of the programs that consume.
    - [AtLeastOnce] (examples/at_least_once.rs): the program that composes the
      stream consumer and the future producer, with crashes and restarts.
    - [Admin] (src/admin.rs, data): options, the resources of the requests and
      their native objects, the decoding of the responses.
    - [AdminClient] (src/admin.rs, client): the seven requests, their futures, the
      polling thread and the drop ([astep]).
    - [Mocking] (src/mocking.rs): the mock cluster.
    - [Build] (rdkafka-sys/build.rs): the build script, as a computation over the
      environment, the files, the commands and the lines that it prints.
    - [Runtime] ([AsyncRuntime] of src/util.rs): the delays of [NaiveRuntime] as a step
      relation of their threads, the tasks that poll them and the clock.
    - [SimpleConsumer] (examples/simple_consumer.rs): the loop that receives, prints and
      commits, with commits in the background, panics and restarts.
    - [Roundtrip] (examples/roundtrip.rs, examples/mocking.rs): the task that produces one
      record after the other, and the loop that measures.
    - [SimpleProducer] (examples/simple_producer.rs): the loop that awaits five sends,
      over the future producer.
    - [AsyncProcessing] (examples/asynchronous_processing.rs): the stream, the tasks
      that it spawns, and the producer they share.
    - [MetadataExample] (examples/metadata.rs): the printing of metadata.

    ** How state and effects are modelled

    The world [W] of a client is a type parameter: librdkafka and the user's
    context are functions on it, and each operation of the crate is a
    state-passing computation over it. A Rust panic ([unwrap], [expect], an index
    out of range, arithmetic with overflow checks) is [Panic] with its message. A
    producer's state pairs the world with the heap of opaque values ([pworld]),
    so that [into_ptr] and [from_ptr] of [IntoOpaque] allocate and free, and a
    value that is reclaimed twice or never is visible. In [StreamConsumer] the
    shared slab of wakers and the queue are one state [sys]; a stream has a
    program counter ([phase]), and each step is one critical section or one call.
    In [FutureProducer], [ThreadedProducer] and [AdminClient] the steps are the
    pieces of code between two points at which another thread or task can run: an
    await, a turn of the polling loop, an access to an atomic. A one-shot channel is
    a number; its sender is an opaque value in the heap while librdkafka holds it.
    In [QueueCallbacks] an [Arc] is a reference in a list of all references, and the
    fields that a drop has yet to drop are a stack, so that the order of the fields
    of a structure matters as it does in Rust; freeing what librdkafka points to is
    a panic. In [Ownership] a native call is what librdkafka's documentation says of
    the objects it takes and returns, and its answers are any list of numbers; a use
    or a destruction that the documentation forbids is the fault [Undefined], apart
    from a panic of the crate and from a breach by librdkafka; a raw pointer to an owned
    object that goes out of scope is recorded as abandoned. In [AtLeastOnce] the producer's and the consumer's librdkafka are two
    worlds, the offsets of the consumer are part of the second one, and a crash
    keeps only what the cluster has: acknowledged messages and committed offsets. The
    program is the only member of its group. Where the group reads a partition without a
    committed offset, or with one that is out of range, is up to the reset policy: any
    offset, recorded in [origin], from which on the theorems speak. The same
    holds in [SimpleConsumer], where the lines that were printed are kept too, and the
    message in hand when a run ends is remembered as lost.

    ** Loops and fuel

    The loops of the crate that are not structural ([poll_queue], [poll] of the
    producer, [flush], the drain in [drop]) take a number of turns; running out of
    turns is the value [None], apart from every result. The termination theorems
    say how many turns are enough: the native poll takes at least one nanosecond
    ([ClockSpec]), so a timeout of [d] nanoseconds needs at most [d + 1] turns;
    with a zero timeout a stream needs one turn per pending event and one more. The
    retries of a future producer's [send] sleep a tenth of a second each
    ([SleepSpec]), so a queue timeout of [t] needs at most [t / 100ms + 2] attempts;
    the thread of a threaded producer ends three steps after the stop flag is set.

    ** What the theorems show

    - End to end: [at_least_once] (no message below a committed offset is lost, from
      where the group's reading originates; [at_least_once_reset_skips]: a message before
      the first commit can be),
      [send_acknowledged] (a successful send is acknowledged with its own data),
      [simple_consumer_delivery] (what is committed was printed, up to one message for each
      restart, and [simple_consumer_skips]: that one can be lost), [roundtrip_closed_loop]
      (one message in flight, all earlier ones acknowledged), [measure_window],
      [async_processing_correct] (each message is processed by one task, whose result is
      acknowledged), [future_commit_complete] (a committed transaction has no report outstanding).
    - Memory: [callbacks_memory_safe], [callbacks_no_leak]; [native_memory_safe],
      [native_no_leak], with the exceptions [fetch_metadata_dangling],
      [rebalance_list_moved] and [client_new_leaks].
    - Polling: [poll_queue_safe], [poll_queue_terminates], [poll_event_spec],
      [producer_poll_exactly_once], [producer_poll_never], [producer_error_twice].
    - Concurrency of streams: [no_lost_wakeup], [waker_slots]; the code of
      [poll_next] and of the stream's poll refine the steps ([poll_next_refines],
      [stream_poll_refines]); receiving is cancellation safe ([recv_cancel_safe]) and
      waiting streams are woken in time to poll ([timer_wakes], [poll_interval_spec]).
    - Ownership of delivery opaques: [send_ownership], [producer_poll_exactly_once],
      [flush_returns], [commit_after_flush].
    - Futures: a send or an admin request gets the result of its own message or
      request and is not canceled ([future_own_result], [future_never_canceled],
      [admin_own_answer], [admin_request_ownership]); retries end
      ([send_loop_terminates]) and an immediate send returns the record on failure
      ([send_result_spec]).
    - Threads: [threaded_live], [threaded_drop], [threaded_join]; delays of the naive
      runtime are never early and wake who waits ([naive_delay_correct]).
    - Building: the script stops at the first failure and links what it has built
      ([build_script_safe]); both build systems get the libraries that the features
      ask for, with their flags ([features_reach_the_build]).
    - Admin data: [admin_no_abort], [specifier_roundtrip].
    - Data: round trips and specifications of offsets, partition lists, headers,
      messages, configurations and error codes; [tpl_eq_permutation] for the
      equality of lists; [sanitised_views] for secrets in configurations.
    - Statistics: [stats_event_delivered].
    - Bounds: timeouts ([timeout_as_millis_exact]) and deadlines at their machine width, the error buffer.
    - Behaviours worth knowing: [offset_tail_overflow], [tpl_eq_duplicates],
      [timeout_as_millis_wraps], [null_arrays], [rdkafka_error_code_AdminOp_lost],
      [check_invalid_arg_message], [config_errors_ignored], [admin_drop_pending],
      [simple_producer_waits], [metadata_totals_cumulative], [latency_wraps],
      [header_name_cut].

    ** Not modelled

    Reading and writing JSON ([serde_json] and the code that [serde] derives for the
    statistics: a parameter); the executor of [NaiveRuntime::spawn]
    ([futures_executor::block_on], a parameter); the logging macros; the generated bindings (apart
    from the enumerations and structures that the crate reads), which declare the
    functions that are parameters here; the crate root, which only re-exports; the glue of
    [TokioRuntime] and of examples/runtime_smol.rs and examples/runtime_async_std.rs, which
    only forwards to another library; unwinding after a panic; formatting for debugging; the
    command lines and the logger of the examples; the tests. *)

From Stdlib Require Import Ascii DecimalString DecimalZ Lia.
From stdpp Require Import strings gmap prelude.

Local Open Scope Z_scope.

Create HintDb kafka.
Create Rewrite HintDb kafka.

(** ** Outcomes, results and the two monads *)

(** Rust's [Result<A, E>]; the error type comes first so that [result E] is a
    type constructor. *)
Inductive result (E A : Type) : Type :=
| Ok (a : A)
| Err (e : E).
Arguments Ok {E A} _.
Arguments Err {E A} _.

(** The outcome of running Rust code that may panic. *)
Inductive outcome (A : Type) : Type :=
| Done (a : A)
| Panic (msg : string).
Arguments Done {A} _.
Arguments Panic {A} _.

(** Code that owns a mutable state [S] and may panic. *)
Definition comp (S A : Type) : Type := S → outcome (A * S).

#[export] Instance result_ret {E} : MRet (result E) := λ A a, Ok a.
#[export] Instance result_bind {E} : MBind (result E) := λ A B f m,
  match m with Ok a => f a | Err e => Err e end.
#[export] Instance outcome_ret : MRet outcome := λ A a, Done a.
#[export] Instance outcome_bind : MBind outcome := λ A B f m,
  match m with Done a => f a | Panic msg => Panic msg end.
#[export] Instance comp_ret {S} : MRet (comp S) := λ A a s, Done (a, s).
#[export] Instance comp_bind {S} : MBind (comp S) := λ A B f m s,
  match m s with Done (a, s') => f a s' | Panic msg => Panic msg end.

#[export] Instance result_eq_dec {E A} `{EqDecision E, EqDecision A} : EqDecision (result E A).
Proof. solve_decision. Defined.
#[export] Instance outcome_eq_dec {A} `{EqDecision A} : EqDecision (outcome A).
Proof. solve_decision. Defined.

Definition map_err {E F A} (f : E → F) (r : result E A) : result F A :=
  match r with Ok a => Ok a | Err e => Err (f e) end.

Definition is_Ok {E A} (r : result E A) : bool :=
  match r with Ok _ => true | Err _ => false end.

(** [Option::expect], [Option::unwrap] and [Result::expect]. *)
Definition expect {A} (msg : string) (o : option A) : outcome A :=
  match o with Some a => Done a | None => Panic msg end.

Definition expect_ok {E A} (msg : string) (r : result E A) : outcome A :=
  match r with Ok a => Done a | Err _ => Panic msg end.

(** Lifting a stateless outcome into stateful code. *)
Definition lift {S A} (o : outcome A) : comp S A :=
  λ s, match o with Done a => Done (a, s) | Panic msg => Panic msg end.

Definition get {S} : comp S S := λ s, Done (s, s).
Definition put {S} (s' : S) : comp S unit := λ _, Done (tt, s').
(** A call that answers and updates the state. *)
Definition call {S A} (f : S → A * S) : comp S A := λ s, Done (f s).
Definition panic {S A} (msg : string) : comp S A := λ _, Panic msg.
Definition modify {S} (f : S → S) : comp S unit := λ s, Done (tt, f s).

Declare Scope kafka_scope.
Delimit Scope kafka_scope with kafka.

(** The [?] operator: stop at the first [Err] of a computation that returns a
    [Result]. *)
Definition try_bind {S E A B} (m : comp S (result E A)) (k : A → comp S (result E B))
    : comp S (result E B) :=
  m ≫= λ r, match r with Ok a => k a | Err e => mret (Err e) end.

Notation "x ←? m ; k" := (try_bind m (λ x, k))
  (at level 20, m at level 100, k at level 200, right associativity) : kafka_scope.
Open Scope kafka_scope.

Lemma try_bind_ok {S E A B} (m : comp S (result E A)) (k : A → comp S (result E B)) s s' a :
  m s = Done (Ok a, s') → try_bind m k s = k a s'.
Proof. intros H. unfold try_bind, mbind, comp_bind. by rewrite H. Qed.

Lemma try_bind_err {S E A B} (m : comp S (result E A)) (k : A → comp S (result E B)) s s' e :
  m s = Done (Err e, s') → try_bind m k s = Done (Err e, s').
Proof. intros H. unfold try_bind, mbind, comp_bind. by rewrite H. Qed.

Lemma comp_bind_Done {S A B} (m : comp S A) (k : A → comp S B) s r s' :
  (m ≫= k) s = Done (r, s') ↔ ∃ a s1, m s = Done (a, s1) ∧ k a s1 = Done (r, s').
Proof.
  unfold mbind, comp_bind. destruct (m s) as [[a s1]|msg].
  - split; [by eauto|]. by intros (? & ? & [= <- <-] & ?).
  - split; [done|]. by intros (? & ? & ? & _).
Qed.

(** Running a bind whose first computation is known. *)
Lemma comp_bind_run {S A B} (m : comp S A) (k : A → comp S B) s a s' :
  m s = Done (a, s') → (m ≫= k) s = k a s'.
Proof. intros H. unfold mbind, comp_bind. by rewrite H. Qed.

(** ** Machine integers *)

Definition i16_min : Z := - 2 ^ 15.
Definition i16_max : Z := 2 ^ 15 - 1.
Definition i32_min : Z := - 2 ^ 31.
Definition i32_max : Z := 2 ^ 31 - 1.
Definition i64_min : Z := - 2 ^ 63.
Definition i64_max : Z := 2 ^ 63 - 1.
Definition usize_max : Z := 2 ^ 64 - 1.

Definition in_i32 (z : Z) : Prop := i32_min ≤ z ≤ i32_max.
Definition in_i64 (z : Z) : Prop := i64_min ≤ z ≤ i64_max.

(** [z as iN]: two's complement truncation. *)
Definition as_signed (w : Z) (z : Z) : Z := (z + 2 ^ (w - 1)) mod 2 ^ w - 2 ^ (w - 1).
Definition as_i32 : Z → Z := as_signed 32.
Definition as_i64 : Z → Z := as_signed 64.
Definition as_usize (z : Z) : Z := z mod 2 ^ 64.

(** An [i64] operation whose exact result is [z]: with overflow checks (debug
    builds) it panics out of range, without them (release builds) it wraps. *)
Definition arith_i64 (overflow_checks : bool) (z : Z) : outcome Z :=
  if bool_decide (in_i64 z) then Done z
  else if overflow_checks then Panic "attempt to perform arithmetic with overflow"
  else Done (as_i64 z).

Ltac int_unfold :=
  unfold in_i32, in_i64, i16_min, i16_max, i32_min, i32_max, i64_min, i64_max, usize_max in *.

Lemma as_i32_id z : in_i32 z → as_i32 z = z.
Proof. int_unfold. intros H. unfold as_i32, as_signed; change (32 - 1) with 31. rewrite Z.mod_small; lia. Qed.

Lemma as_i64_id z : in_i64 z → as_i64 z = z.
Proof. int_unfold. intros H. unfold as_i64, as_signed; change (64 - 1) with 63. rewrite Z.mod_small; lia. Qed.

Lemma as_i32_range z : in_i32 (as_i32 z).
Proof. int_unfold. unfold as_i32, as_signed; change (32 - 1) with 31. pose proof (Z.mod_pos_bound (z + 2 ^ 31) (2 ^ 32)). lia. Qed.

Lemma as_i64_range z : in_i64 (as_i64 z).
Proof. int_unfold. unfold as_i64, as_signed; change (64 - 1) with 63. pose proof (Z.mod_pos_bound (z + 2 ^ 63) (2 ^ 64)). lia. Qed.

Lemma as_i32_congr z : ∃ k, as_i32 z = z + k * 2 ^ 32.
Proof.
  unfold as_i32, as_signed; change (32 - 1) with 31. exists (- ((z + 2 ^ 31) / 2 ^ 32)).
  pose proof (Z.div_mod (z + 2 ^ 31) (2 ^ 32)). lia.
Qed.

Lemma arith_i64_in oc z : in_i64 z → arith_i64 oc z = Done z.
Proof. intros H. unfold arith_i64. by rewrite bool_decide_eq_true_2. Qed.

#[export] Hint Resolve as_i32_range as_i64_range : kafka.
#[export] Hint Rewrite as_i32_id as_i64_id using (int_unfold; lia) : kafka.

(** ** Bytes, strings, C strings and UTF-8 *)

Abbreviation bytes := (list Byte.byte).

#[export] Instance byte_eq_decision : EqDecision Byte.byte := Byte.byte_eq_dec.

Definition byte_n (b : Byte.byte) : N := Byte.to_N b.

Definition in_range (lo hi : N) (b : Byte.byte) : bool :=
  (lo <=? byte_n b)%N && (byte_n b <=? hi)%N.

(** Continuation bytes [0x80..=0xBF]. *)
Definition is_cont (b : Byte.byte) : bool := in_range 0x80 0xBF b.

(** The bounds that [core::str::from_utf8] puts on the second byte of a three
    and of a four byte sequence. *)
Definition second_of_3 (b0 b1 : Byte.byte) : bool :=
  if (byte_n b0 =? 0xE0)%N then in_range 0xA0 0xBF b1
  else if (byte_n b0 =? 0xED)%N then in_range 0x80 0x9F b1
  else is_cont b1.

Definition second_of_4 (b0 b1 : Byte.byte) : bool :=
  if (byte_n b0 =? 0xF0)%N then in_range 0x90 0xBF b1
  else if (byte_n b0 =? 0xF4)%N then in_range 0x80 0x8F b1
  else is_cont b1.

(** The number of bytes announced by a leading byte. *)
Definition utf8_char_width (b : Byte.byte) : nat :=
  if in_range 0x00 0x7F b then 1%nat
  else if in_range 0xC2 0xDF b then 2%nat
  else if in_range 0xE0 0xEF b then 3%nat
  else if in_range 0xF0 0xF4 b then 4%nat
  else 0%nat.

(** [str::from_utf8(l).is_ok()]. *)
Fixpoint utf8_valid (l : bytes) : bool :=
  match l with
  | [] => true
  | b0 :: r0 =>
      match utf8_char_width b0, r0 with
      | 1%nat, _ => utf8_valid r0
      | 2%nat, b1 :: r1 => is_cont b1 && utf8_valid r1
      | 3%nat, b1 :: b2 :: r2 => second_of_3 b0 b1 && is_cont b2 && utf8_valid r2
      | 4%nat, b1 :: b2 :: b3 :: r3 =>
          second_of_4 b0 b1 && is_cont b2 && is_cont b3 && utf8_valid r3
      | _, _ => false
      end
  end.

Definition str_bytes (s : string) : bytes := String.list_byte_of_string s.
Definition str_of_bytes (l : bytes) : string := String.string_of_list_byte l.

(** A Rust [str] is a string whose bytes are valid UTF-8. *)
Definition is_str (s : string) : bool := utf8_valid (str_bytes s).

(** [str::from_utf8]. *)
Definition from_utf8 (l : bytes) : option string :=
  if utf8_valid l then Some (str_of_bytes l) else None.

(** [CStr::to_str] on the bytes of a C string. *)
Definition cstr_to_str (s : string) : option string :=
  if is_str s then Some s else None.

(** The replacement character U+FFFD, as UTF-8. *)
Definition replacement : bytes := [Byte.xef; Byte.xbf; Byte.xbd].

(** [String::from_utf8_lossy]: every maximal invalid prefix of a sequence is
    replaced by U+FFFD, the rest is kept. *)
Fixpoint utf8_lossy (l : bytes) : bytes :=
  match l with
  | [] => []
  | b0 :: r0 =>
      match utf8_char_width b0 with
      | 1%nat => b0 :: utf8_lossy r0
      | 2%nat =>
          match r0 with
          | b1 :: r1 => if is_cont b1 then b0 :: b1 :: utf8_lossy r1 else replacement ++ utf8_lossy r0
          | [] => replacement
          end
      | 3%nat =>
          match r0 with
          | b1 :: r1 =>
              if second_of_3 b0 b1 then
                match r1 with
                | b2 :: r2 => if is_cont b2 then b0 :: b1 :: b2 :: utf8_lossy r2
                              else replacement ++ utf8_lossy r1
                | [] => replacement
                end
              else replacement ++ utf8_lossy r0
          | [] => replacement
          end
      | 4%nat =>
          match r0 with
          | b1 :: r1 =>
              if second_of_4 b0 b1 then
                match r1 with
                | b2 :: r2 =>
                    if is_cont b2 then
                      match r2 with
                      | b3 :: r3 => if is_cont b3 then b0 :: b1 :: b2 :: b3 :: utf8_lossy r3
                                    else replacement ++ utf8_lossy r2
                      | [] => replacement
                      end
                    else replacement ++ utf8_lossy r1
                | [] => replacement
                end
              else replacement ++ utf8_lossy r0
          | [] => replacement
          end
      | _ => replacement ++ utf8_lossy r0
      end
  end.

(** [CStr::to_string_lossy]. *)
Definition to_string_lossy (s : string) : string := str_of_bytes (utf8_lossy (str_bytes s)).

(** Byte lists are the strings with those bytes. *)
Lemma str_of_bytes_str_bytes s : str_of_bytes (str_bytes s) = s.
Proof. apply String.string_of_list_byte_of_string. Qed.

Lemma str_bytes_str_of_bytes l : str_bytes (str_of_bytes l) = l.
Proof. apply String.list_byte_of_string_of_list_byte. Qed.

(** A tactic that splits the decoder of a byte list one sequence at a time. *)
Ltac utf8_cases :=
  repeat match goal with
  | |- context [match utf8_char_width ?b with _ => _ end] =>
      destruct (utf8_char_width b) as [|[|[|[|[|?]]]]] eqn:?
  | |- context [match ?l with [] => _ | _ :: _ => _ end] => destruct l
  | H : context [match utf8_char_width ?b with _ => _ end] |- _ =>
      destruct (utf8_char_width b) as [|[|[|[|[|?]]]]] eqn:?
  | H : context [match ?l with [] => _ | _ :: _ => _ end] |- _ => destruct l
  end.

(** Well-founded induction on the length, which every decoder step decreases. *)
Lemma bytes_ind_length (P : bytes → Prop) :
  (∀ l, (∀ l', (length l' < length l)%nat → P l') → P l) → ∀ l, P l.
Proof. intros H l. induction (Wf_nat.well_founded_ltof _ (@length Byte.byte) l). by apply H. Qed.

Lemma utf8_lossy_valid_id l : utf8_valid l = true → utf8_lossy l = l.
Proof.
  induction l as [l IH] using bytes_ind_length. intros H.
  destruct l as [|b0 r0]; [done|]. simpl in H |- *. utf8_cases; try done.
  all: repeat match goal with H : _ && _ = true |- _ => apply andb_true_iff in H as [? ?] end.
  all: repeat match goal with H : ?b = true |- context [?b] => rewrite H end.
  all: rewrite IH; [done|simpl; lia|done].
Qed.

Lemma utf8_valid_app l k : utf8_valid l = true → utf8_valid k = true → utf8_valid (l ++ k) = true.
Proof.
  intros Hl Hk. revert Hl. induction l as [l IH] using bytes_ind_length. intros H.
  destruct l as [|b0 r0]; [done|]. simpl in H. utf8_cases; try done.
  all: repeat match goal with H : _ && _ = true |- _ => apply andb_true_iff in H as [? ?] end.
  all: cbn [app utf8_valid]; rewrite Heqn.
  all: repeat match goal with H : ?b = true |- context [?b] => rewrite H end; simpl.
  all: apply IH; [simpl; lia|done].
Qed.

Lemma utf8_valid_replacement l : utf8_valid (replacement ++ l) = utf8_valid l.
Proof. done. Qed.

Lemma utf8_lossy_is_valid l : utf8_valid (utf8_lossy l) = true.
Proof.
  induction l as [l IH] using bytes_ind_length.
  destruct l as [|b0 r0]; [done|]. cbn [utf8_lossy].
  destruct (utf8_char_width b0) as [|[|[|[|[|?]]]]] eqn:E.
  all: repeat (case_match; try done).
  all: try (rewrite utf8_valid_replacement; apply IH; simpl; lia).
  all: cbn [utf8_valid]; rewrite E; simpl.
  all: repeat match goal with H : ?b = true |- context [?b] => rewrite H end.
  all: simpl; apply IH; simpl; lia.
Qed.

Lemma to_string_lossy_id s : is_str s = true → to_string_lossy s = s.
Proof.
  intros H. unfold to_string_lossy. by rewrite utf8_lossy_valid_id, str_of_bytes_str_bytes.
Qed.

Lemma to_string_lossy_is_str s : is_str (to_string_lossy s) = true.
Proof.
  unfold is_str, to_string_lossy. rewrite str_bytes_str_of_bytes. apply utf8_lossy_is_valid.
Qed.

(** A string that contains no NUL byte can be passed as a C string. *)
Definition nul : Ascii.ascii := Ascii.zero.

Fixpoint nul_position (s : string) : option nat :=
  match s with
  | EmptyString => None
  | String a s' => if Ascii.eqb a nul then Some 0%nat else S <$> nul_position s'
  end.

(** [ffi::NulError]: the position of the interior NUL and the whole input. *)
Inductive NulError := mkNulError (pos : nat) (input : string).

#[export] Instance NulError_eq_dec : EqDecision NulError.
Proof. solve_decision. Defined.

(** [CString::new]. *)
Definition CString_new (s : string) : result NulError string :=
  match nul_position s with
  | Some i => Err (mkNulError i s)
  | None => Ok s
  end.

Definition nul_free (s : string) : bool :=
  match nul_position s with Some _ => false | None => true end.

Lemma CString_new_ok s : nul_free s = true → CString_new s = Ok s.
Proof. unfold nul_free, CString_new. by destruct (nul_position s). Qed.

Lemma CString_new_err s : nul_free s = false → ∃ i, CString_new s = Err (mkNulError i s).
Proof. unfold nul_free, CString_new. destruct (nul_position s); eauto; done. Qed.

(** ** Decimal numbers: [format!("{}", n)] and [str::parse::<i32>] *)

Definition format_int (z : Z) : string := NilZero.string_of_int (Z.to_int z).

Definition parse_int (s : string) : option Z :=
  match s with
  | String "+"%char s' => Z.of_uint <$> NilZero.uint_of_string s'
  | _ => Z.of_int <$> NilZero.int_of_string s
  end.

Definition parse_i32 (s : string) : option Z :=
  z ← parse_int s; if bool_decide (in_i32 z) then Some z else None.

(** [str::parse::<u64>]: no sign but [+]. *)
Definition u64_max : Z := 2 ^ 64 - 1.

Definition parse_u64 (s : string) : option Z :=
  match s with
  | String "-"%char _ => None
  | _ => z ← parse_int s; if bool_decide (0 ≤ z ≤ u64_max) then Some z else None
  end.

Lemma string_of_uint_no_plus (d : Decimal.uint) s' : NilZero.string_of_uint d ≠ String "+"%char s'.
Proof. by destruct d. Qed.

Lemma parse_format_int z : parse_int (format_int z) = Some z.
Proof.
  unfold parse_int, format_int.
  assert (Hs : ∀ s', NilZero.string_of_int (Z.to_int z) ≠ String "+"%char s').
  { intros s'. destruct (Z.to_int z); simpl; [apply string_of_uint_no_plus|done]. }
  transitivity (Z.of_int <$> NilZero.int_of_string (NilZero.string_of_int (Z.to_int z))).
  { destruct (NilZero.string_of_int _) as [|a s]; [done|].
    destruct (Ascii.ascii_dec a "+"%char) as [->|Ha]; [by destruct (Hs s)|].
    by destruct a as [[] [] [] [] [] [] [] []]. }
  rewrite NilZero.isi; [simpl; by rewrite DecimalZ.of_to|..].
  all: intros H; apply (f_equal Z.of_int) in H as Hz; rewrite DecimalZ.of_to in Hz; by subst z.
Qed.

Lemma parse_u64_format z : 0 ≤ z ≤ u64_max → parse_u64 (format_int z) = Some z.
Proof.
  intros Hz. assert (parse_u64 (format_int z)
    = (z ← parse_int (format_int z); if bool_decide (0 ≤ z ≤ u64_max) then Some z else None)) as ->.
  { unfold format_int. destruct z as [|p|p]; [done| |lia]. simpl.
    by destruct (Pos.to_uint p). }
  rewrite parse_format_int. simpl. by rewrite bool_decide_eq_true_2.
Qed.

(** Integers are written in ASCII without NUL. *)
Lemma format_uint_ascii d :
  is_str (NilEmpty.string_of_uint d) = true
  ∧ nul_position (NilEmpty.string_of_uint d) = None.
Proof. induction d as [|d IH|d IH|d IH|d IH|d IH|d IH|d IH|d IH|d IH|d IH]; [done|..];
  destruct IH as [IH1 IH2]; (split; [exact IH1|simpl; by rewrite IH2]). Qed.

Lemma format_int_ascii z : is_str (format_int z) = true ∧ nul_position (format_int z) = None.
Proof.
  unfold format_int, NilZero.string_of_int, NilZero.string_of_uint.
  destruct (Z.to_int z) as [d|d].
  - destruct d; [done|..]; apply (format_uint_ascii _).
  - destruct (format_uint_ascii d) as [H1 H2].
    destruct d; [done|..]; (split; [exact H1|by simpl in *; rewrite H2]).
Qed.

(** ** Lists and maps *)

(** Inserting a list of bindings one after the other, as [HashMap::extend] and
    collecting into a [HashMap] do: the last binding of a key wins. *)
Definition insert_all {K A} `{Countable K} (m : gmap K A) (l : list (K * A)) : gmap K A :=
  foldl (λ m kv, <[kv.1 := kv.2]> m) m l.

Section insert_all.
Context {K A : Type} `{Countable K}.
Implicit Types (m : gmap K A) (l : list (K * A)).

Lemma insert_all_cons m k x l : insert_all m ((k, x) :: l) = insert_all (<[k := x]> m) l.
Proof. done. Qed.

Lemma insert_all_app m l1 l2 : insert_all m (l1 ++ l2) = insert_all (insert_all m l1) l2.
Proof. apply foldl_app. Qed.

Lemma lookup_insert_all_notin m l k : k ∉ l.*1 → insert_all m l !! k = m !! k.
Proof.
  revert m. induction l as [|[k' x'] l IH]; intros m; [done|].
  rewrite fmap_cons, not_elem_of_cons. intros [Hne Hin].
  rewrite insert_all_cons, IH by done. by apply lookup_insert_ne.
Qed.

Lemma lookup_insert_all_last m l1 l2 k x :
  k ∉ l2.*1 → insert_all m (l1 ++ (k, x) :: l2) !! k = Some x.
Proof.
  intros Hk. rewrite insert_all_app, insert_all_cons, lookup_insert_all_notin by done.
  apply lookup_insert_eq.
Qed.

(** Without repeated keys the order does not matter. *)
Lemma insert_all_NoDup m l : NoDup l.*1 → insert_all m l = list_to_map l ∪ m.
Proof.
  revert m. induction l as [|[k x] l IH]; intros m.
  { simpl. by rewrite (left_id_L ∅ (∪)). }
  rewrite fmap_cons, NoDup_cons, list_to_map_cons. intros [Hk Hl]. rewrite insert_all_cons, IH by done.
  assert (Hnone : (list_to_map l : gmap K A) !! k = None) by by apply not_elem_of_list_to_map_1.
  by rewrite <- insert_union_r, insert_union_l.
Qed.

Lemma insert_all_map_to_list m l : l ≡ₚ map_to_list m → insert_all ∅ l = m.
Proof.
  intros Hl. assert (Hnd : NoDup l.*1) by (rewrite Hl; apply NoDup_fst_map_to_list).
  rewrite insert_all_NoDup, (right_id_L ∅ (∪)) by done.
  rewrite <- (list_to_map_to_list m). by apply list_to_map_proper.
Qed.
End insert_all.

Lemma is_nil_length {A} (l : list A) : length l = 0%nat → l = [].
Proof. by destruct l. Qed.
