(* ===== verification/ErrorCodes.v ===== *)
(** * Error codes

    The two error enumerations of [rdkafka-sys] and the conversion between
    them: [RDKafkaRespErr] is [rd_kafka_resp_err_t] of [bindings.rs] with its
    [repr(i32)] discriminants and its derived [TryFromPrimitive];
    [RDKafkaErrorCode] is the enumeration of [types.rs];
    [rd_kafka_resp_err_t_to_rdkafka_error] is the table of [helpers.rs]. *)

From stdpp Require Import strings gmap prelude.
From S2P Require Import Prelude.

Local Open Scope Z_scope.

(** [bindings.rs], [enum rd_kafka_resp_err_t]. *)
Inductive RDKafkaRespErr : Set :=
| RD_KAFKA_RESP_ERR__BEGIN
| RD_KAFKA_RESP_ERR__BAD_MSG
| RD_KAFKA_RESP_ERR__BAD_COMPRESSION
| RD_KAFKA_RESP_ERR__DESTROY
| RD_KAFKA_RESP_ERR__FAIL
| RD_KAFKA_RESP_ERR__TRANSPORT
| RD_KAFKA_RESP_ERR__CRIT_SYS_RESOURCE
| RD_KAFKA_RESP_ERR__RESOLVE
| RD_KAFKA_RESP_ERR__MSG_TIMED_OUT
| RD_KAFKA_RESP_ERR__PARTITION_EOF
| RD_KAFKA_RESP_ERR__UNKNOWN_PARTITION
| RD_KAFKA_RESP_ERR__FS
| RD_KAFKA_RESP_ERR__UNKNOWN_TOPIC
| RD_KAFKA_RESP_ERR__ALL_BROKERS_DOWN
| RD_KAFKA_RESP_ERR__INVALID_ARG
| RD_KAFKA_RESP_ERR__TIMED_OUT
| RD_KAFKA_RESP_ERR__QUEUE_FULL
| RD_KAFKA_RESP_ERR__ISR_INSUFF
| RD_KAFKA_RESP_ERR__NODE_UPDATE
| RD_KAFKA_RESP_ERR__SSL
| RD_KAFKA_RESP_ERR__WAIT_COORD
| RD_KAFKA_RESP_ERR__UNKNOWN_GROUP
| RD_KAFKA_RESP_ERR__IN_PROGRESS
| RD_KAFKA_RESP_ERR__PREV_IN_PROGRESS
| RD_KAFKA_RESP_ERR__EXISTING_SUBSCRIPTION
| RD_KAFKA_RESP_ERR__ASSIGN_PARTITIONS
| RD_KAFKA_RESP_ERR__REVOKE_PARTITIONS
| RD_KAFKA_RESP_ERR__CONFLICT
| RD_KAFKA_RESP_ERR__STATE
| RD_KAFKA_RESP_ERR__UNKNOWN_PROTOCOL
| RD_KAFKA_RESP_ERR__NOT_IMPLEMENTED
| RD_KAFKA_RESP_ERR__AUTHENTICATION
| RD_KAFKA_RESP_ERR__NO_OFFSET
| RD_KAFKA_RESP_ERR__OUTDATED
| RD_KAFKA_RESP_ERR__TIMED_OUT_QUEUE
| RD_KAFKA_RESP_ERR__UNSUPPORTED_FEATURE
| RD_KAFKA_RESP_ERR__WAIT_CACHE
| RD_KAFKA_RESP_ERR__INTR
| RD_KAFKA_RESP_ERR__KEY_SERIALIZATION
| RD_KAFKA_RESP_ERR__VALUE_SERIALIZATION
| RD_KAFKA_RESP_ERR__KEY_DESERIALIZATION
| RD_KAFKA_RESP_ERR__VALUE_DESERIALIZATION
| RD_KAFKA_RESP_ERR__PARTIAL
| RD_KAFKA_RESP_ERR__READ_ONLY
| RD_KAFKA_RESP_ERR__NOENT
| RD_KAFKA_RESP_ERR__UNDERFLOW
| RD_KAFKA_RESP_ERR__INVALID_TYPE
| RD_KAFKA_RESP_ERR__RETRY
| RD_KAFKA_RESP_ERR__PURGE_QUEUE
| RD_KAFKA_RESP_ERR__PURGE_INFLIGHT
| RD_KAFKA_RESP_ERR__FATAL
| RD_KAFKA_RESP_ERR__INCONSISTENT
| RD_KAFKA_RESP_ERR__GAPLESS_GUARANTEE
| RD_KAFKA_RESP_ERR__MAX_POLL_EXCEEDED
| RD_KAFKA_RESP_ERR__UNKNOWN_BROKER
| RD_KAFKA_RESP_ERR__NOT_CONFIGURED
| RD_KAFKA_RESP_ERR__FENCED
| RD_KAFKA_RESP_ERR__APPLICATION
| RD_KAFKA_RESP_ERR__ASSIGNMENT_LOST
| RD_KAFKA_RESP_ERR__NOOP
| RD_KAFKA_RESP_ERR__AUTO_OFFSET_RESET
| RD_KAFKA_RESP_ERR__LOG_TRUNCATION
| RD_KAFKA_RESP_ERR__INVALID_DIFFERENT_RECORD
| RD_KAFKA_RESP_ERR__DESTROY_BROKER
| RD_KAFKA_RESP_ERR__END
| RD_KAFKA_RESP_ERR_UNKNOWN
| RD_KAFKA_RESP_ERR_NO_ERROR
| RD_KAFKA_RESP_ERR_OFFSET_OUT_OF_RANGE
| RD_KAFKA_RESP_ERR_INVALID_MSG
| RD_KAFKA_RESP_ERR_UNKNOWN_TOPIC_OR_PART
| RD_KAFKA_RESP_ERR_INVALID_MSG_SIZE
| RD_KAFKA_RESP_ERR_LEADER_NOT_AVAILABLE
| RD_KAFKA_RESP_ERR_NOT_LEADER_FOR_PARTITION
| RD_KAFKA_RESP_ERR_REQUEST_TIMED_OUT
| RD_KAFKA_RESP_ERR_BROKER_NOT_AVAILABLE
| RD_KAFKA_RESP_ERR_REPLICA_NOT_AVAILABLE
| RD_KAFKA_RESP_ERR_MSG_SIZE_TOO_LARGE
| RD_KAFKA_RESP_ERR_STALE_CTRL_EPOCH
| RD_KAFKA_RESP_ERR_OFFSET_METADATA_TOO_LARGE
| RD_KAFKA_RESP_ERR_NETWORK_EXCEPTION
| RD_KAFKA_RESP_ERR_COORDINATOR_LOAD_IN_PROGRESS
| RD_KAFKA_RESP_ERR_COORDINATOR_NOT_AVAILABLE
| RD_KAFKA_RESP_ERR_NOT_COORDINATOR
| RD_KAFKA_RESP_ERR_TOPIC_EXCEPTION
| RD_KAFKA_RESP_ERR_RECORD_LIST_TOO_LARGE
| RD_KAFKA_RESP_ERR_NOT_ENOUGH_REPLICAS
| RD_KAFKA_RESP_ERR_NOT_ENOUGH_REPLICAS_AFTER_APPEND
| RD_KAFKA_RESP_ERR_INVALID_REQUIRED_ACKS
| RD_KAFKA_RESP_ERR_ILLEGAL_GENERATION
| RD_KAFKA_RESP_ERR_INCONSISTENT_GROUP_PROTOCOL
| RD_KAFKA_RESP_ERR_INVALID_GROUP_ID
| RD_KAFKA_RESP_ERR_UNKNOWN_MEMBER_ID
| RD_KAFKA_RESP_ERR_INVALID_SESSION_TIMEOUT
| RD_KAFKA_RESP_ERR_REBALANCE_IN_PROGRESS
| RD_KAFKA_RESP_ERR_INVALID_COMMIT_OFFSET_SIZE
| RD_KAFKA_RESP_ERR_TOPIC_AUTHORIZATION_FAILED
| RD_KAFKA_RESP_ERR_GROUP_AUTHORIZATION_FAILED
| RD_KAFKA_RESP_ERR_CLUSTER_AUTHORIZATION_FAILED
| RD_KAFKA_RESP_ERR_INVALID_TIMESTAMP
| RD_KAFKA_RESP_ERR_UNSUPPORTED_SASL_MECHANISM
| RD_KAFKA_RESP_ERR_ILLEGAL_SASL_STATE
| RD_KAFKA_RESP_ERR_UNSUPPORTED_VERSION
| RD_KAFKA_RESP_ERR_TOPIC_ALREADY_EXISTS
| RD_KAFKA_RESP_ERR_INVALID_PARTITIONS
| RD_KAFKA_RESP_ERR_INVALID_REPLICATION_FACTOR
| RD_KAFKA_RESP_ERR_INVALID_REPLICA_ASSIGNMENT
| RD_KAFKA_RESP_ERR_INVALID_CONFIG
| RD_KAFKA_RESP_ERR_NOT_CONTROLLER
| RD_KAFKA_RESP_ERR_INVALID_REQUEST
| RD_KAFKA_RESP_ERR_UNSUPPORTED_FOR_MESSAGE_FORMAT
| RD_KAFKA_RESP_ERR_POLICY_VIOLATION
| RD_KAFKA_RESP_ERR_OUT_OF_ORDER_SEQUENCE_NUMBER
| RD_KAFKA_RESP_ERR_DUPLICATE_SEQUENCE_NUMBER
| RD_KAFKA_RESP_ERR_INVALID_PRODUCER_EPOCH
| RD_KAFKA_RESP_ERR_INVALID_TXN_STATE
| RD_KAFKA_RESP_ERR_INVALID_PRODUCER_ID_MAPPING
| RD_KAFKA_RESP_ERR_INVALID_TRANSACTION_TIMEOUT
| RD_KAFKA_RESP_ERR_CONCURRENT_TRANSACTIONS
| RD_KAFKA_RESP_ERR_TRANSACTION_COORDINATOR_FENCED
| RD_KAFKA_RESP_ERR_TRANSACTIONAL_ID_AUTHORIZATION_FAILED
| RD_KAFKA_RESP_ERR_SECURITY_DISABLED
| RD_KAFKA_RESP_ERR_OPERATION_NOT_ATTEMPTED
| RD_KAFKA_RESP_ERR_KAFKA_STORAGE_ERROR
| RD_KAFKA_RESP_ERR_LOG_DIR_NOT_FOUND
| RD_KAFKA_RESP_ERR_SASL_AUTHENTICATION_FAILED
| RD_KAFKA_RESP_ERR_UNKNOWN_PRODUCER_ID
| RD_KAFKA_RESP_ERR_REASSIGNMENT_IN_PROGRESS
| RD_KAFKA_RESP_ERR_DELEGATION_TOKEN_AUTH_DISABLED
| RD_KAFKA_RESP_ERR_DELEGATION_TOKEN_NOT_FOUND
| RD_KAFKA_RESP_ERR_DELEGATION_TOKEN_OWNER_MISMATCH
| RD_KAFKA_RESP_ERR_DELEGATION_TOKEN_REQUEST_NOT_ALLOWED
| RD_KAFKA_RESP_ERR_DELEGATION_TOKEN_AUTHORIZATION_FAILED
| RD_KAFKA_RESP_ERR_DELEGATION_TOKEN_EXPIRED
| RD_KAFKA_RESP_ERR_INVALID_PRINCIPAL_TYPE
| RD_KAFKA_RESP_ERR_NON_EMPTY_GROUP
| RD_KAFKA_RESP_ERR_GROUP_ID_NOT_FOUND
| RD_KAFKA_RESP_ERR_FETCH_SESSION_ID_NOT_FOUND
| RD_KAFKA_RESP_ERR_INVALID_FETCH_SESSION_EPOCH
| RD_KAFKA_RESP_ERR_LISTENER_NOT_FOUND
| RD_KAFKA_RESP_ERR_TOPIC_DELETION_DISABLED
| RD_KAFKA_RESP_ERR_FENCED_LEADER_EPOCH
| RD_KAFKA_RESP_ERR_UNKNOWN_LEADER_EPOCH
| RD_KAFKA_RESP_ERR_UNSUPPORTED_COMPRESSION_TYPE
| RD_KAFKA_RESP_ERR_STALE_BROKER_EPOCH
| RD_KAFKA_RESP_ERR_OFFSET_NOT_AVAILABLE
| RD_KAFKA_RESP_ERR_MEMBER_ID_REQUIRED
| RD_KAFKA_RESP_ERR_PREFERRED_LEADER_NOT_AVAILABLE
| RD_KAFKA_RESP_ERR_GROUP_MAX_SIZE_REACHED
| RD_KAFKA_RESP_ERR_FENCED_INSTANCE_ID
| RD_KAFKA_RESP_ERR_ELIGIBLE_LEADERS_NOT_AVAILABLE
| RD_KAFKA_RESP_ERR_ELECTION_NOT_NEEDED
| RD_KAFKA_RESP_ERR_NO_REASSIGNMENT_IN_PROGRESS
| RD_KAFKA_RESP_ERR_GROUP_SUBSCRIBED_TO_TOPIC
| RD_KAFKA_RESP_ERR_INVALID_RECORD
| RD_KAFKA_RESP_ERR_UNSTABLE_OFFSET_COMMIT
| RD_KAFKA_RESP_ERR_THROTTLING_QUOTA_EXCEEDED
| RD_KAFKA_RESP_ERR_PRODUCER_FENCED
| RD_KAFKA_RESP_ERR_RESOURCE_NOT_FOUND
| RD_KAFKA_RESP_ERR_DUPLICATE_RESOURCE
| RD_KAFKA_RESP_ERR_UNACCEPTABLE_CREDENTIAL
| RD_KAFKA_RESP_ERR_INCONSISTENT_VOTER_SET
| RD_KAFKA_RESP_ERR_INVALID_UPDATE_VERSION
| RD_KAFKA_RESP_ERR_FEATURE_UPDATE_FAILED
| RD_KAFKA_RESP_ERR_PRINCIPAL_DESERIALIZATION_FAILURE
| RD_KAFKA_RESP_ERR_UNKNOWN_TOPIC_ID
| RD_KAFKA_RESP_ERR_FENCED_MEMBER_EPOCH
| RD_KAFKA_RESP_ERR_UNRELEASED_INSTANCE_ID
| RD_KAFKA_RESP_ERR_UNSUPPORTED_ASSIGNOR
| RD_KAFKA_RESP_ERR_STALE_MEMBER_EPOCH
| RD_KAFKA_RESP_ERR_UNKNOWN_SUBSCRIPTION_ID
| RD_KAFKA_RESP_ERR_TELEMETRY_TOO_LARGE
| RD_KAFKA_RESP_ERR_REBOOTSTRAP_REQUIRED
| RD_KAFKA_RESP_ERR_END_ALL.

(** The [repr(i32)] discriminants: [err as i32]. *)
Definition resp_err_discr (e : RDKafkaRespErr) : Z :=
  match e with
  | RD_KAFKA_RESP_ERR__BEGIN => -200
  | RD_KAFKA_RESP_ERR__BAD_MSG => -199
  | RD_KAFKA_RESP_ERR__BAD_COMPRESSION => -198
  | RD_KAFKA_RESP_ERR__DESTROY => -197
  | RD_KAFKA_RESP_ERR__FAIL => -196
  | RD_KAFKA_RESP_ERR__TRANSPORT => -195
  | RD_KAFKA_RESP_ERR__CRIT_SYS_RESOURCE => -194
  | RD_KAFKA_RESP_ERR__RESOLVE => -193
  | RD_KAFKA_RESP_ERR__MSG_TIMED_OUT => -192
  | RD_KAFKA_RESP_ERR__PARTITION_EOF => -191
  | RD_KAFKA_RESP_ERR__UNKNOWN_PARTITION => -190
  | RD_KAFKA_RESP_ERR__FS => -189
  | RD_KAFKA_RESP_ERR__UNKNOWN_TOPIC => -188
  | RD_KAFKA_RESP_ERR__ALL_BROKERS_DOWN => -187
  | RD_KAFKA_RESP_ERR__INVALID_ARG => -186
  | RD_KAFKA_RESP_ERR__TIMED_OUT => -185
  | RD_KAFKA_RESP_ERR__QUEUE_FULL => -184
  | RD_KAFKA_RESP_ERR__ISR_INSUFF => -183
  | RD_KAFKA_RESP_ERR__NODE_UPDATE => -182
  | RD_KAFKA_RESP_ERR__SSL => -181
  | RD_KAFKA_RESP_ERR__WAIT_COORD => -180
  | RD_KAFKA_RESP_ERR__UNKNOWN_GROUP => -179
  | RD_KAFKA_RESP_ERR__IN_PROGRESS => -178
  | RD_KAFKA_RESP_ERR__PREV_IN_PROGRESS => -177
  | RD_KAFKA_RESP_ERR__EXISTING_SUBSCRIPTION => -176
  | RD_KAFKA_RESP_ERR__ASSIGN_PARTITIONS => -175
  | RD_KAFKA_RESP_ERR__REVOKE_PARTITIONS => -174
  | RD_KAFKA_RESP_ERR__CONFLICT => -173
  | RD_KAFKA_RESP_ERR__STATE => -172
  | RD_KAFKA_RESP_ERR__UNKNOWN_PROTOCOL => -171
  | RD_KAFKA_RESP_ERR__NOT_IMPLEMENTED => -170
  | RD_KAFKA_RESP_ERR__AUTHENTICATION => -169
  | RD_KAFKA_RESP_ERR__NO_OFFSET => -168
  | RD_KAFKA_RESP_ERR__OUTDATED => -167
  | RD_KAFKA_RESP_ERR__TIMED_OUT_QUEUE => -166
  | RD_KAFKA_RESP_ERR__UNSUPPORTED_FEATURE => -165
  | RD_KAFKA_RESP_ERR__WAIT_CACHE => -164
  | RD_KAFKA_RESP_ERR__INTR => -163
  | RD_KAFKA_RESP_ERR__KEY_SERIALIZATION => -162
  | RD_KAFKA_RESP_ERR__VALUE_SERIALIZATION => -161
  | RD_KAFKA_RESP_ERR__KEY_DESERIALIZATION => -160
  | RD_KAFKA_RESP_ERR__VALUE_DESERIALIZATION => -159
  | RD_KAFKA_RESP_ERR__PARTIAL => -158
  | RD_KAFKA_RESP_ERR__READ_ONLY => -157
  | RD_KAFKA_RESP_ERR__NOENT => -156
  | RD_KAFKA_RESP_ERR__UNDERFLOW => -155
  | RD_KAFKA_RESP_ERR__INVALID_TYPE => -154
  | RD_KAFKA_RESP_ERR__RETRY => -153
  | RD_KAFKA_RESP_ERR__PURGE_QUEUE => -152
  | RD_KAFKA_RESP_ERR__PURGE_INFLIGHT => -151
  | RD_KAFKA_RESP_ERR__FATAL => -150
  | RD_KAFKA_RESP_ERR__INCONSISTENT => -149
  | RD_KAFKA_RESP_ERR__GAPLESS_GUARANTEE => -148
  | RD_KAFKA_RESP_ERR__MAX_POLL_EXCEEDED => -147
  | RD_KAFKA_RESP_ERR__UNKNOWN_BROKER => -146
  | RD_KAFKA_RESP_ERR__NOT_CONFIGURED => -145
  | RD_KAFKA_RESP_ERR__FENCED => -144
  | RD_KAFKA_RESP_ERR__APPLICATION => -143
  | RD_KAFKA_RESP_ERR__ASSIGNMENT_LOST => -142
  | RD_KAFKA_RESP_ERR__NOOP => -141
  | RD_KAFKA_RESP_ERR__AUTO_OFFSET_RESET => -140
  | RD_KAFKA_RESP_ERR__LOG_TRUNCATION => -139
  | RD_KAFKA_RESP_ERR__INVALID_DIFFERENT_RECORD => -138
  | RD_KAFKA_RESP_ERR__DESTROY_BROKER => -137
  | RD_KAFKA_RESP_ERR__END => -100
  | RD_KAFKA_RESP_ERR_UNKNOWN => -1
  | RD_KAFKA_RESP_ERR_NO_ERROR => 0
  | RD_KAFKA_RESP_ERR_OFFSET_OUT_OF_RANGE => 1
  | RD_KAFKA_RESP_ERR_INVALID_MSG => 2
  | RD_KAFKA_RESP_ERR_UNKNOWN_TOPIC_OR_PART => 3
  | RD_KAFKA_RESP_ERR_INVALID_MSG_SIZE => 4
  | RD_KAFKA_RESP_ERR_LEADER_NOT_AVAILABLE => 5
  | RD_KAFKA_RESP_ERR_NOT_LEADER_FOR_PARTITION => 6
  | RD_KAFKA_RESP_ERR_REQUEST_TIMED_OUT => 7
  | RD_KAFKA_RESP_ERR_BROKER_NOT_AVAILABLE => 8
  | RD_KAFKA_RESP_ERR_REPLICA_NOT_AVAILABLE => 9
  | RD_KAFKA_RESP_ERR_MSG_SIZE_TOO_LARGE => 10
  | RD_KAFKA_RESP_ERR_STALE_CTRL_EPOCH => 11
  | RD_KAFKA_RESP_ERR_OFFSET_METADATA_TOO_LARGE => 12
  | RD_KAFKA_RESP_ERR_NETWORK_EXCEPTION => 13
  | RD_KAFKA_RESP_ERR_COORDINATOR_LOAD_IN_PROGRESS => 14
  | RD_KAFKA_RESP_ERR_COORDINATOR_NOT_AVAILABLE => 15
  | RD_KAFKA_RESP_ERR_NOT_COORDINATOR => 16
  | RD_KAFKA_RESP_ERR_TOPIC_EXCEPTION => 17
  | RD_KAFKA_RESP_ERR_RECORD_LIST_TOO_LARGE => 18
  | RD_KAFKA_RESP_ERR_NOT_ENOUGH_REPLICAS => 19
  | RD_KAFKA_RESP_ERR_NOT_ENOUGH_REPLICAS_AFTER_APPEND => 20
  | RD_KAFKA_RESP_ERR_INVALID_REQUIRED_ACKS => 21
  | RD_KAFKA_RESP_ERR_ILLEGAL_GENERATION => 22
  | RD_KAFKA_RESP_ERR_INCONSISTENT_GROUP_PROTOCOL => 23
  | RD_KAFKA_RESP_ERR_INVALID_GROUP_ID => 24
  | RD_KAFKA_RESP_ERR_UNKNOWN_MEMBER_ID => 25
  | RD_KAFKA_RESP_ERR_INVALID_SESSION_TIMEOUT => 26
  | RD_KAFKA_RESP_ERR_REBALANCE_IN_PROGRESS => 27
  | RD_KAFKA_RESP_ERR_INVALID_COMMIT_OFFSET_SIZE => 28
  | RD_KAFKA_RESP_ERR_TOPIC_AUTHORIZATION_FAILED => 29
  | RD_KAFKA_RESP_ERR_GROUP_AUTHORIZATION_FAILED => 30
  | RD_KAFKA_RESP_ERR_CLUSTER_AUTHORIZATION_FAILED => 31
  | RD_KAFKA_RESP_ERR_INVALID_TIMESTAMP => 32
  | RD_KAFKA_RESP_ERR_UNSUPPORTED_SASL_MECHANISM => 33
  | RD_KAFKA_RESP_ERR_ILLEGAL_SASL_STATE => 34
  | RD_KAFKA_RESP_ERR_UNSUPPORTED_VERSION => 35
  | RD_KAFKA_RESP_ERR_TOPIC_ALREADY_EXISTS => 36
  | RD_KAFKA_RESP_ERR_INVALID_PARTITIONS => 37
  | RD_KAFKA_RESP_ERR_INVALID_REPLICATION_FACTOR => 38
  | RD_KAFKA_RESP_ERR_INVALID_REPLICA_ASSIGNMENT => 39
  | RD_KAFKA_RESP_ERR_INVALID_CONFIG => 40
  | RD_KAFKA_RESP_ERR_NOT_CONTROLLER => 41
  | RD_KAFKA_RESP_ERR_INVALID_REQUEST => 42
  | RD_KAFKA_RESP_ERR_UNSUPPORTED_FOR_MESSAGE_FORMAT => 43
  | RD_KAFKA_RESP_ERR_POLICY_VIOLATION => 44
  | RD_KAFKA_RESP_ERR_OUT_OF_ORDER_SEQUENCE_NUMBER => 45
  | RD_KAFKA_RESP_ERR_DUPLICATE_SEQUENCE_NUMBER => 46
  | RD_KAFKA_RESP_ERR_INVALID_PRODUCER_EPOCH => 47
  | RD_KAFKA_RESP_ERR_INVALID_TXN_STATE => 48
  | RD_KAFKA_RESP_ERR_INVALID_PRODUCER_ID_MAPPING => 49
  | RD_KAFKA_RESP_ERR_INVALID_TRANSACTION_TIMEOUT => 50
  | RD_KAFKA_RESP_ERR_CONCURRENT_TRANSACTIONS => 51
  | RD_KAFKA_RESP_ERR_TRANSACTION_COORDINATOR_FENCED => 52
  | RD_KAFKA_RESP_ERR_TRANSACTIONAL_ID_AUTHORIZATION_FAILED => 53
  | RD_KAFKA_RESP_ERR_SECURITY_DISABLED => 54
  | RD_KAFKA_RESP_ERR_OPERATION_NOT_ATTEMPTED => 55
  | RD_KAFKA_RESP_ERR_KAFKA_STORAGE_ERROR => 56
  | RD_KAFKA_RESP_ERR_LOG_DIR_NOT_FOUND => 57
  | RD_KAFKA_RESP_ERR_SASL_AUTHENTICATION_FAILED => 58
  | RD_KAFKA_RESP_ERR_UNKNOWN_PRODUCER_ID => 59
  | RD_KAFKA_RESP_ERR_REASSIGNMENT_IN_PROGRESS => 60
  | RD_KAFKA_RESP_ERR_DELEGATION_TOKEN_AUTH_DISABLED => 61
  | RD_KAFKA_RESP_ERR_DELEGATION_TOKEN_NOT_FOUND => 62
  | RD_KAFKA_RESP_ERR_DELEGATION_TOKEN_OWNER_MISMATCH => 63
  | RD_KAFKA_RESP_ERR_DELEGATION_TOKEN_REQUEST_NOT_ALLOWED => 64
  | RD_KAFKA_RESP_ERR_DELEGATION_TOKEN_AUTHORIZATION_FAILED => 65
  | RD_KAFKA_RESP_ERR_DELEGATION_TOKEN_EXPIRED => 66
  | RD_KAFKA_RESP_ERR_INVALID_PRINCIPAL_TYPE => 67
  | RD_KAFKA_RESP_ERR_NON_EMPTY_GROUP => 68
  | RD_KAFKA_RESP_ERR_GROUP_ID_NOT_FOUND => 69
  | RD_KAFKA_RESP_ERR_FETCH_SESSION_ID_NOT_FOUND => 70
  | RD_KAFKA_RESP_ERR_INVALID_FETCH_SESSION_EPOCH => 71
  | RD_KAFKA_RESP_ERR_LISTENER_NOT_FOUND => 72
  | RD_KAFKA_RESP_ERR_TOPIC_DELETION_DISABLED => 73
  | RD_KAFKA_RESP_ERR_FENCED_LEADER_EPOCH => 74
  | RD_KAFKA_RESP_ERR_UNKNOWN_LEADER_EPOCH => 75
  | RD_KAFKA_RESP_ERR_UNSUPPORTED_COMPRESSION_TYPE => 76
  | RD_KAFKA_RESP_ERR_STALE_BROKER_EPOCH => 77
  | RD_KAFKA_RESP_ERR_OFFSET_NOT_AVAILABLE => 78
  | RD_KAFKA_RESP_ERR_MEMBER_ID_REQUIRED => 79
  | RD_KAFKA_RESP_ERR_PREFERRED_LEADER_NOT_AVAILABLE => 80
  | RD_KAFKA_RESP_ERR_GROUP_MAX_SIZE_REACHED => 81
  | RD_KAFKA_RESP_ERR_FENCED_INSTANCE_ID => 82
  | RD_KAFKA_RESP_ERR_ELIGIBLE_LEADERS_NOT_AVAILABLE => 83
  | RD_KAFKA_RESP_ERR_ELECTION_NOT_NEEDED => 84
  | RD_KAFKA_RESP_ERR_NO_REASSIGNMENT_IN_PROGRESS => 85
  | RD_KAFKA_RESP_ERR_GROUP_SUBSCRIBED_TO_TOPIC => 86
  | RD_KAFKA_RESP_ERR_INVALID_RECORD => 87
  | RD_KAFKA_RESP_ERR_UNSTABLE_OFFSET_COMMIT => 88
  | RD_KAFKA_RESP_ERR_THROTTLING_QUOTA_EXCEEDED => 89
  | RD_KAFKA_RESP_ERR_PRODUCER_FENCED => 90
  | RD_KAFKA_RESP_ERR_RESOURCE_NOT_FOUND => 91
  | RD_KAFKA_RESP_ERR_DUPLICATE_RESOURCE => 92
  | RD_KAFKA_RESP_ERR_UNACCEPTABLE_CREDENTIAL => 93
  | RD_KAFKA_RESP_ERR_INCONSISTENT_VOTER_SET => 94
  | RD_KAFKA_RESP_ERR_INVALID_UPDATE_VERSION => 95
  | RD_KAFKA_RESP_ERR_FEATURE_UPDATE_FAILED => 96
  | RD_KAFKA_RESP_ERR_PRINCIPAL_DESERIALIZATION_FAILURE => 97
  | RD_KAFKA_RESP_ERR_UNKNOWN_TOPIC_ID => 100
  | RD_KAFKA_RESP_ERR_FENCED_MEMBER_EPOCH => 110
  | RD_KAFKA_RESP_ERR_UNRELEASED_INSTANCE_ID => 111
  | RD_KAFKA_RESP_ERR_UNSUPPORTED_ASSIGNOR => 112
  | RD_KAFKA_RESP_ERR_STALE_MEMBER_EPOCH => 113
  | RD_KAFKA_RESP_ERR_UNKNOWN_SUBSCRIPTION_ID => 117
  | RD_KAFKA_RESP_ERR_TELEMETRY_TOO_LARGE => 118
  | RD_KAFKA_RESP_ERR_REBOOTSTRAP_REQUIRED => 129
  | RD_KAFKA_RESP_ERR_END_ALL => 130
  end.

(** [RDKafkaRespErr::try_from(i32)], derived by [TryFromPrimitive]. *)
Definition resp_err_try_from (z : Z) : option RDKafkaRespErr :=
  match z with
  | (-200) => Some RD_KAFKA_RESP_ERR__BEGIN
  | (-199) => Some RD_KAFKA_RESP_ERR__BAD_MSG
  | (-198) => Some RD_KAFKA_RESP_ERR__BAD_COMPRESSION
  | (-197) => Some RD_KAFKA_RESP_ERR__DESTROY
  | (-196) => Some RD_KAFKA_RESP_ERR__FAIL
  | (-195) => Some RD_KAFKA_RESP_ERR__TRANSPORT
  | (-194) => Some RD_KAFKA_RESP_ERR__CRIT_SYS_RESOURCE
  | (-193) => Some RD_KAFKA_RESP_ERR__RESOLVE
  | (-192) => Some RD_KAFKA_RESP_ERR__MSG_TIMED_OUT
  | (-191) => Some RD_KAFKA_RESP_ERR__PARTITION_EOF
  | (-190) => Some RD_KAFKA_RESP_ERR__UNKNOWN_PARTITION
  | (-189) => Some RD_KAFKA_RESP_ERR__FS
  | (-188) => Some RD_KAFKA_RESP_ERR__UNKNOWN_TOPIC
  | (-187) => Some RD_KAFKA_RESP_ERR__ALL_BROKERS_DOWN
  | (-186) => Some RD_KAFKA_RESP_ERR__INVALID_ARG
  | (-185) => Some RD_KAFKA_RESP_ERR__TIMED_OUT
  | (-184) => Some RD_KAFKA_RESP_ERR__QUEUE_FULL
  | (-183) => Some RD_KAFKA_RESP_ERR__ISR_INSUFF
  | (-182) => Some RD_KAFKA_RESP_ERR__NODE_UPDATE
  | (-181) => Some RD_KAFKA_RESP_ERR__SSL
  | (-180) => Some RD_KAFKA_RESP_ERR__WAIT_COORD
  | (-179) => Some RD_KAFKA_RESP_ERR__UNKNOWN_GROUP
  | (-178) => Some RD_KAFKA_RESP_ERR__IN_PROGRESS
  | (-177) => Some RD_KAFKA_RESP_ERR__PREV_IN_PROGRESS
  | (-176) => Some RD_KAFKA_RESP_ERR__EXISTING_SUBSCRIPTION
  | (-175) => Some RD_KAFKA_RESP_ERR__ASSIGN_PARTITIONS
  | (-174) => Some RD_KAFKA_RESP_ERR__REVOKE_PARTITIONS
  | (-173) => Some RD_KAFKA_RESP_ERR__CONFLICT
  | (-172) => Some RD_KAFKA_RESP_ERR__STATE
  | (-171) => Some RD_KAFKA_RESP_ERR__UNKNOWN_PROTOCOL
  | (-170) => Some RD_KAFKA_RESP_ERR__NOT_IMPLEMENTED
  | (-169) => Some RD_KAFKA_RESP_ERR__AUTHENTICATION
  | (-168) => Some RD_KAFKA_RESP_ERR__NO_OFFSET
  | (-167) => Some RD_KAFKA_RESP_ERR__OUTDATED
  | (-166) => Some RD_KAFKA_RESP_ERR__TIMED_OUT_QUEUE
  | (-165) => Some RD_KAFKA_RESP_ERR__UNSUPPORTED_FEATURE
  | (-164) => Some RD_KAFKA_RESP_ERR__WAIT_CACHE
  | (-163) => Some RD_KAFKA_RESP_ERR__INTR
  | (-162) => Some RD_KAFKA_RESP_ERR__KEY_SERIALIZATION
  | (-161) => Some RD_KAFKA_RESP_ERR__VALUE_SERIALIZATION
  | (-160) => Some RD_KAFKA_RESP_ERR__KEY_DESERIALIZATION
  | (-159) => Some RD_KAFKA_RESP_ERR__VALUE_DESERIALIZATION
  | (-158) => Some RD_KAFKA_RESP_ERR__PARTIAL
  | (-157) => Some RD_KAFKA_RESP_ERR__READ_ONLY
  | (-156) => Some RD_KAFKA_RESP_ERR__NOENT
  | (-155) => Some RD_KAFKA_RESP_ERR__UNDERFLOW
  | (-154) => Some RD_KAFKA_RESP_ERR__INVALID_TYPE
  | (-153) => Some RD_KAFKA_RESP_ERR__RETRY
  | (-152) => Some RD_KAFKA_RESP_ERR__PURGE_QUEUE
  | (-151) => Some RD_KAFKA_RESP_ERR__PURGE_INFLIGHT
  | (-150) => Some RD_KAFKA_RESP_ERR__FATAL
  | (-149) => Some RD_KAFKA_RESP_ERR__INCONSISTENT
  | (-148) => Some RD_KAFKA_RESP_ERR__GAPLESS_GUARANTEE
  | (-147) => Some RD_KAFKA_RESP_ERR__MAX_POLL_EXCEEDED
  | (-146) => Some RD_KAFKA_RESP_ERR__UNKNOWN_BROKER
  | (-145) => Some RD_KAFKA_RESP_ERR__NOT_CONFIGURED
  | (-144) => Some RD_KAFKA_RESP_ERR__FENCED
  | (-143) => Some RD_KAFKA_RESP_ERR__APPLICATION
  | (-142) => Some RD_KAFKA_RESP_ERR__ASSIGNMENT_LOST
  | (-141) => Some RD_KAFKA_RESP_ERR__NOOP
  | (-140) => Some RD_KAFKA_RESP_ERR__AUTO_OFFSET_RESET
  | (-139) => Some RD_KAFKA_RESP_ERR__LOG_TRUNCATION
  | (-138) => Some RD_KAFKA_RESP_ERR__INVALID_DIFFERENT_RECORD
  | (-137) => Some RD_KAFKA_RESP_ERR__DESTROY_BROKER
  | (-100) => Some RD_KAFKA_RESP_ERR__END
  | (-1) => Some RD_KAFKA_RESP_ERR_UNKNOWN
  | 0 => Some RD_KAFKA_RESP_ERR_NO_ERROR
  | 1 => Some RD_KAFKA_RESP_ERR_OFFSET_OUT_OF_RANGE
  | 2 => Some RD_KAFKA_RESP_ERR_INVALID_MSG
  | 3 => Some RD_KAFKA_RESP_ERR_UNKNOWN_TOPIC_OR_PART
  | 4 => Some RD_KAFKA_RESP_ERR_INVALID_MSG_SIZE
  | 5 => Some RD_KAFKA_RESP_ERR_LEADER_NOT_AVAILABLE
  | 6 => Some RD_KAFKA_RESP_ERR_NOT_LEADER_FOR_PARTITION
  | 7 => Some RD_KAFKA_RESP_ERR_REQUEST_TIMED_OUT
  | 8 => Some RD_KAFKA_RESP_ERR_BROKER_NOT_AVAILABLE
  | 9 => Some RD_KAFKA_RESP_ERR_REPLICA_NOT_AVAILABLE
  | 10 => Some RD_KAFKA_RESP_ERR_MSG_SIZE_TOO_LARGE
  | 11 => Some RD_KAFKA_RESP_ERR_STALE_CTRL_EPOCH
  | 12 => Some RD_KAFKA_RESP_ERR_OFFSET_METADATA_TOO_LARGE
  | 13 => Some RD_KAFKA_RESP_ERR_NETWORK_EXCEPTION
  | 14 => Some RD_KAFKA_RESP_ERR_COORDINATOR_LOAD_IN_PROGRESS
  | 15 => Some RD_KAFKA_RESP_ERR_COORDINATOR_NOT_AVAILABLE
  | 16 => Some RD_KAFKA_RESP_ERR_NOT_COORDINATOR
  | 17 => Some RD_KAFKA_RESP_ERR_TOPIC_EXCEPTION
  | 18 => Some RD_KAFKA_RESP_ERR_RECORD_LIST_TOO_LARGE
  | 19 => Some RD_KAFKA_RESP_ERR_NOT_ENOUGH_REPLICAS
  | 20 => Some RD_KAFKA_RESP_ERR_NOT_ENOUGH_REPLICAS_AFTER_APPEND
  | 21 => Some RD_KAFKA_RESP_ERR_INVALID_REQUIRED_ACKS
  | 22 => Some RD_KAFKA_RESP_ERR_ILLEGAL_GENERATION
  | 23 => Some RD_KAFKA_RESP_ERR_INCONSISTENT_GROUP_PROTOCOL
  | 24 => Some RD_KAFKA_RESP_ERR_INVALID_GROUP_ID
  | 25 => Some RD_KAFKA_RESP_ERR_UNKNOWN_MEMBER_ID
  | 26 => Some RD_KAFKA_RESP_ERR_INVALID_SESSION_TIMEOUT
  | 27 => Some RD_KAFKA_RESP_ERR_REBALANCE_IN_PROGRESS
  | 28 => Some RD_KAFKA_RESP_ERR_INVALID_COMMIT_OFFSET_SIZE
  | 29 => Some RD_KAFKA_RESP_ERR_TOPIC_AUTHORIZATION_FAILED
  | 30 => Some RD_KAFKA_RESP_ERR_GROUP_AUTHORIZATION_FAILED
  | 31 => Some RD_KAFKA_RESP_ERR_CLUSTER_AUTHORIZATION_FAILED
  | 32 => Some RD_KAFKA_RESP_ERR_INVALID_TIMESTAMP
  | 33 => Some RD_KAFKA_RESP_ERR_UNSUPPORTED_SASL_MECHANISM
  | 34 => Some RD_KAFKA_RESP_ERR_ILLEGAL_SASL_STATE
  | 35 => Some RD_KAFKA_RESP_ERR_UNSUPPORTED_VERSION
  | 36 => Some RD_KAFKA_RESP_ERR_TOPIC_ALREADY_EXISTS
  | 37 => Some RD_KAFKA_RESP_ERR_INVALID_PARTITIONS
  | 38 => Some RD_KAFKA_RESP_ERR_INVALID_REPLICATION_FACTOR
  | 39 => Some RD_KAFKA_RESP_ERR_INVALID_REPLICA_ASSIGNMENT
  | 40 => Some RD_KAFKA_RESP_ERR_INVALID_CONFIG
  | 41 => Some RD_KAFKA_RESP_ERR_NOT_CONTROLLER
  | 42 => Some RD_KAFKA_RESP_ERR_INVALID_REQUEST
  | 43 => Some RD_KAFKA_RESP_ERR_UNSUPPORTED_FOR_MESSAGE_FORMAT
  | 44 => Some RD_KAFKA_RESP_ERR_POLICY_VIOLATION
  | 45 => Some RD_KAFKA_RESP_ERR_OUT_OF_ORDER_SEQUENCE_NUMBER
  | 46 => Some RD_KAFKA_RESP_ERR_DUPLICATE_SEQUENCE_NUMBER
  | 47 => Some RD_KAFKA_RESP_ERR_INVALID_PRODUCER_EPOCH
  | 48 => Some RD_KAFKA_RESP_ERR_INVALID_TXN_STATE
  | 49 => Some RD_KAFKA_RESP_ERR_INVALID_PRODUCER_ID_MAPPING
  | 50 => Some RD_KAFKA_RESP_ERR_INVALID_TRANSACTION_TIMEOUT
  | 51 => Some RD_KAFKA_RESP_ERR_CONCURRENT_TRANSACTIONS
  | 52 => Some RD_KAFKA_RESP_ERR_TRANSACTION_COORDINATOR_FENCED
  | 53 => Some RD_KAFKA_RESP_ERR_TRANSACTIONAL_ID_AUTHORIZATION_FAILED
  | 54 => Some RD_KAFKA_RESP_ERR_SECURITY_DISABLED
  | 55 => Some RD_KAFKA_RESP_ERR_OPERATION_NOT_ATTEMPTED
  | 56 => Some RD_KAFKA_RESP_ERR_KAFKA_STORAGE_ERROR
  | 57 => Some RD_KAFKA_RESP_ERR_LOG_DIR_NOT_FOUND
  | 58 => Some RD_KAFKA_RESP_ERR_SASL_AUTHENTICATION_FAILED
  | 59 => Some RD_KAFKA_RESP_ERR_UNKNOWN_PRODUCER_ID
  | 60 => Some RD_KAFKA_RESP_ERR_REASSIGNMENT_IN_PROGRESS
  | 61 => Some RD_KAFKA_RESP_ERR_DELEGATION_TOKEN_AUTH_DISABLED
  | 62 => Some RD_KAFKA_RESP_ERR_DELEGATION_TOKEN_NOT_FOUND
  | 63 => Some RD_KAFKA_RESP_ERR_DELEGATION_TOKEN_OWNER_MISMATCH
  | 64 => Some RD_KAFKA_RESP_ERR_DELEGATION_TOKEN_REQUEST_NOT_ALLOWED
  | 65 => Some RD_KAFKA_RESP_ERR_DELEGATION_TOKEN_AUTHORIZATION_FAILED
  | 66 => Some RD_KAFKA_RESP_ERR_DELEGATION_TOKEN_EXPIRED
  | 67 => Some RD_KAFKA_RESP_ERR_INVALID_PRINCIPAL_TYPE
  | 68 => Some RD_KAFKA_RESP_ERR_NON_EMPTY_GROUP
  | 69 => Some RD_KAFKA_RESP_ERR_GROUP_ID_NOT_FOUND
  | 70 => Some RD_KAFKA_RESP_ERR_FETCH_SESSION_ID_NOT_FOUND
  | 71 => Some RD_KAFKA_RESP_ERR_INVALID_FETCH_SESSION_EPOCH
  | 72 => Some RD_KAFKA_RESP_ERR_LISTENER_NOT_FOUND
  | 73 => Some RD_KAFKA_RESP_ERR_TOPIC_DELETION_DISABLED
  | 74 => Some RD_KAFKA_RESP_ERR_FENCED_LEADER_EPOCH
  | 75 => Some RD_KAFKA_RESP_ERR_UNKNOWN_LEADER_EPOCH
  | 76 => Some RD_KAFKA_RESP_ERR_UNSUPPORTED_COMPRESSION_TYPE
  | 77 => Some RD_KAFKA_RESP_ERR_STALE_BROKER_EPOCH
  | 78 => Some RD_KAFKA_RESP_ERR_OFFSET_NOT_AVAILABLE
  | 79 => Some RD_KAFKA_RESP_ERR_MEMBER_ID_REQUIRED
  | 80 => Some RD_KAFKA_RESP_ERR_PREFERRED_LEADER_NOT_AVAILABLE
  | 81 => Some RD_KAFKA_RESP_ERR_GROUP_MAX_SIZE_REACHED
  | 82 => Some RD_KAFKA_RESP_ERR_FENCED_INSTANCE_ID
  | 83 => Some RD_KAFKA_RESP_ERR_ELIGIBLE_LEADERS_NOT_AVAILABLE
  | 84 => Some RD_KAFKA_RESP_ERR_ELECTION_NOT_NEEDED
  | 85 => Some RD_KAFKA_RESP_ERR_NO_REASSIGNMENT_IN_PROGRESS
  | 86 => Some RD_KAFKA_RESP_ERR_GROUP_SUBSCRIBED_TO_TOPIC
  | 87 => Some RD_KAFKA_RESP_ERR_INVALID_RECORD
  | 88 => Some RD_KAFKA_RESP_ERR_UNSTABLE_OFFSET_COMMIT
  | 89 => Some RD_KAFKA_RESP_ERR_THROTTLING_QUOTA_EXCEEDED
  | 90 => Some RD_KAFKA_RESP_ERR_PRODUCER_FENCED
  | 91 => Some RD_KAFKA_RESP_ERR_RESOURCE_NOT_FOUND
  | 92 => Some RD_KAFKA_RESP_ERR_DUPLICATE_RESOURCE
  | 93 => Some RD_KAFKA_RESP_ERR_UNACCEPTABLE_CREDENTIAL
  | 94 => Some RD_KAFKA_RESP_ERR_INCONSISTENT_VOTER_SET
  | 95 => Some RD_KAFKA_RESP_ERR_INVALID_UPDATE_VERSION
  | 96 => Some RD_KAFKA_RESP_ERR_FEATURE_UPDATE_FAILED
  | 97 => Some RD_KAFKA_RESP_ERR_PRINCIPAL_DESERIALIZATION_FAILURE
  | 100 => Some RD_KAFKA_RESP_ERR_UNKNOWN_TOPIC_ID
  | 110 => Some RD_KAFKA_RESP_ERR_FENCED_MEMBER_EPOCH
  | 111 => Some RD_KAFKA_RESP_ERR_UNRELEASED_INSTANCE_ID
  | 112 => Some RD_KAFKA_RESP_ERR_UNSUPPORTED_ASSIGNOR
  | 113 => Some RD_KAFKA_RESP_ERR_STALE_MEMBER_EPOCH
  | 117 => Some RD_KAFKA_RESP_ERR_UNKNOWN_SUBSCRIPTION_ID
  | 118 => Some RD_KAFKA_RESP_ERR_TELEMETRY_TOO_LARGE
  | 129 => Some RD_KAFKA_RESP_ERR_REBOOTSTRAP_REQUIRED
  | 130 => Some RD_KAFKA_RESP_ERR_END_ALL
  | _ => None
  end.

(** [types.rs], [enum RDKafkaErrorCode]. *)
Module Code.
Inductive RDKafkaErrorCode : Set :=
| Begin
| BadMessage
| BadCompression
| BrokerDestroy
| Fail
| BrokerTransportFailure
| CriticalSystemResource
| Resolve
| MessageTimedOut
| PartitionEOF
| UnknownPartition
| FileSystem
| UnknownTopic
| AllBrokersDown
| InvalidArgument
| OperationTimedOut
| QueueFull
| ISRInsufficient
| NodeUpdate
| SSL
| WaitingForCoordinator
| UnknownGroup
| InProgress
| PreviousInProgress
| ExistingSubscription
| AssignPartitions
| RevokePartitions
| Conflict
| State
| UnknownProtocol
| NotImplemented
| Authentication
| NoOffset
| Outdated
| TimedOutQueue
| UnsupportedFeature
| WaitCache
| Interrupted
| KeySerialization
| ValueSerialization
| KeyDeserialization
| ValueDeserialization
| Partial
| ReadOnly
| NoEnt
| Underflow
| InvalidType
| Retry
| PurgeQueue
| PurgeInflight
| Fatal
| Inconsistent
| GaplessGuarantee
| PollExceeded
| UnknownBroker
| NotConfigured
| Fenced
| Application
| AssignmentLost
| Noop
| AutoOffsetReset
| LogTruncation
| InvalidDifferentRecord
| DestroyBroker
| End
| Unknown
| NoError
| OffsetOutOfRange
| InvalidMessage
| UnknownTopicOrPartition
| InvalidMessageSize
| LeaderNotAvailable
| NotLeaderForPartition
| RequestTimedOut
| BrokerNotAvailable
| ReplicaNotAvailable
| MessageSizeTooLarge
| StaleControllerEpoch
| OffsetMetadataTooLarge
| NetworkException
| CoordinatorLoadInProgress
| CoordinatorNotAvailable
| NotCoordinator
| InvalidTopic
| MessageBatchTooLarge
| NotEnoughReplicas
| NotEnoughReplicasAfterAppend
| InvalidRequiredAcks
| IllegalGeneration
| InconsistentGroupProtocol
| InvalidGroupId
| UnknownMemberId
| InvalidSessionTimeout
| RebalanceInProgress
| InvalidCommitOffsetSize
| TopicAuthorizationFailed
| GroupAuthorizationFailed
| ClusterAuthorizationFailed
| InvalidTimestamp
| UnsupportedSASLMechanism
| IllegalSASLState
| UnsupportedVersion
| TopicAlreadyExists
| InvalidPartitions
| InvalidReplicationFactor
| InvalidReplicaAssignment
| InvalidConfig
| NotController
| InvalidRequest
| UnsupportedForMessageFormat
| PolicyViolation
| OutOfOrderSequenceNumber
| DuplicateSequenceNumber
| InvalidProducerEpoch
| InvalidTransactionalState
| InvalidProducerIdMapping
| InvalidTransactionTimeout
| ConcurrentTransactions
| TransactionCoordinatorFenced
| TransactionalIdAuthorizationFailed
| SecurityDisabled
| OperationNotAttempted
| KafkaStorageError
| LogDirNotFound
| SaslAuthenticationFailed
| UnknownProducerId
| ReassignmentInProgress
| DelegationTokenAuthDisabled
| DelegationTokenNotFound
| DelegationTokenOwnerMismatch
| DelegationTokenRequestNotAllowed
| DelegationTokenAuthorizationFailed
| DelegationTokenExpired
| InvalidPrincipalType
| NonEmptyGroup
| GroupIdNotFound
| FetchSessionIdNotFound
| InvalidFetchSessionEpoch
| ListenerNotFound
| TopicDeletionDisabled
| FencedLeaderEpoch
| UnknownLeaderEpoch
| UnsupportedCompressionType
| StaleBrokerEpoch
| OffsetNotAvailable
| MemberIdRequired
| PreferredLeaderNotAvailable
| GroupMaxSizeReached
| FencedInstanceId
| EligibleLeadersNotAvailable
| ElectionNotNeeded
| NoReassignmentInProgress
| GroupSubscribedToTopic
| InvalidRecord
| UnstableOffsetCommit
| ThrottlingQuotaExceeded
| ProducerFenced
| ResourceNotFound
| DuplicateResource
| UnacceptableCredential
| InconsistentVoterSet
| InvalidUpdateVersion
| FeatureUpdateFailed
| PrincipalDeserializationFailure
| UnknownTopicId
| FencedMemberEpoch
| UnreleasedInstanceId
| UnsupportedAssignor
| StaleMemberEpoch
| UnknownSubscriptionId
| TelemetryTooLarge
| RebootstrapRequired
| EndAll.
End Code.
Abbreviation RDKafkaErrorCode := Code.RDKafkaErrorCode.

(** [code as i32]; [EndAll] has no explicit value and follows
    [RebootstrapRequired = 129]. *)
Definition error_code_discr (c : RDKafkaErrorCode) : Z :=
  match c with
  | Code.Begin => -200
  | Code.BadMessage => -199
  | Code.BadCompression => -198
  | Code.BrokerDestroy => -197
  | Code.Fail => -196
  | Code.BrokerTransportFailure => -195
  | Code.CriticalSystemResource => -194
  | Code.Resolve => -193
  | Code.MessageTimedOut => -192
  | Code.PartitionEOF => -191
  | Code.UnknownPartition => -190
  | Code.FileSystem => -189
  | Code.UnknownTopic => -188
  | Code.AllBrokersDown => -187
  | Code.InvalidArgument => -186
  | Code.OperationTimedOut => -185
  | Code.QueueFull => -184
  | Code.ISRInsufficient => -183
  | Code.NodeUpdate => -182
  | Code.SSL => -181
  | Code.WaitingForCoordinator => -180
  | Code.UnknownGroup => -179
  | Code.InProgress => -178
  | Code.PreviousInProgress => -177
  | Code.ExistingSubscription => -176
  | Code.AssignPartitions => -175
  | Code.RevokePartitions => -174
  | Code.Conflict => -173
  | Code.State => -172
  | Code.UnknownProtocol => -171
  | Code.NotImplemented => -170
  | Code.Authentication => -169
  | Code.NoOffset => -168
  | Code.Outdated => -167
  | Code.TimedOutQueue => -166
  | Code.UnsupportedFeature => -165
  | Code.WaitCache => -164
  | Code.Interrupted => -163
  | Code.KeySerialization => -162
  | Code.ValueSerialization => -161
  | Code.KeyDeserialization => -160
  | Code.ValueDeserialization => -159
  | Code.Partial => -158
  | Code.ReadOnly => -157
  | Code.NoEnt => -156
  | Code.Underflow => -155
  | Code.InvalidType => -154
  | Code.Retry => -153
  | Code.PurgeQueue => -152
  | Code.PurgeInflight => -151
  | Code.Fatal => -150
  | Code.Inconsistent => -149
  | Code.GaplessGuarantee => -148
  | Code.PollExceeded => -147
  | Code.UnknownBroker => -146
  | Code.NotConfigured => -145
  | Code.Fenced => -144
  | Code.Application => -143
  | Code.AssignmentLost => -142
  | Code.Noop => -141
  | Code.AutoOffsetReset => -140
  | Code.LogTruncation => -139
  | Code.InvalidDifferentRecord => -138
  | Code.DestroyBroker => -137
  | Code.End => -100
  | Code.Unknown => -1
  | Code.NoError => 0
  | Code.OffsetOutOfRange => 1
  | Code.InvalidMessage => 2
  | Code.UnknownTopicOrPartition => 3
  | Code.InvalidMessageSize => 4
  | Code.LeaderNotAvailable => 5
  | Code.NotLeaderForPartition => 6
  | Code.RequestTimedOut => 7
  | Code.BrokerNotAvailable => 8
  | Code.ReplicaNotAvailable => 9
  | Code.MessageSizeTooLarge => 10
  | Code.StaleControllerEpoch => 11
  | Code.OffsetMetadataTooLarge => 12
  | Code.NetworkException => 13
  | Code.CoordinatorLoadInProgress => 14
  | Code.CoordinatorNotAvailable => 15
  | Code.NotCoordinator => 16
  | Code.InvalidTopic => 17
  | Code.MessageBatchTooLarge => 18
  | Code.NotEnoughReplicas => 19
  | Code.NotEnoughReplicasAfterAppend => 20
  | Code.InvalidRequiredAcks => 21
  | Code.IllegalGeneration => 22
  | Code.InconsistentGroupProtocol => 23
  | Code.InvalidGroupId => 24
  | Code.UnknownMemberId => 25
  | Code.InvalidSessionTimeout => 26
  | Code.RebalanceInProgress => 27
  | Code.InvalidCommitOffsetSize => 28
  | Code.TopicAuthorizationFailed => 29
  | Code.GroupAuthorizationFailed => 30
  | Code.ClusterAuthorizationFailed => 31
  | Code.InvalidTimestamp => 32
  | Code.UnsupportedSASLMechanism => 33
  | Code.IllegalSASLState => 34
  | Code.UnsupportedVersion => 35
  | Code.TopicAlreadyExists => 36
  | Code.InvalidPartitions => 37
  | Code.InvalidReplicationFactor => 38
  | Code.InvalidReplicaAssignment => 39
  | Code.InvalidConfig => 40
  | Code.NotController => 41
  | Code.InvalidRequest => 42
  | Code.UnsupportedForMessageFormat => 43
  | Code.PolicyViolation => 44
  | Code.OutOfOrderSequenceNumber => 45
  | Code.DuplicateSequenceNumber => 46
  | Code.InvalidProducerEpoch => 47
  | Code.InvalidTransactionalState => 48
  | Code.InvalidProducerIdMapping => 49
  | Code.InvalidTransactionTimeout => 50
  | Code.ConcurrentTransactions => 51
  | Code.TransactionCoordinatorFenced => 52
  | Code.TransactionalIdAuthorizationFailed => 53
  | Code.SecurityDisabled => 54
  | Code.OperationNotAttempted => 55
  | Code.KafkaStorageError => 56
  | Code.LogDirNotFound => 57
  | Code.SaslAuthenticationFailed => 58
  | Code.UnknownProducerId => 59
  | Code.ReassignmentInProgress => 60
  | Code.DelegationTokenAuthDisabled => 61
  | Code.DelegationTokenNotFound => 62
  | Code.DelegationTokenOwnerMismatch => 63
  | Code.DelegationTokenRequestNotAllowed => 64
  | Code.DelegationTokenAuthorizationFailed => 65
  | Code.DelegationTokenExpired => 66
  | Code.InvalidPrincipalType => 67
  | Code.NonEmptyGroup => 68
  | Code.GroupIdNotFound => 69
  | Code.FetchSessionIdNotFound => 70
  | Code.InvalidFetchSessionEpoch => 71
  | Code.ListenerNotFound => 72
  | Code.TopicDeletionDisabled => 73
  | Code.FencedLeaderEpoch => 74
  | Code.UnknownLeaderEpoch => 75
  | Code.UnsupportedCompressionType => 76
  | Code.StaleBrokerEpoch => 77
  | Code.OffsetNotAvailable => 78
  | Code.MemberIdRequired => 79
  | Code.PreferredLeaderNotAvailable => 80
  | Code.GroupMaxSizeReached => 81
  | Code.FencedInstanceId => 82
  | Code.EligibleLeadersNotAvailable => 83
  | Code.ElectionNotNeeded => 84
  | Code.NoReassignmentInProgress => 85
  | Code.GroupSubscribedToTopic => 86
  | Code.InvalidRecord => 87
  | Code.UnstableOffsetCommit => 88
  | Code.ThrottlingQuotaExceeded => 89
  | Code.ProducerFenced => 90
  | Code.ResourceNotFound => 91
  | Code.DuplicateResource => 92
  | Code.UnacceptableCredential => 93
  | Code.InconsistentVoterSet => 94
  | Code.InvalidUpdateVersion => 95
  | Code.FeatureUpdateFailed => 96
  | Code.PrincipalDeserializationFailure => 97
  | Code.UnknownTopicId => 100
  | Code.FencedMemberEpoch => 110
  | Code.UnreleasedInstanceId => 111
  | Code.UnsupportedAssignor => 112
  | Code.StaleMemberEpoch => 113
  | Code.UnknownSubscriptionId => 117
  | Code.TelemetryTooLarge => 118
  | Code.RebootstrapRequired => 129
  | Code.EndAll => 130
  end.

(** The derived [Debug] name of a code. *)
Definition error_code_debug (c : RDKafkaErrorCode) : string :=
  match c with
  | Code.Begin => "Begin"
  | Code.BadMessage => "BadMessage"
  | Code.BadCompression => "BadCompression"
  | Code.BrokerDestroy => "BrokerDestroy"
  | Code.Fail => "Fail"
  | Code.BrokerTransportFailure => "BrokerTransportFailure"
  | Code.CriticalSystemResource => "CriticalSystemResource"
  | Code.Resolve => "Resolve"
  | Code.MessageTimedOut => "MessageTimedOut"
  | Code.PartitionEOF => "PartitionEOF"
  | Code.UnknownPartition => "UnknownPartition"
  | Code.FileSystem => "FileSystem"
  | Code.UnknownTopic => "UnknownTopic"
  | Code.AllBrokersDown => "AllBrokersDown"
  | Code.InvalidArgument => "InvalidArgument"
  | Code.OperationTimedOut => "OperationTimedOut"
  | Code.QueueFull => "QueueFull"
  | Code.ISRInsufficient => "ISRInsufficient"
  | Code.NodeUpdate => "NodeUpdate"
  | Code.SSL => "SSL"
  | Code.WaitingForCoordinator => "WaitingForCoordinator"
  | Code.UnknownGroup => "UnknownGroup"
  | Code.InProgress => "InProgress"
  | Code.PreviousInProgress => "PreviousInProgress"
  | Code.ExistingSubscription => "ExistingSubscription"
  | Code.AssignPartitions => "AssignPartitions"
  | Code.RevokePartitions => "RevokePartitions"
  | Code.Conflict => "Conflict"
  | Code.State => "State"
  | Code.UnknownProtocol => "UnknownProtocol"
  | Code.NotImplemented => "NotImplemented"
  | Code.Authentication => "Authentication"
  | Code.NoOffset => "NoOffset"
  | Code.Outdated => "Outdated"
  | Code.TimedOutQueue => "TimedOutQueue"
  | Code.UnsupportedFeature => "UnsupportedFeature"
  | Code.WaitCache => "WaitCache"
  | Code.Interrupted => "Interrupted"
  | Code.KeySerialization => "KeySerialization"
  | Code.ValueSerialization => "ValueSerialization"
  | Code.KeyDeserialization => "KeyDeserialization"
  | Code.ValueDeserialization => "ValueDeserialization"
  | Code.Partial => "Partial"
  | Code.ReadOnly => "ReadOnly"
  | Code.NoEnt => "NoEnt"
  | Code.Underflow => "Underflow"
  | Code.InvalidType => "InvalidType"
  | Code.Retry => "Retry"
  | Code.PurgeQueue => "PurgeQueue"
  | Code.PurgeInflight => "PurgeInflight"
  | Code.Fatal => "Fatal"
  | Code.Inconsistent => "Inconsistent"
  | Code.GaplessGuarantee => "GaplessGuarantee"
  | Code.PollExceeded => "PollExceeded"
  | Code.UnknownBroker => "UnknownBroker"
  | Code.NotConfigured => "NotConfigured"
  | Code.Fenced => "Fenced"
  | Code.Application => "Application"
  | Code.AssignmentLost => "AssignmentLost"
  | Code.Noop => "Noop"
  | Code.AutoOffsetReset => "AutoOffsetReset"
  | Code.LogTruncation => "LogTruncation"
  | Code.InvalidDifferentRecord => "InvalidDifferentRecord"
  | Code.DestroyBroker => "DestroyBroker"
  | Code.End => "End"
  | Code.Unknown => "Unknown"
  | Code.NoError => "NoError"
  | Code.OffsetOutOfRange => "OffsetOutOfRange"
  | Code.InvalidMessage => "InvalidMessage"
  | Code.UnknownTopicOrPartition => "UnknownTopicOrPartition"
  | Code.InvalidMessageSize => "InvalidMessageSize"
  | Code.LeaderNotAvailable => "LeaderNotAvailable"
  | Code.NotLeaderForPartition => "NotLeaderForPartition"
  | Code.RequestTimedOut => "RequestTimedOut"
  | Code.BrokerNotAvailable => "BrokerNotAvailable"
  | Code.ReplicaNotAvailable => "ReplicaNotAvailable"
  | Code.MessageSizeTooLarge => "MessageSizeTooLarge"
  | Code.StaleControllerEpoch => "StaleControllerEpoch"
  | Code.OffsetMetadataTooLarge => "OffsetMetadataTooLarge"
  | Code.NetworkException => "NetworkException"
  | Code.CoordinatorLoadInProgress => "CoordinatorLoadInProgress"
  | Code.CoordinatorNotAvailable => "CoordinatorNotAvailable"
  | Code.NotCoordinator => "NotCoordinator"
  | Code.InvalidTopic => "InvalidTopic"
  | Code.MessageBatchTooLarge => "MessageBatchTooLarge"
  | Code.NotEnoughReplicas => "NotEnoughReplicas"
  | Code.NotEnoughReplicasAfterAppend => "NotEnoughReplicasAfterAppend"
  | Code.InvalidRequiredAcks => "InvalidRequiredAcks"
  | Code.IllegalGeneration => "IllegalGeneration"
  | Code.InconsistentGroupProtocol => "InconsistentGroupProtocol"
  | Code.InvalidGroupId => "InvalidGroupId"
  | Code.UnknownMemberId => "UnknownMemberId"
  | Code.InvalidSessionTimeout => "InvalidSessionTimeout"
  | Code.RebalanceInProgress => "RebalanceInProgress"
  | Code.InvalidCommitOffsetSize => "InvalidCommitOffsetSize"
  | Code.TopicAuthorizationFailed => "TopicAuthorizationFailed"
  | Code.GroupAuthorizationFailed => "GroupAuthorizationFailed"
  | Code.ClusterAuthorizationFailed => "ClusterAuthorizationFailed"
  | Code.InvalidTimestamp => "InvalidTimestamp"
  | Code.UnsupportedSASLMechanism => "UnsupportedSASLMechanism"
  | Code.IllegalSASLState => "IllegalSASLState"
  | Code.UnsupportedVersion => "UnsupportedVersion"
  | Code.TopicAlreadyExists => "TopicAlreadyExists"
  | Code.InvalidPartitions => "InvalidPartitions"
  | Code.InvalidReplicationFactor => "InvalidReplicationFactor"
  | Code.InvalidReplicaAssignment => "InvalidReplicaAssignment"
  | Code.InvalidConfig => "InvalidConfig"
  | Code.NotController => "NotController"
  | Code.InvalidRequest => "InvalidRequest"
  | Code.UnsupportedForMessageFormat => "UnsupportedForMessageFormat"
  | Code.PolicyViolation => "PolicyViolation"
  | Code.OutOfOrderSequenceNumber => "OutOfOrderSequenceNumber"
  | Code.DuplicateSequenceNumber => "DuplicateSequenceNumber"
  | Code.InvalidProducerEpoch => "InvalidProducerEpoch"
  | Code.InvalidTransactionalState => "InvalidTransactionalState"
  | Code.InvalidProducerIdMapping => "InvalidProducerIdMapping"
  | Code.InvalidTransactionTimeout => "InvalidTransactionTimeout"
  | Code.ConcurrentTransactions => "ConcurrentTransactions"
  | Code.TransactionCoordinatorFenced => "TransactionCoordinatorFenced"
  | Code.TransactionalIdAuthorizationFailed => "TransactionalIdAuthorizationFailed"
  | Code.SecurityDisabled => "SecurityDisabled"
  | Code.OperationNotAttempted => "OperationNotAttempted"
  | Code.KafkaStorageError => "KafkaStorageError"
  | Code.LogDirNotFound => "LogDirNotFound"
  | Code.SaslAuthenticationFailed => "SaslAuthenticationFailed"
  | Code.UnknownProducerId => "UnknownProducerId"
  | Code.ReassignmentInProgress => "ReassignmentInProgress"
  | Code.DelegationTokenAuthDisabled => "DelegationTokenAuthDisabled"
  | Code.DelegationTokenNotFound => "DelegationTokenNotFound"
  | Code.DelegationTokenOwnerMismatch => "DelegationTokenOwnerMismatch"
  | Code.DelegationTokenRequestNotAllowed => "DelegationTokenRequestNotAllowed"
  | Code.DelegationTokenAuthorizationFailed => "DelegationTokenAuthorizationFailed"
  | Code.DelegationTokenExpired => "DelegationTokenExpired"
  | Code.InvalidPrincipalType => "InvalidPrincipalType"
  | Code.NonEmptyGroup => "NonEmptyGroup"
  | Code.GroupIdNotFound => "GroupIdNotFound"
  | Code.FetchSessionIdNotFound => "FetchSessionIdNotFound"
  | Code.InvalidFetchSessionEpoch => "InvalidFetchSessionEpoch"
  | Code.ListenerNotFound => "ListenerNotFound"
  | Code.TopicDeletionDisabled => "TopicDeletionDisabled"
  | Code.FencedLeaderEpoch => "FencedLeaderEpoch"
  | Code.UnknownLeaderEpoch => "UnknownLeaderEpoch"
  | Code.UnsupportedCompressionType => "UnsupportedCompressionType"
  | Code.StaleBrokerEpoch => "StaleBrokerEpoch"
  | Code.OffsetNotAvailable => "OffsetNotAvailable"
  | Code.MemberIdRequired => "MemberIdRequired"
  | Code.PreferredLeaderNotAvailable => "PreferredLeaderNotAvailable"
  | Code.GroupMaxSizeReached => "GroupMaxSizeReached"
  | Code.FencedInstanceId => "FencedInstanceId"
  | Code.EligibleLeadersNotAvailable => "EligibleLeadersNotAvailable"
  | Code.ElectionNotNeeded => "ElectionNotNeeded"
  | Code.NoReassignmentInProgress => "NoReassignmentInProgress"
  | Code.GroupSubscribedToTopic => "GroupSubscribedToTopic"
  | Code.InvalidRecord => "InvalidRecord"
  | Code.UnstableOffsetCommit => "UnstableOffsetCommit"
  | Code.ThrottlingQuotaExceeded => "ThrottlingQuotaExceeded"
  | Code.ProducerFenced => "ProducerFenced"
  | Code.ResourceNotFound => "ResourceNotFound"
  | Code.DuplicateResource => "DuplicateResource"
  | Code.UnacceptableCredential => "UnacceptableCredential"
  | Code.InconsistentVoterSet => "InconsistentVoterSet"
  | Code.InvalidUpdateVersion => "InvalidUpdateVersion"
  | Code.FeatureUpdateFailed => "FeatureUpdateFailed"
  | Code.PrincipalDeserializationFailure => "PrincipalDeserializationFailure"
  | Code.UnknownTopicId => "UnknownTopicId"
  | Code.FencedMemberEpoch => "FencedMemberEpoch"
  | Code.UnreleasedInstanceId => "UnreleasedInstanceId"
  | Code.UnsupportedAssignor => "UnsupportedAssignor"
  | Code.StaleMemberEpoch => "StaleMemberEpoch"
  | Code.UnknownSubscriptionId => "UnknownSubscriptionId"
  | Code.TelemetryTooLarge => "TelemetryTooLarge"
  | Code.RebootstrapRequired => "RebootstrapRequired"
  | Code.EndAll => "EndAll"
  end.

(** [helpers.rs], [rd_kafka_resp_err_t_to_rdkafka_error]; it is also
    [From<RDKafkaRespErr> for RDKafkaErrorCode]. *)
Definition rd_kafka_resp_err_t_to_rdkafka_error (err : RDKafkaRespErr) : RDKafkaErrorCode :=
  match err with
  | RD_KAFKA_RESP_ERR__BEGIN => Code.Begin
  | RD_KAFKA_RESP_ERR__BAD_MSG => Code.BadMessage
  | RD_KAFKA_RESP_ERR__BAD_COMPRESSION => Code.BadCompression
  | RD_KAFKA_RESP_ERR__DESTROY => Code.BrokerDestroy
  | RD_KAFKA_RESP_ERR__FAIL => Code.Fail
  | RD_KAFKA_RESP_ERR__TRANSPORT => Code.BrokerTransportFailure
  | RD_KAFKA_RESP_ERR__CRIT_SYS_RESOURCE => Code.CriticalSystemResource
  | RD_KAFKA_RESP_ERR__RESOLVE => Code.Resolve
  | RD_KAFKA_RESP_ERR__MSG_TIMED_OUT => Code.MessageTimedOut
  | RD_KAFKA_RESP_ERR__PARTITION_EOF => Code.PartitionEOF
  | RD_KAFKA_RESP_ERR__UNKNOWN_PARTITION => Code.UnknownPartition
  | RD_KAFKA_RESP_ERR__FS => Code.FileSystem
  | RD_KAFKA_RESP_ERR__UNKNOWN_TOPIC => Code.UnknownTopic
  | RD_KAFKA_RESP_ERR__ALL_BROKERS_DOWN => Code.AllBrokersDown
  | RD_KAFKA_RESP_ERR__INVALID_ARG => Code.InvalidArgument
  | RD_KAFKA_RESP_ERR__TIMED_OUT => Code.OperationTimedOut
  | RD_KAFKA_RESP_ERR__QUEUE_FULL => Code.QueueFull
  | RD_KAFKA_RESP_ERR__ISR_INSUFF => Code.ISRInsufficient
  | RD_KAFKA_RESP_ERR__NODE_UPDATE => Code.NodeUpdate
  | RD_KAFKA_RESP_ERR__SSL => Code.SSL
  | RD_KAFKA_RESP_ERR__WAIT_COORD => Code.WaitingForCoordinator
  | RD_KAFKA_RESP_ERR__UNKNOWN_GROUP => Code.UnknownGroup
  | RD_KAFKA_RESP_ERR__IN_PROGRESS => Code.InProgress
  | RD_KAFKA_RESP_ERR__PREV_IN_PROGRESS => Code.PreviousInProgress
  | RD_KAFKA_RESP_ERR__EXISTING_SUBSCRIPTION => Code.ExistingSubscription
  | RD_KAFKA_RESP_ERR__ASSIGN_PARTITIONS => Code.AssignPartitions
  | RD_KAFKA_RESP_ERR__REVOKE_PARTITIONS => Code.RevokePartitions
  | RD_KAFKA_RESP_ERR__CONFLICT => Code.Conflict
  | RD_KAFKA_RESP_ERR__STATE => Code.State
  | RD_KAFKA_RESP_ERR__UNKNOWN_PROTOCOL => Code.UnknownProtocol
  | RD_KAFKA_RESP_ERR__NOT_IMPLEMENTED => Code.NotImplemented
  | RD_KAFKA_RESP_ERR__AUTHENTICATION => Code.Authentication
  | RD_KAFKA_RESP_ERR__NO_OFFSET => Code.NoOffset
  | RD_KAFKA_RESP_ERR__OUTDATED => Code.Outdated
  | RD_KAFKA_RESP_ERR__TIMED_OUT_QUEUE => Code.TimedOutQueue
  | RD_KAFKA_RESP_ERR__UNSUPPORTED_FEATURE => Code.UnsupportedFeature
  | RD_KAFKA_RESP_ERR__WAIT_CACHE => Code.WaitCache
  | RD_KAFKA_RESP_ERR__INTR => Code.Interrupted
  | RD_KAFKA_RESP_ERR__KEY_SERIALIZATION => Code.KeySerialization
  | RD_KAFKA_RESP_ERR__VALUE_SERIALIZATION => Code.ValueSerialization
  | RD_KAFKA_RESP_ERR__KEY_DESERIALIZATION => Code.KeyDeserialization
  | RD_KAFKA_RESP_ERR__VALUE_DESERIALIZATION => Code.ValueDeserialization
  | RD_KAFKA_RESP_ERR__PARTIAL => Code.Partial
  | RD_KAFKA_RESP_ERR__READ_ONLY => Code.ReadOnly
  | RD_KAFKA_RESP_ERR__NOENT => Code.NoEnt
  | RD_KAFKA_RESP_ERR__UNDERFLOW => Code.Underflow
  | RD_KAFKA_RESP_ERR__INVALID_TYPE => Code.InvalidType
  | RD_KAFKA_RESP_ERR__RETRY => Code.Retry
  | RD_KAFKA_RESP_ERR__PURGE_QUEUE => Code.PurgeQueue
  | RD_KAFKA_RESP_ERR__PURGE_INFLIGHT => Code.PurgeInflight
  | RD_KAFKA_RESP_ERR__FATAL => Code.Fatal
  | RD_KAFKA_RESP_ERR__INCONSISTENT => Code.Inconsistent
  | RD_KAFKA_RESP_ERR__GAPLESS_GUARANTEE => Code.GaplessGuarantee
  | RD_KAFKA_RESP_ERR__MAX_POLL_EXCEEDED => Code.PollExceeded
  | RD_KAFKA_RESP_ERR__UNKNOWN_BROKER => Code.UnknownBroker
  | RD_KAFKA_RESP_ERR__NOT_CONFIGURED => Code.NotConfigured
  | RD_KAFKA_RESP_ERR__FENCED => Code.Fenced
  | RD_KAFKA_RESP_ERR__APPLICATION => Code.Application
  | RD_KAFKA_RESP_ERR__ASSIGNMENT_LOST => Code.AssignmentLost
  | RD_KAFKA_RESP_ERR__NOOP => Code.Noop
  | RD_KAFKA_RESP_ERR__AUTO_OFFSET_RESET => Code.AutoOffsetReset
  | RD_KAFKA_RESP_ERR__END => Code.End
  | RD_KAFKA_RESP_ERR_UNKNOWN => Code.Unknown
  | RD_KAFKA_RESP_ERR_NO_ERROR => Code.NoError
  | RD_KAFKA_RESP_ERR_OFFSET_OUT_OF_RANGE => Code.OffsetOutOfRange
  | RD_KAFKA_RESP_ERR_INVALID_MSG => Code.InvalidMessage
  | RD_KAFKA_RESP_ERR_UNKNOWN_TOPIC_OR_PART => Code.UnknownTopicOrPartition
  | RD_KAFKA_RESP_ERR_INVALID_MSG_SIZE => Code.InvalidMessageSize
  | RD_KAFKA_RESP_ERR_LEADER_NOT_AVAILABLE => Code.LeaderNotAvailable
  | RD_KAFKA_RESP_ERR_NOT_LEADER_FOR_PARTITION => Code.NotLeaderForPartition
  | RD_KAFKA_RESP_ERR_REQUEST_TIMED_OUT => Code.RequestTimedOut
  | RD_KAFKA_RESP_ERR_BROKER_NOT_AVAILABLE => Code.BrokerNotAvailable
  | RD_KAFKA_RESP_ERR_REPLICA_NOT_AVAILABLE => Code.ReplicaNotAvailable
  | RD_KAFKA_RESP_ERR_MSG_SIZE_TOO_LARGE => Code.MessageSizeTooLarge
  | RD_KAFKA_RESP_ERR_STALE_CTRL_EPOCH => Code.StaleControllerEpoch
  | RD_KAFKA_RESP_ERR_OFFSET_METADATA_TOO_LARGE => Code.OffsetMetadataTooLarge
  | RD_KAFKA_RESP_ERR_NETWORK_EXCEPTION => Code.NetworkException
  | RD_KAFKA_RESP_ERR_COORDINATOR_LOAD_IN_PROGRESS => Code.CoordinatorLoadInProgress
  | RD_KAFKA_RESP_ERR_COORDINATOR_NOT_AVAILABLE => Code.CoordinatorNotAvailable
  | RD_KAFKA_RESP_ERR_NOT_COORDINATOR => Code.NotCoordinator
  | RD_KAFKA_RESP_ERR_TOPIC_EXCEPTION => Code.InvalidTopic
  | RD_KAFKA_RESP_ERR_RECORD_LIST_TOO_LARGE => Code.MessageBatchTooLarge
  | RD_KAFKA_RESP_ERR_NOT_ENOUGH_REPLICAS => Code.NotEnoughReplicas
  | RD_KAFKA_RESP_ERR_NOT_ENOUGH_REPLICAS_AFTER_APPEND => Code.NotEnoughReplicasAfterAppend
  | RD_KAFKA_RESP_ERR_INVALID_REQUIRED_ACKS => Code.InvalidRequiredAcks
  | RD_KAFKA_RESP_ERR_ILLEGAL_GENERATION => Code.IllegalGeneration
  | RD_KAFKA_RESP_ERR_INCONSISTENT_GROUP_PROTOCOL => Code.InconsistentGroupProtocol
  | RD_KAFKA_RESP_ERR_INVALID_GROUP_ID => Code.InvalidGroupId
  | RD_KAFKA_RESP_ERR_UNKNOWN_MEMBER_ID => Code.UnknownMemberId
  | RD_KAFKA_RESP_ERR_INVALID_SESSION_TIMEOUT => Code.InvalidSessionTimeout
  | RD_KAFKA_RESP_ERR_REBALANCE_IN_PROGRESS => Code.RebalanceInProgress
  | RD_KAFKA_RESP_ERR_INVALID_COMMIT_OFFSET_SIZE => Code.InvalidCommitOffsetSize
  | RD_KAFKA_RESP_ERR_TOPIC_AUTHORIZATION_FAILED => Code.TopicAuthorizationFailed
  | RD_KAFKA_RESP_ERR_GROUP_AUTHORIZATION_FAILED => Code.GroupAuthorizationFailed
  | RD_KAFKA_RESP_ERR_CLUSTER_AUTHORIZATION_FAILED => Code.ClusterAuthorizationFailed
  | RD_KAFKA_RESP_ERR_INVALID_TIMESTAMP => Code.InvalidTimestamp
  | RD_KAFKA_RESP_ERR_UNSUPPORTED_SASL_MECHANISM => Code.UnsupportedSASLMechanism
  | RD_KAFKA_RESP_ERR_ILLEGAL_SASL_STATE => Code.IllegalSASLState
  | RD_KAFKA_RESP_ERR_UNSUPPORTED_VERSION => Code.UnsupportedVersion
  | RD_KAFKA_RESP_ERR_TOPIC_ALREADY_EXISTS => Code.TopicAlreadyExists
  | RD_KAFKA_RESP_ERR_INVALID_PARTITIONS => Code.InvalidPartitions
  | RD_KAFKA_RESP_ERR_INVALID_REPLICATION_FACTOR => Code.InvalidReplicationFactor
  | RD_KAFKA_RESP_ERR_INVALID_REPLICA_ASSIGNMENT => Code.InvalidReplicaAssignment
  | RD_KAFKA_RESP_ERR_INVALID_CONFIG => Code.InvalidConfig
  | RD_KAFKA_RESP_ERR_NOT_CONTROLLER => Code.NotController
  | RD_KAFKA_RESP_ERR_INVALID_REQUEST => Code.InvalidRequest
  | RD_KAFKA_RESP_ERR_UNSUPPORTED_FOR_MESSAGE_FORMAT => Code.UnsupportedForMessageFormat
  | RD_KAFKA_RESP_ERR_POLICY_VIOLATION => Code.PolicyViolation
  | RD_KAFKA_RESP_ERR_OUT_OF_ORDER_SEQUENCE_NUMBER => Code.OutOfOrderSequenceNumber
  | RD_KAFKA_RESP_ERR_DUPLICATE_SEQUENCE_NUMBER => Code.DuplicateSequenceNumber
  | RD_KAFKA_RESP_ERR_INVALID_PRODUCER_EPOCH => Code.InvalidProducerEpoch
  | RD_KAFKA_RESP_ERR_INVALID_TXN_STATE => Code.InvalidTransactionalState
  | RD_KAFKA_RESP_ERR_INVALID_PRODUCER_ID_MAPPING => Code.InvalidProducerIdMapping
  | RD_KAFKA_RESP_ERR_INVALID_TRANSACTION_TIMEOUT => Code.InvalidTransactionTimeout
  | RD_KAFKA_RESP_ERR_CONCURRENT_TRANSACTIONS => Code.ConcurrentTransactions
  | RD_KAFKA_RESP_ERR_TRANSACTION_COORDINATOR_FENCED => Code.TransactionCoordinatorFenced
  | RD_KAFKA_RESP_ERR_TRANSACTIONAL_ID_AUTHORIZATION_FAILED => Code.TransactionalIdAuthorizationFailed
  | RD_KAFKA_RESP_ERR_SECURITY_DISABLED => Code.SecurityDisabled
  | RD_KAFKA_RESP_ERR_OPERATION_NOT_ATTEMPTED => Code.OperationNotAttempted
  | RD_KAFKA_RESP_ERR_KAFKA_STORAGE_ERROR => Code.KafkaStorageError
  | RD_KAFKA_RESP_ERR_LOG_DIR_NOT_FOUND => Code.LogDirNotFound
  | RD_KAFKA_RESP_ERR_SASL_AUTHENTICATION_FAILED => Code.SaslAuthenticationFailed
  | RD_KAFKA_RESP_ERR_UNKNOWN_PRODUCER_ID => Code.UnknownProducerId
  | RD_KAFKA_RESP_ERR_REASSIGNMENT_IN_PROGRESS => Code.ReassignmentInProgress
  | RD_KAFKA_RESP_ERR_DELEGATION_TOKEN_AUTH_DISABLED => Code.DelegationTokenAuthDisabled
  | RD_KAFKA_RESP_ERR_DELEGATION_TOKEN_NOT_FOUND => Code.DelegationTokenNotFound
  | RD_KAFKA_RESP_ERR_DELEGATION_TOKEN_OWNER_MISMATCH => Code.DelegationTokenOwnerMismatch
  | RD_KAFKA_RESP_ERR_DELEGATION_TOKEN_REQUEST_NOT_ALLOWED => Code.DelegationTokenRequestNotAllowed
  | RD_KAFKA_RESP_ERR_DELEGATION_TOKEN_AUTHORIZATION_FAILED => Code.DelegationTokenAuthorizationFailed
  | RD_KAFKA_RESP_ERR_DELEGATION_TOKEN_EXPIRED => Code.DelegationTokenExpired
  | RD_KAFKA_RESP_ERR_INVALID_PRINCIPAL_TYPE => Code.InvalidPrincipalType
  | RD_KAFKA_RESP_ERR_NON_EMPTY_GROUP => Code.NonEmptyGroup
  | RD_KAFKA_RESP_ERR_GROUP_ID_NOT_FOUND => Code.GroupIdNotFound
  | RD_KAFKA_RESP_ERR_FETCH_SESSION_ID_NOT_FOUND => Code.FetchSessionIdNotFound
  | RD_KAFKA_RESP_ERR_INVALID_FETCH_SESSION_EPOCH => Code.InvalidFetchSessionEpoch
  | RD_KAFKA_RESP_ERR_LISTENER_NOT_FOUND => Code.ListenerNotFound
  | RD_KAFKA_RESP_ERR_TOPIC_DELETION_DISABLED => Code.TopicDeletionDisabled
  | RD_KAFKA_RESP_ERR_FENCED_LEADER_EPOCH => Code.FencedLeaderEpoch
  | RD_KAFKA_RESP_ERR_UNKNOWN_LEADER_EPOCH => Code.UnknownLeaderEpoch
  | RD_KAFKA_RESP_ERR_UNSUPPORTED_COMPRESSION_TYPE => Code.UnsupportedCompressionType
  | RD_KAFKA_RESP_ERR_STALE_BROKER_EPOCH => Code.StaleBrokerEpoch
  | RD_KAFKA_RESP_ERR_OFFSET_NOT_AVAILABLE => Code.OffsetNotAvailable
  | RD_KAFKA_RESP_ERR_MEMBER_ID_REQUIRED => Code.MemberIdRequired
  | RD_KAFKA_RESP_ERR_PREFERRED_LEADER_NOT_AVAILABLE => Code.PreferredLeaderNotAvailable
  | RD_KAFKA_RESP_ERR_GROUP_MAX_SIZE_REACHED => Code.GroupMaxSizeReached
  | RD_KAFKA_RESP_ERR_FENCED_INSTANCE_ID => Code.FencedInstanceId
  | RD_KAFKA_RESP_ERR_ELIGIBLE_LEADERS_NOT_AVAILABLE => Code.EligibleLeadersNotAvailable
  | RD_KAFKA_RESP_ERR_ELECTION_NOT_NEEDED => Code.ElectionNotNeeded
  | RD_KAFKA_RESP_ERR_NO_REASSIGNMENT_IN_PROGRESS => Code.NoReassignmentInProgress
  | RD_KAFKA_RESP_ERR_GROUP_SUBSCRIBED_TO_TOPIC => Code.GroupSubscribedToTopic
  | RD_KAFKA_RESP_ERR_INVALID_RECORD => Code.InvalidRecord
  | RD_KAFKA_RESP_ERR_UNSTABLE_OFFSET_COMMIT => Code.UnstableOffsetCommit
  | RD_KAFKA_RESP_ERR_THROTTLING_QUOTA_EXCEEDED => Code.ThrottlingQuotaExceeded
  | RD_KAFKA_RESP_ERR_PRODUCER_FENCED => Code.ProducerFenced
  | RD_KAFKA_RESP_ERR_RESOURCE_NOT_FOUND => Code.ResourceNotFound
  | RD_KAFKA_RESP_ERR_DUPLICATE_RESOURCE => Code.DuplicateResource
  | RD_KAFKA_RESP_ERR_UNACCEPTABLE_CREDENTIAL => Code.UnacceptableCredential
  | RD_KAFKA_RESP_ERR_INCONSISTENT_VOTER_SET => Code.InconsistentVoterSet
  | RD_KAFKA_RESP_ERR_INVALID_UPDATE_VERSION => Code.InvalidUpdateVersion
  | RD_KAFKA_RESP_ERR_FEATURE_UPDATE_FAILED => Code.FeatureUpdateFailed
  | RD_KAFKA_RESP_ERR_PRINCIPAL_DESERIALIZATION_FAILURE => Code.PrincipalDeserializationFailure
  | RD_KAFKA_RESP_ERR_END_ALL => Code.EndAll
  | RD_KAFKA_RESP_ERR__LOG_TRUNCATION => Code.LogTruncation
  | RD_KAFKA_RESP_ERR__INVALID_DIFFERENT_RECORD => Code.InvalidDifferentRecord
  | RD_KAFKA_RESP_ERR__DESTROY_BROKER => Code.DestroyBroker
  | RD_KAFKA_RESP_ERR_UNKNOWN_TOPIC_ID => Code.UnknownTopicId
  | RD_KAFKA_RESP_ERR_FENCED_MEMBER_EPOCH => Code.FencedMemberEpoch
  | RD_KAFKA_RESP_ERR_UNRELEASED_INSTANCE_ID => Code.UnreleasedInstanceId
  | RD_KAFKA_RESP_ERR_UNSUPPORTED_ASSIGNOR => Code.UnsupportedAssignor
  | RD_KAFKA_RESP_ERR_STALE_MEMBER_EPOCH => Code.StaleMemberEpoch
  | RD_KAFKA_RESP_ERR_UNKNOWN_SUBSCRIPTION_ID => Code.UnknownSubscriptionId
  | RD_KAFKA_RESP_ERR_TELEMETRY_TOO_LARGE => Code.TelemetryTooLarge
  | RD_KAFKA_RESP_ERR_REBOOTSTRAP_REQUIRED => Code.RebootstrapRequired
  end.
Abbreviation code_of := rd_kafka_resp_err_t_to_rdkafka_error.

(** [impl fmt::Display for RDKafkaErrorCode]: the debug name and librdkafka's
    description; [err2str] stands for [rd_kafka_err2str]. *)
Definition error_code_display (err2str : RDKafkaRespErr → string) (c : RDKafkaErrorCode) : string :=
  let description :=
    match resp_err_try_from (error_code_discr c) with
    | Some err => to_string_lossy (err2str err)
    | None => "Unknown error"
    end in
  (error_code_debug c ++ " (" ++ description ++ ")")%string.

(** ** Lemmas *)

Lemma resp_err_try_from_discr e : resp_err_try_from (resp_err_discr e) = Some e.
Proof. by destruct e. Qed.

Lemma code_of_discr e : error_code_discr (code_of e) = resp_err_discr e.
Proof. by destruct e. Qed.

Lemma error_code_try_from c : ∃ e, resp_err_try_from (error_code_discr c) = Some e ∧ code_of e = c.
Proof. destruct c; by eexists. Qed.

#[export] Instance resp_err_discr_inj : Inj (=) (=) resp_err_discr.
Proof.
  intros e1 e2 H. apply (f_equal resp_err_try_from) in H.
  rewrite !resp_err_try_from_discr in H. by injection H.
Qed.

#[export] Instance code_of_inj : Inj (=) (=) code_of.
Proof.
  intros e1 e2 H. apply (inj resp_err_discr). by rewrite <- !code_of_discr, H.
Qed.

#[export] Instance error_code_discr_inj : Inj (=) (=) error_code_discr.
Proof.
  intros c1 c2 H.
  destruct (error_code_try_from c1) as (e1 & H1 & <-).
  destruct (error_code_try_from c2) as (e2 & H2 & <-). congruence.
Qed.

#[export] Instance RDKafkaRespErr_eq_dec : EqDecision RDKafkaRespErr.
Proof.
  refine (λ e1 e2, cast_if (decide (resp_err_discr e1 = resp_err_discr e2)));
    [by apply (inj resp_err_discr)|congruence].
Defined.

#[export] Instance RDKafkaErrorCode_eq_dec : EqDecision RDKafkaErrorCode.
Proof.
  refine (λ c1 c2, cast_if (decide (error_code_discr c1 = error_code_discr c2)));
    [by apply (inj error_code_discr)|congruence].
Defined.

Lemma code_of_NoError e : code_of e = Code.NoError ↔ e = RD_KAFKA_RESP_ERR_NO_ERROR.
Proof. split; [intros H; by apply (inj code_of)|by intros ->]. Qed.

(** All codes in declaration order, for searching one by its debug name. *)
Definition all_codes : list RDKafkaErrorCode :=
    [Code.Begin; Code.BadMessage; Code.BadCompression; Code.BrokerDestroy; Code.Fail;
   Code.BrokerTransportFailure; Code.CriticalSystemResource; Code.Resolve; Code.MessageTimedOut;
   Code.PartitionEOF; Code.UnknownPartition; Code.FileSystem; Code.UnknownTopic;
   Code.AllBrokersDown; Code.InvalidArgument; Code.OperationTimedOut; Code.QueueFull;
   Code.ISRInsufficient; Code.NodeUpdate; Code.SSL; Code.WaitingForCoordinator;
   Code.UnknownGroup; Code.InProgress; Code.PreviousInProgress; Code.ExistingSubscription;
   Code.AssignPartitions; Code.RevokePartitions; Code.Conflict; Code.State;
   Code.UnknownProtocol; Code.NotImplemented; Code.Authentication; Code.NoOffset; Code.Outdated;
   Code.TimedOutQueue; Code.UnsupportedFeature; Code.WaitCache; Code.Interrupted;
   Code.KeySerialization; Code.ValueSerialization; Code.KeyDeserialization;
   Code.ValueDeserialization; Code.Partial; Code.ReadOnly; Code.NoEnt; Code.Underflow;
   Code.InvalidType; Code.Retry; Code.PurgeQueue; Code.PurgeInflight; Code.Fatal;
   Code.Inconsistent; Code.GaplessGuarantee; Code.PollExceeded; Code.UnknownBroker;
   Code.NotConfigured; Code.Fenced; Code.Application; Code.AssignmentLost; Code.Noop;
   Code.AutoOffsetReset; Code.LogTruncation; Code.InvalidDifferentRecord; Code.DestroyBroker;
   Code.End; Code.Unknown; Code.NoError; Code.OffsetOutOfRange; Code.InvalidMessage;
   Code.UnknownTopicOrPartition; Code.InvalidMessageSize; Code.LeaderNotAvailable;
   Code.NotLeaderForPartition; Code.RequestTimedOut; Code.BrokerNotAvailable;
   Code.ReplicaNotAvailable; Code.MessageSizeTooLarge; Code.StaleControllerEpoch;
   Code.OffsetMetadataTooLarge; Code.NetworkException; Code.CoordinatorLoadInProgress;
   Code.CoordinatorNotAvailable; Code.NotCoordinator; Code.InvalidTopic;
   Code.MessageBatchTooLarge; Code.NotEnoughReplicas; Code.NotEnoughReplicasAfterAppend;
   Code.InvalidRequiredAcks; Code.IllegalGeneration; Code.InconsistentGroupProtocol;
   Code.InvalidGroupId; Code.UnknownMemberId; Code.InvalidSessionTimeout;
   Code.RebalanceInProgress; Code.InvalidCommitOffsetSize; Code.TopicAuthorizationFailed;
   Code.GroupAuthorizationFailed; Code.ClusterAuthorizationFailed; Code.InvalidTimestamp;
   Code.UnsupportedSASLMechanism; Code.IllegalSASLState; Code.UnsupportedVersion;
   Code.TopicAlreadyExists; Code.InvalidPartitions; Code.InvalidReplicationFactor;
   Code.InvalidReplicaAssignment; Code.InvalidConfig; Code.NotController; Code.InvalidRequest;
   Code.UnsupportedForMessageFormat; Code.PolicyViolation; Code.OutOfOrderSequenceNumber;
   Code.DuplicateSequenceNumber; Code.InvalidProducerEpoch; Code.InvalidTransactionalState;
   Code.InvalidProducerIdMapping; Code.InvalidTransactionTimeout; Code.ConcurrentTransactions;
   Code.TransactionCoordinatorFenced; Code.TransactionalIdAuthorizationFailed;
   Code.SecurityDisabled; Code.OperationNotAttempted; Code.KafkaStorageError;
   Code.LogDirNotFound; Code.SaslAuthenticationFailed; Code.UnknownProducerId;
   Code.ReassignmentInProgress; Code.DelegationTokenAuthDisabled; Code.DelegationTokenNotFound;
   Code.DelegationTokenOwnerMismatch; Code.DelegationTokenRequestNotAllowed;
   Code.DelegationTokenAuthorizationFailed; Code.DelegationTokenExpired;
   Code.InvalidPrincipalType; Code.NonEmptyGroup; Code.GroupIdNotFound;
   Code.FetchSessionIdNotFound; Code.InvalidFetchSessionEpoch; Code.ListenerNotFound;
   Code.TopicDeletionDisabled; Code.FencedLeaderEpoch; Code.UnknownLeaderEpoch;
   Code.UnsupportedCompressionType; Code.StaleBrokerEpoch; Code.OffsetNotAvailable;
   Code.MemberIdRequired; Code.PreferredLeaderNotAvailable; Code.GroupMaxSizeReached;
   Code.FencedInstanceId; Code.EligibleLeadersNotAvailable; Code.ElectionNotNeeded;
   Code.NoReassignmentInProgress; Code.GroupSubscribedToTopic; Code.InvalidRecord;
   Code.UnstableOffsetCommit; Code.ThrottlingQuotaExceeded; Code.ProducerFenced;
   Code.ResourceNotFound; Code.DuplicateResource; Code.UnacceptableCredential;
   Code.InconsistentVoterSet; Code.InvalidUpdateVersion; Code.FeatureUpdateFailed;
   Code.PrincipalDeserializationFailure; Code.UnknownTopicId; Code.FencedMemberEpoch;
   Code.UnreleasedInstanceId; Code.UnsupportedAssignor; Code.StaleMemberEpoch;
   Code.UnknownSubscriptionId; Code.TelemetryTooLarge; Code.RebootstrapRequired; Code.EndAll].

Definition find_by_name (s : string) : option RDKafkaErrorCode :=
  List.find (λ c, String.eqb (error_code_debug c) s) all_codes.

Lemma find_by_name_debug c : find_by_name (error_code_debug c) = Some c.
Proof. destruct c; vm_compute; reflexivity. Qed.

#[export] Instance error_code_debug_inj : Inj (=) (=) error_code_debug.
Proof.
  intros c1 c2 H. apply (f_equal find_by_name) in H.
  rewrite !find_by_name_debug in H. by injection H.
Qed.

(** ** Properties *)

(** C36: the conversion table of [helpers.rs] is a bijection that keeps the
    [i32] value: a [RDKafkaErrorCode] has the discriminant of the librdkafka
    code it was made from, every [RDKafkaErrorCode] comes from exactly one
    librdkafka code, and [try_from] on its [i32] value finds that code. *)
Theorem error_code_conversion_bijective :
  (∀ e, error_code_discr (code_of e) = resp_err_discr e)
  ∧ (∀ c, exists! e, code_of e = c)
  ∧ (∀ e, resp_err_try_from (error_code_discr (code_of e)) = Some e).
Proof.
  split_and!.
  - apply code_of_discr.
  - intros c. destruct (error_code_try_from c) as (e & _ & He). exists e. split; [done|].
    intros e' He'. apply (inj code_of). congruence.
  - intros e. rewrite code_of_discr. apply resp_err_try_from_discr.
Qed.

(** Displaying a code that came from librdkafka always shows librdkafka's own
    description of exactly that code (the ["Unknown error"] arm is dead), and
    two different codes never display alike. *)
Theorem error_code_display_faithful (err2str : RDKafkaRespErr → string) :
  (∀ e, error_code_display err2str (code_of e)
        = (error_code_debug (code_of e) ++ " (" ++ to_string_lossy (err2str e) ++ ")")%string)
  ∧ (∀ c1 c2, error_code_debug c1 = error_code_debug c2 → c1 = c2).
Proof.
  split; [|intros c1 c2; apply (inj error_code_debug)].
  intros e. unfold error_code_display. by rewrite code_of_discr, resp_err_try_from_discr.
Qed.
