(* ===== verification/KafkaErrors.v ===== *)
(** * Errors

    [src/error.rs]: the [IsError] tests, the native error object
    [RDKafkaError], the sum of all errors [KafkaError] with its [Debug],
    [Display] and [Error::source] implementations, the derived equality and
    [rdkafka_error_code]. *)

From stdpp Require Import strings gmap prelude.
From S2P Require Import Prelude ErrorCodes.

Local Open Scope Z_scope.

(** [bindings.rs], [enum rd_kafka_conf_res_t]. *)
Inductive RDKafkaConfRes : Set :=
| RD_KAFKA_CONF_UNKNOWN
| RD_KAFKA_CONF_INVALID
| RD_KAFKA_CONF_OK.

#[export] Instance RDKafkaConfRes_eq_dec : EqDecision RDKafkaConfRes.
Proof. solve_decision. Defined.

(** ** [IsError] *)

(** [IsError for RDKafkaRespErr]. *)
Definition resp_is_error (e : RDKafkaRespErr) : bool :=
  bool_decide (e ≠ RD_KAFKA_RESP_ERR_NO_ERROR).

(** [IsError for RDKafkaConfRes]. *)
Definition conf_is_error (r : RDKafkaConfRes) : bool := bool_decide (r ≠ RD_KAFKA_CONF_OK).

(** ** Native errors *)

(** A live [rd_kafka_error_t], through what librdkafka's accessors
    ([rd_kafka_error_code], [_name], [_string], [_is_fatal], [_is_retriable],
    [_txn_requires_abort]) return on it: the object is immutable and opaque. *)
Record rd_kafka_error_t := {
  err_code : RDKafkaRespErr;
  err_name : string;
  err_string : string;
  err_is_fatal : Z;
  err_is_retriable : Z;
  err_txn_requires_abort : Z;
}.

(** [struct RDKafkaError(Option<Arc<NativePtr<rd_kafka_error_t>>>)]. *)
Definition RDKafkaError : Type := option rd_kafka_error_t.

(** [RDKafkaError::from_ptr]: a null pointer is [None]. *)
Definition RDKafkaError_from_ptr (ptr : option rd_kafka_error_t) : RDKafkaError := ptr.

(** [IsError for RDKafkaError]. *)
Definition rderr_is_error (e : RDKafkaError) : bool := bool_decide (is_Some e).

(** [RDKafkaError::code]; [rd_kafka_error_code(NULL)] is [NO_ERROR]. *)
Definition rderr_code (e : RDKafkaError) : RDKafkaErrorCode :=
  code_of (match e with Some p => err_code p | None => RD_KAFKA_RESP_ERR_NO_ERROR end).

Definition rderr_name (e : RDKafkaError) : string :=
  to_string_lossy (match e with Some p => err_name p | None => "" end).

Definition rderr_string (e : RDKafkaError) : string :=
  to_string_lossy (match e with Some p => err_string p | None => "" end).

Definition rderr_flag (f : rd_kafka_error_t → Z) (e : RDKafkaError) : bool :=
  match e with Some p => negb (f p =? 0) | None => false end.

Definition rderr_is_fatal : RDKafkaError → bool := rderr_flag err_is_fatal.
Definition rderr_is_retriable : RDKafkaError → bool := rderr_flag err_is_retriable.
Definition rderr_txn_requires_abort : RDKafkaError → bool := rderr_flag err_txn_requires_abort.

(** [PartialEq for RDKafkaError] compares the codes only. *)
Definition rderr_eqb (e1 e2 : RDKafkaError) : bool := bool_decide (rderr_code e1 = rderr_code e2).

(** ** [KafkaError] *)

Inductive KafkaError : Type :=
| AdminOpCreation (msg : string)
| AdminOp (code : RDKafkaErrorCode)
| Canceled
| ClientConfigError (res : RDKafkaConfRes) (desc key value : string)
| ClientCreation (msg : string)
| ConsumerCommit (code : RDKafkaErrorCode)
| ConsumerQueueClose (code : RDKafkaErrorCode)
| Flush (code : RDKafkaErrorCode)
| Global (code : RDKafkaErrorCode)
| GroupListFetch (code : RDKafkaErrorCode)
| MessageConsumption (code : RDKafkaErrorCode)
| MessageConsumptionFatal (code : RDKafkaErrorCode)
| MessageProduction (code : RDKafkaErrorCode)
| MetadataFetch (code : RDKafkaErrorCode)
| NoMessageReceived
| Nul (err : NulError)
| OffsetFetch (code : RDKafkaErrorCode)
| PartitionEOF (partition : Z)
| PauseResume (msg : string)
| RebalanceError (code : RDKafkaErrorCode)
| Seek (msg : string)
| SetPartitionOffset (code : RDKafkaErrorCode)
| StoreOffset (code : RDKafkaErrorCode)
| Subscription (msg : string)
| Transaction (err : RDKafkaError)
| MockCluster (code : RDKafkaErrorCode).

Definition KafkaResult : Type → Type := result KafkaError.

(** [KafkaError::rdkafka_error_code]. *)
Definition rdkafka_error_code (e : KafkaError) : option RDKafkaErrorCode :=
  match e with
  | AdminOp _ => None
  | AdminOpCreation _ => None
  | Canceled => None
  | ClientConfigError _ _ _ _ => None
  | ClientCreation _ => None
  | ConsumerCommit err => Some err
  | ConsumerQueueClose err => Some err
  | Flush err => Some err
  | Global err => Some err
  | GroupListFetch err => Some err
  | MessageConsumption err => Some err
  | MessageConsumptionFatal err => Some err
  | MessageProduction err => Some err
  | MetadataFetch err => Some err
  | NoMessageReceived => None
  | Nul _ => None
  | OffsetFetch err => Some err
  | PartitionEOF _ => None
  | PauseResume _ => None
  | RebalanceError err => Some err
  | Seek _ => None
  | SetPartitionOffset err => Some err
  | StoreOffset err => Some err
  | Subscription _ => None
  | Transaction err => Some (rderr_code err)
  | MockCluster err => Some err
  end.

(** What [Error::source] may point to: a code or a native error. *)
Inductive ErrorSource : Type :=
| SourceCode (c : RDKafkaErrorCode)
| SourceNative (e : RDKafkaError).

(** [impl Error for KafkaError]. *)
Definition source (e : KafkaError) : option ErrorSource :=
  match e with
  | AdminOp _ => None
  | AdminOpCreation _ => None
  | Canceled => None
  | ClientConfigError _ _ _ _ => None
  | ClientCreation _ => None
  | ConsumerCommit err => Some (SourceCode err)
  | ConsumerQueueClose err => Some (SourceCode err)
  | Flush err => Some (SourceCode err)
  | Global err => Some (SourceCode err)
  | GroupListFetch err => Some (SourceCode err)
  | MessageConsumption err => Some (SourceCode err)
  | MessageConsumptionFatal err => Some (SourceCode err)
  | MessageProduction err => Some (SourceCode err)
  | MetadataFetch err => Some (SourceCode err)
  | NoMessageReceived => None
  | Nul _ => None
  | OffsetFetch err => Some (SourceCode err)
  | PartitionEOF _ => None
  | PauseResume _ => None
  | RebalanceError err => Some (SourceCode err)
  | Seek _ => None
  | SetPartitionOffset err => Some (SourceCode err)
  | StoreOffset err => Some (SourceCode err)
  | Subscription _ => None
  | Transaction err => Some (SourceNative err)
  | MockCluster err => Some (SourceCode err)
  end.

(** [#[derive(PartialEq)]] on [KafkaError]: same variant, equal fields, where
    native errors are compared by [rderr_eqb]. *)
Definition kafka_error_eqb (e1 e2 : KafkaError) : bool :=
  match e1, e2 with
  | AdminOpCreation a, AdminOpCreation b => String.eqb a b
  | AdminOp a, AdminOp b => bool_decide (a = b)
  | Canceled, Canceled => true
  | ClientConfigError r1 d1 k1 v1, ClientConfigError r2 d2 k2 v2 =>
      bool_decide (r1 = r2) && String.eqb d1 d2 && String.eqb k1 k2 && String.eqb v1 v2
  | ClientCreation a, ClientCreation b => String.eqb a b
  | ConsumerCommit a, ConsumerCommit b => bool_decide (a = b)
  | ConsumerQueueClose a, ConsumerQueueClose b => bool_decide (a = b)
  | Flush a, Flush b => bool_decide (a = b)
  | Global a, Global b => bool_decide (a = b)
  | GroupListFetch a, GroupListFetch b => bool_decide (a = b)
  | MessageConsumption a, MessageConsumption b => bool_decide (a = b)
  | MessageConsumptionFatal a, MessageConsumptionFatal b => bool_decide (a = b)
  | MessageProduction a, MessageProduction b => bool_decide (a = b)
  | MetadataFetch a, MetadataFetch b => bool_decide (a = b)
  | NoMessageReceived, NoMessageReceived => true
  | Nul a, Nul b => bool_decide (a = b)
  | OffsetFetch a, OffsetFetch b => bool_decide (a = b)
  | PartitionEOF a, PartitionEOF b => a =? b
  | PauseResume a, PauseResume b => String.eqb a b
  | RebalanceError a, RebalanceError b => bool_decide (a = b)
  | Seek a, Seek b => String.eqb a b
  | SetPartitionOffset a, SetPartitionOffset b => bool_decide (a = b)
  | StoreOffset a, StoreOffset b => bool_decide (a = b)
  | Subscription a, Subscription b => String.eqb a b
  | Transaction a, Transaction b => rderr_eqb a b
  | MockCluster a, MockCluster b => bool_decide (a = b)
  | _, _ => false
  end.

(** Two errors are equivalent when Rust's [==] says so. *)
#[export] Instance kafka_error_equiv : Equiv KafkaError := λ e1 e2, kafka_error_eqb e1 e2 = true.

Section formatting.
Context (err2str : RDKafkaRespErr → string).

Let show_code : RDKafkaErrorCode → string := error_code_display err2str.

(** [impl fmt::Debug for KafkaError]. *)
Definition kafka_error_debug (e : KafkaError) : string :=
  (match e with
  | AdminOp err => "KafkaError (Admin operation error: " ++ show_code err ++ ")"
  | AdminOpCreation err => "KafkaError (Admin operation creation error: " ++ err ++ ")"
  | Canceled => "KafkaError (Client dropped)"
  | ClientConfigError _ desc key value =>
      "KafkaError (Client config error: " ++ desc ++ " " ++ key ++ " " ++ value ++ ")"
  | ClientCreation err => "KafkaError (Client creation error: " ++ err ++ ")"
  | ConsumerCommit err => "KafkaError (Consumer commit error: " ++ show_code err ++ ")"
  | ConsumerQueueClose err => "KafkaError (Consumer queue close error: " ++ show_code err ++ ")"
  | Flush err => "KafkaError (Flush error: " ++ show_code err ++ ")"
  | Global err => "KafkaError (Global error: " ++ show_code err ++ ")"
  | GroupListFetch err => "KafkaError (Group list fetch error: " ++ show_code err ++ ")"
  | MessageConsumption err => "KafkaError (Message consumption error: " ++ show_code err ++ ")"
  | MessageConsumptionFatal err =>
      "(Fatal) KafkaError (Message consumption error: " ++ show_code err ++ ")"
  | MessageProduction err => "KafkaError (Message production error: " ++ show_code err ++ ")"
  | MetadataFetch err => "KafkaError (Metadata fetch error: " ++ show_code err ++ ")"
  | NoMessageReceived => "No message received within the given poll interval"
  | Nul _ => "FFI null error"
  | OffsetFetch err => "KafkaError (Offset fetch error: " ++ show_code err ++ ")"
  | PartitionEOF part_n => "KafkaError (Partition EOF: " ++ format_int part_n ++ ")"
  | PauseResume err => "KafkaError (Pause/resume error: " ++ err ++ ")"
  | RebalanceError err => "KafkaError (Rebalance error: " ++ show_code err ++ ")"
  | Seek err => "KafkaError (Seek error: " ++ err ++ ")"
  | SetPartitionOffset err => "KafkaError (Set partition offset error: " ++ show_code err ++ ")"
  | StoreOffset err => "KafkaError (Store offset error: " ++ show_code err ++ ")"
  | Subscription err => "KafkaError (Subscription error: " ++ err ++ ")"
  | Transaction err => "KafkaError (Transaction error: " ++ rderr_string err ++ ")"
  | MockCluster err => "KafkaError (Mock cluster error: " ++ show_code err ++ ")"
  end)%string.

(** [impl fmt::Display for KafkaError]. *)
Definition kafka_error_display (e : KafkaError) : string :=
  (match e with
  | AdminOp err => "Admin operation error: " ++ show_code err
  | AdminOpCreation err => "Admin operation creation error: " ++ err
  | Canceled => "KafkaError (Client dropped)"
  | ClientConfigError _ desc key value =>
      "Client config error: " ++ desc ++ " " ++ key ++ " " ++ value
  | ClientCreation err => "Client creation error: " ++ err
  | ConsumerCommit err => "Consumer commit error: " ++ show_code err
  | ConsumerQueueClose err => "Consumer queue close error: " ++ show_code err
  | Flush err => "Flush error: " ++ show_code err
  | Global err => "Global error: " ++ show_code err
  | GroupListFetch err => "Group list fetch error: " ++ show_code err
  | MessageConsumption err => "Message consumption error: " ++ show_code err
  | MessageConsumptionFatal err => "(Fatal) Message consumption error: " ++ show_code err
  | MessageProduction err => "Message production error: " ++ show_code err
  | MetadataFetch err => "Meta data fetch error: " ++ show_code err
  | NoMessageReceived => "No message received within the given poll interval"
  | Nul _ => "FFI nul error"
  | OffsetFetch err => "Offset fetch error: " ++ show_code err
  | PartitionEOF part_n => "Partition EOF: " ++ format_int part_n
  | PauseResume err => "Pause/resume error: " ++ err
  | RebalanceError err => "Rebalance error: " ++ show_code err
  | Seek err => "Seek error: " ++ err
  | SetPartitionOffset err => "Set partition offset error: " ++ show_code err
  | StoreOffset err => "Store offset error: " ++ show_code err
  | Subscription err => "Subscription error: " ++ err
  | Transaction err => "Transaction error: " ++ rderr_string err
  | MockCluster err => "Mock cluster error: " ++ show_code err
  end)%string.

End formatting.

(** ** Lemmas *)

Lemma resp_is_error_false e : resp_is_error e = false ↔ e = RD_KAFKA_RESP_ERR_NO_ERROR.
Proof. unfold resp_is_error. rewrite bool_decide_eq_false. destruct (decide (e = RD_KAFKA_RESP_ERR_NO_ERROR)); naive_solver. Qed.

Lemma resp_is_error_true e : resp_is_error e = true ↔ code_of e ≠ Code.NoError.
Proof. unfold resp_is_error. by rewrite bool_decide_eq_true, code_of_NoError. Qed.

Ltac error_refl :=
  rewrite ?andb_true_iff, ?bool_decide_eq_true, ?String.eqb_eq, ?Z.eqb_eq in *.

Lemma rderr_eqb_true e1 e2 : rderr_eqb e1 e2 = true ↔ rderr_code e1 = rderr_code e2.
Proof. unfold rderr_eqb. by rewrite bool_decide_eq_true. Qed.

#[export] Instance kafka_error_equivalence : Equivalence (≡@{KafkaError}).
Proof.
  split.
  - intros []; unfold equiv, kafka_error_equiv; simpl; rewrite ?rderr_eqb_true; error_refl; done.
  - intros [] []; unfold equiv, kafka_error_equiv; simpl; rewrite ?rderr_eqb_true;
      error_refl; intuition congruence.
  - intros e1 e2 e3. destruct e1, e2; unfold equiv, kafka_error_equiv; simpl; try done;
      destruct e3; simpl; try done; rewrite ?rderr_eqb_true; error_refl; intuition congruence.
Qed.

(** Equivalent errors have the same underlying code. *)
#[export] Instance rdkafka_error_code_proper : Proper ((≡) ==> (=)) rdkafka_error_code.
Proof.
  intros e1 e2. destruct e1, e2; unfold equiv, kafka_error_equiv; simpl; try done;
    rewrite ?rderr_eqb_true; error_refl; congruence.
Qed.

(** A variant whose fields are compared structurally is equal only to itself. *)
Lemma kafka_error_eqb_code_l c e :
  kafka_error_eqb e (MessageProduction c) = true ↔ e = MessageProduction c.
Proof. destruct e; simpl; try done; error_refl; naive_solver. Qed.

(** ** Properties *)

(** [rdkafka_error_code] and [Error::source] agree: a code is reported exactly
    when the error has a source, and then it is that source's code. *)
Theorem rdkafka_error_code_source e :
  rdkafka_error_code e
  = (λ s, match s with SourceCode c => c | SourceNative n => rderr_code n end) <$> source e.
Proof. by destruct e. Qed.

(** The one error that carries a librdkafka code and does not report it is
    [AdminOp]: for every other error built from a single code,
    [rdkafka_error_code] returns that code, although its documentation
    promises the underlying code of any error that has one. *)
Theorem rdkafka_error_code_AdminOp_lost c :
  rdkafka_error_code (AdminOp c) = None
  ∧ Forall (λ K : RDKafkaErrorCode → KafkaError, rdkafka_error_code (K c) = Some c)
      [ConsumerCommit; ConsumerQueueClose; Flush; Global; GroupListFetch; MessageConsumption;
       MessageConsumptionFatal; MessageProduction; MetadataFetch; OffsetFetch; RebalanceError;
       SetPartitionOffset; StoreOffset; MockCluster].
Proof. split; [done|]. by repeat constructor. Qed.
