(* ===== verification/Util.v ===== *)
(** * Utilities

    [src/util.rs]: durations and instants as the standard library defines
    them, [Timeout] and [Deadline] with their conversions, the epoch clock, the
    null-pointer views [ptr_to_opt_slice] and [ptr_to_slice], and the error
    buffer [ErrBuf] that librdkafka writes messages into. *)

From stdpp Require Import strings gmap prelude.
From S2P Require Import Prelude ErrorCodes KafkaErrors.

Local Open Scope Z_scope.

(** ** [std::time] *)

(** A [Duration] is a number of nanoseconds between [0] and [duration_max]. *)
Definition nanos_per_sec : Z := 1000000000.
Definition nanos_per_milli : Z := 1000000.
Definition duration_max : Z := (2 ^ 64 - 1) * nanos_per_sec + 999999999.

Definition is_duration (d : Z) : Prop := 0 ≤ d ≤ duration_max.

Definition duration_from_millis (ms : Z) : Z := ms * nanos_per_milli.
Definition duration_from_secs (s : Z) : Z := s * nanos_per_sec.
Definition duration_as_millis (d : Z) : Z := d / nanos_per_milli.
Definition duration_saturating_sub (a b : Z) : Z := Z.max 0 (a - b).
Definition duration_sub (a b : Z) : outcome Z :=
  if b <=? a then Done (a - b) else Panic "overflow when subtracting durations".

(** An [Instant] is a monotonic clock reading in nanoseconds; its seconds are
    an [i64]. Subtracting a later instant saturates to zero. *)
Definition instant_max : Z := (2 ^ 63 - 1) * nanos_per_sec + 999999999.

Definition instant_add (i d : Z) : outcome Z :=
  if i + d <=? instant_max then Done (i + d) else Panic "overflow when adding duration to instant".

Definition instant_since (i j : Z) : Z := Z.max 0 (i - j).

(** ** [Timeout] *)

Inductive Timeout : Type :=
| After (d : Z)
| Never.

#[export] Instance Timeout_eq_dec : EqDecision Timeout.
Proof. solve_decision. Defined.

Definition timeout_ok (t : Timeout) : Prop :=
  match t with After d => is_duration d | Never => True end.

(** [Timeout::as_millis]: the [i32] that librdkafka receives. *)
Definition as_millis (t : Timeout) : Z :=
  match t with
  | After d => as_i32 (duration_as_millis d)
  | Never => -1
  end.

(** [Timeout::saturating_sub]. *)
Definition saturating_sub (t : Timeout) (rhs : Z) : Timeout :=
  match t with
  | After lhs => After (duration_saturating_sub lhs rhs)
  | Never => Never
  end.

(** [Timeout::is_zero]. *)
Definition is_zero (t : Timeout) : bool :=
  match t with
  | After d => d =? 0
  | Never => false
  end.

(** [SubAssign for Timeout]. *)
Definition timeout_sub_assign (self other : Timeout) : outcome Timeout :=
  match self, other with
  | After lhs, After rhs => d ← duration_sub lhs rhs; mret (After d)
  | Never, After _ => Done Never
  | _, Never => Panic "subtraction of Timeout::Never is ill-defined"
  end.

(** The derived [Ord]: [After(_) < Never], and [After]s by duration;
    [std::cmp::min] returns its first argument on a tie. *)
Definition timeout_leb (a b : Timeout) : bool :=
  match a, b with
  | After x, After y => x <=? y
  | _, Never => true
  | Never, After _ => false
  end.

Definition timeout_min (a b : Timeout) : Timeout := if timeout_leb a b then a else b.

(** [From<Option<Duration>> for Timeout]. *)
Definition timeout_of_option (v : option Z) : Timeout :=
  match v with
  | None => Never
  | Some d => After d
  end.

(** [From<Duration> for Timeout]. *)
Definition timeout_of_duration (d : Z) : Timeout := After d.

(** ** [Deadline] *)

Inductive Deadline : Type :=
| At (i : Z)
| NeverEnds.

(** [Deadline::MAX_FLUSH_DURATION]. *)
Definition MAX_FLUSH_DURATION : Z := duration_from_millis i32_max.

(** [Deadline::new], reading the clock [now]. *)
Definition deadline_new (now : Z) (duration : option Z) : outcome Deadline :=
  match duration with
  | Some d => i ← instant_add now d; mret (At i)
  | None => Done NeverEnds
  end.

(** [Deadline::remaining]. *)
Definition remaining (now : Z) (d : Deadline) : Z :=
  match d with
  | At i => instant_since i now
  | NeverEnds => duration_max
  end.

(** [Deadline::remaining_millis_i32]. *)
Definition remaining_millis_i32 (now : Z) (d : Deadline) : Z :=
  as_i32 (duration_as_millis (Z.min MAX_FLUSH_DURATION (remaining now d))).

(** [Deadline::elapsed]. *)
Definition elapsed (now : Z) (d : Deadline) : bool := remaining now d <=? 0.

(** [From<Timeout> for Deadline]. *)
Definition deadline_of_timeout (now : Z) (t : Timeout) : outcome Deadline :=
  match t with
  | After dur => deadline_new now (Some dur)
  | Never => deadline_new now None
  end.

(** [From<&Deadline> for Timeout]. *)
Definition timeout_of_deadline (now : Z) (d : Deadline) : Timeout :=
  match d with
  | NeverEnds => Never
  | At _ => After (remaining now d)
  end.

(** ** The epoch clock *)

(** [millis_to_epoch]; a [SystemTime] is the number of nanoseconds since the
    Unix epoch, negative before it. *)
Definition millis_to_epoch (time : Z) : Z :=
  as_i64 (duration_as_millis (if 0 <=? time then time else duration_from_secs 0)).

(** [current_time_millis], with what [SystemTime::now] returns. *)
Definition current_time_millis (now : Z) : Z := millis_to_epoch now.

(** ** The version of librdkafka *)

Class VersionNative := {
  rd_kafka_version : Z;
  rd_kafka_version_str : string;
}.

(** [get_rdkafka_version]. *)
Definition get_rdkafka_version `{!VersionNative} : Z * string :=
  (rd_kafka_version, to_string_lossy rd_kafka_version_str).

(** ** Views of C memory *)

(** A C pointer to an array: null, or the readable elements from it on. *)
Definition carray (T : Type) : Type := option (list T).

(** [slice::from_raw_parts] may only be asked for memory that is there. *)
Definition readable {T} (ptr : carray T) (size : nat) : Prop :=
  match ptr with Some l => (size ≤ length l)%nat | None => True end.

(** [ptr_to_opt_slice] and [ptr_to_opt_mut_slice]. *)
Definition ptr_to_opt_slice {T} (ptr : carray T) (size : nat) : option (list T) :=
  match ptr with
  | None => None
  | Some l => Some (take size l)
  end.

(** [ptr_to_slice]. *)
Definition ptr_to_slice {T} (ptr : carray T) (size : nat) : list T :=
  match ptr with
  | None => []
  | Some l => if decide (size = 0%nat) then [] else take size l
  end.

(** [cstr_to_owned]. *)
Definition cstr_to_owned (cstr : string) : string := to_string_lossy cstr.

(** ** [ErrBuf] *)

Definition MAX_ERR_LEN : nat := 512.

Record ErrBuf := { buf : bytes }.

(** [ErrBuf::new]. *)
Definition errbuf_new : ErrBuf := {| buf := replicate MAX_ERR_LEN Byte.x00 |}.

(** [impl Default for ErrBuf]. *)
Definition errbuf_default : ErrBuf := errbuf_new.

(** [self.buf.iter().position(|c| *c == 0)]. *)
Fixpoint zero_position (l : bytes) : option nat :=
  match l with
  | [] => None
  | b :: l' => if bool_decide (b = Byte.x00) then Some 0%nat else S <$> zero_position l'
  end.

(** [ErrBuf::filled]: everything up to and including the first NUL. *)
Definition filled (e : ErrBuf) : outcome bytes :=
  i ← expect "called `Option::unwrap()` on a `None` value" (zero_position (buf e));
  mret (take (i + 1) (buf e)).

(** [ErrBuf::len]. *)
Definition errbuf_len (e : ErrBuf) : outcome nat := l ← filled e; mret (length l).

(** [ErrBuf::capacity]. *)
Definition errbuf_capacity (e : ErrBuf) : nat := length (buf e).

(** [CStr::from_bytes_with_nul]: exactly one NUL, at the end. *)
Definition cstr_from_bytes_with_nul (l : bytes) : option string :=
  match zero_position l with
  | Some i => if decide (i + 1 = length l)%nat then Some (str_of_bytes (take i l)) else None
  | None => None
  end.

(** [impl fmt::Display for ErrBuf]. *)
Definition errbuf_to_string (e : ErrBuf) : outcome string :=
  l ← filled e;
  c ← expect "called `Result::unwrap()` on an `Err` value" (cstr_from_bytes_with_nul l);
  mret (to_string_lossy c).

(** What librdkafka leaves in a buffer of the given size when it reports the
    message [msg]: the message cut to fit, a NUL, and the old contents. *)
Definition errbuf_write (msg : bytes) (e : ErrBuf) : ErrBuf :=
  let m := take (errbuf_capacity e - 1) msg in
  {| buf := m ++ Byte.x00 :: drop (length m + 1) (buf e) |}.

(** ** Lemmas *)

Ltac time_unfold :=
  unfold is_duration, duration_max, duration_as_millis, duration_from_millis, duration_from_secs,
    nanos_per_milli, nanos_per_sec, instant_max, duration_saturating_sub, instant_since in *.

Lemma zero_position_app l r : zero_position l = None →
  zero_position (l ++ Byte.x00 :: r) = Some (length l).
Proof.
  induction l as [|b l IH]; simpl; [done|].
  case_bool_decide; [done|]. destruct (zero_position l); [done|]. intros _. by rewrite IH.
Qed.

Lemma zero_position_take n l : zero_position l = None → zero_position (take n l) = None.
Proof.
  revert n. induction l as [|b l IH]; intros [|n]; simpl; try done.
  case_bool_decide; [done|]. destruct (zero_position l); [done|]. intros _. by rewrite IH.
Qed.

Lemma zero_position_lt l i : zero_position l = Some i → (i < length l)%nat.
Proof.
  revert i. induction l as [|b l IH]; intros i; simpl; [done|].
  case_bool_decide; [intros [= <-]; lia|].
  destruct (zero_position l); simpl; intros [= <-]. specialize (IH _ eq_refl). lia.
Qed.

(** Reading back a message that is followed by its NUL. *)
Lemma filled_message m r : zero_position m = None →
  filled {| buf := m ++ Byte.x00 :: r |} = Done (m ++ [Byte.x00]).
Proof.
  intros H. unfold filled. simpl. rewrite zero_position_app by done. simpl.
  unfold mret, outcome_ret. f_equal.
  replace (length m + 1)%nat with (length (m ++ [Byte.x00])) by (rewrite length_app; simpl; lia).
  change (m ++ Byte.x00 :: r) with (m ++ [Byte.x00] ++ r). by rewrite app_assoc, take_app_length.
Qed.

Lemma cstr_from_message m : zero_position m = None →
  cstr_from_bytes_with_nul (m ++ [Byte.x00]) = Some (str_of_bytes m).
Proof.
  intros H. unfold cstr_from_bytes_with_nul. rewrite zero_position_app by done.
  rewrite length_app. simpl. case_decide; [|lia]. by rewrite take_app_length.
Qed.

(** librdkafka never changes the size of the buffer. *)
Lemma errbuf_to_string_write msg : zero_position msg = None →
  errbuf_to_string (errbuf_write msg errbuf_new) = Done (to_string_lossy (str_of_bytes (take 511 msg))).
Proof.
  intros H. apply (zero_position_take 511) in H. unfold errbuf_to_string, errbuf_write.
  change (errbuf_capacity errbuf_new - 1)%nat with 511%nat.
  rewrite filled_message by done. simpl. by rewrite cstr_from_message.
Qed.

Lemma errbuf_write_capacity msg e : (0 < errbuf_capacity e)%nat →
  errbuf_capacity (errbuf_write msg e) = errbuf_capacity e.
Proof.
  unfold errbuf_capacity, errbuf_write. simpl. intros H.
  rewrite length_app, length_cons, length_drop, length_take. unfold errbuf_capacity. lia.
Qed.

Lemma elapsed_at now i : elapsed now (At i) = bool_decide (i ≤ now).
Proof. unfold elapsed, remaining, instant_since. case_bool_decide; lia. Qed.

Lemma is_zero_saturating_sub t e : 0 ≤ e →
  is_zero (saturating_sub t e) = match t with After d => bool_decide (d ≤ e) | Never => false end.
Proof.
  intros He. destruct t as [d|]; [|done]. unfold is_zero, saturating_sub, duration_saturating_sub.
  case_bool_decide; lia.
Qed.

Lemma timeout_min_ok a b : timeout_ok a → timeout_ok b → timeout_ok (timeout_min a b).
Proof. unfold timeout_min. by destruct (timeout_leb a b). Qed.

Lemma saturating_sub_ok t e : 0 ≤ e → timeout_ok t → timeout_ok (saturating_sub t e).
Proof. intros He. destruct t; [|done]. simpl. time_unfold. lia. Qed.

#[export] Hint Resolve timeout_min_ok saturating_sub_ok : kafka.

(** ** Properties *)

(** C34: up to [i32::MAX] milliseconds (about 24 days) the
    timeout handed to librdkafka is the exact number of whole milliseconds, so
    it is never mistaken for the infinite timeout [-1], and longer timeouts are
    never shorter in milliseconds. *)
Theorem timeout_as_millis_exact d e :
  0 ≤ d → d ≤ e → duration_as_millis e ≤ i32_max →
  as_millis (After d) = duration_as_millis d
  ∧ as_millis (After d) ≠ as_millis Never
  ∧ as_millis (After d) ≤ as_millis (After e).
Proof.
  intros H0 Hde He. assert (Hd : 0 ≤ duration_as_millis d ≤ duration_as_millis e).
  { time_unfold. split; [apply Z.div_pos; lia|apply Z.div_le_mono; lia]. }
  simpl. rewrite !as_i32_id by (int_unfold; lia). int_unfold; lia.
Qed.

Lemma timeout_as_millis_exact_witness :
  as_millis (After 1500000) = duration_as_millis 1500000
  ∧ as_millis (After 1500000) ≠ as_millis Never
  ∧ as_millis (After 1500000) ≤ as_millis (After 2000000).
Proof. apply timeout_as_millis_exact; vm_compute; intros; done. Defined.

(** Beyond [i32::MAX] milliseconds the [as i32] cast wraps: a
    finite timeout of [2^32 - 1] ms (under 50 days) is handed to librdkafka as
    the infinite timeout, one of [2^32] ms as no timeout at all, and every
    timeout is indistinguishable from itself plus [2^32] ms. *)
Theorem timeout_as_millis_wraps :
  as_millis (After (duration_from_millis (2 ^ 32 - 1))) = as_millis Never
  ∧ as_millis (After (duration_from_millis (2 ^ 32))) = as_millis (After 0)
  ∧ ∀ d, as_millis (After (d + duration_from_millis (2 ^ 32))) = as_millis (After d).
Proof.
  split_and!; [done|done|]. intros d. simpl. time_unfold. unfold as_i32, as_signed.
  change (2 ^ 32 * 1000000) with (2 ^ 32 * 1000000). rewrite Z.div_add by lia. f_equal.
  rewrite <- Z.add_assoc, (Z.add_comm (2 ^ 32)), Z.add_assoc.
  rewrite <- (Z.mul_1_l (2 ^ 32)) at 1. by rewrite Z.mod_add by lia.
Qed.

(** Fixing a deadline for a timeout and turning what is left of it back
    into a timeout [e] nanoseconds later is the saturating subtraction the
    polling loops use, and the deadline counts as elapsed exactly when that
    timeout is zero. *)
Theorem deadline_timeout_saturating_sub t now e d :
  0 ≤ e → deadline_of_timeout now t = Done d →
  timeout_of_deadline (now + e) d = saturating_sub t e
  ∧ elapsed (now + e) d = is_zero (saturating_sub t e).
Proof.
  intros He Hd. destruct t as [dur|]; simpl in Hd.
  - unfold instant_add in Hd. destruct (_ <=? _) eqn:Hle; [|done]. injection Hd as <-.
    rewrite elapsed_at, is_zero_saturating_sub by done. simpl. unfold instant_since, duration_saturating_sub.
    split; [f_equal; lia|apply bool_decide_ext; lia].
  - injection Hd as <-. split; [done|]. unfold elapsed. simpl. time_unfold. lia.
Qed.

Lemma deadline_timeout_saturating_sub_witness :
  timeout_of_deadline (100 + 7) (At 110) = After 3 ∧ elapsed (100 + 7) (At 110) = false.
Proof.
  destruct (deadline_timeout_saturating_sub (After 10) 100 7 (At 110)) as [H1 H2];
    [done|reflexivity|]. split; [exact H1|exact H2].
Defined.

(** The flush timeout is clamped: whatever the deadline and the clock,
    [remaining_millis_i32] is a non-negative [i32], it is zero once the deadline
    has passed, and an infinite deadline gives [i32::MAX]. *)
Theorem remaining_millis_i32_bounds now d :
  0 ≤ remaining_millis_i32 now d ≤ i32_max
  ∧ (elapsed now d = true → remaining_millis_i32 now d = 0)
  ∧ (d = NeverEnds → remaining_millis_i32 now d = i32_max).
Proof.
  assert (Hr : 0 ≤ remaining now d) by (destruct d; simpl; time_unfold; lia).
  assert (Hm : 0 ≤ duration_as_millis (Z.min MAX_FLUSH_DURATION (remaining now d)) ≤ i32_max).
  { unfold MAX_FLUSH_DURATION. time_unfold. int_unfold.
    split; [apply Z.div_pos; lia|]. apply Z.lt_succ_r, Z.div_lt_upper_bound; lia. }
  unfold remaining_millis_i32. rewrite as_i32_id by (int_unfold; lia). split_and!; [lia..| |].
  - unfold elapsed. intros H%Z.leb_le. by replace (remaining now d) with 0 by lia.
  - by intros ->.
Qed.

(** A message that librdkafka reports through the error buffer is read
    back cut to 511 bytes (invalid UTF-8 replaced), and because [filled] keeps
    the terminating NUL the length of the buffer is never zero: an empty buffer
    has length 1, so a test for length zero never succeeds. *)
Theorem errbuf_roundtrip msg :
  zero_position msg = None →
  errbuf_to_string (errbuf_write msg errbuf_new) = Done (to_string_lossy (str_of_bytes (take 511 msg)))
  ∧ errbuf_len (errbuf_write msg errbuf_new) = Done (length (take 511 msg) + 1)%nat
  ∧ errbuf_capacity (errbuf_write msg errbuf_new) = MAX_ERR_LEN
  ∧ errbuf_len errbuf_new = Done 1%nat.
Proof.
  intros H. apply (zero_position_take 511) in H as Ht.
  rewrite errbuf_write_capacity by (vm_compute; lia).
  rewrite errbuf_to_string_write by done. unfold errbuf_len, errbuf_write.
  change (errbuf_capacity errbuf_new - 1)%nat with 511%nat.
  rewrite filled_message by done. simpl. split_and!; [done|by rewrite length_app|done..].
Qed.

Lemma errbuf_roundtrip_witness :
  errbuf_to_string (errbuf_write (str_bytes "no brokers") errbuf_new) = Done "no brokers"
  ∧ errbuf_len (errbuf_write (str_bytes "no brokers") errbuf_new) = Done 11%nat.
Proof.
  destruct (errbuf_roundtrip (str_bytes "no brokers")) as (H1 & H2 & _); [reflexivity|].
  split; [exact H1|exact H2].
Defined.
