(* ===== verification/TopicPartitionList.v ===== *)
(** * Topic partition lists

    [src/topic_partition_list.rs]: offsets and their raw [i64] encoding, the
    elements of a list, and [TopicPartitionList] itself. The list is the C
    structure of [bindings.rs] (a count, a capacity, an element array) that
    Rust reads directly; the librdkafka functions that build and search it are
    the operations of the class [TplNative], and what librdkafka documents of
    them is the class [TplNativeSpec]. [reference_tpl] is an instance of both. *)

From stdpp Require Import strings gmap prelude.
From S2P Require Import Prelude ErrorCodes KafkaErrors Util.

Local Open Scope Z_scope.

(** ** Offsets *)

Definition PARTITION_UNASSIGNED : Z := -1.

Definition OFFSET_BEGINNING : Z := -2.
Definition OFFSET_END : Z := -1.
Definition OFFSET_STORED : Z := -1000.
Definition OFFSET_INVALID : Z := -1001.
Definition OFFSET_TAIL_BASE : Z := -2000.

Module Off.
Inductive Offset : Type :=
| Beginning
| End
| Stored
| Invalid
| Offset_ (n : Z)
| OffsetTail (n : Z).
End Off.
Abbreviation Offset := Off.Offset.

#[export] Instance Offset_eq_dec : EqDecision Offset.
Proof. solve_decision. Defined.

(** The payload of an offset is an [i64]. *)
Definition offset_ok (o : Offset) : Prop :=
  match o with Off.Offset_ n | Off.OffsetTail n => in_i64 n | _ => True end.

(** [Offset::from_raw]. *)
Definition from_raw (raw_offset : Z) : Offset :=
  if raw_offset =? OFFSET_BEGINNING then Off.Beginning
  else if raw_offset =? OFFSET_END then Off.End
  else if raw_offset =? OFFSET_STORED then Off.Stored
  else if raw_offset =? OFFSET_INVALID then Off.Invalid
  else if raw_offset <=? OFFSET_TAIL_BASE then Off.OffsetTail (- (raw_offset - OFFSET_TAIL_BASE))
  else Off.Offset_ raw_offset.

(** [Offset::to_raw]; [oc] says whether overflow checks are compiled in. *)
Definition to_raw (oc : bool) (o : Offset) : outcome (option Z) :=
  match o with
  | Off.Beginning => Done (Some OFFSET_BEGINNING)
  | Off.End => Done (Some OFFSET_END)
  | Off.Stored => Done (Some OFFSET_STORED)
  | Off.Invalid => Done (Some OFFSET_INVALID)
  | Off.Offset_ n => if 0 <=? n then Done (Some n) else Done None
  | Off.OffsetTail n =>
      if 0 <? n then r ← arith_i64 oc (OFFSET_TAIL_BASE - n); mret (Some r) else Done None
  end.

(** ** Elements *)

(** [bindings.rs], [struct rd_kafka_topic_partition_s], less the two pointers
    that Rust never touches. *)
Record RDKafkaTopicPartition := {
  tp_topic : string;
  tp_partition : Z;
  tp_offset : Z;
  tp_metadata : carray Byte.byte;
  tp_metadata_size : nat;
  tp_err : RDKafkaRespErr;
}.

(** [bindings.rs], [struct rd_kafka_topic_partition_list_s]. *)
Record RDKafkaTopicPartitionList := {
  cnt : Z;
  size : Z;
  elems : list RDKafkaTopicPartition;
}.

(** [TopicPartitionListElem::topic]. *)
Definition elem_topic (e : RDKafkaTopicPartition) : outcome string :=
  expect "Topic name is not UTF-8" (cstr_to_str (tp_topic e)).

(** [TopicPartitionListElem::error]. *)
Definition elem_error (e : RDKafkaTopicPartition) : KafkaResult unit :=
  if resp_is_error (tp_err e) then Err (OffsetFetch (code_of (tp_err e))) else Ok tt.

(** [TopicPartitionListElem::partition] and [offset]. *)
Definition elem_partition (e : RDKafkaTopicPartition) : Z := tp_partition e.
Definition elem_offset (e : RDKafkaTopicPartition) : Offset := from_raw (tp_offset e).

(** [TopicPartitionListElem::metadata]. *)
Definition elem_metadata (e : RDKafkaTopicPartition) : outcome string :=
  expect "Metadata is not UTF-8" (from_utf8 (ptr_to_slice (tp_metadata e) (tp_metadata_size e))).

Definition with_offset (raw : Z) (e : RDKafkaTopicPartition) : RDKafkaTopicPartition :=
  {| tp_topic := tp_topic e; tp_partition := tp_partition e; tp_offset := raw;
     tp_metadata := tp_metadata e; tp_metadata_size := tp_metadata_size e; tp_err := tp_err e |}.

(** [TopicPartitionListElem::set_metadata]: a fresh buffer with the bytes. *)
Definition elem_set_metadata (metadata : string) (e : RDKafkaTopicPartition) : RDKafkaTopicPartition :=
  {| tp_topic := tp_topic e; tp_partition := tp_partition e; tp_offset := tp_offset e;
     tp_metadata := Some (str_bytes metadata); tp_metadata_size := length (str_bytes metadata);
     tp_err := tp_err e |}.

(** [PartialEq for TopicPartitionListElem]; [&&] evaluates left to right. *)
Definition elem_eq (e1 e2 : RDKafkaTopicPartition) : outcome bool :=
  t1 ← elem_topic e1; t2 ← elem_topic e2;
  if negb (String.eqb t1 t2) then Done false
  else if negb (elem_partition e1 =? elem_partition e2) then Done false
  else if negb (bool_decide (elem_offset e1 = elem_offset e2)) then Done false
  else m1 ← elem_metadata e1; m2 ← elem_metadata e2; mret (String.eqb m1 m2).

(** ** The librdkafka functions on lists *)

(** Element pointers are positions in the element array; null is [None]. *)
Class TplNative := {
  rd_kafka_topic_partition_list_new : Z → RDKafkaTopicPartitionList;
  rd_kafka_topic_partition_list_add :
    RDKafkaTopicPartitionList → string → Z → nat * RDKafkaTopicPartitionList;
  rd_kafka_topic_partition_list_add_range :
    RDKafkaTopicPartitionList → string → Z → Z → RDKafkaTopicPartitionList;
  rd_kafka_topic_partition_list_set_offset :
    RDKafkaTopicPartitionList → string → Z → Z → RDKafkaRespErr * RDKafkaTopicPartitionList;
  rd_kafka_topic_partition_list_find : RDKafkaTopicPartitionList → string → Z → option nat;
  rd_kafka_topic_partition_list_copy : RDKafkaTopicPartitionList → RDKafkaTopicPartitionList;
}.

(** What a new element holds: no offset, no metadata, no error. *)
Definition new_elem (topic : string) (partition : Z) : RDKafkaTopicPartition :=
  {| tp_topic := topic; tp_partition := partition; tp_offset := OFFSET_INVALID;
     tp_metadata := None; tp_metadata_size := 0; tp_err := RD_KAFKA_RESP_ERR_NO_ERROR |}.

Definition key (e : RDKafkaTopicPartition) : string * Z := (tp_topic e, tp_partition e).

(** The count field is the number of elements. *)
Definition cnt_ok (l : RDKafkaTopicPartitionList) : Prop := cnt l = Z.of_nat (length (elems l)).

(** The position of the first element with a given key. *)
Definition find_key (k : string * Z) (l : list RDKafkaTopicPartition) : option nat :=
  fst <$> list_find (λ e, key e = k) l.

(** What librdkafka documents: [new] gives an empty list, [add] appends,
    [add_range] appends the partitions [start..=stop] in order, [find] gives the
    first match or null, [set_offset] sets the offset of that match or returns
    [UNKNOWN_PARTITION], [copy] duplicates the elements. *)
Class TplNativeSpec (N : TplNative) : Prop := {
  tpl_new_spec n :
    elems (rd_kafka_topic_partition_list_new n) = [] ∧ cnt (rd_kafka_topic_partition_list_new n) = 0;
  tpl_add_spec l t p : cnt_ok l →
    (rd_kafka_topic_partition_list_add l t p).1 = length (elems l)
    ∧ elems (rd_kafka_topic_partition_list_add l t p).2 = elems l ++ [new_elem t p]
    ∧ cnt_ok (rd_kafka_topic_partition_list_add l t p).2;
  tpl_add_range_spec l t start stop : cnt_ok l →
    elems (rd_kafka_topic_partition_list_add_range l t start stop)
      = elems l ++ (new_elem t <$> seqZ start (stop - start + 1))
    ∧ cnt_ok (rd_kafka_topic_partition_list_add_range l t start stop);
  tpl_find_spec l t p : cnt_ok l →
    rd_kafka_topic_partition_list_find l t p = find_key (t, p) (elems l);
  tpl_set_offset_found l t p raw i : cnt_ok l → find_key (t, p) (elems l) = Some i →
    (rd_kafka_topic_partition_list_set_offset l t p raw).1 = RD_KAFKA_RESP_ERR_NO_ERROR
    ∧ elems (rd_kafka_topic_partition_list_set_offset l t p raw).2
      = alter (with_offset raw) i (elems l)
    ∧ cnt_ok (rd_kafka_topic_partition_list_set_offset l t p raw).2;
  tpl_set_offset_missing l t p raw : cnt_ok l → find_key (t, p) (elems l) = None →
    rd_kafka_topic_partition_list_set_offset l t p raw
      = (RD_KAFKA_RESP_ERR__UNKNOWN_PARTITION, l);
  tpl_copy_spec l : cnt_ok l →
    elems (rd_kafka_topic_partition_list_copy l) = elems l
    ∧ cnt_ok (rd_kafka_topic_partition_list_copy l);
}.

(** ** [TopicPartitionList] *)

Abbreviation tpl := RDKafkaTopicPartitionList.

Section operations.
Context `{N : TplNative} (oc : bool).

(** [TopicPartitionList::count]: [self.ptr.cnt as usize]. *)
Definition count (l : tpl) : nat := Z.to_nat (as_usize (cnt l)).

(** [TopicPartitionList::capacity]. *)
Definition capacity (l : tpl) : nat := Z.to_nat (as_usize (size l)).

(** [slice::from_raw_parts_mut(self.ptr.elems, self.count())]. *)
Definition slice (l : tpl) : list RDKafkaTopicPartition := take (count l) (elems l).

(** [TopicPartitionList::with_capacity] and [new]. *)
Definition with_capacity (capacity : Z) : tpl := rd_kafka_topic_partition_list_new (as_i32 capacity).
Definition tpl_new : tpl := with_capacity 5.

(** [impl Clone for TopicPartitionList]. *)
Definition tpl_clone (l : tpl) : tpl := rd_kafka_topic_partition_list_copy l.

(** [TopicPartitionList::add_partition]: the pointer to the new element. *)
Definition add_partition (topic : string) (partition : Z) : comp tpl nat :=
  topic_c ← lift (expect_ok "Topic name is not UTF-8" (CString_new topic));
  call (λ l, rd_kafka_topic_partition_list_add l topic_c partition).

(** [TopicPartitionList::add_topic_unassigned]. *)
Definition add_topic_unassigned (topic : string) : comp tpl nat :=
  add_partition topic PARTITION_UNASSIGNED.

(** [TopicPartitionList::add_partition_range]. *)
Definition add_partition_range (topic : string) (start stop : Z) : comp tpl unit :=
  topic_c ← lift (expect_ok "Topic name is not UTF-8" (CString_new topic));
  modify (λ l, rd_kafka_topic_partition_list_add_range l topic_c start stop).

(** [TopicPartitionList::set_partition_offset]. *)
Definition set_partition_offset (topic : string) (partition : Z) (offset : Offset)
    : comp tpl (KafkaResult unit) :=
  topic_c ← lift (expect_ok "Topic name is not UTF-8" (CString_new topic));
  raw ← lift (to_raw oc offset);
  kafka_err ←
    match raw with
    | Some offset =>
        call (λ l, rd_kafka_topic_partition_list_set_offset l topic_c partition offset)
    | None => mret RD_KAFKA_RESP_ERR__INVALID_ARG
    end;
  if resp_is_error kafka_err then mret (Err (SetPartitionOffset (code_of kafka_err)))
  else mret (Ok tt).

(** [TopicPartitionList::add_partition_offset]. *)
Definition add_partition_offset (topic : string) (partition : Z) (offset : Offset)
    : comp tpl (KafkaResult unit) :=
  _ ← add_partition topic partition;
  set_partition_offset topic partition offset.

(** [TopicPartitionListElem::set_offset] on the element at position [i]. *)
Definition elem_set_offset (i : nat) (offset : Offset) : comp tpl (KafkaResult unit) :=
  raw ← lift (to_raw oc offset);
  match raw with
  | Some offset =>
      _ ← modify (λ l, {| cnt := cnt l; size := size l; elems := alter (with_offset offset) i (elems l) |});
      mret (Ok tt)
  | None => mret (Err (SetPartitionOffset Code.InvalidArgument))
  end.

(** [TopicPartitionList::find_partition]. *)
Definition find_partition (l : tpl) (topic : string) (partition : Z)
    : outcome (option RDKafkaTopicPartition) :=
  topic_c ← expect_ok "Topic name is not UTF-8" (CString_new topic);
  mret (match rd_kafka_topic_partition_list_find l topic_c partition with
        | None => None
        | Some i => elems l !! i
        end).

(** [TopicPartitionList::set_all_offsets]. *)
Fixpoint set_offsets_loop (idxs : list nat) (offset : Offset) : comp tpl (KafkaResult unit) :=
  match idxs with
  | [] => mret (Ok tt)
  | i :: idxs' => _ ←? elem_set_offset i offset; set_offsets_loop idxs' offset
  end.

Definition set_all_offsets (offset : Offset) : comp tpl (KafkaResult unit) :=
  l ← get;
  if decide (count l = 0%nat) then mret (Ok tt)
  else set_offsets_loop (seq 0 (count l)) offset.

(** [TopicPartitionList::elements]. *)
Definition elements (l : tpl) : list RDKafkaTopicPartition :=
  if decide (count l = 0%nat) then [] else slice l.

(** [TopicPartitionList::elements_for_topic]. *)
Fixpoint filter_topic (topic : string) (es : list RDKafkaTopicPartition)
    : outcome (list RDKafkaTopicPartition) :=
  match es with
  | [] => Done []
  | tp :: es' =>
      t ← elem_topic tp;
      vec ← filter_topic topic es';
      mret (if String.eqb t topic then tp :: vec else vec)
  end.

Definition elements_for_topic (l : tpl) (topic : string) : outcome (list RDKafkaTopicPartition) :=
  if decide (count l = 0%nat) then Done [] else filter_topic topic (slice l).

(** [TopicPartitionList::to_topic_map]: collecting into a [HashMap] inserts the
    elements in order. *)
Fixpoint collect_topic_map (es : list RDKafkaTopicPartition) (m : gmap (string * Z) Offset)
    : outcome (gmap (string * Z) Offset) :=
  match es with
  | [] => Done m
  | elem :: es' =>
      t ← elem_topic elem;
      collect_topic_map es' (<[(t, elem_partition elem) := elem_offset elem]> m)
  end.

Definition to_topic_map (l : tpl) : outcome (gmap (string * Z) Offset) :=
  collect_topic_map (elements l) ∅.

(** [TopicPartitionList::from_topic_map]; [entries] is the order in which the
    [HashMap] iterator yields the entries. *)
Fixpoint add_entries (entries : list (string * Z * Offset)) : comp tpl (KafkaResult unit) :=
  match entries with
  | [] => mret (Ok tt)
  | (topic_name, partition, offset) :: entries' =>
      _ ←? add_partition_offset topic_name partition offset; add_entries entries'
  end.

Definition from_topic_map (entries : list (string * Z * Offset)) : outcome (KafkaResult tpl) :=
  '(r, l) ← add_entries entries (with_capacity (Z.of_nat (length entries)));
  mret (match r with Ok _ => Ok l | Err e => Err e end).

(** [PartialEq for TopicPartitionList]: [Iterator::all] stops at the first
    element that fails. *)
Fixpoint all_found (es : list RDKafkaTopicPartition) (other : tpl) : outcome bool :=
  match es with
  | [] => Done true
  | elem :: es' =>
      t ← elem_topic elem;
      o ← find_partition other t (elem_partition elem);
      b ← match o with Some other_elem => elem_eq elem other_elem | None => Done false end;
      if (b : bool) then all_found es' other else Done false
  end.

Definition tpl_eq (self other : tpl) : outcome bool :=
  if negb (bool_decide (count self = count other)) then Done false
  else all_found (elements self) other.

(** [FromIterator<(String, i32, Offset)>]; [lower_bound] is the iterator's size
    hint. The pair version re-associates its items and calls this one. *)
Fixpoint push_items (items : list (string * Z * Offset)) : comp tpl unit :=
  match items with
  | [] => mret tt
  | (topic, partition, offset) :: items' =>
      elem ← add_partition topic partition;
      r ← elem_set_offset elem offset;
      match r with
      | Ok _ => push_items items'
      | Err _ => panic "failed to set offset via collect()"
      end
  end.

Definition from_iter (lower_bound : Z) (items : list (string * Z * Offset)) : outcome tpl :=
  '(_, l) ← push_items items (with_capacity lower_bound); mret l.

Definition from_iter_pairs (lower_bound : Z) (items : list ((string * Z) * Offset)) : outcome tpl :=
  from_iter lower_bound ((λ '((topic, partition), offset), (topic, partition, offset)) <$> items).

End operations.

(** ** A reference implementation of the librdkafka functions *)

Definition mk_list (n : Z) (es : list RDKafkaTopicPartition) : tpl :=
  {| cnt := Z.of_nat (length es); size := Z.max n (Z.of_nat (length es)); elems := es |}.

#[export] Instance reference_tpl : TplNative := {
  rd_kafka_topic_partition_list_new n := mk_list n [];
  rd_kafka_topic_partition_list_add l t p :=
    (length (elems l), mk_list (size l) (elems l ++ [new_elem t p]));
  rd_kafka_topic_partition_list_add_range l t start stop :=
    mk_list (size l) (elems l ++ (new_elem t <$> seqZ start (stop - start + 1)));
  rd_kafka_topic_partition_list_set_offset l t p raw :=
    match find_key (t, p) (elems l) with
    | Some i => (RD_KAFKA_RESP_ERR_NO_ERROR, mk_list (size l) (alter (with_offset raw) i (elems l)))
    | None => (RD_KAFKA_RESP_ERR__UNKNOWN_PARTITION, l)
    end;
  rd_kafka_topic_partition_list_find l t p := find_key (t, p) (elems l);
  rd_kafka_topic_partition_list_copy l := mk_list (size l) (elems l);
}.

#[export] Instance reference_tpl_spec : TplNativeSpec reference_tpl.
Proof.
  split; unfold cnt_ok; simpl; try done.
  - intros l t p raw i _ H. by rewrite H.
  - intros l t p raw _ H. by rewrite H.
Qed.

(** ** Lemmas on offsets *)

Definition tail_limit : Z := i64_max + 1 + OFFSET_TAIL_BASE.

(** The offsets that librdkafka can represent without overflow. *)
Definition representable (o : Offset) : Prop :=
  match o with
  | Off.Offset_ n => 0 ≤ n ≤ i64_max
  | Off.OffsetTail n => 0 < n ≤ tail_limit
  | _ => True
  end.

#[export] Instance representable_dec o : Decision (representable o).
Proof. destruct o; apply _. Defined.

(** The exact integer encoding of a representable offset. *)
Definition raw_of (o : Offset) : Z :=
  match o with
  | Off.Beginning => OFFSET_BEGINNING
  | Off.End => OFFSET_END
  | Off.Stored => OFFSET_STORED
  | Off.Invalid => OFFSET_INVALID
  | Off.Offset_ n => n
  | Off.OffsetTail n => OFFSET_TAIL_BASE - n
  end.

Ltac off_unfold :=
  unfold tail_limit, OFFSET_BEGINNING, OFFSET_END, OFFSET_STORED, OFFSET_INVALID, OFFSET_TAIL_BASE in *;
  int_unfold.

(** Case analysis on the raw offsets that [from_raw] distinguishes. *)
Ltac raw_cases :=
  unfold from_raw;
  repeat match goal with
    | |- context [if ?b then _ else _] => let H := fresh "E" in destruct b eqn:H
    end; simpl;
  rewrite ?Z.eqb_eq, ?Z.eqb_neq, ?Z.leb_le, ?Z.leb_gt in *; off_unfold.

Lemma to_raw_representable oc o : representable o → to_raw oc o = Done (Some (raw_of o)).
Proof.
  destruct o; simpl; intros H; try done.
  - by destruct (Z.leb_spec 0 n); [|off_unfold; lia].
  - destruct (Z.ltb_spec 0 n); [|off_unfold; lia].
    rewrite arith_i64_in; [done|off_unfold; lia].
Qed.

Lemma from_raw_raw_of o : representable o → from_raw (raw_of o) = o.
Proof.
  destruct o; simpl; intros H; try done; raw_cases; try lia; f_equal; lia.
Qed.

(** An offset that is a valid [i64] and negative, or a tail of zero or less, has
    no encoding. *)
Lemma to_raw_none oc o : to_raw oc o = Done None ↔
  match o with Off.Offset_ n => n < 0 | Off.OffsetTail n => n ≤ 0 | _ => False end.
Proof.
  destruct o; simpl; try naive_solver.
  - destruct (Z.leb_spec 0 n); split; intros; done || lia.
  - destruct (Z.ltb_spec 0 n); [|split; intros; done || lia].
    split; [|lia]. unfold arith_i64. case_bool_decide; [done|]. by destruct oc.
Qed.

Lemma from_raw_no_overflow raw : in_i64 raw → raw ≤ OFFSET_TAIL_BASE →
  in_i64 (raw - OFFSET_TAIL_BASE) ∧ in_i64 (- (raw - OFFSET_TAIL_BASE)).
Proof. off_unfold. lia. Qed.

(** ** Lemmas on lists *)

Lemma count_ok l : cnt_ok l → Z.of_nat (length (elems l)) ≤ i32_max → count l = length (elems l).
Proof.
  unfold cnt_ok, count, as_usize. intros -> H.
  rewrite Z.mod_small by (int_unfold; lia). by rewrite Nat2Z.id.
Qed.

Lemma elements_ok l : cnt_ok l → Z.of_nat (length (elems l)) ≤ i32_max → elements l = elems l.
Proof.
  intros H1 H2. unfold elements, slice. rewrite count_ok by done.
  case_decide as H; [by apply nil_length_inv in H as ->|by rewrite firstn_all].
Qed.

Lemma find_key_Some k l i : find_key k l = Some i →
  ∃ e, l !! i = Some e ∧ key e = k ∧ ∀ j e', l !! j = Some e' → key e' = k → (i ≤ j)%nat.
Proof.
  unfold find_key. intros ([j e] & (Hj & Hk & Hmin)%list_find_Some & ->)%fmap_Some. simpl.
  exists e. split_and!; [done..|]. intros j' e' Hj' Hk'.
  destruct (decide (j ≤ j')%nat); [done|]. exfalso. apply (Hmin j' e'); [done|lia|done].
Qed.

Lemma find_key_None k l : find_key k l = None ↔ k ∉ (key <$> l).
Proof.
  unfold find_key. rewrite fmap_None, list_find_None, Forall_forall, list_elem_of_fmap. split.
  - intros H (e & -> & He). by apply (H e).
  - intros H e He <-. apply H. eauto.
Qed.

Lemma find_key_snoc k l e : find_key k (l ++ [e])
  = match find_key k l with
    | Some i => Some i
    | None => if decide (key e = k) then Some (length l) else None
    end.
Proof.
  unfold find_key. destruct (list_find _ l) as [[i e']|] eqn:E.
  - by rewrite (list_find_app_l _ _ _ _ _ E).
  - rewrite (list_find_app_r _ _ _ E). simpl. by case_decide.
Qed.

(** ** Lemmas on the operations *)

Section lemmas.
Context `{N : TplNative} `{!TplNativeSpec N} (oc : bool).
Implicit Types (l : tpl) (t : string) (p : Z) (o : Offset).

Ltac run := unfold mbind, comp_bind, outcome_bind, lift, call, mret, comp_ret, outcome_ret; simpl.

Lemma add_partition_run l t p : nul_free t = true → cnt_ok l →
  ∃ l', add_partition t p l = Done (length (elems l), l')
        ∧ elems l' = elems l ++ [new_elem t p] ∧ cnt_ok l'.
Proof.
  intros Ht Hl. destruct (tpl_add_spec l t p Hl) as (H1 & H2 & H3).
  exists (rd_kafka_topic_partition_list_add l t p).2. unfold add_partition.
  rewrite CString_new_ok by done. run. destruct (rd_kafka_topic_partition_list_add l t p) as [i l'].
  simpl in *. by subst i.
Qed.

Lemma set_partition_offset_found l t p o i :
  nul_free t = true → representable o → cnt_ok l → find_key (t, p) (elems l) = Some i →
  ∃ l', set_partition_offset oc t p o l = Done (Ok tt, l')
        ∧ elems l' = alter (with_offset (raw_of o)) i (elems l) ∧ cnt_ok l'.
Proof.
  intros Ht Ho Hl Hi. destruct (tpl_set_offset_found l t p (raw_of o) i Hl Hi) as (H1 & H2 & H3).
  exists (rd_kafka_topic_partition_list_set_offset l t p (raw_of o)).2. unfold set_partition_offset.
  rewrite CString_new_ok, to_raw_representable by done. run.
  destruct (rd_kafka_topic_partition_list_set_offset _ _ _ _) as [e l']. simpl in *. by subst e.
Qed.

Lemma set_partition_offset_missing l t p o :
  nul_free t = true → representable o → cnt_ok l → find_key (t, p) (elems l) = None →
  set_partition_offset oc t p o l = Done (Err (SetPartitionOffset Code.UnknownPartition), l).
Proof.
  intros Ht Ho Hl Hi. unfold set_partition_offset.
  rewrite CString_new_ok, to_raw_representable by done. run. by rewrite tpl_set_offset_missing.
Qed.

Lemma set_partition_offset_invalid l t p o :
  nul_free t = true → to_raw oc o = Done None →
  set_partition_offset oc t p o l = Done (Err (SetPartitionOffset Code.InvalidArgument), l).
Proof. intros Ht Ho. unfold set_partition_offset. by rewrite CString_new_ok, Ho by done. Qed.

(** What [add_partition_offset] leaves in the list: the offset goes to the first
    element with the key, which is the new one only when the key was absent. *)
Definition added (t : string) (p : Z) (o : Offset) (es : list RDKafkaTopicPartition)
    : list RDKafkaTopicPartition :=
  match find_key (t, p) es with
  | None => es ++ [with_offset (raw_of o) (new_elem t p)]
  | Some i => alter (with_offset (raw_of o)) i es ++ [new_elem t p]
  end.

Lemma add_partition_offset_run l t p o :
  nul_free t = true → representable o → cnt_ok l →
  ∃ l', add_partition_offset oc t p o l = Done (Ok tt, l') ∧ elems l' = added t p o (elems l) ∧ cnt_ok l'.
Proof.
  intros Ht Ho Hl. destruct (add_partition_run l t p Ht Hl) as (l1 & H1 & He1 & Hc1).
  unfold add_partition_offset, added. unfold mbind, comp_bind. rewrite H1.
  pose proof (find_key_snoc (t, p) (elems l) (new_elem t p)) as Hf. rewrite <- He1 in Hf.
  destruct (find_key (t, p) (elems l)) as [i|] eqn:Ei.
  - destruct (find_key_Some _ _ _ Ei) as (e & Hlk & _).
    destruct (set_partition_offset_found l1 t p o i) as (l2 & H2 & He2 & Hc2); [done..|].
    exists l2. split_and!; [done| |done].
    by rewrite He2, He1, alter_app_l by (by eapply lookup_lt_Some).
  - rewrite decide_True in Hf by done.
    destruct (set_partition_offset_found l1 t p o (length (elems l))) as (l2 & H2 & He2 & Hc2); [done..|].
    exists l2. split_and!; [done| |done]. rewrite He2, He1.
    replace (length (elems l)) with (length (elems l) + 0)%nat by lia. by rewrite alter_app_r.
Qed.

(** Adding entries with fresh, distinct keys appends one element per entry. *)
Definition entry_elem (x : string * Z * Offset) : RDKafkaTopicPartition :=
  with_offset (raw_of x.2) (new_elem x.1.1 x.1.2).

Definition entry_ok (x : string * Z * Offset) : Prop :=
  nul_free x.1.1 = true ∧ is_str x.1.1 = true ∧ representable x.2.

Lemma add_entries_run entries l :
  Forall entry_ok entries → NoDup ((key <$> elems l) ++ entries.*1) → cnt_ok l →
  ∃ l', add_entries oc entries l = Done (Ok tt, l')
        ∧ elems l' = elems l ++ (entry_elem <$> entries) ∧ cnt_ok l'.
Proof.
  revert l. induction entries as [|[[t p] o] entries IH]; intros l Hok Hnd Hl.
  { exists l. split_and!; [done|by rewrite app_nil_r|done]. }
  apply Forall_cons in Hok as [(H1 & H2 & H3) Hok]. simpl in *.
  destruct (add_partition_offset_run l t p o) as (l1 & Hrun & He & Hc); [done..|].
  rewrite (try_bind_ok _ _ _ _ _ Hrun). unfold added in He.
  rewrite (proj2 (find_key_None (t, p) (elems l))) in He.
  2:{ apply NoDup_app in Hnd as (_ & Hnd & _). intros Hin. apply (Hnd _ Hin). left. }
  destruct (IH l1) as (l2 & Hrun2 & He2 & Hc2); [done| |done|].
  { rewrite He, fmap_app, <- app_assoc. exact Hnd. }
  exists l2. split_and!; [done| |done]. by rewrite He2, He, <- app_assoc.
Qed.

Lemma with_capacity_ok n : cnt_ok (with_capacity n) ∧ elems (with_capacity n) = [].
Proof. destruct (tpl_new_spec (as_i32 n)) as [H1 H2]. unfold cnt_ok, with_capacity. by rewrite H1, H2. Qed.

Lemma from_topic_map_run entries :
  Forall entry_ok entries → NoDup entries.*1 →
  ∃ l, from_topic_map oc entries = Done (Ok l) ∧ elems l = entry_elem <$> entries ∧ cnt_ok l.
Proof.
  intros Hok Hnd. destruct (with_capacity_ok (Z.of_nat (length entries))) as [Hc He].
  destruct (add_entries_run entries (with_capacity (Z.of_nat (length entries)))) as (l & Hr & Hl & Hcl);
    [done|by rewrite He|done|].
  exists l. unfold from_topic_map. unfold mbind, outcome_bind. rewrite Hr, He in *. done.
Qed.

Lemma collect_topic_map_run es m : Forall (λ e, is_str (tp_topic e) = true) es →
  collect_topic_map es m = Done (insert_all m ((λ e, (key e, elem_offset e)) <$> es)).
Proof.
  revert m. induction es as [|e es IH]; intros m; [done|]. intros [He Hes]%Forall_cons.
  simpl. unfold elem_topic, cstr_to_str. rewrite He. run. by rewrite IH.
Qed.

Lemma to_topic_map_run l :
  cnt_ok l → Z.of_nat (length (elems l)) ≤ i32_max → Forall (λ e, is_str (tp_topic e) = true) (elems l) →
  to_topic_map l = Done (insert_all ∅ ((λ e, (key e, elem_offset e)) <$> elems l)).
Proof.
  intros H1 H2 H3. unfold to_topic_map. rewrite elements_ok by done. by apply collect_topic_map_run.
Qed.

Lemma entry_elem_binding entries : Forall entry_ok entries →
  (λ e, (key e, elem_offset e)) <$> (entry_elem <$> entries) = entries.
Proof.
  induction 1 as [|[[t p] o] entries (H1 & H2 & H3) Hok IH]; [done|].
  rewrite !fmap_cons, IH. f_equal. unfold elem_offset. simpl. by rewrite from_raw_raw_of.
Qed.

End lemmas.

(** ** Equality of lists *)

(** What [TopicPartitionListElem]'s equality looks at. *)
Definition view (e : RDKafkaTopicPartition) : string * Z * Offset * string :=
  (key e, elem_offset e, str_of_bytes (ptr_to_slice (tp_metadata e) (tp_metadata_size e))).

(** An element whose accessors do not panic. *)
Definition elem_wf (e : RDKafkaTopicPartition) : Prop :=
  nul_free (tp_topic e) = true ∧ is_str (tp_topic e) = true
  ∧ utf8_valid (ptr_to_slice (tp_metadata e) (tp_metadata_size e)) = true.

#[export] Instance elem_wf_dec e : Decision (elem_wf e).
Proof. unfold elem_wf. apply _. Defined.

Definition list_wf (l : tpl) : Prop :=
  cnt_ok l ∧ Z.of_nat (length (elems l)) ≤ i32_max ∧ Forall elem_wf (elems l).

Lemma elem_topic_wf e : elem_wf e → elem_topic e = Done (tp_topic e).
Proof. intros (_ & H & _). unfold elem_topic, cstr_to_str. by rewrite H. Qed.

Lemma elem_eq_view e1 e2 : elem_wf e1 → elem_wf e2 →
  ∃ b, elem_eq e1 e2 = Done b ∧ (b = true ↔ view e1 = view e2).
Proof.
  intros H1 H2. unfold elem_eq. rewrite !elem_topic_wf by done. unfold elem_metadata, from_utf8, view, key.
  destruct H1 as (_ & _ & ->), H2 as (_ & _ & ->). unfold mbind, outcome_bind. simpl.
  unfold elem_partition.
  destruct (String.eqb_spec (tp_topic e1) (tp_topic e2)); simpl; [|eexists; split; [done|split; congruence]].
  destruct (Z.eqb_spec (tp_partition e1) (tp_partition e2)); simpl; [|eexists; split; [done|split; congruence]].
  case_bool_decide; simpl; [|eexists; split; [done|split; congruence]].
  eexists. split; [done|]. rewrite String.eqb_eq. split; congruence.
Qed.

Section equality.
Context `{N : TplNative} `{!TplNativeSpec N}.

Lemma find_partition_wf l t p : list_wf l → nul_free t = true →
  find_partition l t p = Done (find_key (t, p) (elems l) ≫= λ i, elems l !! i).
Proof.
  intros (Hc & _ & _) Ht. unfold find_partition. rewrite CString_new_ok by done.
  cbn. by rewrite tpl_find_spec by done.
Qed.

(** The element of [l] that an element with key [k] is compared with. *)
Definition first_with (k : string * Z) (l : list RDKafkaTopicPartition) : option RDKafkaTopicPartition :=
  find_key k l ≫= λ i, l !! i.

Lemma all_found_wf es l : Forall elem_wf es → list_wf l →
  ∃ b, all_found es l = Done b
       ∧ (b = true ↔ Forall (λ e, ∃ e', first_with (key e) (elems l) = Some e' ∧ view e = view e') es).
Proof.
  intros Hes Hl. induction Hes as [|e es He Hes (b & Hb & IH)]; [by exists true|].
  cbn [all_found]. rewrite elem_topic_wf by done. unfold mbind, outcome_bind in *. cbn.
  rewrite find_partition_wf by (done || apply He). setoid_rewrite Forall_cons.
  unfold elem_partition. change (tp_topic e, tp_partition e) with (key e).
  change (find_key (key e) (elems l) ≫= λ i, elems l !! i) with (first_with (key e) (elems l)).
  destruct (first_with (key e) (elems l)) as [e'|] eqn:E.
  - assert (elem_wf e') as He'.
    { unfold first_with in E. apply bind_Some in E as (i & _ & Hi). destruct Hl as (_ & _ & Hl).
      by eapply Forall_lookup_1. }
    destruct (elem_eq_view e e') as (b' & -> & Hb'); [done..|]. destruct b'.
    + exists b. split; [done|]. rewrite IH. split; [|by intros [_ ?]].
      intros ?. split; [|done]. exists e'. split; [done|by apply Hb'].
    + exists false. split; [done|]. split; [done|]. intros [(e'' & [= <-] & Hv) _]. by apply Hb' in Hv.
  - exists false. split; [done|]. split; [done|]. intros [(e' & ? & _) _]. done.
Qed.

Lemma first_with_elem_of k l e : first_with k l = Some e → e ∈ l ∧ key e = k.
Proof.
  unfold first_with. intros (i & Hi & He)%bind_Some.
  destruct (find_key_Some _ _ _ Hi) as (e' & He' & Hk & _). simplify_eq. split; [|done].
  by eapply list_elem_of_lookup_2.
Qed.

Lemma first_with_NoDup l e : NoDup (key <$> l) → e ∈ l → first_with (key e) l = Some e.
Proof.
  intros Hnd [i Hi]%list_elem_of_lookup. unfold first_with.
  destruct (find_key (key e) l) as [j|] eqn:Ej.
  - destruct (find_key_Some _ _ _ Ej) as (e' & He' & Hk & _). cbn. rewrite He'.
    rewrite NoDup_alt in Hnd.
    assert (i = j) as ->; [|congruence].
    apply (Hnd i j (key e)); rewrite list_lookup_fmap; [by rewrite Hi|by rewrite He', <- Hk].
  - exfalso. apply find_key_None in Ej. apply Ej. apply list_elem_of_fmap. exists e. split; [done|].
    by eapply list_elem_of_lookup_2.
Qed.

Lemma view_NoDup l : NoDup (key <$> l) → NoDup (view <$> l).
Proof.
  intros H. apply (NoDup_fmap_1 (λ v : string * Z * Offset * string, v.1.1)).
  by rewrite <- list_fmap_compose.
Qed.

Lemma all_found_perm es l : NoDup (key <$> es) → length es = length l →
  Forall (λ e, ∃ e', first_with (key e) l = Some e' ∧ view e = view e') es ↔ view <$> es ≡ₚ view <$> l.
Proof.
  intros Hnd Hlen. rewrite Forall_forall. split.
  - intros H. apply submseteq_length_Permutation; [|by rewrite !length_fmap, Hlen].
    apply NoDup_submseteq; [by apply view_NoDup|]. intros v (e & -> & He)%list_elem_of_fmap.
    destruct (H e He) as (e' & [He' _]%first_with_elem_of & ->). apply list_elem_of_fmap. by exists e'.
  - intros Hp e He. assert (view e ∈ view <$> l) as (e' & Hv & He')%list_elem_of_fmap.
    { rewrite <- Hp. apply list_elem_of_fmap. by exists e. }
    exists e'. split; [|done]. assert (key e = key e') as ->.
    { unfold view in Hv. congruence. }
    apply first_with_NoDup; [|done]. revert Hnd. change key with ((λ v : string * Z * Offset * string, v.1.1) ∘ view).
    by rewrite !list_fmap_compose, Hp.
Qed.

End equality.

(** ** Properties *)

(** Every offset that librdkafka can represent is encoded
    as an [i64] that decodes to the same offset. Conversely a raw offset that is
    decoded and encoded again comes back unchanged, or is refused ([None]); it is
    refused exactly when it is a negative number that is none of the four
    sentinels and not below [OFFSET_TAIL_BASE]. *)
Theorem offset_roundtrip oc :
  (∀ o, representable o → ∃ raw, to_raw oc o = Done (Some raw) ∧ in_i64 raw ∧ from_raw raw = o)
  ∧ (∀ raw, in_i64 raw →
       to_raw oc (from_raw raw)
       = Done (if bool_decide (OFFSET_TAIL_BASE ≤ raw < 0
                               ∧ raw ∉ [OFFSET_BEGINNING; OFFSET_END; OFFSET_STORED; OFFSET_INVALID])
               then None else Some raw)).
Proof.
  split.
  - intros o Ho. exists (raw_of o). split_and!; [by apply to_raw_representable| |by apply from_raw_raw_of].
    destruct o; simpl in *; off_unfold; lia.
  - intros raw Hraw. case_bool_decide as H.
    + destruct H as [Hr Hn]. apply to_raw_none. rewrite !not_elem_of_cons in Hn.
      raw_cases; lia.
    + assert (representable (from_raw raw) ∧ raw_of (from_raw raw) = raw) as [Hr He].
      { rewrite !elem_of_cons, elem_of_nil in H. raw_cases; split; done || lia. }
      by rewrite to_raw_representable, He.
Qed.

Lemma offset_roundtrip_witness :
  (∃ raw, to_raw true (Off.OffsetTail 5) = Done (Some raw) ∧ in_i64 raw ∧ from_raw raw = Off.OffsetTail 5)
  ∧ to_raw true (from_raw (-7)) = Done None.
Proof.
  split.
  - apply (proj1 (offset_roundtrip true)). vm_compute. split; congruence.
  - rewrite (proj2 (offset_roundtrip true) (-7)); [|vm_compute; split; congruence]. reflexivity.
Defined.

(** A tail offset above [i64::MAX - 1999] has no
    encoding: [to_raw] panics in a build with overflow checks, and without them
    produces a positive raw offset, that is an absolute position of the log. *)
Theorem offset_tail_overflow n : tail_limit < n ≤ i64_max →
  (∃ msg, to_raw true (Off.OffsetTail n) = Panic msg)
  ∧ ∃ raw, to_raw false (Off.OffsetTail n) = Done (Some raw) ∧ 0 < raw ∧ from_raw raw = Off.Offset_ raw.
Proof.
  intros Hn. assert (¬ in_i64 (OFFSET_TAIL_BASE - n)) as Hout by (off_unfold; lia).
  unfold to_raw, arith_i64. destruct (Z.ltb_spec 0 n); [|off_unfold; lia].
  rewrite bool_decide_eq_false_2 by done. split; [by eexists|].
  exists (OFFSET_TAIL_BASE - n + 2 ^ 64).
  assert (as_i64 (OFFSET_TAIL_BASE - n) = OFFSET_TAIL_BASE - n + 2 ^ 64) as ->.
  { unfold as_i64, as_signed. change (64 - 1) with 63.
    rewrite <- (Z.mod_unique_pos (OFFSET_TAIL_BASE - n + 2 ^ 63) (2 ^ 64) (-1) (OFFSET_TAIL_BASE - n + 2 ^ 63 + 2 ^ 64)); off_unfold; lia. }
  split_and!; [done|off_unfold; lia|]. raw_cases; done || lia.
Qed.

Lemma offset_tail_overflow_witness :
  (∃ msg, to_raw true (Off.OffsetTail i64_max) = Panic msg)
  ∧ ∃ raw, to_raw false (Off.OffsetTail i64_max) = Done (Some raw) ∧ 0 < raw
           ∧ from_raw raw = Off.Offset_ raw.
Proof. apply (offset_tail_overflow i64_max). split; vm_compute; congruence. Defined.

Section properties.
Context `{N : TplNative} `{!TplNativeSpec N}.

(** C21: building a list from a topic map, in whatever order
    the [HashMap] yields its entries, and reading it back gives the same map,
    provided the topics are C strings, the offsets representable and the entries
    fit an [i32] count. *)
Theorem topic_map_roundtrip (oc : bool) (m : gmap (string * Z) Offset) entries :
  entries ≡ₚ map_to_list m → Forall entry_ok entries → Z.of_nat (base.size m) ≤ i32_max →
  ∃ l, from_topic_map oc entries = Done (Ok l) ∧ to_topic_map l = Done m.
Proof.
  intros Hp Hok Hlen.
  assert (Z.of_nat (length entries) ≤ i32_max) as Hlen' by (by rewrite Hp, length_map_to_list).
  destruct (from_topic_map_run oc entries) as (l & Hl & He & Hc); [done| |].
  { rewrite Hp. apply NoDup_fst_map_to_list. }
  exists l. split; [done|]. rewrite to_topic_map_run; [|done|by rewrite He, length_fmap|].
  - f_equal. rewrite He, entry_elem_binding by done. by apply insert_all_map_to_list.
  - rewrite He, Forall_fmap. eapply Forall_impl; [done|]. by intros x (_ & ? & _).
Qed.

(** C22: on well-formed lists, the first of which has no
    duplicate topic/partition pair, [==] returns, and it is true exactly when the
    lists hold the same elements (topic, partition, offset and metadata) up to
    their order. *)
Theorem tpl_eq_permutation (l1 l2 : tpl) :
  list_wf l1 → list_wf l2 → NoDup (key <$> elems l1) →
  ∃ b, tpl_eq l1 l2 = Done b ∧ (b = true ↔ view <$> elems l1 ≡ₚ view <$> elems l2).
Proof.
  intros H1 H2 Hnd. pose proof H1 as (Hc1 & Hn1 & Hf1). pose proof H2 as (Hc2 & Hn2 & Hf2).
  unfold tpl_eq. rewrite !count_ok, elements_ok by done. case_bool_decide as Hlen; simpl.
  - destruct (all_found_wf (elems l1) l2) as (b & -> & Hb); [done..|]. exists b. split; [done|].
    by rewrite Hb, all_found_perm.
  - exists false. split; [done|]. split; [done|]. intros Hp%Permutation_length.
    by rewrite !length_fmap in Hp.
Qed.

(** [add_partition_offset] with a valid topic and a
    representable offset succeeds; when the key is new it appends an element with
    that offset. When the key is already present the offset goes to the first
    element with the key, and the appended element keeps the invalid offset. An
    offset without an encoding is an error, but the element stays in the list. *)
Theorem add_partition_offset_spec oc l t p o :
  nul_free t = true → cnt_ok l →
  (representable o → find_key (t, p) (elems l) = None →
     ∃ l', add_partition_offset oc t p o l = Done (Ok tt, l')
           ∧ elems l' = elems l ++ [with_offset (raw_of o) (new_elem t p)])
  ∧ (∀ i, representable o → find_key (t, p) (elems l) = Some i →
     ∃ l', add_partition_offset oc t p o l = Done (Ok tt, l')
           ∧ elems l' = alter (with_offset (raw_of o)) i (elems l) ++ [new_elem t p])
  ∧ (to_raw oc o = Done None →
     ∃ l', add_partition_offset oc t p o l = Done (Err (SetPartitionOffset Code.InvalidArgument), l')
           ∧ elems l' = elems l ++ [new_elem t p]).
Proof.
  intros Ht Hl. split_and!.
  - intros Ho Hf. destruct (add_partition_offset_run oc l t p o) as (l' & Hr & He & _); [done..|].
    exists l'. split; [done|]. by rewrite He; unfold added; rewrite Hf.
  - intros i Ho Hf. destruct (add_partition_offset_run oc l t p o) as (l' & Hr & He & _); [done..|].
    exists l'. split; [done|]. by rewrite He; unfold added; rewrite Hf.
  - intros Ho. destruct (add_partition_run l t p) as (l1 & Hr & He & _); [done..|].
    exists l1. split; [|done]. unfold add_partition_offset, mbind, comp_bind. rewrite Hr.
    by apply set_partition_offset_invalid.
Qed.

Lemma elem_set_offset_ok oc i o l : representable o →
  elem_set_offset oc i o l
  = Done (Ok tt, {| cnt := cnt l; size := size l;
                    elems := alter (with_offset (raw_of o)) i (elems l) |}).
Proof. intros Ho. unfold elem_set_offset. by rewrite to_raw_representable. Qed.

Lemma set_offsets_loop_ok oc idxs o l : representable o →
  ∃ l', set_offsets_loop oc idxs o l = Done (Ok tt, l')
        ∧ elems l' = foldl (λ es i, alter (with_offset (raw_of o)) i es) (elems l) idxs
        ∧ cnt l' = cnt l.
Proof.
  intros Ho. revert l. induction idxs as [|i idxs IH]; intros l; [by exists l|]. simpl.
  rewrite (try_bind_ok _ _ _ _ _ (elem_set_offset_ok oc i o l Ho)).
  exact (IH _).
Qed.

Lemma foldl_alter_seq {A} (f : A → A) (pre suf : list A) :
  foldl (λ es i, alter f i es) (pre ++ suf) (seq (length pre) (length suf)) = pre ++ (f <$> suf).
Proof.
  revert pre. induction suf as [|x suf IH]; intros pre; [done|]. simpl.
  replace (alter f (length pre) (pre ++ x :: suf)) with ((pre ++ [f x]) ++ suf).
  - replace (S (length pre)) with (length (pre ++ [f x])) by (rewrite length_app; simpl; lia).
    rewrite IH. by rewrite <- app_assoc.
  - rewrite <- app_assoc. simpl. replace (length pre) with (length pre + 0)%nat by lia.
    by rewrite alter_app_r.
Qed.

Lemma set_all_offsets_ok oc l o : list_wf l → representable o →
  ∃ l', set_all_offsets oc o l = Done (Ok tt, l')
        ∧ elems l' = with_offset (raw_of o) <$> elems l ∧ cnt l' = cnt l.
Proof.
  intros (Hc & Hn & _) Ho. unfold set_all_offsets, mbind, comp_bind, get. rewrite count_ok by done.
  destruct (decide (length (elems l) = 0%nat)) as [H0|H0].
  - exists l. split_and!; [done| |done]. by rewrite (nil_length_inv _ H0).
  - destruct (set_offsets_loop_ok oc (seq 0 (length (elems l))) o l Ho) as (l' & Hr & He & Hc').
    exists l'. split_and!; [done| |done]. rewrite He. apply (foldl_alter_seq _ []).
Qed.

Lemma set_all_offsets_invalid oc l o : list_wf l → to_raw oc o = Done None →
  set_all_offsets oc o l
  = Done (if decide (elems l = []) then Ok tt else Err (SetPartitionOffset Code.InvalidArgument), l).
Proof.
  intros (Hc & Hn & _) Ho. unfold set_all_offsets, mbind, comp_bind, get. rewrite count_ok by done.
  destruct (elems l) as [|e es]; [done|]. simpl. apply try_bind_err. unfold elem_set_offset. by rewrite Ho.
Qed.

(** [set_all_offsets] is all or nothing: with a
    representable offset it sets that offset on every element and nothing else;
    with an offset that has no encoding it changes nothing, and fails unless the
    list is empty. *)
Theorem set_all_offsets_spec oc l o : list_wf l →
  (representable o → ∃ l', set_all_offsets oc o l = Done (Ok tt, l')
     ∧ elems l' = with_offset (raw_of o) <$> elems l ∧ cnt l' = cnt l)
  ∧ (to_raw oc o = Done None →
     set_all_offsets oc o l
     = Done (if decide (elems l = []) then Ok tt else Err (SetPartitionOffset Code.InvalidArgument), l)).
Proof. intros Hl. split; [by apply set_all_offsets_ok|by apply set_all_offsets_invalid]. Qed.

(** Collecting triples (or pairs) into a list gives one
    element per item, in order, with the item's own offset, duplicates of a key
    included. *)
Theorem from_iter_spec oc n (items : list (string * Z * Offset)) :
  Forall entry_ok items →
  ∃ l, from_iter oc n items = Done l ∧ elems l = entry_elem <$> items ∧ cnt_ok l.
Proof.
  intros Hok. assert (∀ l, cnt_ok l → ∃ l', push_items oc items l = Done (tt, l')
    ∧ elems l' = elems l ++ (entry_elem <$> items) ∧ cnt_ok l') as Hpush.
  { induction Hok as [|[[t p] o] items (H1 & H2 & H3) Hok IH]; intros l Hl.
    { exists l. split_and!; [done|by rewrite app_nil_r|done]. }
    destruct (add_partition_run l t p) as (l1 & Hr1 & He1 & Hc1); [done..|].
    simpl in H3. simpl. unfold mbind, comp_bind in *. rewrite Hr1, elem_set_offset_ok by done.
    edestruct IH as (l2 & Hr2 & He2 & Hc2); [|exists l2; split_and!; [exact Hr2| |done]].
    - unfold cnt_ok in *. simpl. by rewrite length_alter.
    - rewrite He2. simpl. rewrite He1. replace (length (elems l)) with (length (elems l) + 0)%nat by lia.
      rewrite alter_app_r. by rewrite <- app_assoc. }
  destruct (with_capacity_ok n) as [Hc He].
  destruct (Hpush _ Hc) as (l & Hr & Hl & Hcl). exists l. unfold from_iter, mbind, outcome_bind.
  rewrite Hr. by rewrite He in Hl.
Qed.

End properties.

Definition sample_list : tpl :=
  mk_list 5 [entry_elem ("a", 0, Off.Offset_ 7); entry_elem ("b", 1, Off.End)].

Lemma sample_list_wf : list_wf sample_list.
Proof. split_and!; [done|vm_compute; congruence|]. repeat constructor. Qed.

Lemma topic_map_roundtrip_witness :
  ∃ l, from_topic_map true [("a", 0, Off.Offset_ 7); ("b", 1, Off.End)] = Done (Ok l)
       ∧ to_topic_map l = Done {[ ("a", 0) := Off.Offset_ 7; ("b", 1) := Off.End ]}.
Proof.
  apply topic_map_roundtrip.
  - vm_compute. first [reflexivity|apply Permutation_swap].
  - repeat constructor; vm_compute; congruence.
  - vm_compute. congruence.
Defined.

Lemma tpl_eq_permutation_witness :
  ∃ b, tpl_eq sample_list sample_list = Done b
       ∧ (b = true ↔ view <$> elems sample_list ≡ₚ view <$> elems sample_list).
Proof.
  apply tpl_eq_permutation; [apply sample_list_wf..|]. apply (bool_decide_unpack _). vm_compute. exact I.
Defined.

Lemma add_partition_offset_spec_witness :
  ∃ l', add_partition_offset true "a" 0 Off.End sample_list = Done (Ok tt, l')
        ∧ elems l' = alter (with_offset (-1)) 0%nat (elems sample_list) ++ [new_elem "a" 0].
Proof.
  destruct (add_partition_offset_spec true sample_list "a" 0 Off.End) as (_ & H & _);
    [reflexivity..|]. apply (H 0%nat); [exact I|reflexivity].
Defined.

Lemma set_all_offsets_spec_witness :
  ∃ l', set_all_offsets true Off.End sample_list = Done (Ok tt, l')
        ∧ elems l' = with_offset (-1) <$> elems sample_list ∧ cnt l' = 2.
Proof. apply (set_all_offsets_spec true sample_list Off.End sample_list_wf). exact I. Defined.

Lemma from_iter_spec_witness :
  ∃ l, from_iter true 0 [("a", 0, Off.End); ("a", 0, Off.Stored)] = Done l
       ∧ elems l = [entry_elem ("a", 0, Off.End); entry_elem ("a", 0, Off.Stored)] ∧ cnt_ok l.
Proof. apply from_iter_spec. repeat constructor. Defined.

(** With a duplicate topic/partition pair the equality of
    two lists is neither reflexive nor symmetric, although both lists are
    well-formed. *)
Theorem tpl_eq_duplicates :
  ∃ l1 l2, list_wf l1 ∧ list_wf l2 ∧ tpl_eq l1 l1 = Done false
    ∧ tpl_eq l1 l2 = Done false ∧ tpl_eq l2 l1 = Done true.
Proof.
  exists (mk_list 5 [entry_elem ("a", 0, Off.Offset_ 1); entry_elem ("a", 0, Off.Offset_ 2)]),
         (mk_list 5 [entry_elem ("a", 0, Off.Offset_ 1); entry_elem ("a", 0, Off.Offset_ 1)]).
  split_and!; first [by repeat constructor|by vm_compute|vm_compute; congruence].
Qed.
