(* ===== verification/Config.v ===== *)
(** * Client configuration

    [src/config.rs]: the log levels, the configuration map with its two
    sanitised views ([config_map] and [Debug]), and the native configuration:
    reading a parameter with the two-call buffer protocol, setting one, and
    [create_native_config]. The librdkafka configuration object is the class
    [ConfNative], what its documentation says of reading it is [ConfNativeSpec]. *)

From stdpp Require Import strings gmap prelude.
From S2P Require Import Prelude ErrorCodes KafkaErrors Util.

Local Open Scope Z_scope.

Definition SENSITIVE_CONFIG_KEYS : list string :=
  ["sasl.password"; "ssl.key.password"; "ssl.keystore.password"; "ssl.truststore.password";
   "sasl.oauthbearer.client.secret"].

Definition SANITIZED_VALUE_PLACEHOLDER : string := "[sanitized for safety]".

(** ** Log levels *)

Module Level.
Inductive RDKafkaLogLevel : Set :=
| Emerg | Alert | Critical | Error | Warning | Notice | Info | Debug.
End Level.
Abbreviation RDKafkaLogLevel := Level.RDKafkaLogLevel.

#[export] Instance log_level_eq_dec : EqDecision RDKafkaLogLevel.
Proof. solve_decision. Defined.

(** [level as i32]. *)
Definition log_level_discr (l : RDKafkaLogLevel) : Z :=
  match l with
  | Level.Emerg => 0 | Level.Alert => 1 | Level.Critical => 2 | Level.Error => 3
  | Level.Warning => 4 | Level.Notice => 5 | Level.Info => 6 | Level.Debug => 7
  end.

(** [RDKafkaLogLevel::from_int]. *)
Definition log_level_from_int (level : Z) : RDKafkaLogLevel :=
  match level with
  | 0 => Level.Emerg | 1 => Level.Alert | 2 => Level.Critical | 3 => Level.Error
  | 4 => Level.Warning | 5 => Level.Notice | 6 => Level.Info | _ => Level.Debug
  end.

(** [log_level_from_global_config]; the arguments are what [log_enabled!]
    answers for the target [librdkafka]. *)
Definition log_level_from_global_config (debug info warn : bool) : RDKafkaLogLevel :=
  if debug then Level.Debug else if info then Level.Info else if warn then Level.Warning
  else Level.Error.

(** ** [ClientConfig] *)

Record ClientConfig := {
  conf_map : gmap string string;
  log_level : RDKafkaLogLevel;
}.

(** [ClientConfig::new], given the global log level. *)
Definition config_new (global : RDKafkaLogLevel) : ClientConfig :=
  {| conf_map := ∅; log_level := global |}.

Definition config_get (c : ClientConfig) (key : string) : option string := conf_map c !! key.

Definition config_set (key value : string) (c : ClientConfig) : ClientConfig :=
  {| conf_map := <[key := value]> (conf_map c); log_level := log_level c |}.

Definition config_remove (key : string) (c : ClientConfig) : ClientConfig :=
  {| conf_map := delete key (conf_map c); log_level := log_level c |}.

Definition set_log_level (l : RDKafkaLogLevel) (c : ClientConfig) : ClientConfig :=
  {| conf_map := conf_map c; log_level := l |}.

(** [Extend<(String, String)>] and [FromIterator<(String, String)>]. *)
Definition config_extend (iter : list (string * string)) (c : ClientConfig) : ClientConfig :=
  {| conf_map := insert_all (conf_map c) iter; log_level := log_level c |}.

Definition config_from_iter (global : RDKafkaLogLevel) (iter : list (string * string)) : ClientConfig :=
  config_extend iter (config_new global).

(** [SENSITIVE_CONFIG_KEYS.contains(&key)]. *)
Definition is_sensitive (key : string) : bool := bool_decide (key ∈ SENSITIVE_CONFIG_KEYS).

(** [ClientConfig::config_map]: the sanitised view. *)
Definition config_map (c : ClientConfig) : gmap string string :=
  map_imap (λ key value, Some (if is_sensitive key then SANITIZED_VALUE_PLACEHOLDER else value))
    (conf_map c).

(** [impl Debug for ClientConfig]: the two fields given to the formatter. *)
Definition config_debug (c : ClientConfig) : RDKafkaLogLevel * gmap string string :=
  (log_level c,
   map_imap (λ key value, if is_sensitive key then None else Some value) (conf_map c)).

(** ** The native configuration *)

(** [rd_kafka_conf_set] answers with a result and the message it writes to the
    error buffer; [rd_kafka_conf_get] with a result, the contents of the buffer
    ([None] for a null pointer) and the size it stores. *)
Class ConfNative := {
  RDKafkaConf : Type;
  rd_kafka_conf_new : RDKafkaConf;
  rd_kafka_conf_set : RDKafkaConf → string → string → RDKafkaConfRes * bytes * RDKafkaConf;
  rd_kafka_conf_get : RDKafkaConf → string → option bytes → nat → RDKafkaConfRes * option bytes * nat;
}.

Section native.
Context `{N : ConfNative}.

(** [str::trim_matches(char::from(0))]. *)
Fixpoint strip_zeros (l : bytes) : bytes :=
  match l with
  | [] => []
  | b :: l' => if bool_decide (b = Byte.x00) then strip_zeros l' else l
  end.

Definition trim_zeros (l : bytes) : bytes := rev (strip_zeros (rev (strip_zeros l))).

Definition get_error (res : RDKafkaConfRes) (key : string) : KafkaError :=
  ClientConfigError res
    (match res with
     | RD_KAFKA_CONF_UNKNOWN => "Unknown configuration name"
     | RD_KAFKA_CONF_INVALID => "Invalid configuration value"
     | RD_KAFKA_CONF_OK => "OK"
     end) key "".

(** [NativeClientConfig::get]. *)
Definition native_config_get (conf : RDKafkaConf) (key : string) : KafkaResult string :=
  match CString_new key with
  | Err e => Err (Nul e)
  | Ok key_c =>
      let '(res, _, size) := rd_kafka_conf_get conf key_c None 0 in
      if conf_is_error res then Err (get_error res key)
      else
        let buf := replicate size Byte.x00 in
        let '(res, buf', _) := rd_kafka_conf_get conf key_c (Some buf) size in
        if conf_is_error res then Err (get_error res key)
        else Ok (str_of_bytes (trim_zeros (utf8_lossy (default buf buf'))))
  end.

(** [NativeClientConfig::set]. *)
Definition native_config_set (key value : string) : comp RDKafkaConf (KafkaResult unit) :=
  match CString_new key, CString_new value with
  | Err e, _ => mret (Err (Nul e))
  | Ok _, Err e => mret (Err (Nul e))
  | Ok key_c, Ok value_c =>
      '(ret, msg) ← call (λ conf, rd_kafka_conf_set conf key_c value_c);
      if conf_is_error ret then
        m ← lift (errbuf_to_string (errbuf_write msg errbuf_new));
        mret (Err (ClientConfigError ret m key value))
      else mret (Ok tt)
  end.

(** [ClientConfig::create_native_config]; [entries] is the order in which the
    [HashMap] iterator yields the entries. *)
Fixpoint set_entries (entries : list (string * string)) : comp RDKafkaConf (KafkaResult unit) :=
  match entries with
  | [] => mret (Ok tt)
  | (key, value) :: entries' => _ ←? native_config_set key value; set_entries entries'
  end.

Definition create_native_config (entries : list (string * string)) : outcome (KafkaResult RDKafkaConf) :=
  '(r, conf) ← set_entries entries rd_kafka_conf_new;
  mret (match r with Ok _ => Ok conf | Err e => Err e end).

End native.

(** What librdkafka documents of [rd_kafka_conf_get]: with a null buffer it
    stores the length of the value with its NUL, with a buffer of that size it
    also copies the value; an unknown name is [CONF_UNKNOWN]. Error messages are
    C strings. *)
Class ConfNativeSpec (N : ConfNative) := {
  conf_value : RDKafkaConf → string → option string;
  conf_value_nul_free c k v : conf_value c k = Some v → zero_position (str_bytes v) = None;
  conf_get_size c k v n : conf_value c k = Some v →
    rd_kafka_conf_get c k None n = (RD_KAFKA_CONF_OK, None, S (length (str_bytes v)));
  conf_get_copy c k v b : conf_value c k = Some v → length b = S (length (str_bytes v)) →
    rd_kafka_conf_get c k (Some b) (length b)
      = (RD_KAFKA_CONF_OK, Some (str_bytes v ++ [Byte.x00]), length b);
  conf_get_unknown c k b n : conf_value c k = None →
    rd_kafka_conf_get c k b n = (RD_KAFKA_CONF_UNKNOWN, b, n);
  conf_set_msg c k v : zero_position (rd_kafka_conf_set c k v).1.2 = None;
}.

(** ** A reference native configuration: the names it knows, no defaults *)

Definition known_names : list string :=
  ["bootstrap.servers"; "group.id"; "client.id"; "sasl.password"; "statistics.interval.ms"].

Definition ref_value (c : gmap string string) (k : string) : option string :=
  v ← c !! k; if decide (zero_position (str_bytes v) = None) then Some v else None.

#[export] Instance reference_conf : ConfNative := {
  RDKafkaConf := gmap string string;
  rd_kafka_conf_new := ∅;
  rd_kafka_conf_set c k v :=
    if decide (k ∈ known_names) then (RD_KAFKA_CONF_OK, [], <[k := v]> c)
    else (RD_KAFKA_CONF_UNKNOWN, str_bytes "No such configuration property", c);
  rd_kafka_conf_get c k b n :=
    match ref_value c k with
    | None => (RD_KAFKA_CONF_UNKNOWN, b, n)
    | Some v =>
        match b with
        | None => (RD_KAFKA_CONF_OK, None, S (length (str_bytes v)))
        | Some b => (RD_KAFKA_CONF_OK, Some (take (n - 1) (str_bytes v) ++ [Byte.x00]), n)
        end
    end;
}.

#[export, refine] Instance reference_conf_spec : ConfNativeSpec reference_conf := {|
  conf_value := ref_value;
|}.
Proof.
  - intros c k v. unfold ref_value. intros (w & _ & H)%bind_Some.
    case_decide; [by injection H as <-|done].
  - intros c k v n H. simpl. by rewrite H.
  - intros c k v b H Hb. simpl. rewrite H, Hb. simpl. by rewrite Nat.sub_0_r, firstn_all.
  - intros c k b n H. simpl. by rewrite H.
  - intros c k v. simpl. by case_decide.
Defined.

(** ** Lemmas *)

Lemma log_level_from_discr l : log_level_from_int (log_level_discr l) = l.
Proof. by destruct l. Qed.

Lemma strip_zeros_head b l : b ≠ Byte.x00 → strip_zeros (b :: l) = b :: l.
Proof. intros H. simpl. by rewrite bool_decide_eq_false_2. Qed.

Lemma zero_position_elem l : zero_position l = None → Byte.x00 ∉ l.
Proof.
  induction l as [|b l IH]; simpl; [intros _; apply not_elem_of_nil|].
  case_bool_decide as Hb; [done|]. intros H%fmap_None. apply not_elem_of_cons. by auto.
Qed.

Lemma strip_zeros_free l : Byte.x00 ∉ l → strip_zeros l = l.
Proof.
  destruct l as [|b l]; [done|]. intros [H _]%not_elem_of_cons. apply strip_zeros_head. congruence.
Qed.

(** A C string read with its NUL loses the NUL and nothing else. *)
Lemma trim_zeros_cstr l : zero_position l = None → trim_zeros (l ++ [Byte.x00]) = l.
Proof.
  intros H%zero_position_elem. unfold trim_zeros. destruct l as [|b l]; [done|].
  assert (b ≠ Byte.x00) by (intros ->; apply H; left).
  rewrite <- app_comm_cons, strip_zeros_head by done. rewrite app_comm_cons, rev_app_distr.
  cbn [rev app]. cbn [strip_zeros]. rewrite bool_decide_eq_true_2 by done.
  change (rev l ++ [b]) with (rev (b :: l)). rewrite strip_zeros_free, rev_involutive; [done|].
  by rewrite list_elem_of_In, <- in_rev, <- list_elem_of_In.
Qed.

(** ** What [set] does to a native configuration *)

Section setting.
Context `{N : ConfNative} `{!ConfNativeSpec N}.

(** [set] refuses the entry with this error. *)
Inductive refuses (conf : RDKafkaConf) (k v : string) : KafkaError → Prop :=
| refuses_key e : CString_new k = Err e → refuses conf k v (Nul e)
| refuses_value e : is_Ok (CString_new k) = true → CString_new v = Err e → refuses conf k v (Nul e)
| refuses_native res msg conf' :
    CString_new k = Ok k → CString_new v = Ok v →
    rd_kafka_conf_set conf k v = (res, msg, conf') → conf_is_error res = true →
    refuses conf k v (ClientConfigError res (to_string_lossy (str_of_bytes (take 511 msg))) k v).

(** Every entry is accepted in turn. *)
Inductive accepts : RDKafkaConf → list (string * string) → RDKafkaConf → Prop :=
| accepts_nil conf : accepts conf [] conf
| accepts_cons conf k v msg conf' entries conf'' :
    CString_new k = Ok k → CString_new v = Ok v →
    rd_kafka_conf_set conf k v = (RD_KAFKA_CONF_OK, msg, conf') →
    accepts conf' entries conf'' → accepts conf ((k, v) :: entries) conf''.

Lemma native_config_set_cases k v conf :
  (∃ msg conf', CString_new k = Ok k ∧ CString_new v = Ok v
     ∧ rd_kafka_conf_set conf k v = (RD_KAFKA_CONF_OK, msg, conf')
     ∧ native_config_set k v conf = Done (Ok tt, conf'))
  ∨ ∃ e conf', refuses conf k v e ∧ native_config_set k v conf = Done (Err e, conf').
Proof.
  unfold native_config_set. destruct (CString_new k) as [k'|e] eqn:Ek.
  2:{ right. exists (Nul e), conf. split; [by constructor|done]. }
  destruct (CString_new v) as [v'|e] eqn:Ev.
  2:{ right. exists (Nul e), conf. split; [apply refuses_value; [by rewrite Ek|done]|done]. }
  assert (k' = k ∧ v' = v) as [-> ->].
  { unfold CString_new in Ek, Ev. split; repeat case_match; congruence. }
  pose proof (conf_set_msg conf k v) as Hm.
  destruct (rd_kafka_conf_set conf k v) as [[res msg] conf'] eqn:E.
  unfold mbind, comp_bind, call. rewrite E. simpl in Hm. destruct (conf_is_error res) eqn:Er.
  - right. exists (ClientConfigError res (to_string_lossy (str_of_bytes (take 511 msg))) k v), conf'.
    split; [by econstructor|]. by rewrite errbuf_to_string_write.
  - left. exists msg, conf'. split_and!; [done..| |done]. unfold conf_is_error in Er.
    apply bool_decide_eq_false, dec_stable in Er. by subst res.
Qed.

Lemma set_entries_cases entries conf :
  (∃ conf', accepts conf entries conf' ∧ set_entries entries conf = Done (Ok tt, conf'))
  ∨ ∃ pre k v suf conf' e conf'', entries = pre ++ (k, v) :: suf ∧ accepts conf pre conf'
      ∧ refuses conf' k v e ∧ set_entries entries conf = Done (Err e, conf'').
Proof.
  revert conf. induction entries as [|[k v] entries IH]; intros conf.
  { left. exists conf. split; [constructor|done]. }
  cbn [set_entries]. destruct (native_config_set_cases k v conf)
    as [(msg & conf' & Hk & Hv & Hs & Hr)|(e & conf' & He & Hr)].
  - rewrite (try_bind_ok _ _ _ _ _ Hr).
    destruct (IH conf') as [(c & Ha & Hc)|(pre & k' & v' & suf & c & e & c' & -> & Ha & He & Hc)].
    + left. exists c. split; [by econstructor|done].
    + right. exists ((k, v) :: pre), k', v', suf, c, e, c'. split_and!; [done|by econstructor|done..].
  - right. exists [], k, v, entries, conf, e, conf'. split_and!; [done|constructor|done|].
    by apply try_bind_err.
Qed.

End setting.

(** ** Properties *)

Lemma lookup_config_map c k :
  config_map c !! k = (λ v, if is_sensitive k then SANITIZED_VALUE_PLACEHOLDER else v) <$> conf_map c !! k.
Proof. unfold config_map. rewrite map_lookup_imap. by destruct (conf_map c !! k). Qed.

Lemma lookup_config_debug c k :
  (config_debug c).2 !! k = if is_sensitive k then None else conf_map c !! k.
Proof.
  unfold config_debug. simpl. rewrite map_lookup_imap. destruct (conf_map c !! k); simpl; by case_match.
Qed.

(** The values of sensitive parameters do not influence what
    [config_map] and [Debug] show: two configurations with the same log level and
    the same parameters, that differ at most in the values of sensitive ones, have
    equal views; and both views show every other parameter with its value. *)
Theorem sanitised_views c1 c2 :
  log_level c1 = log_level c2 → dom (conf_map c1) = dom (conf_map c2) →
  (∀ k, is_sensitive k = false → conf_map c1 !! k = conf_map c2 !! k) →
  config_map c1 = config_map c2 ∧ config_debug c1 = config_debug c2
  ∧ ∀ k, is_sensitive k = false →
      config_map c1 !! k = config_get c1 k ∧ (config_debug c1).2 !! k = config_get c1 k.
Proof.
  intros Hl Hd Hv. split_and!.
  - apply map_eq. intros k. rewrite !lookup_config_map. destruct (is_sensitive k) eqn:E.
    + destruct (conf_map c1 !! k) eqn:E1, (conf_map c2 !! k) eqn:E2; try done.
      * apply elem_of_dom_2 in E1. rewrite Hd in E1. by apply not_elem_of_dom in E2.
      * apply elem_of_dom_2 in E2. rewrite <- Hd in E2. by apply not_elem_of_dom in E1.
    + by rewrite Hv.
  - assert ((config_debug c1).2 = (config_debug c2).2) as H.
    { apply map_eq. intros k. rewrite !lookup_config_debug.
      destruct (is_sensitive k) eqn:E; [done|]. by apply Hv. }
    unfold config_debug in *. simpl in H. by rewrite H, Hl.
  - intros k E. rewrite lookup_config_map, lookup_config_debug, E. unfold config_get.
    by destruct (conf_map c1 !! k).
Qed.

Lemma sanitised_views_witness :
  let c v := config_set "sasl.password" v (config_set "group.id" "g" (config_new Level.Info)) in
  config_map (c "secret") = config_map (c "other") ∧ config_debug (c "secret") = config_debug (c "other").
Proof.
  intros c. destruct (sanitised_views (c "secret") (c "other")) as (H1 & H2 & _);
    [reflexivity|vm_compute; reflexivity| |split; [exact H1|exact H2]].
  intros k Hk. unfold c, config_set. simpl. rewrite !(lookup_insert_ne _ "sasl.password"); [done|..];
    intros <-; vm_compute in Hk; discriminate.
Defined.

Section native_properties.
Context `{N : ConfNative} `{!ConfNativeSpec N}.

Lemma native_config_get_value conf key v :
  nul_free key = true → conf_value conf key = Some v → is_str v = true → native_config_get conf key = Ok v.
Proof.
  intros Hk Hv Hs. unfold native_config_get.
  rewrite CString_new_ok by done. rewrite (conf_get_size _ _ _ _ Hv). cbn -[replicate].
  set (buf := replicate (S (length (str_bytes v))) Byte.x00).
  assert (length buf = S (length (str_bytes v))) as Hb by apply length_replicate.
  rewrite <- Hb, (conf_get_copy _ _ _ _ Hv Hb). simpl.
  rewrite utf8_lossy_valid_id by (by apply utf8_valid_app).
  rewrite trim_zeros_cstr by (by eapply conf_value_nul_free). by rewrite str_of_bytes_str_bytes.
Qed.

(** [NativeClientConfig::get] gives the value that librdkafka
    holds, through the size query and the copy, when the value is UTF-8; an
    unknown name and a name with a NUL byte are the errors the caller sees. *)
Theorem native_config_get_spec conf key :
  (∀ v, nul_free key = true → conf_value conf key = Some v → is_str v = true →
     native_config_get conf key = Ok v)
  ∧ (nul_free key = true → conf_value conf key = None →
     native_config_get conf key
     = Err (ClientConfigError RD_KAFKA_CONF_UNKNOWN "Unknown configuration name" key ""))
  ∧ (nul_free key = false → ∃ e, native_config_get conf key = Err (Nul e)).
Proof.
  split_and!.
  - by apply native_config_get_value.
  - intros Hk Hv. unfold native_config_get. rewrite CString_new_ok by done. by rewrite (conf_get_unknown _ _ _ _ Hv).
  - intros Hk. unfold native_config_get. destruct (CString_new_err key Hk) as [i ->]. by eexists.
Qed.

(** Whatever order the [HashMap] yields the entries in,
    [create_native_config] returns: either every entry was accepted and the
    native configuration is the one they build from the empty one, or there is a
    first entry that is refused, all entries before it were accepted, and the
    error is that entry's. *)
Theorem create_native_config_spec entries :
  (∃ conf, create_native_config entries = Done (Ok conf) ∧ accepts rd_kafka_conf_new entries conf)
  ∨ ∃ pre k v suf conf e, create_native_config entries = Done (Err e)
      ∧ entries = pre ++ (k, v) :: suf ∧ accepts rd_kafka_conf_new pre conf ∧ refuses conf k v e.
Proof.
  unfold create_native_config, mbind, outcome_bind.
  destruct (set_entries_cases entries rd_kafka_conf_new)
    as [(conf & Ha & ->)|(pre & k & v & suf & conf & e & c & -> & Ha & He & ->)].
  - left. by exists conf.
  - right. by exists pre, k, v, suf, conf, e.
Qed.

End native_properties.

Lemma native_config_get_spec_witness :
  native_config_get (N := reference_conf) {[ "group.id" := "g1" ]} "group.id" = Ok "g1".
Proof.
  apply (proj1 (native_config_get_spec (N := reference_conf) {[ "group.id" := "g1" ]} "group.id"));
    vm_compute; reflexivity.
Defined.

Lemma create_native_config_spec_witness :
  (∃ conf, create_native_config (N := reference_conf) [("group.id", "g"); ("bad", "x")] = Done (Ok conf)
     ∧ accepts rd_kafka_conf_new [("group.id", "g"); ("bad", "x")] conf)
  ∨ ∃ pre k v suf conf e,
      create_native_config (N := reference_conf) [("group.id", "g"); ("bad", "x")] = Done (Err e)
      ∧ [("group.id", "g"); ("bad", "x")] = pre ++ (k, v) :: suf
      ∧ accepts rd_kafka_conf_new pre conf ∧ refuses conf k v e.
Proof. exact (create_native_config_spec (N := reference_conf) [("group.id", "g"); ("bad", "x")]). Defined.
