(* ===== verification/Message.v ===== *)
(** * Messages and headers

    [src/message.rs]: timestamps, the [Headers] and [Message] traits with their
    provided methods, borrowed and owned headers, borrowed and owned messages,
    and the byte conversions. librdkafka's header list and message accessors are
    the classes [HeadersNative] and [MessageNative]; what librdkafka documents of
    header lists is [HeadersNativeSpec]. *)

From stdpp Require Import strings gmap prelude.
From S2P Require Import Prelude ErrorCodes KafkaErrors Util.

Local Open Scope Z_scope.

(** ** Timestamps *)

Module Ts.
Inductive Timestamp : Type :=
| NotAvailable
| CreateTime (t : Z)
| LogAppendTime (t : Z).
End Ts.
Abbreviation Timestamp := Ts.Timestamp.

#[export] Instance Timestamp_eq_dec : EqDecision Timestamp.
Proof. solve_decision. Defined.

(** [Timestamp::to_millis]. *)
Definition to_millis (t : Timestamp) : option Z :=
  match t with
  | Ts.NotAvailable | Ts.CreateTime (-1) | Ts.LogAppendTime (-1) => None
  | Ts.CreateTime t | Ts.LogAppendTime t => Some t
  end.

(** [From<i64>] and [From<SystemTime>]; a system time is nanoseconds since the epoch. *)
Definition timestamp_of_i64 (system_time : Z) : Timestamp := Ts.CreateTime system_time.
Definition timestamp_of_system_time (system_time : Z) : Timestamp :=
  Ts.CreateTime (millis_to_epoch system_time).

(** [Timestamp::now], with what [SystemTime::now] returns. *)
Definition timestamp_now (now : Z) : Timestamp := timestamp_of_system_time now.

(** ** Byte conversions *)

Class FromBytes (V : Type) := {
  from_bytes_error : Type;
  from_bytes : bytes → result from_bytes_error V;
}.

Class ToBytes (V : Type) := to_bytes : V → bytes.

(** [str::Utf8Error]; where it points is not modelled. *)
Inductive Utf8Error : Set := utf8_error.

#[export] Instance FromBytes_bytes : FromBytes bytes := {
  from_bytes_error := unit;
  from_bytes b := Ok b;
}.

#[export] Instance FromBytes_str : FromBytes string := {
  from_bytes_error := Utf8Error;
  from_bytes b := match from_utf8 b with Some s => Ok s | None => Err utf8_error end;
}.

#[export] Instance ToBytes_bytes : ToBytes bytes := λ b, b.
#[export] Instance ToBytes_str : ToBytes string := str_bytes.
#[export] Instance ToBytes_unit : ToBytes unit := λ _, [].

(** ** Headers *)

Record Header (V : Type) := mkHeader { key : string; value : option V }.
Arguments mkHeader {V} _ _.
Arguments key {V} _.
Arguments value {V} _.

(** [Header::parse]. *)
Definition parse {V} `{!FromBytes V} (h : Header bytes) : result from_bytes_error (Header V) :=
  match value h with
  | None => Ok (mkHeader (key h) None)
  | Some b => v ← from_bytes b; mret (mkHeader (key h) (Some v))
  end.

(** [trait Headers]: the required methods. *)
Class Headers (H : Type) := {
  count : H → nat;
  try_get : H → nat → outcome (option (Header bytes));
}.

Section headers_trait.
Context {H : Type} `{!Headers H}.

Definition out_of_bounds : string := "headers index out of bounds".

(** [Headers::get]. *)
Definition get_header (h : H) (idx : nat) : outcome (Header bytes) :=
  o ← try_get h idx; expect out_of_bounds o.

(** [Headers::try_get_as]. *)
Definition try_get_as {V} `{!FromBytes V} (h : H) (idx : nat)
    : outcome (option (result from_bytes_error (Header V))) :=
  o ← try_get h idx; mret (option_map parse o).

(** [Headers::get_as]. *)
Definition get_as {V} `{!FromBytes V} (h : H) (idx : nat)
    : outcome (result from_bytes_error (Header V)) :=
  o ← try_get_as h idx; expect out_of_bounds o.

(** [Headers::iter] and [HeadersIter::next]. *)
Record HeadersIter := { it_headers : H; it_index : nat }.

Definition iter (h : H) : HeadersIter := {| it_headers := h; it_index := 0 |}.

Definition next : comp HeadersIter (option (Header bytes)) :=
  self ← get;
  if decide (it_index self < count (it_headers self))%nat then
    item ← lift (get_header (it_headers self) (it_index self));
    _ ← put {| it_headers := it_headers self; it_index := S (it_index self) |};
    mret (Some item)
  else mret None.

(** A [for] loop over the iterator that collects at most [fuel] items. *)
Fixpoint drain (fuel : nat) : comp HeadersIter (list (Header bytes)) :=
  match fuel with
  | O => mret []
  | S fuel =>
      o ← next;
      match o with
      | None => mret []
      | Some item => items ← drain fuel; mret (item :: items)
      end
  end.

End headers_trait.
Arguments HeadersIter H : clear implicits.

(** The native header list. [rd_kafka_header_get_all] answers with the name,
    a C string, and the value, null or a buffer with a size. *)
Class HeadersNative := {
  RDKafkaHeaders : Type;
  rd_kafka_headers_new : nat → RDKafkaHeaders;
  rd_kafka_header_add : RDKafkaHeaders → bytes → Z → carray Byte.byte → Z → RDKafkaRespErr * RDKafkaHeaders;
  rd_kafka_header_cnt : RDKafkaHeaders → nat;
  rd_kafka_header_get_all : RDKafkaHeaders → nat → RDKafkaRespErr * string * carray Byte.byte * nat;
  rd_kafka_headers_copy : RDKafkaHeaders → option RDKafkaHeaders;
}.

(** A buffer read as a C string ends at its first NUL. *)
Definition c_string (l : bytes) : string :=
  str_of_bytes (match zero_position l with Some i => take i l | None => l end).

(** What librdkafka documents: a new list is empty and writable; adding to a
    writable list appends a copy of the name and value and succeeds; reading
    past the end is [NOENT]; a copy is a writable list with the same headers. *)
Class HeadersNativeSpec (N : HeadersNative) := {
  native_headers : RDKafkaHeaders → list (bytes * option bytes);
  writable : RDKafkaHeaders → Prop;
  headers_new_spec n : native_headers (rd_kafka_headers_new n) = [] ∧ writable (rd_kafka_headers_new n);
  header_add_spec h k v : writable h →
    let '(err, h') := rd_kafka_header_add h k (Z.of_nat (length k)) v
                        (match v with Some b => Z.of_nat (length b) | None => 0 end) in
    err = RD_KAFKA_RESP_ERR_NO_ERROR ∧ native_headers h' = native_headers h ++ [(k, v)] ∧ writable h';
  header_cnt_spec h : rd_kafka_header_cnt h = length (native_headers h);
  header_get_all_some h i k v : native_headers h !! i = Some (k, v) →
    rd_kafka_header_get_all h i
    = (RD_KAFKA_RESP_ERR_NO_ERROR, c_string k, v, match v with Some b => length b | None => 0%nat end);
  header_get_all_none h i : native_headers h !! i = None →
    (rd_kafka_header_get_all h i).1.1.1 = RD_KAFKA_RESP_ERR__NOENT;
  headers_copy_spec h : ∃ h', rd_kafka_headers_copy h = Some h'
    ∧ native_headers h' = native_headers h ∧ writable h';
}.

Section headers.
Context `{N : HeadersNative}.

(** [BorrowedHeaders] and [OwnedHeaders] are both pointers to the native list. *)
Definition borrowed_try_get (h : RDKafkaHeaders) (idx : nat) : outcome (option (Header bytes)) :=
  let '(err, name, value_ptr, value_size) := rd_kafka_header_get_all h idx in
  if resp_is_error err then Done None
  else
    k ← expect "called `Result::unwrap()` on an `Err` value" (cstr_to_str name);
    mret (Some (mkHeader k (match value_ptr with
                            | None => None
                            | Some _ => Some (ptr_to_slice value_ptr value_size)
                            end))).

#[export] Instance Headers_native : Headers RDKafkaHeaders := {
  count := rd_kafka_header_cnt;
  try_get := borrowed_try_get;
}.

(** [OwnedHeaders::new_with_capacity] and [new]. *)
Definition headers_with_capacity (initial_capacity : nat) : RDKafkaHeaders :=
  rd_kafka_headers_new initial_capacity.
Definition headers_new : RDKafkaHeaders := headers_with_capacity 5.

(** [OwnedHeaders::insert]. *)
Definition insert_header {V} `{!ToBytes V} (header : Header V) : comp RDKafkaHeaders unit :=
  let '(value_ptr, value_len) :=
    match value header with
    | None => (None, 0)
    | Some v => (Some (to_bytes v), Z.of_nat (length (to_bytes v)))
    end in
  let k := str_bytes (key header) in
  err ← call (λ h, rd_kafka_header_add h k (Z.of_nat (length k)) value_ptr value_len);
  if resp_is_error err then panic "assertion failed: !err.is_error()" else mret tt.

(** [OwnedHeaders::clone] and [BorrowedHeaders::detach]. *)
Definition headers_clone (h : RDKafkaHeaders) : outcome RDKafkaHeaders :=
  expect "called `Option::unwrap()` on a `None` value" (rd_kafka_headers_copy h).
Definition headers_detach (h : RDKafkaHeaders) : outcome RDKafkaHeaders :=
  expect "called `Option::unwrap()` on a `None` value" (rd_kafka_headers_copy h).

End headers.

(** ** Native and borrowed messages *)

(** [bindings.rs], [enum rd_kafka_timestamp_type_t]. *)
Inductive rd_kafka_timestamp_type_t : Set :=
| RD_KAFKA_TIMESTAMP_NOT_AVAILABLE
| RD_KAFKA_TIMESTAMP_CREATE_TIME
| RD_KAFKA_TIMESTAMP_LOG_APPEND_TIME.

(** [bindings.rs], [struct rd_kafka_message_s]; [msg_private] is the opaque
    pointer of a produced message, null or an address. *)
Record RDKafkaMessage := {
  msg_err : RDKafkaRespErr;
  msg_rkt : nat;
  msg_partition : Z;
  msg_payload : carray Byte.byte;
  msg_len : nat;
  msg_key : carray Byte.byte;
  msg_key_len : nat;
  msg_offset : Z;
  msg_private : option nat;
}.

Class MessageNative `{N : HeadersNative} := {
  rd_kafka_topic_name : nat → string;
  rd_kafka_message_timestamp : RDKafkaMessage → Z * rd_kafka_timestamp_type_t;
  rd_kafka_message_headers : RDKafkaMessage → RDKafkaRespErr * option RDKafkaHeaders;
}.

(** [struct OwnedMessage]. *)
Record OwnedMessage `{N : HeadersNative} := {
  om_payload : option bytes;
  om_key : option bytes;
  om_topic : string;
  om_timestamp : Timestamp;
  om_partition : Z;
  om_offset : Z;
  om_headers : option RDKafkaHeaders;
}.

(** [trait Message]: the required methods. Reading the topic may panic. *)
Class Message `{N : HeadersNative} (M : Type) := {
  message_key : M → option bytes;
  payload : M → option bytes;
  topic : M → outcome string;
  partition : M → Z;
  offset : M → Z;
  timestamp : M → Timestamp;
  headers : M → option RDKafkaHeaders;
}.

Section message_trait.
Context `{N : HeadersNative} {M : Type} `{!Message M}.

(** [Message::payload_view] and [key_view]. *)
Definition payload_view {P} `{!FromBytes P} (m : M) : option (result from_bytes_error P) :=
  option_map from_bytes (payload m).
Definition key_view {K} `{!FromBytes K} (m : M) : option (result from_bytes_error K) :=
  option_map from_bytes (message_key m).

End message_trait.

Section borrowed.
Context `{N : HeadersNative} `{!MessageNative}.

(** [BorrowedMessage::from_client]. *)
Definition from_client (ptr : RDKafkaMessage) : KafkaResult RDKafkaMessage :=
  if resp_is_error (msg_err ptr) then
    Err (match msg_err ptr with
         | RD_KAFKA_RESP_ERR__PARTITION_EOF => PartitionEOF (msg_partition ptr)
         | e => MessageConsumption (code_of e)
         end)
  else Ok ptr.

(** [type DeliveryResult]. *)
Definition DeliveryResult : Type := result (KafkaError * RDKafkaMessage) RDKafkaMessage.

(** [BorrowedMessage::from_dr_event]; a null message pointer panics. *)
Definition from_dr_event (ptr : option RDKafkaMessage) : outcome DeliveryResult :=
  borrowed_message ← expect "called `Option::unwrap()` on a `None` value" ptr;
  if resp_is_error (msg_err borrowed_message) then
    mret (Err (MessageProduction (code_of (msg_err borrowed_message)), borrowed_message))
  else mret (Ok borrowed_message).

(** [BorrowedMessage::timestamp]. *)
Definition borrowed_timestamp (m : RDKafkaMessage) : Timestamp :=
  let '(timestamp, timestamp_type) := rd_kafka_message_timestamp m in
  if timestamp =? -1 then Ts.NotAvailable
  else match timestamp_type with
       | RD_KAFKA_TIMESTAMP_NOT_AVAILABLE => Ts.NotAvailable
       | RD_KAFKA_TIMESTAMP_CREATE_TIME => Ts.CreateTime timestamp
       | RD_KAFKA_TIMESTAMP_LOG_APPEND_TIME => Ts.LogAppendTime timestamp
       end.

(** [BorrowedMessage::headers]. *)
Definition borrowed_headers (m : RDKafkaMessage) : option RDKafkaHeaders :=
  let '(err, native_headers_ptr) := rd_kafka_message_headers m in
  match code_of err with
  | Code.NoError => native_headers_ptr
  | Code.NoEnt => None
  | _ => None
  end.

#[export] Instance Message_borrowed : Message RDKafkaMessage := {
  message_key m := ptr_to_opt_slice (msg_key m) (msg_key_len m);
  payload m := ptr_to_opt_slice (msg_payload m) (msg_len m);
  topic m := expect "Topic name is not valid UTF-8" (cstr_to_str (rd_kafka_topic_name (msg_rkt m)));
  partition := msg_partition;
  offset := msg_offset;
  timestamp := borrowed_timestamp;
  headers := borrowed_headers;
}.

(** [BorrowedMessage::detach]. *)
Definition detach (m : RDKafkaMessage) : outcome OwnedMessage :=
  t ← topic m;
  h ← match headers m with None => mret None | Some h => h' ← headers_detach h; mret (Some h') end;
  mret {| om_payload := payload m; om_key := message_key m; om_topic := t; om_timestamp := timestamp m;
          om_partition := partition m; om_offset := offset m; om_headers := h |}.

End borrowed.

(** ** Owned messages *)

Section owned.
Context `{N : HeadersNative}.

(** [OwnedMessage::new]. *)
Definition owned_message_new (pl k : option bytes) (t : string) (ts : Timestamp) (p o : Z)
    (h : option RDKafkaHeaders) : OwnedMessage :=
  {| om_payload := pl; om_key := k; om_topic := t; om_timestamp := ts; om_partition := p;
     om_offset := o; om_headers := h |}.

Definition with_headers (h : option RDKafkaHeaders) (m : OwnedMessage) : OwnedMessage :=
  owned_message_new (om_payload m) (om_key m) (om_topic m) (om_timestamp m) (om_partition m)
    (om_offset m) h.

(** [OwnedMessage::detach_headers]: [Option::take]. *)
Definition detach_headers : comp OwnedMessage (option RDKafkaHeaders) :=
  self ← get; _ ← put (with_headers None self); mret (om_headers self).

(** [OwnedMessage::replace_headers]. *)
Definition replace_headers (h : option RDKafkaHeaders) (m : OwnedMessage) : OwnedMessage :=
  match h with Some h => with_headers (Some h) m | None => with_headers None m end.

Definition set_payload (pl : option bytes) (m : OwnedMessage) : OwnedMessage :=
  let upd v := owned_message_new v (om_key m) (om_topic m) (om_timestamp m) (om_partition m)
                 (om_offset m) (om_headers m) in
  match pl with Some b => upd (Some b) | None => upd None end.

Definition set_key (k : option bytes) (m : OwnedMessage) : OwnedMessage :=
  let upd v := owned_message_new (om_payload m) v (om_topic m) (om_timestamp m) (om_partition m)
                 (om_offset m) (om_headers m) in
  match k with Some b => upd (Some b) | None => upd None end.

Definition set_topic (t : string) (m : OwnedMessage) : OwnedMessage :=
  owned_message_new (om_payload m) (om_key m) t (om_timestamp m) (om_partition m) (om_offset m)
    (om_headers m).

Definition set_timestamp (ts : Timestamp) (m : OwnedMessage) : OwnedMessage :=
  owned_message_new (om_payload m) (om_key m) (om_topic m) ts (om_partition m) (om_offset m)
    (om_headers m).

Definition set_partition (p : Z) (m : OwnedMessage) : OwnedMessage :=
  owned_message_new (om_payload m) (om_key m) (om_topic m) (om_timestamp m) p (om_offset m)
    (om_headers m).

Definition set_offset (o : Z) (m : OwnedMessage) : OwnedMessage :=
  owned_message_new (om_payload m) (om_key m) (om_topic m) (om_timestamp m) (om_partition m) o
    (om_headers m).

#[export] Instance Message_owned : Message OwnedMessage := {
  message_key := om_key;
  payload := om_payload;
  topic m := Done (om_topic m);
  partition := om_partition;
  offset := om_offset;
  timestamp := om_timestamp;
  headers := om_headers;
}.

(** [#[derive(Clone)]] on [OwnedMessage]: the headers are copied natively. *)
Definition owned_message_clone (m : OwnedMessage) : outcome OwnedMessage :=
  h ← match om_headers m with None => mret None | Some h => h' ← headers_clone h; mret (Some h') end;
  mret (with_headers h m).

End owned.

(** ** A reference header list *)

#[export] Instance reference_headers : HeadersNative := {
  RDKafkaHeaders := list (bytes * option bytes);
  rd_kafka_headers_new _ := [];
  rd_kafka_header_add h k n v m :=
    (RD_KAFKA_RESP_ERR_NO_ERROR, h ++ [(take (Z.to_nat n) k, take (Z.to_nat m) <$> v)]);
  rd_kafka_header_cnt h := length h;
  rd_kafka_header_get_all h i :=
    match h !! i with
    | Some (k, v) => (RD_KAFKA_RESP_ERR_NO_ERROR, c_string k, v,
                      match v with Some b => length b | None => 0%nat end)
    | None => (RD_KAFKA_RESP_ERR__NOENT, "", None, 0%nat)
    end;
  rd_kafka_headers_copy h := Some h;
}.

#[export, refine] Instance reference_headers_spec : HeadersNativeSpec reference_headers := {|
  native_headers h := h;
  writable _ := True;
|}.
Proof.
  - done.
  - intros h k v _. simpl. split_and!; [done| |done]. rewrite Nat2Z.id, firstn_all.
    destruct v; simpl; [|done]. by rewrite Nat2Z.id, firstn_all.
  - done.
  - intros h i k v H. simpl. by rewrite H.
  - intros h i H. simpl. by rewrite H.
  - intros h. by exists h.
Defined.

(** ** Lemmas *)

Lemma from_bytes_to_bytes_str (s : string) : is_str s = true → from_bytes (to_bytes s) = Ok s.
Proof.
  unfold is_str. intros H. simpl. unfold from_utf8, to_bytes, ToBytes_str.
  by rewrite H, str_of_bytes_str_bytes.
Qed.

Lemma zero_position_nul_free s : nul_free s = true → zero_position (str_bytes s) = None.
Proof.
  unfold nul_free. induction s as [|a s IH]; [done|]. cbn [nul_position].
  change (str_bytes (String a s)) with (Ascii.byte_of_ascii a :: str_bytes s). cbn [zero_position].
  destruct (Ascii.eqb_spec a nul) as [->|Ha]; [done|]. rewrite bool_decide_eq_false_2.
  - destruct (nul_position s); simpl; [done|]. intros _. by rewrite IH.
  - intros E. apply Ha. rewrite <- (Ascii.ascii_of_byte_of_ascii a), E. done.
Qed.

Lemma c_string_key s : nul_free s = true → c_string (str_bytes s) = s.
Proof. intros H%zero_position_nul_free. unfold c_string. by rewrite H, str_of_bytes_str_bytes. Qed.

(** What a C string keeps of a buffer, byte by byte. *)
Definition before_nul (l : bytes) : bytes := match zero_position l with Some i => take i l | None => l end.

Lemma before_nul_cons b l : before_nul (b :: l) = if bool_decide (b = Byte.x00) then [] else b :: before_nul l.
Proof. unfold before_nul. cbn [zero_position]. case_bool_decide; [done|]. by destruct (zero_position l). Qed.

Lemma before_nul_nonzero b l : b ≠ Byte.x00 → before_nul (b :: l) = b :: before_nul l.
Proof. intros Hb. by rewrite before_nul_cons, bool_decide_eq_false_2. Qed.

Lemma in_range_nonzero lo hi b : (0 < lo)%N → in_range lo hi b = true → b ≠ Byte.x00.
Proof. intros Hlo [Hle%N.leb_le _]%andb_true_iff ->. change (byte_n Byte.x00) with 0%N in Hle. lia. Qed.

Lemma is_cont_nonzero b : is_cont b = true → b ≠ Byte.x00.
Proof. by apply in_range_nonzero. Qed.

Lemma second_of_3_nonzero b0 b : second_of_3 b0 b = true → b ≠ Byte.x00.
Proof. unfold second_of_3. repeat case_match; [by apply in_range_nonzero..|apply is_cont_nonzero]. Qed.

Lemma second_of_4_nonzero b0 b : second_of_4 b0 b = true → b ≠ Byte.x00.
Proof. unfold second_of_4. repeat case_match; [by apply in_range_nonzero..|apply is_cont_nonzero]. Qed.

Lemma width_nonzero b n : utf8_char_width b = S (S n) → b ≠ Byte.x00.
Proof. by intros Hw ->. Qed.

(** UTF-8 cut at its first NUL is UTF-8: no character but NUL itself has a zero byte. *)
Lemma before_nul_utf8 l : utf8_valid l = true → utf8_valid (before_nul l) = true.
Proof.
  induction l as [l IH] using bytes_ind_length. intros Hl. destruct l as [|b0 r0]; [done|]. simpl in Hl.
  destruct (utf8_char_width b0) as [|[|n]] eqn:E; [by destruct r0| |pose proof (width_nonzero _ _ E) as Hb].
  { rewrite before_nul_cons. case_bool_decide; [done|]. cbn [utf8_valid]. rewrite E. apply IH; [simpl; lia|done]. }
  rewrite before_nul_nonzero by done.
  destruct n as [|[|[|n]]]; repeat (case_match; try done); simplify_eq;
    repeat match goal with H : _ && _ = true |- _ => apply andb_true_iff in H as [? ?] end;
    rewrite !before_nul_nonzero by eauto using is_cont_nonzero, second_of_3_nonzero, second_of_4_nonzero;
    cbn [utf8_valid]; rewrite E;
    repeat match goal with H : ?b = true |- context [?b] => rewrite H end; simpl; apply IH; simpl; [lia|done|lia|done|lia|done].
Qed.

(** The name of a header is read back as a Rust string. *)
Lemma c_string_is_str s : is_str s = true → is_str (c_string (str_bytes s)) = true.
Proof. intros Hs. unfold is_str, c_string. rewrite str_bytes_str_of_bytes. by apply before_nul_utf8. Qed.

Section header_lemmas.
Context `{N : HeadersNative} `{!HeadersNativeSpec N}.

(** Headers whose names can be read back. *)
Definition key_ok (k : string) : Prop := nul_free k = true ∧ is_str k = true.

(** The native entry of a header with an encodable value. *)
Definition entry_of {V} `{!ToBytes V} (h : Header V) : bytes * option bytes :=
  (str_bytes (key h), to_bytes <$> value h).

Definition header_of_entry (e : bytes * option bytes) : Header bytes :=
  mkHeader (c_string e.1) e.2.

Lemma try_get_some (h : RDKafkaHeaders) i e : native_headers h !! i = Some e →
  is_str (c_string e.1) = true → try_get h i = Done (Some (header_of_entry e)).
Proof.
  destruct e as [k v]. intros Hi Hk. simpl in *. unfold borrowed_try_get.
  rewrite (header_get_all_some _ _ _ _ Hi). simpl. unfold cstr_to_str. rewrite Hk. simpl.
  unfold mret, outcome_ret, header_of_entry. simpl. do 3 f_equal. destruct v as [b|]; [|done].
  unfold ptr_to_slice. case_decide as H; [by apply nil_length_inv in H as ->|by rewrite firstn_all].
Qed.

Lemma try_get_none (h : RDKafkaHeaders) i : (length (native_headers h) ≤ i)%nat → try_get h i = Done None.
Proof.
  intros Hi%lookup_ge_None_2. simpl. unfold borrowed_try_get.
  pose proof (header_get_all_none h i Hi) as He.
  destruct (rd_kafka_header_get_all h i) as [[[err name] v] n]. simpl in He. by subst err.
Qed.

Lemma insert_header_run {V} `{!ToBytes V} (x : Header V) h : writable h →
  ∃ h', insert_header x h = Done (tt, h')
        ∧ native_headers h' = native_headers h ++ [entry_of x] ∧ writable h'.
Proof.
  intros Hw. pose proof (header_add_spec h (str_bytes (key x)) (to_bytes <$> value x) Hw) as Ha.
  unfold insert_header, mbind, comp_bind, call. destruct x as [k [v|]]; simpl in *;
    destruct (rd_kafka_header_add _ _ _ _ _) as [err h'] eqn:E; destruct Ha as (-> & Hn & Hw');
    by exists h'.
Qed.

Lemma next_some (h : RDKafkaHeaders) i e : native_headers h !! i = Some e →
  is_str (c_string e.1) = true →
  next {| it_headers := h; it_index := i |}
  = Done (Some (header_of_entry e), {| it_headers := h; it_index := S i |}).
Proof.
  intros Hi Hk. unfold next, mbind, comp_bind, Prelude.get. simpl. rewrite header_cnt_spec.
  pose proof (lookup_lt_Some _ _ _ Hi). rewrite decide_True by done.
  unfold get_header. rewrite (try_get_some _ _ _ Hi Hk). done.
Qed.

Lemma next_none (h : RDKafkaHeaders) i : (length (native_headers h) ≤ i)%nat →
  next {| it_headers := h; it_index := i |} = Done (None, {| it_headers := h; it_index := i |}).
Proof.
  intros Hi. unfold next, mbind, comp_bind, Prelude.get. simpl. rewrite header_cnt_spec.
  by rewrite decide_False by lia.
Qed.

Lemma drain_run fuel (h : RDKafkaHeaders) i :
  Forall (λ e, is_str (c_string e.1) = true) (native_headers h) →
  (length (native_headers h) < i + fuel)%nat →
  ∃ it, drain fuel {| it_headers := h; it_index := i |}
        = Done (header_of_entry <$> drop i (native_headers h), it).
Proof.
  intros Hk. revert i. induction fuel as [|fuel IH]; intros i Hf; cbn [drain].
  { rewrite drop_ge by lia. by eexists. }
  unfold mbind, comp_bind. destruct (native_headers h !! i) as [e|] eqn:Hi.
  - rewrite (next_some _ _ _ Hi (Forall_lookup_1 _ _ _ _ Hk Hi)).
    destruct (IH (S i)) as [it Hit]; [lia|]. rewrite Hit. rewrite (drop_S _ _ _ Hi). by exists it.
  - apply lookup_ge_None_1 in Hi. rewrite next_none by done. rewrite drop_ge by done. by eexists.
Qed.

End header_lemmas.

(** Building a header list by successive inserts. *)
Fixpoint insert_headers `{N : HeadersNative} {V} `{!ToBytes V} (hs : list (Header V))
    : comp RDKafkaHeaders unit :=
  match hs with [] => mret tt | x :: hs => _ ← insert_header x; insert_headers hs end.

Lemma insert_headers_run `{N : HeadersNative} `{!HeadersNativeSpec N} {V} `{!ToBytes V} (hs : list (Header V)) h :
  writable h → ∃ h', insert_headers hs h = Done (tt, h')
    ∧ native_headers h' = native_headers h ++ (entry_of <$> hs) ∧ writable h'.
Proof.
  revert h. induction hs as [|x hs IH]; intros h Hw; cbn [insert_headers].
  { exists h. split_and!; [done|by rewrite app_nil_r|done]. }
  unfold mbind, comp_bind. destruct (insert_header_run x h Hw) as (h1 & -> & H1 & Hw1).
  destruct (IH h1 Hw1) as (h2 & -> & H2 & Hw2). exists h2. split_and!; [done| |done].
  by rewrite H2, H1, <- app_assoc.
Qed.

(** ** Properties *)

Section properties.
Context `{N : HeadersNative} `{!HeadersNativeSpec N}.

Lemma header_keys_readable {V} `{!ToBytes V} (hs : list (Header V)) :
  Forall (λ x, is_str (key x) = true) hs → Forall (λ e, is_str (c_string e.1) = true) (entry_of <$> hs).
Proof. intros H. apply Forall_fmap. eapply Forall_impl; [done|]. intros x Hx. by apply c_string_is_str. Qed.

(** The header as it is read back: its value as bytes. *)
Definition encoded {V} `{!ToBytes V} (x : Header V) : Header bytes :=
  mkHeader (key x) (to_bytes <$> value x).

Lemma header_of_entry_of {V} `{!ToBytes V} (x : Header V) : key_ok (key x) →
  header_of_entry (entry_of x) = encoded x.
Proof. intros [H _]. unfold header_of_entry, entry_of. simpl. by rewrite c_string_key. Qed.

(** C35: inserting headers into a new list and iterating over the result gives those
    headers, in insertion order, duplicate names included, with their values as bytes
    (an absent value stays absent), and the iterator ends by itself: any number of steps
    above the count gives the same. A name without a NUL comes back as it was; the names
    are given to librdkafka with their lengths and read back as C strings, so that a
    name with a NUL comes back without what follows its first NUL. The names are any
    Rust strings. *)
Theorem headers_roundtrip {V} `{!ToBytes V} (hs : list (Header V)) fuel :
  Forall (λ x, is_str (key x) = true) hs → (length hs < fuel)%nat →
  ∃ h it out, insert_headers hs headers_new = Done (tt, h) ∧ count h = length hs
    ∧ drain fuel (iter h) = Done (out, it)
    ∧ Forall2 (λ x y, value y = to_bytes <$> value x ∧ (nul_free (key x) = true → key y = key x)
        ∧ ∀ i, zero_position (str_bytes (key x)) = Some i → key y = str_of_bytes (take i (str_bytes (key x)))) hs out.
Proof.
  intros Hk Hf. destruct (headers_new_spec 5) as [Hn Hw].
  destruct (insert_headers_run hs headers_new Hw) as (h & Hr & He & _).
  unfold headers_new, headers_with_capacity in He. rewrite Hn in He. simpl in He.
  destruct (drain_run fuel h 0) as [it Hit].
  - rewrite He. by apply header_keys_readable.
  - rewrite He, length_fmap. lia.
  - exists h, it, (header_of_entry <$> (entry_of <$> hs)).
    split_and!; [done|by simpl; rewrite header_cnt_spec, He, length_fmap|unfold iter; by rewrite Hit, He, drop_0|].
    rewrite <- list_fmap_compose. apply Forall2_fmap_r, Forall_Forall2_diag, Forall_true. intros x. simpl.
    split_and!; [done|apply c_string_key|]. intros i Hi. unfold c_string. by rewrite Hi.
Qed.

(** Indexed access: below the count, [get], [try_get] and
    [get_as::<str>] give the header at that position, a value inserted as a string
    being parsed back to the same string; from the count on, [try_get] and
    [try_get_as] are [None] and [get] and [get_as] panic. *)
Theorem headers_get_spec (hs : list (Header string)) h i :
  Forall (λ x, key_ok (key x)) hs → native_headers h = entry_of <$> hs →
  Forall (λ x, from_option (λ v, is_str v = true) True (value x)) hs →
  match hs !! i with
  | Some x => get_header h i = Done (encoded x) ∧ try_get h i = Done (Some (encoded x))
              ∧ get_as h i = Done (Ok x)
  | None => try_get h i = Done None ∧ try_get_as (V := string) h i = Done None
            ∧ get_header h i = Panic out_of_bounds ∧ get_as (V := string) h i = Panic out_of_bounds
  end.
Proof.
  intros Hk Hh Hv. unfold get_as, try_get_as, get_header, mbind, outcome_bind.
  destruct (hs !! i) as [x|] eqn:Hx.
  - assert (native_headers h !! i = Some (entry_of x)) as He.
    { by rewrite Hh, list_lookup_fmap, Hx. }
    pose proof (Forall_lookup_1 _ _ _ _ Hk Hx) as Hkx.
    rewrite (try_get_some _ _ _ He) by (simpl; rewrite c_string_key; apply Hkx).
    rewrite header_of_entry_of by done.
    split_and!; [done..|]. unfold mret, outcome_ret, option_map, expect, parse. f_equal. cbn [encoded value key].
    pose proof (Forall_lookup_1 _ _ _ _ Hv Hx) as H3. destruct x as [k [v|]]; simpl in *; [|done].
    change (str_bytes v) with (to_bytes v). pose proof (from_bytes_to_bytes_str v H3) as Hb. simpl in Hb.
    unfold mbind, result_bind. rewrite Hb. done.
  - rewrite try_get_none by (rewrite Hh, length_fmap; by apply lookup_ge_None_1). done.
Qed.

Context `{!MessageNative}.

(** A polled message that carries an error never becomes a
    message: the end of a partition is [PartitionEOF] with its number, every
    other error is [MessageConsumption] with the translated code; a message
    without error is passed on unchanged. *)
Theorem from_client_spec ptr :
  from_client ptr
  = match msg_err ptr with
    | RD_KAFKA_RESP_ERR_NO_ERROR => Ok ptr
    | RD_KAFKA_RESP_ERR__PARTITION_EOF => Err (PartitionEOF (msg_partition ptr))
    | e => Err (MessageConsumption (code_of e))
    end.
Proof. unfold from_client, resp_is_error. by destruct (msg_err ptr). Qed.

(** Detaching copies the fields, and the headers with librdkafka. *)
Lemma detach_run (m : RDKafkaMessage) :
  is_str (rd_kafka_topic_name (msg_rkt m)) = true →
  ∃ o, detach m = Done o
    ∧ message_key o = message_key m ∧ payload o = payload m ∧ topic o = topic m
    ∧ partition o = partition m ∧ offset o = offset m ∧ timestamp o = timestamp m
    ∧ (native_headers <$> headers o) = (native_headers <$> headers m).
Proof.
  intros Ht. unfold detach. simpl. unfold cstr_to_str. rewrite Ht. unfold mbind, outcome_bind. simpl.
  destruct (borrowed_headers m) as [h|].
  - destruct (headers_copy_spec h) as (h' & Hc & Hn & _). unfold headers_detach. rewrite Hc. simpl.
    eexists. split; [done|]. simpl. by rewrite Hn.
  - eexists. split; [done|]. done.
Qed.

(** Detaching a message whose topic is UTF-8 succeeds, and the
    owned message answers every accessor of the [Message] trait as the borrowed
    one did; its headers are a copy with the same entries. *)
Theorem detach_spec (m : RDKafkaMessage) :
  is_str (rd_kafka_topic_name (msg_rkt m)) = true →
  ∃ o, detach m = Done o
    ∧ message_key o = message_key m ∧ payload o = payload m ∧ topic o = topic m
    ∧ partition o = partition m ∧ offset o = offset m ∧ timestamp o = timestamp m
    ∧ (native_headers <$> headers o) = (native_headers <$> headers m).
Proof. apply detach_run. Qed.

(** The timestamp of a message gives milliseconds exactly
    when librdkafka reports a time other than -1 of a known type, and then those
    milliseconds; so [to_millis] never hides a time that was reported. *)
Theorem borrowed_timestamp_spec m :
  to_millis (borrowed_timestamp m)
  = match rd_kafka_message_timestamp m with
    | (_, RD_KAFKA_TIMESTAMP_NOT_AVAILABLE) => None
    | (t, _) => if decide (t = -1) then None else Some t
    end.
Proof.
  unfold borrowed_timestamp. destruct (rd_kafka_message_timestamp m) as [t ty].
  destruct (Z.eqb_spec t (-1)) as [->|Ht]; [by destruct ty|].
  destruct ty; simpl; try done; rewrite decide_False by done;
    destruct t as [|p|[p|p|]]; done.
Qed.

End properties.

#[export] Instance reference_message : MessageNative := {
  rd_kafka_topic_name _ := "topic";
  rd_kafka_message_timestamp _ := (1000, RD_KAFKA_TIMESTAMP_CREATE_TIME);
  rd_kafka_message_headers _ :=
    (RD_KAFKA_RESP_ERR_NO_ERROR, Some [(str_bytes "trace", Some (str_bytes "1"))]);
}.

Definition sample_message : RDKafkaMessage :=
  {| msg_err := RD_KAFKA_RESP_ERR_NO_ERROR; msg_rkt := 0; msg_partition := 3;
     msg_payload := Some (str_bytes "hello"); msg_len := 5; msg_key := None; msg_key_len := 0;
     msg_offset := 42; msg_private := None |}.

Definition sample_headers : list (Header string) :=
  [mkHeader "key1" (Some "value1"); mkHeader "key2" None].

Lemma headers_roundtrip_witness :
  ∃ h it out, insert_headers sample_headers headers_new = Done (tt, h) ∧ count h = 2%nat
    ∧ drain 3 (iter h) = Done (out, it)
    ∧ Forall2 (λ x y, value y = to_bytes <$> value x ∧ (nul_free (key x) = true → key y = key x)
        ∧ ∀ i, zero_position (str_bytes (key x)) = Some i → key y = str_of_bytes (take i (str_bytes (key x))))
        sample_headers out.
Proof. apply (headers_roundtrip sample_headers 3); [repeat constructor|vm_compute; lia]. Defined.

(** A name with a NUL loses its end. *)
Example header_name_cut : ∃ h it,
  insert_headers [mkHeader ("a" +:+ String nul "b") (Some "v")] headers_new = Done (tt, h)
  ∧ drain 2 (iter h) = Done ([mkHeader "a" (Some (str_bytes "v"))], it).
Proof. eexists _, _. split; vm_compute; reflexivity. Qed.

Definition sample_native : RDKafkaHeaders (HeadersNative := reference_headers) :=
  entry_of <$> sample_headers.

Lemma headers_get_spec_witness :
  get_as sample_native 0%nat = Done (Ok (mkHeader "key1" (Some "value1"))).
Proof.
  apply (headers_get_spec sample_headers sample_native 0);
    [repeat constructor|reflexivity|repeat constructor].
Defined.

Lemma detach_spec_witness :
  ∃ o, detach sample_message = Done o
    ∧ message_key o = None ∧ payload o = Some (str_bytes "hello") ∧ topic o = Done "topic"
    ∧ partition o = 3 ∧ offset o = 42 ∧ timestamp o = Ts.CreateTime 1000
    ∧ (native_headers <$> headers o) = Some [(str_bytes "trace", Some (str_bytes "1"))].
Proof.
  destruct (detach_spec sample_message) as (o & H1 & H2 & H3 & H4 & H5 & H6 & H7 & H8); [reflexivity|].
  exists o. split_and!; [exact H1|exact H2|exact H3|exact H4|exact H5|exact H6|exact H7|exact H8].
Defined.
