(* ===== verification/ClusterInfo.v ===== *)
(** * Cluster metadata and consumer groups

    [src/metadata.rs] and [src/groups.rs]: read-only views of the C structures
    that librdkafka returns. The structures of [bindings.rs] are records; an
    array pointer is [None] when null. [slice::from_raw_parts] requires a
    non-null pointer to enough elements, whatever the length: a call that breaks
    this is the panic [undefined]. *)

From stdpp Require Import strings gmap prelude.
From S2P Require Import Prelude ErrorCodes KafkaErrors Util.

Local Open Scope Z_scope.

Definition undefined {A} : outcome A := Panic "unsafe precondition(s) violated: slice::from_raw_parts".

(** [slice::from_raw_parts(ptr, cnt as usize)]. *)
Definition from_raw_parts {T} (ptr : carray T) (cnt : Z) : outcome (list T) :=
  match ptr with
  | None => undefined
  | Some l => if decide (as_usize cnt ≤ Z.of_nat (length l)) then Done (take (Z.to_nat (as_usize cnt)) l)
              else undefined
  end.

(** [CStr::from_ptr(p).to_str().expect(msg)]. *)
Definition utf8_field (msg : string) (s : string) : outcome string := expect msg (cstr_to_str s).

Module Metadata.

Record RDKafkaMetadataBroker := { b_id : Z; b_host : string; b_port : Z }.

Record RDKafkaMetadataPartition := {
  p_id : Z;
  p_err : RDKafkaRespErr;
  p_leader : Z;
  replica_cnt : Z;
  p_replicas : carray Z;
  isr_cnt : Z;
  p_isrs : carray Z;
}.

Record RDKafkaMetadataTopic := {
  t_topic : string;
  partition_cnt : Z;
  t_partitions : carray RDKafkaMetadataPartition;
  t_err : RDKafkaRespErr;
}.

Record RDKafkaMetadata := {
  broker_cnt : Z;
  m_brokers : carray RDKafkaMetadataBroker;
  topic_cnt : Z;
  m_topics : carray RDKafkaMetadataTopic;
  m_orig_broker_id : Z;
  m_orig_broker_name : string;
}.

Definition broker_id (b : RDKafkaMetadataBroker) : Z := b_id b.
Definition host (b : RDKafkaMetadataBroker) : outcome string :=
  utf8_field "Broker host is not a valid UTF-8 string" (b_host b).
Definition port (b : RDKafkaMetadataBroker) : Z := b_port b.

Definition partition_id (p : RDKafkaMetadataPartition) : Z := p_id p.
Definition leader (p : RDKafkaMetadataPartition) : Z := p_leader p.
Definition partition_error (p : RDKafkaMetadataPartition) : option RDKafkaRespErr :=
  if resp_is_error (p_err p) then Some (p_err p) else None.
Definition replicas (p : RDKafkaMetadataPartition) : outcome (list Z) :=
  from_raw_parts (p_replicas p) (replica_cnt p).
Definition isr (p : RDKafkaMetadataPartition) : outcome (list Z) :=
  from_raw_parts (p_isrs p) (isr_cnt p).

Definition topic_name (t : RDKafkaMetadataTopic) : outcome string :=
  utf8_field "Topic name is not a valid UTF-8 string" (t_topic t).
Definition partitions (t : RDKafkaMetadataTopic) : outcome (list RDKafkaMetadataPartition) :=
  from_raw_parts (t_partitions t) (partition_cnt t).
Definition topic_error (t : RDKafkaMetadataTopic) : option RDKafkaRespErr :=
  if resp_is_error (t_err t) then Some (t_err t) else None.

(** [Metadata::from_ptr]. *)
Definition from_ptr (ptr : option RDKafkaMetadata) : outcome RDKafkaMetadata :=
  expect "called `Option::unwrap()` on a `None` value" ptr.
Definition orig_broker_id (m : RDKafkaMetadata) : Z := m_orig_broker_id m.
Definition orig_broker_name (m : RDKafkaMetadata) : outcome string :=
  utf8_field "Broker name is not a valid UTF-8 string" (m_orig_broker_name m).
Definition brokers (m : RDKafkaMetadata) : outcome (list RDKafkaMetadataBroker) :=
  from_raw_parts (m_brokers m) (broker_cnt m).
Definition topics (m : RDKafkaMetadata) : outcome (list RDKafkaMetadataTopic) :=
  from_raw_parts (m_topics m) (topic_cnt m).

End Metadata.

Module Groups.

Record RDKafkaGroupMemberInfo := {
  member_id : string;
  g_client_id : string;
  g_client_host : string;
  member_metadata : carray Byte.byte;
  member_metadata_size : Z;
  member_assignment : carray Byte.byte;
  member_assignment_size : Z;
}.

Record RDKafkaGroupInfo := {
  g_broker : Metadata.RDKafkaMetadataBroker;
  g_group : string;
  g_err : RDKafkaRespErr;
  g_state : string;
  g_protocol_type : string;
  g_protocol : string;
  g_members : carray RDKafkaGroupMemberInfo;
  member_cnt : Z;
}.

Record RDKafkaGroupList := { l_groups : carray RDKafkaGroupInfo; group_cnt : Z }.

Definition id (m : RDKafkaGroupMemberInfo) : outcome string :=
  utf8_field "Member id is not a valid UTF-8 string" (member_id m).
Definition client_id (m : RDKafkaGroupMemberInfo) : outcome string :=
  utf8_field "Client id is not a valid UTF-8 string" (g_client_id m).
Definition client_host (m : RDKafkaGroupMemberInfo) : outcome string :=
  utf8_field "Member host is not a valid UTF-8 string" (g_client_host m).

(** A nullable byte field: the null test comes before the slice. *)
Definition opt_bytes (ptr : carray Byte.byte) (size : Z) : outcome (option bytes) :=
  match ptr with
  | None => Done None
  | Some _ => s ← from_raw_parts ptr size; mret (Some s)
  end.

Definition metadata (m : RDKafkaGroupMemberInfo) : outcome (option bytes) :=
  opt_bytes (member_metadata m) (member_metadata_size m).
Definition assignment (m : RDKafkaGroupMemberInfo) : outcome (option bytes) :=
  opt_bytes (member_assignment m) (member_assignment_size m).

Definition name (g : RDKafkaGroupInfo) : outcome string :=
  utf8_field "Group name is not a valid UTF-8 string" (g_group g).
Definition members (g : RDKafkaGroupInfo) : outcome (list RDKafkaGroupMemberInfo) :=
  match g_members g with
  | None => Done []
  | Some _ => from_raw_parts (g_members g) (member_cnt g)
  end.
Definition state (g : RDKafkaGroupInfo) : outcome string :=
  utf8_field "State is not a valid UTF-8 string" (g_state g).
Definition protocol (g : RDKafkaGroupInfo) : outcome string :=
  utf8_field "Protocol name is not a valid UTF-8 string" (g_protocol g).
Definition protocol_type (g : RDKafkaGroupInfo) : outcome string :=
  utf8_field "Protocol type is not a valid UTF-8 string" (g_protocol_type g).

(** [GroupList::from_ptr] and [groups]. *)
Definition from_ptr (ptr : option RDKafkaGroupList) : outcome RDKafkaGroupList :=
  expect "called `Option::unwrap()` on a `None` value" ptr.
Definition groups (l : RDKafkaGroupList) : outcome (list RDKafkaGroupInfo) :=
  from_raw_parts (l_groups l) (group_cnt l).

End Groups.

(** ** Lemmas *)

(** A counted array as C passes it: non-null, with its exact length. *)
Definition counted {T} (ptr : carray T) (cnt : Z) (l : list T) : Prop :=
  ptr = Some l ∧ cnt = Z.of_nat (length l) ∧ cnt ≤ i32_max.

Lemma from_raw_parts_counted {T} (ptr : carray T) cnt l : counted ptr cnt l → from_raw_parts ptr cnt = Done l.
Proof.
  intros (-> & -> & H). unfold from_raw_parts, as_usize. rewrite Z.mod_small by (int_unfold; lia).
  rewrite decide_True by lia. by rewrite Nat2Z.id, firstn_all.
Qed.

Lemma utf8_field_ok msg s : is_str s = true → utf8_field msg s = Done s.
Proof. intros H. unfold utf8_field, cstr_to_str. by rewrite H. Qed.

(** ** Properties *)

Import Metadata.

(** The tree that the metadata accessors expose: brokers, and topics with their
    partitions, each with replicas and in-sync replicas. *)
Record partition_view := { pv_id : Z; pv_leader : Z; pv_replicas : list Z; pv_isr : list Z }.

Inductive shows_partition : RDKafkaMetadataPartition → partition_view → Prop :=
| shows_partition_intro p v :
    pv_id v = p_id p → pv_leader v = p_leader p →
    counted (p_replicas p) (replica_cnt p) (pv_replicas v) → counted (p_isrs p) (isr_cnt p) (pv_isr v) →
    shows_partition p v.

Inductive shows_topic : RDKafkaMetadataTopic → string * list partition_view → Prop :=
| shows_topic_intro t ps vs :
    is_str (t_topic t) = true → counted (t_partitions t) (partition_cnt t) ps →
    Forall2 shows_partition ps vs → shows_topic t (t_topic t, vs).

(** Reading the whole tree through the public accessors. *)
Definition read_partition (p : RDKafkaMetadataPartition) : outcome partition_view :=
  r ← replicas p; i ← isr p;
  mret {| pv_id := partition_id p; pv_leader := leader p; pv_replicas := r; pv_isr := i |}.

Fixpoint map_outcome {A B} (f : A → outcome B) (l : list A) : outcome (list B) :=
  match l with [] => Done [] | x :: l => y ← f x; ys ← map_outcome f l; mret (y :: ys) end.

Definition read_topic (t : RDKafkaMetadataTopic) : outcome (string * list partition_view) :=
  n ← topic_name t; ps ← partitions t; vs ← map_outcome read_partition ps; mret (n, vs).

Definition read_topics (m : RDKafkaMetadata) : outcome (list (string * list partition_view)) :=
  ts ← topics m; map_outcome read_topic ts.

Lemma map_outcome_Forall2 {A B} (f : A → outcome B) (R : A → B → Prop) l k :
  (∀ x y, R x y → f x = Done y) → Forall2 R l k → map_outcome f l = Done k.
Proof. intros Hf. induction 1 as [|x y l k Hx _ IH]; [done|]. simpl. rewrite (Hf _ _ Hx). simpl. by rewrite IH. Qed.

Lemma read_partition_shows p v : shows_partition p v → read_partition p = Done v.
Proof.
  intros [p' v' H1 H2 H3 H4]. unfold read_partition, replicas, isr.
  rewrite (from_raw_parts_counted _ _ _ H3), (from_raw_parts_counted _ _ _ H4).
  unfold partition_id, leader. rewrite <- H1, <- H2. by destruct v'.
Qed.

Lemma read_topic_shows t v : shows_topic t v → read_topic t = Done v.
Proof.
  intros [t' ps vs H1 H2 H3]. unfold read_topic, topic_name, partitions.
  rewrite (utf8_field_ok _ _ H1), (from_raw_parts_counted _ _ _ H2). simpl.
  by rewrite (map_outcome_Forall2 _ _ _ _ read_partition_shows H3).
Qed.

(** On a metadata structure whose arrays are non-null and
    counted exactly, at every level, and whose topic names are UTF-8, walking the
    tree with the accessors returns exactly the tree, with no panic. *)
Theorem metadata_read m ts vs :
  counted (m_topics m) (topic_cnt m) ts → Forall2 shows_topic ts vs → read_topics m = Done vs.
Proof.
  intros H1 H2. unfold read_topics, topics. rewrite (from_raw_parts_counted _ _ _ H1). simpl.
  apply (map_outcome_Forall2 _ _ _ _ read_topic_shows H2).
Qed.

Lemma metadata_read_witness :
  let p := {| p_id := 0; p_err := RD_KAFKA_RESP_ERR_NO_ERROR; p_leader := 1; replica_cnt := 2;
              p_replicas := Some [1; 2]; isr_cnt := 1; p_isrs := Some [1] |} in
  let t := {| t_topic := "t"; partition_cnt := 1; t_partitions := Some [p];
              t_err := RD_KAFKA_RESP_ERR_NO_ERROR |} in
  read_topics {| broker_cnt := 0; m_brokers := Some []; topic_cnt := 1; m_topics := Some [t];
                 m_orig_broker_id := 1; m_orig_broker_name := "b" |}
  = Done [("t", [{| pv_id := 0; pv_leader := 1; pv_replicas := [1; 2]; pv_isr := [1] |}])].
Proof.
  intros p t. apply (metadata_read _ [t]); [by split_and!|].
  constructor; [|constructor]. apply (shows_topic_intro t [p]); [reflexivity|by split_and!|].
  constructor; [|constructor]. constructor; [reflexivity..|by split_and!|by split_and!].
Defined.

(** An empty array that librdkafka passes as a null pointer is
    handled by [members] only: every other array accessor calls
    [slice::from_raw_parts] on the null pointer, which its contract forbids. *)
Theorem null_arrays m t p g l :
  m_brokers m = None → m_topics m = None → t_partitions t = None → p_replicas p = None →
  p_isrs p = None → Groups.l_groups l = None → Groups.g_members g = None →
  brokers m = undefined ∧ topics m = undefined ∧ partitions t = undefined ∧ replicas p = undefined
  ∧ isr p = undefined ∧ Groups.groups l = undefined ∧ Groups.members g = Done [].
Proof.
  intros H1 H2 H3 H4 H5 H6 H7.
  unfold brokers, topics, partitions, replicas, isr, Groups.groups, Groups.members.
  by rewrite H1, H2, H3, H4, H5, H6, H7.
Qed.

Lemma null_arrays_witness :
  Groups.groups {| Groups.l_groups := None; Groups.group_cnt := 0 |} = undefined.
Proof.
  pose (m := {| broker_cnt := 0; m_brokers := None; topic_cnt := 0; m_topics := None;
                m_orig_broker_id := 1; m_orig_broker_name := "b" |}).
  pose (t := {| t_topic := "t"; partition_cnt := 0; t_partitions := None;
                t_err := RD_KAFKA_RESP_ERR_NO_ERROR |}).
  pose (p := {| p_id := 0; p_err := RD_KAFKA_RESP_ERR_NO_ERROR; p_leader := 1; replica_cnt := 0;
                p_replicas := None; isr_cnt := 0; p_isrs := None |}).
  pose (g := {| Groups.g_broker := {| b_id := 0; b_host := "h"; b_port := 1 |}; Groups.g_group := "g";
                Groups.g_err := RD_KAFKA_RESP_ERR_NO_ERROR; Groups.g_state := "Empty";
                Groups.g_protocol_type := ""; Groups.g_protocol := ""; Groups.g_members := None;
                Groups.member_cnt := 0 |}).
  exact (proj1 (proj2 (proj2 (proj2 (proj2 (proj2 (null_arrays m t p g
    {| Groups.l_groups := None; Groups.group_cnt := 0 |}
    eq_refl eq_refl eq_refl eq_refl eq_refl eq_refl eq_refl))))))).
Defined.
