(* ===== verification/Client.v ===== *)
(** * The client

    [src/client.rs]: the client context, the events of a native queue and their
    dispatch ([Client::poll_event] and its handlers), client creation, and the
    metadata, watermark, cluster id, group list and fatal error queries.

    librdkafka and the user's context run against a world [W] of their own: the
    classes [ClientNative] and [ClientContext] give each call as a function on
    [W], and everything the crate does with them is a computation on [W]. An
    event is a record of what librdkafka's accessors return on it. *)

From stdpp Require Import strings gmap prelude.
From S2P Require Import Prelude ErrorCodes KafkaErrors Util TopicPartitionList Config Message ClusterInfo.

Local Open Scope Z_scope.

(** ** [str::trim] *)

(** The UTF-8 encodings of the characters with the property [White_Space]. *)
Definition white_space : list bytes :=
  [[Byte.x09]; [Byte.x0a]; [Byte.x0b]; [Byte.x0c]; [Byte.x0d]; [Byte.x20];
   [Byte.xc2; Byte.x85]; [Byte.xc2; Byte.xa0]; [Byte.xe1; Byte.x9a; Byte.x80];
   [Byte.xe2; Byte.x80; Byte.x80]; [Byte.xe2; Byte.x80; Byte.x81]; [Byte.xe2; Byte.x80; Byte.x82];
   [Byte.xe2; Byte.x80; Byte.x83]; [Byte.xe2; Byte.x80; Byte.x84]; [Byte.xe2; Byte.x80; Byte.x85];
   [Byte.xe2; Byte.x80; Byte.x86]; [Byte.xe2; Byte.x80; Byte.x87]; [Byte.xe2; Byte.x80; Byte.x88];
   [Byte.xe2; Byte.x80; Byte.x89]; [Byte.xe2; Byte.x80; Byte.x8a]; [Byte.xe2; Byte.x80; Byte.xa8];
   [Byte.xe2; Byte.x80; Byte.xa9]; [Byte.xe2; Byte.x80; Byte.xaf]; [Byte.xe2; Byte.x81; Byte.x9f];
   [Byte.xe3; Byte.x80; Byte.x80]].

Fixpoint strip_prefix (p l : bytes) : option bytes :=
  match p, l with
  | [], _ => Some l
  | a :: p', b :: l' => if bool_decide (a = b) then strip_prefix p' l' else None
  | _ :: _, [] => None
  end.

(** Drops leading occurrences of the given encodings, at most [fuel] of them. *)
Fixpoint strip_while (encs : list bytes) (fuel : nat) (l : bytes) : bytes :=
  match fuel with
  | O => l
  | S fuel' =>
      match list_find (λ e, is_Some (strip_prefix e l)) encs with
      | Some (_, e) => strip_while encs fuel' (drop (length e) l)
      | None => l
      end
  end.

Definition trim (s : string) : string :=
  let l := strip_while white_space (String.length s) (str_bytes s) in
  str_of_bytes (rev (strip_while ((λ e, rev e) <$> white_space) (length l) (rev l))).

(** ** Events *)

Definition RD_KAFKA_EVENT_DR : Z := 1.
Definition RD_KAFKA_EVENT_FETCH : Z := 2.
Definition RD_KAFKA_EVENT_LOG : Z := 4.
Definition RD_KAFKA_EVENT_ERROR : Z := 8.
Definition RD_KAFKA_EVENT_REBALANCE : Z := 16.
Definition RD_KAFKA_EVENT_OFFSET_COMMIT : Z := 32.
Definition RD_KAFKA_EVENT_STATS : Z := 64.
Definition RD_KAFKA_EVENT_OAUTHBEARER_TOKEN_REFRESH : Z := 256.

(** A live event: its type and name, its error, what [rd_kafka_event_log] fills
    in (facility, message, level; [None] when it fails), the statistics, the
    OAuth configuration, the messages, the topic partition list and the topic
    partition. *)
Record RDKafkaEvent := {
  event_type : Z;
  event_name : string;
  event_error : RDKafkaRespErr;
  event_error_string : string;
  event_error_is_fatal : Z;
  event_log : option (string * string * Z);
  event_stats : string;
  event_config_string : option string;
  event_messages : list RDKafkaMessage;
  event_topic_partition_list : option tpl;
  event_topic_partition : option RDKafkaTopicPartition;
}.

(** [enum EventPollResult] and its conversion to an option. *)
Module Poll.
Inductive EventPollResult (T : Type) : Type :=
| None
| EventConsumed
| Event (t : T).
Arguments None {T}.
Arguments EventConsumed {T}.
Arguments Event {T} t.
End Poll.
Abbreviation EventPollResult := Poll.EventPollResult.

Definition poll_result_option {T} (val : EventPollResult T) : option T :=
  match val with
  | Poll.None | Poll.EventConsumed => None
  | Poll.Event evt => Some evt
  end.

(** [struct OAuthToken]. *)
Record OAuthToken := { token : string; principal_name : string; lifetime_ms : Z }.

(** ** The two sides of the client *)

(** The calls to librdkafka. Topics and queues are handles; a null pointer is
    [None]; a call that fills an error buffer answers with the message. *)
Class ClientNative (W : Type) := {
  clock : W → Z;
  rd_kafka_queue_poll : nat → Z → W → option RDKafkaEvent * W;
  rd_kafka_oauthbearer_set_token : string → Z → string → W → RDKafkaRespErr * bytes * W;
  rd_kafka_oauthbearer_set_token_failure : bytes → W → W;
  rd_kafka_rebalance_protocol : W → option string;
  rd_kafka_topic_new : string → W → option nat * W;
  rd_kafka_metadata : Z → option nat → Z → W → RDKafkaRespErr * option Metadata.RDKafkaMetadata * W;
  rd_kafka_query_watermark_offsets : string → Z → Z * Z → Z → W → RDKafkaRespErr * (Z * Z) * W;
  rd_kafka_clusterid : Z → W → option string * W;
  rd_kafka_list_groups : option string → Z → W → RDKafkaRespErr * option Groups.RDKafkaGroupList * W;
  rd_kafka_fatal_error : W → RDKafkaRespErr * bytes * W;
  rd_kafka_queue_new : W → option nat * W;
  rd_kafka_queue_get_consumer : W → option nat * W;
  rd_kafka_queue_get_main : W → option nat * W;
}.

(** [trait ClientContext]: the user's callbacks. *)
Class ClientContext (W : Type) := {
  ENABLE_REFRESH_OAUTH_TOKEN : bool;
  log : RDKafkaLogLevel → string → string → W → W;
  stats_raw : bytes → W → W;
  error : KafkaError → string → W → W;
  generate_oauth_token : option string → W → result string OAuthToken * W;
}.

(** The level of the [log] crate that the default [ClientContext::log] uses. *)
Inductive CrateLevel : Set := crate_error | crate_warn | crate_info | crate_debug.

Definition default_log_level (level : RDKafkaLogLevel) : CrateLevel :=
  match level with
  | Level.Emerg | Level.Alert | Level.Critical | Level.Error => crate_error
  | Level.Warning => crate_warn
  | Level.Notice => crate_info
  | Level.Info => crate_info
  | Level.Debug => crate_debug
  end.

(** [enum RebalanceProtocol]. *)
Inductive RebalanceProtocol : Set := NoProtocol | Eager | Cooperative.

Section client.
Context {W : Type} `{!ClientNative W} `{!ClientContext W}.

(** [NativeClient::rebalance_protocol]. *)
Definition rebalance_protocol (w : W) : outcome RebalanceProtocol :=
  match rd_kafka_rebalance_protocol w with
  | None => Done NoProtocol
  | Some protocol =>
      if String.eqb protocol "NONE" then Done NoProtocol
      else if String.eqb protocol "EAGER" then Done Eager
      else if String.eqb protocol "COOPERATIVE" then Done Cooperative
      else Panic "internal error: entered unreachable code"
  end.

(** [NativeQueue::poll]. *)
Definition queue_poll (queue : nat) (t : Timeout) : comp W (option RDKafkaEvent) :=
  call (rd_kafka_queue_poll queue (as_millis t)).

(** [Client::handle_log_event]. *)
Definition handle_log_event (event : RDKafkaEvent) : comp W unit :=
  match event_log event with
  | Some (fac, str_, level) =>
      modify (log (log_level_from_int level) (trim (to_string_lossy fac)) (trim (to_string_lossy str_)))
  | None => mret tt
  end.

(** [Client::handle_stats_event]. *)
Definition handle_stats_event (event : RDKafkaEvent) : comp W unit :=
  modify (stats_raw (str_bytes (event_stats event))).

(** [Client::handle_error_event]. *)
Definition client_handle_error_event (event : RDKafkaEvent) : comp W unit :=
  modify (error (Global (code_of (event_error event)))
                (trim (to_string_lossy (event_error_string event)))).

(** The closure of [Client::handle_oauth_refresh_event]: a fresh token whose
    strings can be passed to C, or the text of the error. [nul_error_text] is the
    [Display] of [NulError]. *)
Definition nul_error_text (e : NulError) : string :=
  let '(mkNulError pos _) := e in
  String.append "nul byte found in provided data at position: " (format_int (Z.of_nat pos)).

Definition refresh_token (config : option string) : comp W (result string (string * string * Z)) :=
  r ← call (generate_oauth_token (option_map cstr_to_owned config));
  mret (match r with
        | Err e => Err e
        | Ok token_info =>
            match CString_new (token token_info), CString_new (principal_name token_info) with
            | Err e, _ => Err (nul_error_text e)
            | Ok _, Err e => Err (nul_error_text e)
            | Ok t, Ok p => Ok (t, p, lifetime_ms token_info)
            end
        end).

(** [Client::handle_oauth_refresh_event]. The failure message passed on is the
    C string in the error buffer, or the error's text. *)
Definition embedded_null : string := "error while refreshing OAuth token has embedded null character".

Definition handle_oauth_refresh_event (event : RDKafkaEvent) : comp W unit :=
  res ← refresh_token (event_config_string event);
  match res with
  | Ok (t, p, lifetime) =>
      '(code, msg) ← call (rd_kafka_oauthbearer_set_token t lifetime p);
      if decide (code = RD_KAFKA_RESP_ERR_NO_ERROR) then mret tt
      else modify (rd_kafka_oauthbearer_set_token_failure (buf (errbuf_write msg errbuf_new)))
  | Err e =>
      let message := match CString_new e with Ok message => message | Err _ => embedded_null end in
      modify (rd_kafka_oauthbearer_set_token_failure (str_bytes message ++ [Byte.x00]))
  end.

(** [Client::poll_event]. *)
Definition poll_event (queue : nat) (timeout : Timeout) : comp W (EventPollResult RDKafkaEvent) :=
  event ← queue_poll queue timeout;
  match event with
  | Some ev =>
      let evtype := event_type ev in
      if evtype =? RD_KAFKA_EVENT_LOG then
        _ ← handle_log_event ev; mret Poll.EventConsumed
      else if evtype =? RD_KAFKA_EVENT_STATS then
        _ ← handle_stats_event ev; mret Poll.EventConsumed
      else if evtype =? RD_KAFKA_EVENT_ERROR then
        _ ← client_handle_error_event ev; mret (Poll.Event ev)
      else if evtype =? RD_KAFKA_EVENT_OAUTHBEARER_TOKEN_REFRESH then
        _ ← (if ENABLE_REFRESH_OAUTH_TOKEN then handle_oauth_refresh_event ev else mret tt);
        mret Poll.EventConsumed
      else mret (Poll.Event ev)
  | None => mret Poll.None
  end.

(** [Client::native_topic]; the crate unwraps a null topic. *)
Definition native_topic (topic : string) : comp W (KafkaResult nat) :=
  match CString_new topic with
  | Err e => mret (Err (Nul e))
  | Ok topic_c =>
      p ← call (rd_kafka_topic_new topic_c);
      t ← lift (expect "called `Option::unwrap()` on a `None` value" p);
      mret (Ok t)
  end.

(** [Client::fetch_metadata]. *)
Definition fetch_metadata (topic : option string) (timeout : Timeout)
    : comp W (KafkaResult Metadata.RDKafkaMetadata) :=
  fn ←?
    match topic with
    | Some topic_name => t ←? native_topic topic_name; mret (Ok (0, Some t))
    | None => mret (Ok (1, None))
    end;
  '(ret, metadata_ptr) ← call (rd_kafka_metadata fn.1 fn.2 (as_millis timeout));
  if resp_is_error ret then mret (Err (MetadataFetch (code_of ret)))
  else m ← lift (Metadata.from_ptr metadata_ptr); mret (Ok m).

(** [Client::fetch_watermarks]. *)
Definition fetch_watermarks (topic : string) (partition : Z) (timeout : Timeout)
    : comp W (KafkaResult (Z * Z)) :=
  match CString_new topic with
  | Err e => mret (Err (Nul e))
  | Ok topic_c =>
      '(ret, low_high) ←
        call (rd_kafka_query_watermark_offsets topic_c partition (-1, -1) (as_millis timeout));
      mret (if resp_is_error ret then Err (MetadataFetch (code_of ret)) else Ok low_high)
  end.

(** [Client::fetch_cluster_id]. *)
Definition fetch_cluster_id (timeout : Timeout) : comp W (option string) :=
  cluster_id ← call (rd_kafka_clusterid (as_millis timeout));
  mret (match cluster_id with None => None | Some s => from_utf8 (str_bytes s) end).

(** [Client::fetch_group_list]. *)
Definition fetch_group_list (group : option string) (timeout : Timeout)
    : comp W (KafkaResult Groups.RDKafkaGroupList) :=
  match CString_new (default "" group) with
  | Err e => mret (Err (Nul e))
  | Ok group_c =>
      '(ret, group_list_ptr) ←
        call (rd_kafka_list_groups (match group with Some _ => Some group_c | None => None end)
                                   (as_millis timeout));
      if resp_is_error ret then mret (Err (GroupListFetch (code_of ret)))
      else l ← lift (Groups.from_ptr group_list_ptr); mret (Ok l)
  end.

(** [Client::fatal_error]. *)
Definition fatal_error : comp W (option (RDKafkaErrorCode * string)) :=
  '(code, msg) ← call rd_kafka_fatal_error;
  if decide (code = RD_KAFKA_RESP_ERR_NO_ERROR) then mret None
  else s ← lift (errbuf_to_string (errbuf_write msg errbuf_new)); mret (Some (code_of code, s)).

(** [Client::new_native_queue], [consumer_queue] and [main_queue]. *)
Definition new_native_queue : comp W nat :=
  q ← call rd_kafka_queue_new; lift (expect "called `Option::unwrap()` on a `None` value" q).
Definition consumer_queue : comp W (option nat) := call rd_kafka_queue_get_consumer.
Definition main_queue : comp W nat :=
  q ← call rd_kafka_queue_get_main; lift (expect "called `Option::unwrap()` on a `None` value" q).

End client.

(** ** Client creation *)

Definition RD_KAFKA_PRODUCER : Z := 0.
Definition RD_KAFKA_CONSUMER : Z := 1.

(** Creating a client from a configuration. The context's address is stored in
    the configuration; [rd_kafka_new] answers with a handle or a message. *)
Class ClientNew (W : Type) `{N : ConfNative} := {
  rd_kafka_conf_set_opaque : RDKafkaConf → nat → RDKafkaConf;
  rd_kafka_conf_set_events : RDKafkaConf → Z → RDKafkaConf;
  rd_kafka_new : Z → RDKafkaConf → W → option nat * bytes * W;
  rd_kafka_set_log_queue : nat → option nat → W → RDKafkaRespErr * W;
  rd_kafka_set_log_level : nat → Z → W → W;
}.

Section creation.
Context {W : Type} `{!ClientNative W} `{N : ConfNative} `{!ClientNew W}.

(** [Client::new_context_arc] (and [Client::new]): the native client handle. *)
Definition client_new (config : ClientConfig) (native_config : RDKafkaConf) (rd_kafka_type : Z)
    (context : nat) : comp W (KafkaResult nat) :=
  '(r, native_config) ← lift (native_config_set "log.queue" "true"
                                (rd_kafka_conf_set_opaque native_config context));
  match r with
  | Err e => mret (Err e)
  | Ok _ =>
      '(client_ptr, msg) ← call (rd_kafka_new rd_kafka_type native_config);
      match client_ptr with
      | None => m ← lift (errbuf_to_string (errbuf_write msg errbuf_new)); mret (Err (ClientCreation m))
      | Some client =>
          q ← call rd_kafka_queue_get_main;
          ret ← call (rd_kafka_set_log_queue client q);
          if resp_is_error ret then mret (Err (Global (code_of ret)))
          else
            _ ← modify (rd_kafka_set_log_level client (log_level_discr (log_level config)));
            mret (Ok client)
      end
  end.

End creation.

(** ** Clocks *)

(** The clock never goes back, and a queue poll takes time. *)
Class ClockSpec (W : Type) `{!ClientNative W} `{!ClientContext W} : Prop := {
  poll_clock q ms w : clock w < clock (rd_kafka_queue_poll q ms w).2;
  poll_none_clock q ms w w' : 0 ≤ ms → rd_kafka_queue_poll q ms w = (None, w') →
    clock w + ms * nanos_per_milli ≤ clock w';
  log_clock l f m w : clock w ≤ clock (log l f m w);
  stats_clock b w : clock w ≤ clock (stats_raw b w);
  error_clock e r w : clock w ≤ clock (error e r w);
  generate_clock c w : clock w ≤ clock (generate_oauth_token c w).2;
  set_token_clock t l p w : clock w ≤ clock (rd_kafka_oauthbearer_set_token t l p w).2;
  token_failure_clock m w : clock w ≤ clock (rd_kafka_oauthbearer_set_token_failure m w);
}.

(** ** Properties *)

Section properties.
Context {W : Type} `{!ClientNative W} `{!ClientContext W}.

(** The events that [poll_event] keeps for itself. *)
Definition consumed_types : list Z :=
  [RD_KAFKA_EVENT_LOG; RD_KAFKA_EVENT_STATS; RD_KAFKA_EVENT_OAUTHBEARER_TOKEN_REFRESH].

Lemma refresh_token_run c w :
  ∃ r w', refresh_token c w = Done (r, w') ∧ (generate_oauth_token (option_map cstr_to_owned c) w).2 = w'.
Proof.
  unfold refresh_token, mbind, comp_bind, call.
  destruct (generate_oauth_token _ w) as [r w'] eqn:E. by repeat eexists.
Qed.

Lemma zero_position_mid (l r : bytes) : is_Some (zero_position (l ++ Byte.x00 :: r)).
Proof.
  induction l as [|b l IH]; cbn [app zero_position].
  { rewrite bool_decide_eq_true_2 by done. by eexists. }
  case_bool_decide; [by eexists|]. destruct IH as [i ->]. by eexists.
Qed.

Lemma zero_position_write msg : is_Some (zero_position (buf (errbuf_write msg errbuf_new))).
Proof. apply zero_position_mid. Qed.

Lemma handle_oauth_run event w : ∃ w', handle_oauth_refresh_event event w = Done (tt, w').
Proof.
  unfold handle_oauth_refresh_event, mbind, comp_bind, modify, call.
  destruct (refresh_token_run (event_config_string event) w) as (r & w1 & -> & _).
  destruct r as [[[t p] l]|e]; [|by eexists].
  destruct (rd_kafka_oauthbearer_set_token t l p w1) as [[code msg] w2]. case_decide; eexists; reflexivity.
Qed.

(** What [poll_event] does with an event it serves. *)
Definition event_effect (ev : RDKafkaEvent) : comp W unit :=
  if event_type ev =? RD_KAFKA_EVENT_LOG then handle_log_event ev
  else if event_type ev =? RD_KAFKA_EVENT_STATS then handle_stats_event ev
  else if event_type ev =? RD_KAFKA_EVENT_ERROR then client_handle_error_event ev
  else if event_type ev =? RD_KAFKA_EVENT_OAUTHBEARER_TOKEN_REFRESH then
    (if ENABLE_REFRESH_OAUTH_TOKEN then handle_oauth_refresh_event ev else mret tt)
  else mret tt.

Lemma event_effect_run ev w : ∃ w', event_effect ev w = Done (tt, w').
Proof.
  unfold event_effect, handle_log_event. repeat case_match; try (by eexists). apply handle_oauth_run.
Qed.

Lemma consumed_eqb t : bool_decide (t ∈ consumed_types)
  = (t =? RD_KAFKA_EVENT_LOG) || (t =? RD_KAFKA_EVENT_STATS)
    || (t =? RD_KAFKA_EVENT_OAUTHBEARER_TOKEN_REFRESH).
Proof.
  apply eq_bool_prop_intro. rewrite bool_decide_spec, !orb_True, !Is_true_true, !Z.eqb_eq.
  unfold consumed_types. rewrite !elem_of_cons, elem_of_nil. tauto.
Qed.

Lemma poll_event_effect q t w :
  poll_event q t w
  = match rd_kafka_queue_poll q (as_millis t) w with
    | (None, w') => Done (Poll.None, w')
    | (Some ev, w') =>
        match event_effect ev w' with
        | Done (_, w'') =>
            Done (if bool_decide (event_type ev ∈ consumed_types) then Poll.EventConsumed
                  else Poll.Event ev, w'')
        | Panic msg => Panic msg
        end
    end.
Proof.
  unfold poll_event, queue_poll, event_effect, mbind, comp_bind, call.
  destruct (rd_kafka_queue_poll q (as_millis t) w) as [[ev|] w']; [|done].
  rewrite consumed_eqb. set (o := event_type ev).
  destruct (Z.eqb_spec o RD_KAFKA_EVENT_LOG) as [->|]; [by destruct (handle_log_event ev w') as [[[] ?]|]|].
  destruct (Z.eqb_spec o RD_KAFKA_EVENT_STATS) as [->|]; [done|].
  destruct (Z.eqb_spec o RD_KAFKA_EVENT_ERROR) as [->|]; [done|].
  destruct (Z.eqb_spec o RD_KAFKA_EVENT_OAUTHBEARER_TOKEN_REFRESH) as [->|]; [|done].
  destruct ENABLE_REFRESH_OAUTH_TOKEN; [by destruct (handle_oauth_refresh_event ev w') as [[[] ?]|]|done].
Qed.

(** A token refresh request is always answered: either the
    context produced a token whose strings contain no NUL and librdkafka accepted
    it, or librdkafka is told of the failure, with a NUL-terminated message. *)
Theorem oauth_refresh_answered event w :
  ∃ w', handle_oauth_refresh_event event w = Done (tt, w')
    ∧ ((∃ t w1 msg, generate_oauth_token (option_map cstr_to_owned (event_config_string event)) w = (Ok t, w1)
          ∧ nul_free (token t) = true ∧ nul_free (principal_name t) = true
          ∧ rd_kafka_oauthbearer_set_token (token t) (lifetime_ms t) (principal_name t) w1
            = (RD_KAFKA_RESP_ERR_NO_ERROR, msg, w'))
       ∨ ∃ m w1, w' = rd_kafka_oauthbearer_set_token_failure m w1 ∧ is_Some (zero_position m)).
Proof.
  unfold handle_oauth_refresh_event, refresh_token, mbind, comp_bind, call.
  destruct (generate_oauth_token _ w) as [[t|e] w1] eqn:Eg; simpl.
  - unfold CString_new, nul_free. destruct (nul_position (token t)) eqn:Et.
    { eexists. split; [done|]. right. do 2 eexists. split; [done|]. apply zero_position_mid. }
    destruct (nul_position (principal_name t)) eqn:Ep.
    { eexists. split; [done|]. right. do 2 eexists. split; [done|]. apply zero_position_mid. }
    simpl. destruct (rd_kafka_oauthbearer_set_token _ _ _ w1) as [[code msg] w2] eqn:Es. simpl.
    case_decide as Hc; subst; eexists; (split; [done|]).
    + left. exists t, w1, msg. rewrite Et, Ep. by split_and!.
    + right. do 2 eexists. split; [done|]. apply zero_position_write.
  - eexists. split; [done|]. right. do 2 eexists. split; [done|]. apply zero_position_mid.
Qed.

(** Polling a queue for an event always returns. No event is
    [None]; log, statistics and token refresh events are served by the client and
    reported as consumed; every other event, an error event included, is handed
    to the caller as it came. *)
Theorem poll_event_spec q t w :
  ∃ r w', poll_event q t w = Done (r, w')
    ∧ r = match (rd_kafka_queue_poll q (as_millis t) w).1 with
          | None => Poll.None
          | Some ev => if bool_decide (event_type ev ∈ consumed_types) then Poll.EventConsumed
                       else Poll.Event ev
          end.
Proof.
  rewrite poll_event_effect. destruct (rd_kafka_queue_poll q (as_millis t) w) as [[ev|] w']; simpl.
  - destruct (event_effect_run ev w') as [w'' ->]. by do 2 eexists.
  - by do 2 eexists.
Qed.

End properties.

(** ** Time *)

Section time.
Context {W : Type} `{!ClientNative W} `{!ClientContext W} `{!ClockSpec W}.

Lemma handle_oauth_clock ev w w' : handle_oauth_refresh_event ev w = Done (tt, w') → clock w ≤ clock w'.
Proof.
  unfold handle_oauth_refresh_event, mbind, comp_bind, modify, call.
  destruct (refresh_token_run (event_config_string ev) w) as (r & w1 & -> & Hw1).
  pose proof (generate_clock (option_map cstr_to_owned (event_config_string ev)) w) as Hg.
  rewrite Hw1 in Hg. destruct r as [[[t p] l]|e].
  - pose proof (set_token_clock t l p w1) as Hs.
    destruct (rd_kafka_oauthbearer_set_token t l p w1) as [[code msg] w2]. simpl in Hs.
    case_decide; intros [= <-]; [lia|].
    etrans; [|apply token_failure_clock]. lia.
  - intros [= <-]. etrans; [exact Hg|]. apply token_failure_clock.
Qed.

Lemma event_effect_clock ev w w' : event_effect ev w = Done (tt, w') → clock w ≤ clock w'.
Proof.
  unfold event_effect, handle_log_event. repeat case_match; try (apply handle_oauth_clock);
    intros [= <-]; first [apply log_clock|apply stats_clock|apply error_clock|lia].
Qed.

(** A poll takes time, and one that finds nothing takes its whole timeout. *)
Lemma poll_event_clock q t w r w' : poll_event q t w = Done (r, w') →
  clock w < clock w'
  ∧ (r = Poll.None → 0 ≤ as_millis t → clock w + as_millis t * nanos_per_milli ≤ clock w').
Proof.
  rewrite poll_event_effect. pose proof (poll_clock q (as_millis t) w) as Hp.
  destruct (rd_kafka_queue_poll q (as_millis t) w) as [[ev|] w1] eqn:E; simpl in Hp.
  - destruct (event_effect_run ev w1) as [w2 H2]. rewrite H2. intros [= <- <-].
    apply event_effect_clock in H2. split; [lia|]. by case_bool_decide.
  - intros [= <- <-]. split; [done|]. intros _ Ht. by eapply poll_none_clock.
Qed.

End time.

(** ** A simulated client

    Events arrive at given times; a poll returns the next event when it arrives
    within the timeout, and every poll takes a nanosecond. The calls to the
    context and the token calls are recorded. *)

(** An event of a given type with an error and messages, for simulations. *)
Definition sim_event (ty : Z) (err : RDKafkaRespErr) (msgs : list RDKafkaMessage) : RDKafkaEvent :=
  {| event_type := ty; event_name := "event"; event_error := err; event_error_string := " reason ";
     event_error_is_fatal := 0; event_log := Some ("FAC", " text ", 6); event_stats := "{}";
     event_config_string := None; event_messages := msgs;
     event_topic_partition_list := Some sample_list;
     event_topic_partition := Some (new_elem "a" 4) |}.

(** The events of a consumer queue that are simulated. *)
Inductive sim_arrival :=
| ArriveLog
| ArriveStats
| ArriveFetch (m : RDKafkaMessage)
| ArriveError
| ArriveEof
| ArriveAssign
| ArriveCommit.

Definition sim_event_of (a : sim_arrival) : RDKafkaEvent :=
  match a with
  | ArriveLog => sim_event RD_KAFKA_EVENT_LOG RD_KAFKA_RESP_ERR_NO_ERROR []
  | ArriveStats => sim_event RD_KAFKA_EVENT_STATS RD_KAFKA_RESP_ERR_NO_ERROR []
  | ArriveFetch m => sim_event RD_KAFKA_EVENT_FETCH RD_KAFKA_RESP_ERR_NO_ERROR [m]
  | ArriveError => sim_event RD_KAFKA_EVENT_ERROR RD_KAFKA_RESP_ERR__TRANSPORT []
  | ArriveEof => sim_event RD_KAFKA_EVENT_ERROR RD_KAFKA_RESP_ERR__PARTITION_EOF []
  | ArriveAssign => sim_event RD_KAFKA_EVENT_REBALANCE RD_KAFKA_RESP_ERR__ASSIGN_PARTITIONS []
  | ArriveCommit => sim_event RD_KAFKA_EVENT_OFFSET_COMMIT RD_KAFKA_RESP_ERR_NO_ERROR []
  end.

Inductive sim_call :=
| CalledLog (l : RDKafkaLogLevel) (fac msg : string)
| CalledStats (json : bytes)
| CalledError (e : KafkaError) (reason : string)
| CalledSetToken (t p : string) (lifetime : Z)
| CalledTokenFailure (m : bytes).

Record sim := {
  sim_now : Z;
  sim_arrivals : list (Z * sim_arrival);
  sim_trace : list sim_call;
}.

Definition sim_record (c : sim_call) (s : sim) : sim :=
  {| sim_now := sim_now s; sim_arrivals := sim_arrivals s; sim_trace := sim_trace s ++ [c] |}.

Definition sim_poll (ms : Z) (s : sim) : option RDKafkaEvent * sim :=
  let wait := Z.max 0 ms * nanos_per_milli in
  match sim_arrivals s with
  | (t, ev) :: rest =>
      if (ms <? 0) || (t <=? sim_now s + wait) then
        (Some (sim_event_of ev), {| sim_now := Z.max (sim_now s) t + 1; sim_arrivals := rest; sim_trace := sim_trace s |})
      else (None, {| sim_now := sim_now s + wait + 1; sim_arrivals := sim_arrivals s; sim_trace := sim_trace s |})
  | [] => (None, {| sim_now := sim_now s + wait + 1; sim_arrivals := []; sim_trace := sim_trace s |})
  end.

#[export] Instance sim_native : ClientNative sim := {
  clock := sim_now;
  rd_kafka_queue_poll _ := sim_poll;
  rd_kafka_oauthbearer_set_token t l p s :=
    (RD_KAFKA_RESP_ERR_NO_ERROR, [], sim_record (CalledSetToken t p l) s);
  rd_kafka_oauthbearer_set_token_failure m := sim_record (CalledTokenFailure m);
  rd_kafka_rebalance_protocol _ := Some "EAGER";
  rd_kafka_topic_new _ s := (Some 0%nat, s);
  rd_kafka_metadata _ _ _ s := (RD_KAFKA_RESP_ERR__TRANSPORT, None, s);
  rd_kafka_query_watermark_offsets _ _ _ _ s := (RD_KAFKA_RESP_ERR_NO_ERROR, (0, 0), s);
  rd_kafka_clusterid _ s := (None, s);
  rd_kafka_list_groups _ _ s := (RD_KAFKA_RESP_ERR__TRANSPORT, None, s);
  rd_kafka_fatal_error s := (RD_KAFKA_RESP_ERR_NO_ERROR, [], s);
  rd_kafka_queue_new s := (Some 2%nat, s);
  rd_kafka_queue_get_consumer s := (Some 1%nat, s);
  rd_kafka_queue_get_main s := (Some 0%nat, s);
}.

#[export] Instance sim_context : ClientContext sim := {
  ENABLE_REFRESH_OAUTH_TOKEN := true;
  log l f m := sim_record (CalledLog l f m);
  stats_raw b := sim_record (CalledStats b);
  error e r := sim_record (CalledError e r);
  generate_oauth_token _ s := (Ok {| token := "t"; principal_name := "p"; lifetime_ms := 1000 |}, s);
}.

#[export] Instance sim_clock : ClockSpec sim.
Proof.
  split; try (intros; simpl; lia).
  - intros q ms s. simpl. unfold sim_poll. repeat case_match; simpl; unfold nanos_per_milli; lia.
  - intros q ms s s' Hms. simpl. unfold sim_poll. repeat case_match; intros [= <-]; simpl;
      unfold nanos_per_milli; lia.
Qed.

Definition sim_start (arrivals : list (Z * sim_arrival)) : sim :=
  {| sim_now := 0; sim_arrivals := arrivals; sim_trace := [] |}.

Lemma poll_event_sim :
  poll_event 0 (After 5) (sim_start [(0, ArriveLog)])
  = Done (Poll.EventConsumed,
          {| sim_now := 1; sim_arrivals := []; sim_trace := [CalledLog Level.Info "FAC" "text"] |}).
Proof. vm_compute. reflexivity. Qed.
