(* ===== verification/Statistics.v ===== *)
(** * Statistics

    [src/statistics.rs]: the statistics that librdkafka emits as a JSON document. Each
    struct is a record in a module of its name, with the fields of the source in their
    order and [HashMap] as [gmap]. Reading a document is [serde_json]'s and a parameter
    here. The end of the file is the default context of a client: the provided methods
    of [ClientContext], through which a statistics event reaches [stats]. *)

From stdpp Require Import strings gmap prelude.
From S2P Require Import Prelude ErrorCodes KafkaErrors Util Config Client.

Local Open Scope Z_scope.

(** The integer types of the fields. *)
Abbreviation i32 := Z (only parsing).
Abbreviation i64 := Z (only parsing).
Abbreviation u64 := Z (only parsing).

Module Window.
Record Window : Type := mk {
  min : i64;
  max : i64;
  avg : i64;
  sum : i64;
  cnt : i64;
  stddev : i64;
  hdrsize : i64;
  p50 : i64;
  p75 : i64;
  p90 : i64;
  p95 : i64;
  p99 : i64;
  p99_99 : i64;
  outofrange : i64;
}.
End Window.

Module TopicPartition.
Record TopicPartition : Type := mk {
  topic : string;
  partition : i32;
}.
End TopicPartition.

Module Partition.
Record Partition : Type := mk {
  partition : i32;
  broker : i32;
  leader : i32;
  desired : bool;
  unknown : bool;
  msgq_cnt : i64;
  msgq_bytes : u64;
  xmit_msgq_cnt : i64;
  xmit_msgq_bytes : u64;
  fetchq_cnt : i64;
  fetchq_size : u64;
  fetch_state : string;
  query_offset : i64;
  next_offset : i64;
  app_offset : i64;
  stored_offset : i64;
  committed_offset : i64;
  eof_offset : i64;
  lo_offset : i64;
  hi_offset : i64;
  ls_offset : i64;
  consumer_lag : i64;
  consumer_lag_stored : i64;
  txmsgs : u64;
  txbytes : u64;
  rxmsgs : u64;
  rxbytes : u64;
  msgs : u64;
  rx_ver_drops : u64;
  msgs_inflight : i64;
  next_ack_seq : i64;
  next_err_seq : i64;
  acked_msgid : u64;
}.
End Partition.

Module ConsumerGroup.
Record ConsumerGroup : Type := mk {
  state : string;
  stateage : i64;
  join_state : string;
  rebalance_age : i64;
  rebalance_cnt : i64;
  rebalance_reason : string;
  assignment_size : i32;
}.
End ConsumerGroup.

Module ExactlyOnceSemantics.
Record ExactlyOnceSemantics : Type := mk {
  idemp_state : string;
  idemp_stateage : i64;
  txn_state : string;
  txn_stateage : i64;
  txn_may_enq : bool;
  producer_id : i64;
  producer_epoch : i64;
  epoch_cnt : i64;
}.
End ExactlyOnceSemantics.

Module Broker.
Record Broker : Type := mk {
  name : string;
  nodeid : i32;
  nodename : string;
  source : string;
  state : string;
  stateage : i64;
  outbuf_cnt : i64;
  outbuf_msg_cnt : i64;
  waitresp_cnt : i64;
  waitresp_msg_cnt : i64;
  tx : u64;
  txbytes : u64;
  txerrs : u64;
  txretries : u64;
  txidle : i64;
  req_timeouts : u64;
  rx : u64;
  rxbytes : u64;
  rxerrs : u64;
  rxcorriderrs : u64;
  rxpartial : u64;
  rxidle : i64;
  req : gmap string i64;
  zbuf_grow : u64;
  buf_grow : u64;
  wakeups : option u64;
  connects : option i64;
  disconnects : option i64;
  int_latency : option Window.Window;
  outbuf_latency : option Window.Window;
  rtt : option Window.Window;
  throttle : option Window.Window;
  toppars : gmap string TopicPartition.TopicPartition;
}.
End Broker.

Module Topic.
Record Topic : Type := mk {
  topic : string;
  metadata_age : i64;
  batchsize : Window.Window;
  batchcnt : Window.Window;
  partitions : gmap i32 Partition.Partition;
}.
End Topic.

Module Statistics.
Record Statistics : Type := mk {
  name : string;
  client_id : string;
  client_type : string; (* renamed to type in the document *)
  ts : i64;
  time : i64;
  age : i64;
  replyq : i64;
  msg_cnt : u64;
  msg_size : u64;
  msg_max : u64;
  msg_size_max : u64;
  tx : i64;
  tx_bytes : i64;
  rx : i64;
  rx_bytes : i64;
  txmsgs : i64;
  txmsg_bytes : i64;
  rxmsgs : i64;
  rxmsg_bytes : i64;
  simple_cnt : i64;
  metadata_cache_cnt : i64;
  brokers : gmap string Broker.Broker;
  topics : gmap string Topic.Topic;
  cgrp : option ConsumerGroup.ConsumerGroup;
  eos : option ExactlyOnceSemantics.ExactlyOnceSemantics;
}.
End Statistics.

(** ** Statistics events *)

(** [serde_json::from_slice::<Statistics>]: the statistics of a document, or why it is
    none. *)
Class SerdeJson := { from_slice : bytes → result string Statistics.Statistics }.

Section default_context.
Context `{!SerdeJson} {W : Type}.

(** The macros of the [log] crate, the statistics callback and the names of error
    codes. *)
Context (log_line : CrateLevel → string → W → W) (stats : Statistics.Statistics → W → W).
Context (err2str : RDKafkaRespErr → string).

(** [ClientContext::stats_raw], the provided method. *)
Definition default_stats_raw (statistics : bytes) (w : W) : W :=
  match from_slice statistics with
  | Ok s => stats s w
  | Err e => log_line crate_error ("Could not parse statistics JSON: " ++ e)%string w
  end.

(** [ClientContext::log], the provided method. *)
Definition default_log (level : RDKafkaLogLevel) (fac log_message : string) (w : W) : W :=
  log_line (default_log_level level) ("librdkafka: " ++ fac ++ " " ++ log_message)%string w.

(** [ClientContext::error], the provided method. *)
Definition default_error (e : KafkaError) (reason : string) (w : W) : W :=
  log_line crate_error ("librdkafka: " ++ kafka_error_display err2str e ++ ": " ++ reason)%string w.

(** [impl ClientContext for DefaultClientContext]. *)
Definition DefaultClientContext : ClientContext W := {|
  ENABLE_REFRESH_OAUTH_TOKEN := false;
  log := default_log;
  Client.stats_raw := default_stats_raw;
  error := default_error;
  generate_oauth_token _ w := (Err "Default implementation of generate_oauth_token must be overridden", w);
|}.

End default_context.

(** ** Properties *)

Section events.
Context `{!SerdeJson} {W : Type} `{!ClientNative W}.
Context (log_line : CrateLevel → string → W → W) (stats : Statistics.Statistics → W → W).
Context (err2str : RDKafkaRespErr → string).

(** A statistics event reaches the user. When the queue yields an event with a document
    of statistics, the poll consumes the event and calls [stats] with exactly those
    statistics, once; a document that is not one of statistics is logged as an error and
    nothing else happens. *)
Theorem stats_event_delivered queue timeout w ev w1 :
  rd_kafka_queue_poll queue (as_millis timeout) w = (Some ev, w1) → event_type ev = RD_KAFKA_EVENT_STATS →
  poll_event (ClientContext0 := DefaultClientContext log_line stats err2str) queue timeout w
  = Done (Poll.EventConsumed,
      match from_slice (str_bytes (event_stats ev)) with
      | Ok s => stats s w1
      | Err e => log_line crate_error ("Could not parse statistics JSON: " ++ e)%string w1
      end).
Proof.
  intros Hq Ht. unfold poll_event, queue_poll, mbind, comp_bind, call. by rewrite Hq, Ht.
Qed.

End events.

(** ** A simulated run *)

Definition sample_window : Window.Window := Window.mk 2 9193 605 874202325 1443154 1080 15472 319 481 1135 3023 5919 9087 0.

Definition sample_partition : Partition.Partition :=
  Partition.mk 0 0 0 false false 845 26195 0 0 0 0 "none" (-1001) 0 (-1001) (-1001) (-1001) (-1001) (-1001)
    (-1001) (-1001) (-1) 0 3950967 122479977 0 0 3951812 0 1067 0 0 0.

Definition sample_topic : Topic.Topic :=
  Topic.mk "test" 7014 sample_window sample_window {[ 0 := sample_partition; -1 := sample_partition ]}.

Definition sample_broker : Broker.Broker :=
  Broker.mk "localhost:9092/0" 0 "localhost:9092" "configured" "UP" 8005652 0 0 1 126 31311 463869957 0 0 5 0
    31310 1753668 0 0 0 5 {[ "Produce" := 31307 ]} 0 0 (Some 131568) (Some 1) (Some 0) (Some sample_window)
    None (Some sample_window) None {[ "test-0" := TopicPartition.mk "test" 0 ]}.

Definition sample_statistics : Statistics.Statistics :=
  Statistics.mk "rdkafka#producer-1" "rdkafka" "producer" 1163982743268 1589652530 5 0 320 9920 500000
    1073741824 31311 463869957 31310 1753668 11853650 367463150 0 0 0 1
    {[ "localhost:9092/0" := sample_broker ]} {[ "test" := sample_topic ]} None None.

(** A reader that knows one document. *)
Definition one_document : SerdeJson := {|
  from_slice b := if decide (b = str_bytes "{}") then Ok sample_statistics else Err "expected value";
|}.

Definition sim_stats (_ : Statistics.Statistics) : sim → sim := sim_record (CalledStats []).

Example stats_event_sample :
  poll_event (ClientContext0 := DefaultClientContext (H := one_document) (λ _ _ s, s) sim_stats (λ _, "")) 0
    (After 5) (sim_start [(0, ArriveStats)])
  = Done (Poll.EventConsumed, sim_stats sample_statistics {| sim_now := 1; sim_arrivals := []; sim_trace := [] |}).
Proof. vm_compute. reflexivity. Qed.
