(* ===== verification/BaseConsumer.v ===== *)
(** * The base consumer

    [src/consumer/mod.rs] and [src/consumer/base_consumer.rs]: the consumer
    context with its default rebalance procedure, the poll loop with the event
    handlers, the operations of the [Consumer] trait, partition queues, the
    blocking iterator and the drop of a consumer. librdkafka's consumer calls are
    the class [ConsumerNative]. Loops that depend on the outside world take fuel
    and answer [None] when it runs out. *)

From stdpp Require Import strings gmap prelude.
From S2P Require Import Prelude ErrorCodes KafkaErrors Util TopicPartitionList Config Message ClusterInfo Client.

Local Open Scope Z_scope.

(** ** Contexts and rebalancing *)

(** [enum Rebalance]. *)
Inductive Rebalance : Type :=
| Assign (l : tpl)
| Revoke (l : tpl)
| RebalanceErr (e : KafkaError).

(** [enum CommitMode]; its discriminant is librdkafka's [async] flag. *)
Inductive CommitMode : Set := Sync | Async.
Definition commit_mode_discr (m : CommitMode) : Z := match m with Sync => 0 | Async => 1 end.

(** librdkafka's consumer calls; a null partition list is [None], and a call
    that fills in a list answers with the new list. *)
Class ConsumerNative (W : Type) := {
  rd_kafka_err2str : RDKafkaRespErr → string;
  rd_kafka_subscribe : tpl → W → RDKafkaRespErr * W;
  rd_kafka_unsubscribe : W → RDKafkaRespErr * W;
  rd_kafka_assign : option tpl → W → RDKafkaRespErr * W;
  rd_kafka_incremental_assign : tpl → W → option rd_kafka_error_t * W;
  rd_kafka_incremental_unassign : tpl → W → option rd_kafka_error_t * W;
  rd_kafka_seek : nat → Z → Z → Z → W → RDKafkaRespErr * W;
  rd_kafka_seek_partitions : tpl → Z → W → option rd_kafka_error_t * tpl * W;
  rd_kafka_commit : option tpl → Z → W → RDKafkaRespErr * W;
  rd_kafka_commit_message : RDKafkaMessage → Z → W → RDKafkaRespErr * W;
  rd_kafka_offset_store : nat → Z → Z → W → RDKafkaRespErr * W;
  rd_kafka_offsets_store : tpl → W → RDKafkaRespErr * W;
  rd_kafka_subscription : W → RDKafkaRespErr * option tpl * W;
  rd_kafka_assignment : W → RDKafkaRespErr * option tpl * W;
  rd_kafka_assignment_lost : W → Z;
  rd_kafka_committed : tpl → Z → W → RDKafkaRespErr * tpl * W;
  rd_kafka_offsets_for_times : tpl → Z → W → RDKafkaRespErr * tpl * W;
  rd_kafka_position : tpl → W → RDKafkaRespErr * tpl * W;
  rd_kafka_pause_partitions : tpl → W → RDKafkaRespErr * W;
  rd_kafka_resume_partitions : tpl → W → RDKafkaRespErr * W;
  rd_kafka_consumer_close_queue : nat → W → option rd_kafka_error_t * W;
  rd_kafka_consumer_closed : W → Z;
  rd_kafka_queue_get_partition : string → Z → W → option nat * W;
  rd_kafka_queue_forward : nat → option nat → W → W;
  rd_kafka_queue_cb_event_enable : nat → bool → W → W;
  rd_kafka_poll_set_consumer : W → W;
}.

(** [trait ConsumerContext]. [rebalance] may change the list it is given. *)
Class ConsumerContext (W : Type) := {
  rebalance : RDKafkaRespErr → tpl → comp W tpl;
  commit_callback : KafkaResult unit → tpl → W → W;
  main_queue_min_poll_interval : Timeout;
}.

Section rebalance.
Context {W : Type} `{!ClientNative W} `{!ConsumerNative W}.
Context (pre_rebalance post_rebalance : Rebalance → W → W).

(** [ConsumerContext::rebalance], the provided method. *)
Definition default_rebalance (err : RDKafkaRespErr) (l : tpl) : comp W tpl :=
  let r := match err with
           | RD_KAFKA_RESP_ERR__ASSIGN_PARTITIONS => Assign l
           | RD_KAFKA_RESP_ERR__REVOKE_PARTITIONS => Revoke l
           | _ => RebalanceErr (RebalanceError (code_of err))
           end in
  _ ← modify (pre_rebalance r);
  w ← get;
  protocol ← lift (rebalance_protocol w);
  _ ← match err, protocol with
      | RD_KAFKA_RESP_ERR__ASSIGN_PARTITIONS, Cooperative =>
          _ ← call (rd_kafka_incremental_assign l); mret tt
      | RD_KAFKA_RESP_ERR__ASSIGN_PARTITIONS, _ => _ ← call (rd_kafka_assign (Some l)); mret tt
      | _, Cooperative => _ ← call (rd_kafka_incremental_unassign l); mret tt
      | _, _ => _ ← call (rd_kafka_assign None); mret tt
      end;
  _ ← modify (post_rebalance r);
  mret l.

End rebalance.

(** [main_queue_min_poll_interval], the provided method. *)
Definition default_min_poll_interval : Timeout := After (duration_from_secs 1).

(** ** Polling *)

Section polling.
Context {W : Type} `{!ClientNative W} `{!ClientContext W} `{!ConsumerContext W} `{T : TplNative}.

(** [BaseConsumer::handle_fetch_event]. *)
Definition handle_fetch_event (event : RDKafkaEvent) : option (KafkaResult RDKafkaMessage) :=
  match event_messages event with
  | [] => None
  | ptr :: _ => Some (from_client ptr)
  end.

(** [BaseConsumer::handle_rebalance_event]; librdkafka always attaches a list
    to a rebalance event, and [TopicPartitionList::from_ptr] unwraps it. *)
Definition handle_rebalance_event (event : RDKafkaEvent) : comp W unit :=
  match event_error event with
  | RD_KAFKA_RESP_ERR__ASSIGN_PARTITIONS | RD_KAFKA_RESP_ERR__REVOKE_PARTITIONS =>
      l ← lift (expect "called `Option::unwrap()` on a `None` value" (event_topic_partition_list event));
      _ ← rebalance (event_error event) l; mret tt
  | _ => mret tt
  end.

(** [BaseConsumer::handle_offset_commit_event]. *)
Definition handle_offset_commit_event (event : RDKafkaEvent) : comp W unit :=
  let err := event_error event in
  let commit_error := if resp_is_error err then Err (ConsumerCommit (code_of err)) else Ok tt in
  match event_topic_partition_list event with
  | None => modify (commit_callback commit_error tpl_new)
  | Some l => modify (commit_callback commit_error l)
  end.

(** [BaseConsumer::handle_error_event]; a null topic partition cannot be read. *)
Definition handle_error_event (event : RDKafkaEvent) : outcome (option KafkaError) :=
  let rdkafka_err := event_error event in
  if resp_is_error rdkafka_err then
    if decide (rdkafka_err = RD_KAFKA_RESP_ERR__PARTITION_EOF) then
      tp ← expect "null pointer dereference" (event_topic_partition event);
      mret (Some (PartitionEOF (tp_partition tp)))
    else if negb (event_error_is_fatal event =? 0) then
      mret (Some (MessageConsumptionFatal (code_of rdkafka_err)))
    else mret (Some (MessageConsumption (code_of rdkafka_err)))
  else mret None.

Abbreviation polled := (EventPollResult (KafkaResult RDKafkaMessage)).

(** One turn of the loop of [BaseConsumer::poll_queue]: [inl r] returns [r],
    [inr t] goes round again with the timeout [t]. *)
Definition poll_turn (queue : nat) (now : Z) (initial_timeout timeout : Timeout)
    : comp W (polled + Timeout) :=
  let op_timeout := timeout_min timeout main_queue_min_poll_interval in
  maybe_event ← poll_event queue op_timeout;
  match maybe_event with
  | Poll.Event event =>
      let evtype := event_type event in
      if evtype =? RD_KAFKA_EVENT_FETCH then
        mret (match handle_fetch_event event with
              | Some result => inl (Poll.Event result)
              | None => inr timeout
              end)
      else if evtype =? RD_KAFKA_EVENT_ERROR then
        e ← lift (handle_error_event event);
        mret (match e with Some err => inl (Poll.Event (Err err)) | None => inr timeout end)
      else if evtype =? RD_KAFKA_EVENT_REBALANCE then
        _ ← handle_rebalance_event event;
        mret (if bool_decide (timeout = Never) then inr timeout else inl Poll.EventConsumed)
      else if evtype =? RD_KAFKA_EVENT_OFFSET_COMMIT then
        _ ← handle_offset_commit_event event;
        mret (if bool_decide (timeout = Never) then inr timeout else inl Poll.EventConsumed)
      else mret (inr timeout)
  | Poll.None =>
      w ← get;
      let timeout := saturating_sub initial_timeout (instant_since (clock w) now) in
      mret (if is_zero timeout then inl Poll.None else inr timeout)
  | Poll.EventConsumed =>
      w ← get;
      let timeout := saturating_sub initial_timeout (instant_since (clock w) now) in
      mret (if is_zero timeout then inl Poll.EventConsumed else inr timeout)
  end.

Fixpoint poll_loop (fuel : nat) (queue : nat) (now : Z) (initial_timeout timeout : Timeout)
    : comp W (option polled) :=
  match fuel with
  | O => mret None
  | S fuel =>
      r ← poll_turn queue now initial_timeout timeout;
      match r with
      | inl res => mret (Some res)
      | inr timeout => poll_loop fuel queue now initial_timeout timeout
      end
  end.

(** [BaseConsumer::poll_queue]. *)
Definition poll_queue (fuel : nat) (queue : nat) (timeout : Timeout) : comp W (option polled) :=
  w ← get;
  poll_loop fuel queue (clock w) timeout timeout.

(** [BaseConsumer::poll] and [PartitionQueue::poll]: the outer option is the fuel. *)
Definition poll (fuel : nat) (queue : nat) (timeout : Timeout)
    : comp W (option (option (KafkaResult RDKafkaMessage))) :=
  r ← poll_queue fuel queue timeout; mret (option_map poll_result_option r).

(** [Iter::next]: [poll(None)] until it gives an item. *)
Fixpoint iter_next (fuel : nat) (queue : nat) : comp W (option (KafkaResult RDKafkaMessage)) :=
  match fuel with
  | O => mret None
  | S fuel' =>
      r ← poll fuel queue (timeout_of_option None);
      match r with
      | None => mret None
      | Some (Some item) => mret (Some item)
      | Some None => iter_next fuel' queue
      end
  end.

End polling.

(** ** The [Consumer] operations *)

Section operations.
Context {W : Type} `{!ClientNative W} `{!ClientContext W} `{!ConsumerContext W} `{!ConsumerNative W}
  `{T : TplNative} (oc : bool).

Definition unwrap_tpl (p : option tpl) : comp W tpl :=
  lift (expect "called `Option::unwrap()` on a `None` value" p).

(** An error is reported with librdkafka's text for it. *)
Definition check_str (mk : string → KafkaError) (ret_code : RDKafkaRespErr) : KafkaResult unit :=
  if resp_is_error ret_code then Err (mk (cstr_to_owned (rd_kafka_err2str ret_code))) else Ok tt.

(** An error is reported with its code. *)
Definition check_code (mk : RDKafkaErrorCode → KafkaError) (e : RDKafkaRespErr) : KafkaResult unit :=
  if resp_is_error e then Err (mk (code_of e)) else Ok tt.

(** A native error object is reported with its name. *)
Definition check_name (mk : string → KafkaError) (ret : option rd_kafka_error_t) : KafkaResult unit :=
  let ret := RDKafkaError_from_ptr ret in
  if rderr_is_error ret then Err (mk (rderr_name ret)) else Ok tt.

(** [Consumer::subscribe]: the topics go into a fresh list, unassigned. *)
Fixpoint add_topics (topics : list string) : comp tpl unit :=
  match topics with
  | [] => mret tt
  | topic :: topics => _ ← add_topic_unassigned topic; add_topics topics
  end.

Definition subscribe (topics : list string) : comp W (KafkaResult unit) :=
  '(_, l) ← lift (add_topics topics tpl_new);
  ret_code ← call (rd_kafka_subscribe l);
  mret (check_str Subscription ret_code).

Definition unsubscribe : comp W unit := _ ← call rd_kafka_unsubscribe; mret tt.

Definition assign (assignment : tpl) : comp W (KafkaResult unit) :=
  ret_code ← call (rd_kafka_assign (Some assignment)); mret (check_str Subscription ret_code).

Definition unassign : comp W (KafkaResult unit) :=
  ret_code ← call (rd_kafka_assign None); mret (check_str Subscription ret_code).

Definition incremental_assign (assignment : tpl) : comp W (KafkaResult unit) :=
  ret ← call (rd_kafka_incremental_assign assignment); mret (check_name Subscription ret).

Definition incremental_unassign (assignment : tpl) : comp W (KafkaResult unit) :=
  ret ← call (rd_kafka_incremental_unassign assignment); mret (check_name Subscription ret).

Definition seek (topic : string) (partition : Z) (offset : Offset) (timeout : Timeout)
    : comp W (KafkaResult unit) :=
  t ←? native_topic topic;
  raw ← lift (to_raw oc offset);
  match raw with
  | Some offset =>
      ret_code ← call (rd_kafka_seek t partition offset (as_millis timeout));
      mret (check_str Seek ret_code)
  | None => mret (Err (Seek "Local: Unrepresentable offset"))
  end.

Definition seek_partitions (l : tpl) (timeout : Timeout) : comp W (KafkaResult tpl) :=
  '(ret, l) ← call (rd_kafka_seek_partitions l (as_millis timeout));
  mret (match check_name Seek ret with Ok _ => Ok l | Err e => Err e end).

Definition commit (l : tpl) (mode : CommitMode) : comp W (KafkaResult unit) :=
  e ← call (rd_kafka_commit (Some l) (commit_mode_discr mode)); mret (check_code ConsumerCommit e).

Definition commit_consumer_state (mode : CommitMode) : comp W (KafkaResult unit) :=
  e ← call (rd_kafka_commit None (commit_mode_discr mode)); mret (check_code ConsumerCommit e).

Definition commit_message (message : RDKafkaMessage) (mode : CommitMode) : comp W (KafkaResult unit) :=
  e ← call (rd_kafka_commit_message message (commit_mode_discr mode));
  mret (check_code ConsumerCommit e).

Definition store_offset (topic : string) (partition offset : Z) : comp W (KafkaResult unit) :=
  t ←? native_topic topic;
  e ← call (rd_kafka_offset_store t partition offset); mret (check_code StoreOffset e).

Definition store_offset_from_message (message : RDKafkaMessage) : comp W (KafkaResult unit) :=
  e ← call (rd_kafka_offset_store (msg_rkt message) (msg_partition message) (msg_offset message));
  mret (check_code StoreOffset e).

Definition store_offsets (l : tpl) : comp W (KafkaResult unit) :=
  e ← call (rd_kafka_offsets_store l); mret (check_code StoreOffset e).

Definition subscription : comp W (KafkaResult tpl) :=
  '(e, tpl_ptr) ← call rd_kafka_subscription;
  if resp_is_error e then mret (Err (MetadataFetch (code_of e)))
  else l ← unwrap_tpl tpl_ptr; mret (Ok l).

Definition assignment : comp W (KafkaResult tpl) :=
  '(e, tpl_ptr) ← call rd_kafka_assignment;
  if resp_is_error e then mret (Err (MetadataFetch (code_of e)))
  else l ← unwrap_tpl tpl_ptr; mret (Ok l).

Definition assignment_lost (w : W) : bool := rd_kafka_assignment_lost w =? 1.

Definition committed_offsets (l : tpl) (timeout : Timeout) : comp W (KafkaResult tpl) :=
  '(e, l) ← call (rd_kafka_committed l (as_millis timeout));
  mret (if resp_is_error e then Err (MetadataFetch (code_of e)) else Ok l).

Definition committed (timeout : Timeout) : comp W (KafkaResult tpl) :=
  '(e, tpl_ptr) ← call rd_kafka_assignment;
  if resp_is_error e then mret (Err (MetadataFetch (code_of e)))
  else l ← unwrap_tpl tpl_ptr; committed_offsets l timeout.

Definition offsets_for_times (timestamps : tpl) (timeout : Timeout) : comp W (KafkaResult tpl) :=
  '(e, l) ← call (rd_kafka_offsets_for_times timestamps (as_millis timeout));
  mret (if resp_is_error e then Err (MetadataFetch (code_of e)) else Ok l).

Definition offsets_for_timestamp (timestamp : Z) (timeout : Timeout) : comp W (KafkaResult tpl) :=
  '(e, tpl_ptr) ← call rd_kafka_assignment;
  if resp_is_error e then mret (Err (MetadataFetch (code_of e)))
  else
    l ← unwrap_tpl tpl_ptr;
    '(r, l) ← lift (set_all_offsets oc (Off.Offset_ timestamp) l);
    match r with
    | Err e => mret (Err e)
    | Ok _ => offsets_for_times l timeout
    end.

Definition position : comp W (KafkaResult tpl) :=
  l ←? assignment;
  '(e, l) ← call (rd_kafka_position l);
  mret (if resp_is_error e then Err (MetadataFetch (code_of e)) else Ok l).

Definition pause (partitions : tpl) : comp W (KafkaResult unit) :=
  ret_code ← call (rd_kafka_pause_partitions partitions); mret (check_str PauseResume ret_code).

Definition resume (partitions : tpl) : comp W (KafkaResult unit) :=
  ret_code ← call (rd_kafka_resume_partitions partitions); mret (check_str PauseResume ret_code).

(** [BaseConsumer::split_partition_queue]: the handle of the partition queue. *)
Definition split_partition_queue (topic : string) (partition : Z) : comp W (option nat) :=
  match CString_new topic with
  | Err _ => mret None
  | Ok topic =>
      queue ← call (rd_kafka_queue_get_partition topic partition);
      match queue with
      | None => mret None
      | Some q => _ ← modify (rd_kafka_queue_forward q None); mret (Some q)
      end
  end.

(** [BaseConsumer::close_queue] and [closed]. *)
Definition close_queue (queue : nat) : comp W (KafkaResult unit) :=
  p ← call (rd_kafka_consumer_close_queue queue);
  let err := RDKafkaError_from_ptr p in
  mret (if rderr_is_error err then Err (ConsumerQueueClose (rderr_code err)) else Ok tt).

Definition closed (w : W) : bool := rd_kafka_consumer_closed w =? 1.

(** [impl Drop for PartitionQueue]. *)
Definition partition_queue_drop (queue : nat) : comp W unit :=
  modify (rd_kafka_queue_cb_event_enable queue false).

(** The loop of [impl Drop for BaseConsumer]; [None] is out of fuel. *)
Fixpoint drain_until_closed (fuel : nat) (queue : nat) : comp W (option unit) :=
  match fuel with
  | O => mret None
  | S fuel' =>
      w ← get;
      if closed w then mret (Some tt)
      else
        r ← poll fuel queue (After (duration_from_millis 100));
        match r with None => mret None | Some _ => drain_until_closed fuel' queue end
  end.

(** [impl Drop for BaseConsumer]. *)
Definition consumer_drop (fuel : nat) (queue : nat) (group_id : option string) : comp W (option unit) :=
  _ ← modify (rd_kafka_queue_cb_event_enable queue false);
  match group_id with
  | None => mret (Some tt)
  | Some _ =>
      r ← close_queue queue;
      match r with
      | Err _ => mret (Some tt)
      | Ok _ => drain_until_closed fuel queue
      end
  end.

End operations.

(** ** Creating a consumer *)

Section consumer_new.
Context {W : Type} `{!ClientNative W} `{!ConsumerNative W} `{N : ConfNative} `{!ClientNew W}.

Record BaseConsumer := { bc_client : nat; bc_queue : nat; bc_group_id : option string }.

(** The events a consumer asks for. *)
Definition consumer_events : Z :=
  Z.lor RD_KAFKA_EVENT_REBALANCE (Z.lor RD_KAFKA_EVENT_OFFSET_COMMIT (Z.lor RD_KAFKA_EVENT_STATS
    (Z.lor RD_KAFKA_EVENT_ERROR RD_KAFKA_EVENT_OAUTHBEARER_TOKEN_REFRESH))).

(** [BaseConsumer::new]. *)
Definition base_consumer_new (config : ClientConfig) (native_config : RDKafkaConf) (context : nat)
    : comp W (KafkaResult BaseConsumer) :=
  let native_config := rd_kafka_conf_set_events native_config consumer_events in
  client ←? client_new config native_config RD_KAFKA_CONSUMER context;
  let group_id := config_get config "group.id" in
  queue ←?
    match group_id with
    | Some _ =>
        _ ← modify rd_kafka_poll_set_consumer;
        q ← consumer_queue;
        mret (match q with
              | Some q => Ok q
              | None => Err (ClientCreation "rdkafka consumer queue not available")
              end)
    | None => q ← main_queue; mret (Ok q)
    end;
  mret (Ok {| bc_client := client; bc_queue := queue; bc_group_id := group_id |}).

End consumer_new.

(** ** Lemmas on polling *)

Section poll_lemmas.
Context {W : Type} `{!ClientNative W} `{!ClientContext W} `{!ConsumerContext W} `{T : TplNative}.

(** What a poll may answer, given the timeout it was asked to respect and the
    time it started and ended. *)
Definition poll_answer (t : Timeout) (start stop : Z)
    (r : EventPollResult (KafkaResult RDKafkaMessage)) : Prop :=
  match r with
  | Poll.None => ∃ d, t = After d ∧ d ≤ Z.max 0 (stop - start)
  | Poll.EventConsumed => t ≠ Never
  | Poll.Event (Ok m) => msg_err m = RD_KAFKA_RESP_ERR_NO_ERROR
  | Poll.Event (Err e) =>
      match e with PartitionEOF _ | MessageConsumption _ | MessageConsumptionFatal _ => True | _ => False end
  end.

Lemma from_client_answer m t a b : poll_answer t a b (Poll.Event (from_client m)).
Proof.
  unfold from_client. destruct (resp_is_error (msg_err m)) eqn:E; simpl.
  - by destruct (msg_err m).
  - by apply resp_is_error_false.
Qed.

Lemma handle_error_event_answer ev e t a b : handle_error_event ev = Done (Some e) →
  poll_answer t a b (Poll.Event (Err e)).
Proof.
  unfold handle_error_event. destruct (resp_is_error _); [|done]. case_decide.
  - destruct (event_topic_partition ev); simpl; [|done]. by intros [= <-].
  - case_match; by intros [= <-].
Qed.

(** A turn leaves an infinite timeout infinite, and answers as it may. *)
Lemma poll_turn_answer q start t0 t w r w' :
  (t = Never ↔ t0 = Never) → poll_turn q start t0 t w = Done (r, w') →
  match r with
  | inl res => poll_answer t0 start (clock w') res
  | inr t' => t' = Never ↔ t0 = Never
  end.
Proof.
  intros Ht H. unfold poll_turn in H. apply comp_bind_Done in H as (ev & w1 & _ & H). destruct ev as [| |ev].
  - unfold mbind, comp_bind, get in H. destruct (is_zero _) eqn:Ez; injection H as <- <-.
    + destruct t0 as [d|]; [|done]. exists d. split; [done|]. simpl in Ez. apply Z.eqb_eq in Ez.
      unfold duration_saturating_sub, instant_since in Ez. lia.
    + by destruct t0.
  - unfold mbind, comp_bind, get in H. destruct (is_zero _) eqn:Ez; injection H as <- <-; by destruct t0.
  - destruct (event_type ev =? RD_KAFKA_EVENT_FETCH); [|destruct (event_type ev =? RD_KAFKA_EVENT_ERROR);
      [|destruct (event_type ev =? RD_KAFKA_EVENT_REBALANCE);
        [|destruct (event_type ev =? RD_KAFKA_EVENT_OFFSET_COMMIT)]]].
    + injection H as <- <-. unfold handle_fetch_event. destruct (event_messages ev); [done|].
      apply from_client_answer.
    + apply comp_bind_Done in H as (e & w2 & He & [= <- <-]). destruct e as [e|]; [|done].
      unfold lift in He. destruct (handle_error_event ev) eqn:E; [|done]. injection He as -> ->.
      by eapply handle_error_event_answer.
    + apply comp_bind_Done in H as (u & w2 & _ & [= <- <-]). case_bool_decide; [done|].
      intros ->. by apply H, Ht.
    + apply comp_bind_Done in H as (u & w2 & _ & [= <- <-]). case_bool_decide; [done|].
      intros ->. by apply H, Ht.
    + by injection H as <- <-.
Qed.

Lemma poll_loop_answer fuel q start t0 t w r w' :
  (t = Never ↔ t0 = Never) → poll_loop fuel q start t0 t w = Done (Some r, w') →
  poll_answer t0 start (clock w') r.
Proof.
  revert t w. induction fuel as [|fuel IH]; intros t w Ht H; [done|]. cbn [poll_loop] in H.
  apply comp_bind_Done in H as (x & w1 & Hx & H). apply poll_turn_answer in Hx; [|done].
  destruct x as [res|t']; [by injection H as <- <-|]. by eapply IH.
Qed.

End poll_lemmas.

(** ** Termination of the poll loop *)

(** The events that librdkafka documents for a consumer queue: a fetch event
    carries a message, an error event an error (an end of partition with its
    topic partition), a rebalance event a list. *)
Definition served (ev : RDKafkaEvent) : Prop :=
  event_type ev ∈ consumed_types
  ∨ (event_type ev = RD_KAFKA_EVENT_FETCH ∧ event_messages ev ≠ [])
  ∨ (event_type ev = RD_KAFKA_EVENT_ERROR ∧ resp_is_error (event_error ev) = true
     ∧ (event_error ev = RD_KAFKA_RESP_ERR__PARTITION_EOF → is_Some (event_topic_partition ev)))
  ∨ (event_type ev = RD_KAFKA_EVENT_REBALANCE ∧ is_Some (event_topic_partition_list ev))
  ∨ event_type ev = RD_KAFKA_EVENT_OFFSET_COMMIT.

Class ConsumerQueueSpec (W : Type) `{!ClientNative W} `{!ConsumerContext W} : Prop := {
  queue_served q ms w ev w' : rd_kafka_queue_poll q ms w = (Some ev, w') → served ev;
  rebalance_returns e l w : ∃ l' w', rebalance e l w = Done (l', w');
}.

Section termination.
Context {W : Type} `{!ClientNative W} `{!ClientContext W} `{!ConsumerContext W} `{T : TplNative}.
Context `{!ClockSpec W} `{!ConsumerQueueSpec W}.

Lemma handle_rebalance_returns ev w : is_Some (event_topic_partition_list ev) →
  ∃ w', handle_rebalance_event ev w = Done (tt, w').
Proof.
  intros [l Hl]. unfold handle_rebalance_event. rewrite Hl. unfold mbind, comp_bind, lift, expect.
  destruct (rebalance_returns (event_error ev) l w) as (l' & w' & Hr).
  destruct (event_error ev); rewrite ?Hr; by eexists.
Qed.

Lemma handle_error_returns ev : resp_is_error (event_error ev) = true →
  (event_error ev = RD_KAFKA_RESP_ERR__PARTITION_EOF → is_Some (event_topic_partition ev)) →
  ∃ e, handle_error_event ev = Done (Some e).
Proof.
  intros He Htp. unfold handle_error_event. rewrite He. case_decide as Hd.
  - destruct (Htp Hd) as [tp ->]. by eexists.
  - case_match; by eexists.
Qed.

(** A served event ends a poll with a finite timeout. *)
Lemma served_ends ev q start t0 d w w1 :
  served ev → event_type ev ∉ consumed_types →
  poll_event q (timeout_min (After d) main_queue_min_poll_interval) w = Done (Poll.Event ev, w1) →
  ∃ res w2, poll_turn q start t0 (After d) w = Done (inl res, w2).
Proof.
  intros Hs Hn Hp. unfold poll_turn. rewrite (comp_bind_run _ _ _ _ _ Hp).
  destruct Hs as [?|[[Ht Hm]|[[Ht [He Htp]]|[[Ht Hl]|Ht]]]]; [done|..];
    cbn -[handle_error_event handle_rebalance_event]; rewrite Ht; simpl.
  - unfold handle_fetch_event. destruct (event_messages ev); [done|]. by do 2 eexists.
  - destruct (handle_error_returns ev He Htp) as [e Hee].
    unfold mbind, comp_bind, lift. rewrite Hee. by do 2 eexists.
  - destruct (handle_rebalance_returns ev w1 Hl) as [w2 Hw2]. rewrite (comp_bind_run _ _ _ _ _ Hw2).
    by do 2 eexists.
  - unfold handle_offset_commit_event. destruct (event_topic_partition_list ev); by do 2 eexists.
Qed.

(** A turn with a finite timeout ends the poll, or comes back later with what
    is left of the initial timeout. *)
Lemma poll_turn_progress q start d0 d w :
  ∃ r w1, poll_turn q start (After d0) (After d) w = Done (r, w1)
    ∧ match r with
      | inl _ => True
      | inr t => clock w < clock w1 ∧ t = After (d0 - instant_since (clock w1) start)
                 ∧ 0 < d0 - instant_since (clock w1) start
      end.
Proof.
  set (op := timeout_min (After d) main_queue_min_poll_interval).
  pose proof (poll_event_effect q op w) as Hpe.
  destruct (rd_kafka_queue_poll q (as_millis op) w) as [[ev|] w1] eqn:Epoll.
  - pose proof (queue_served _ _ _ _ _ Epoll) as Hs. destruct (event_effect_run ev w1) as [w2 H2].
    rewrite H2 in Hpe. case_bool_decide as Hc.
    + pose proof (poll_event_clock _ _ _ _ _ Hpe) as [Hclk _].
      unfold poll_turn. rewrite (comp_bind_run _ _ _ _ _ Hpe). unfold mbind, comp_bind, get, mret, comp_ret.
      do 2 eexists. split; [done|]. destruct (is_zero _) eqn:Ez; [done|]. simpl in *.
      unfold duration_saturating_sub in *. apply Z.eqb_neq in Ez. split_and!; [done|f_equal; lia|lia].
    + destruct (served_ends ev q start (After d0) d w w2) as (res & w3 & Hr); [done..|]. by do 2 eexists.
  - pose proof (poll_event_clock _ _ _ _ _ Hpe) as [Hclk _].
    unfold poll_turn. rewrite (comp_bind_run _ _ _ _ _ Hpe). unfold mbind, comp_bind, get, mret, comp_ret.
    do 2 eexists. split; [done|]. destruct (is_zero _) eqn:Ez; [done|]. simpl in *.
    unfold duration_saturating_sub in *. apply Z.eqb_neq in Ez. split_and!; [done|f_equal; lia|lia].
Qed.

Lemma poll_loop_returns fuel q start d0 d w :
  start ≤ clock w → 0 ≤ d0 - instant_since (clock w) start < Z.of_nat fuel →
  ∃ res w', poll_loop fuel q start (After d0) (After d) w = Done (Some res, w').
Proof.
  revert d w. induction fuel as [|fuel IH]; intros d w Hs Hf; [lia|].
  destruct (poll_turn_progress q start d0 d w) as (r & w1 & Hr & Hp). cbn [poll_loop].
  rewrite (comp_bind_run _ _ _ _ _ Hr). destruct r as [res|t]; [by exists res, w1|].
  destruct Hp as (Hclk & -> & Hpos). apply IH; [lia|]. unfold instant_since in *. lia.
Qed.

End termination.

(** ** Properties *)

Section properties.
Context {W : Type} `{!ClientNative W} `{!ClientContext W} `{!ConsumerContext W} `{T : TplNative}.

(** C10: whatever librdkafka delivers, when [poll_queue] returns: it says
    that there was nothing only once the whole timeout has passed, and never for
    an infinite timeout; it returns early without an item only for a finite
    timeout; a message it returns carries no error; and an error it returns is an
    end of partition or a (fatal) consumption error. *)
Theorem poll_queue_safe fuel q t w r w' :
  poll_queue fuel q t w = Done (Some r, w') → poll_answer t (clock w) (clock w') r.
Proof. intros H. by eapply poll_loop_answer in H. Qed.

(** C11: with a finite timeout [poll_queue] returns without panic:
    one turn per nanosecond of the timeout, and one more, is always enough, as
    every poll of the native queue takes time and every event that librdkafka
    documents for a consumer queue is served. *)
Theorem poll_queue_terminates `{!ClockSpec W} `{!ConsumerQueueSpec W} q d w :
  0 ≤ d → ∃ r w', poll_queue (S (Z.to_nat d)) q (After d) w = Done (Some r, w').
Proof. intros Hd. apply poll_loop_returns; [lia|]. unfold instant_since. lia. Qed.

Context `{!ConsumerNative W}.

Lemma drain_until_closed_closed fuel q w w' :
  drain_until_closed fuel q w = Done (Some tt, w') → closed w' = true.
Proof.
  revert w. induction fuel as [|fuel IH]; intros w H; [done|]. cbn [drain_until_closed] in H.
  apply comp_bind_Done in H as (x & w1 & [= <- <-] & H). destruct (closed w) eqn:Ec.
  - by injection H as <-.
  - apply comp_bind_Done in H as (r & w1 & _ & H). destruct r; [|done]. by apply (IH w1).
Qed.

(** Dropping a consumer that has a group and whose queue could
    be closed returns only once librdkafka reports it closed; without a group, or
    when closing fails, nothing is waited for. In every case the callback on the
    queue is removed first. *)
Theorem consumer_drop_closed fuel q g w w' :
  consumer_drop fuel q g w = Done (Some tt, w') →
  let w0 := rd_kafka_queue_cb_event_enable q false w in
  match g with
  | None => w' = w0
  | Some _ =>
      match close_queue q w0 with
      | Done (Ok _, _) => closed w' = true
      | Done (Err _, w1) => w' = w1
      | Panic _ => False
      end
  end.
Proof.
  unfold consumer_drop. intros H. apply comp_bind_Done in H as (u & w1 & [= <- <-] & H).
  destruct g; [|by injection H as <-]. apply comp_bind_Done in H as (r & w1 & Hr & H). cbn zeta. rewrite Hr.
  destruct r as [[]|e]; [by eapply drain_until_closed_closed|by injection H as <-].
Qed.

Lemma add_topics_run `{!TplNativeSpec T} topics l :
  Forall (λ t, nul_free t = true) topics → cnt_ok l →
  ∃ l', add_topics topics l = Done (tt, l')
        ∧ elems l' = elems l ++ ((λ t, new_elem t PARTITION_UNASSIGNED) <$> topics) ∧ cnt_ok l'.
Proof.
  revert l. induction topics as [|t topics IH]; intros l Hok Hl.
  { exists l. split_and!; [done|by rewrite app_nil_r|done]. }
  apply Forall_cons in Hok as [Ht Hok]. cbn [add_topics].
  destruct (add_partition_run l t PARTITION_UNASSIGNED Ht Hl) as (l1 & H1 & He1 & Hc1).
  unfold add_topic_unassigned. rewrite (comp_bind_run _ _ _ _ _ H1).
  destruct (IH l1 Hok Hc1) as (l2 & -> & He2 & Hc2). exists l2. split_and!; [done| |done].
  by rewrite He2, He1, <- app_assoc.
Qed.

(** Subscribing hands librdkafka a list with one unassigned element
    per topic, in order, and translates its answer. A topic with an interior NUL
    byte panics instead of being an error, although the operation is fallible. *)
Theorem subscribe_spec `{!TplNativeSpec T} topics w :
  (Forall (λ t, nul_free t = true) topics →
   ∃ l, elems l = (λ t, new_elem t PARTITION_UNASSIGNED) <$> topics ∧ cnt_ok l
     ∧ subscribe topics w
       = let '(e, w') := rd_kafka_subscribe l w in
         Done (if resp_is_error e then Err (Subscription (to_string_lossy (rd_kafka_err2str e))) else Ok tt, w'))
  ∧ (∀ t rest, topics = t :: rest → nul_free t = false → ∃ msg, subscribe topics w = Panic msg).
Proof.
  split.
  - intros Hok. destruct (with_capacity_ok 5) as [Hc He].
    destruct (add_topics_run topics tpl_new Hok Hc) as (l & Hr & Hl & Hcl). exists l.
    unfold tpl_new in Hl. rewrite He in Hl. split_and!; [done..|].
    unfold subscribe, mbind, comp_bind, lift, call. rewrite Hr.
    by destruct (rd_kafka_subscribe l w) as [e w'].
  - intros t rest -> Ht. destruct (CString_new_err t Ht) as [i Hi].
    unfold subscribe, mbind, comp_bind, lift. cbn [add_topics].
    unfold add_topic_unassigned, add_partition, mbind, comp_bind, lift. rewrite Hi. by eexists.
Qed.

(** The offsets for a timestamp are asked for every
    partition of the current assignment, with the timestamp in the offset field
    and the rest of the list unchanged. A negative timestamp on a non-empty
    assignment is refused before librdkafka is asked. *)
Theorem offsets_for_timestamp_spec oc ts timeout l w w1 :
  rd_kafka_assignment w = (RD_KAFKA_RESP_ERR_NO_ERROR, Some l, w1) → list_wf l →
  (0 ≤ ts ≤ i64_max → ∃ l', elems l' = with_offset ts <$> elems l
     ∧ offsets_for_timestamp oc ts timeout w = offsets_for_times l' timeout w1)
  ∧ (ts < 0 → elems l ≠ [] →
     offsets_for_timestamp oc ts timeout w = Done (Err (SetPartitionOffset Code.InvalidArgument), w1)).
Proof.
  intros Ha Hl.
  assert (offsets_for_timestamp oc ts timeout w
          = match set_all_offsets oc (Off.Offset_ ts) l with
            | Done (Err e, _) => Done (Err e, w1)
            | Done (Ok _, l') => offsets_for_times l' timeout w1
            | Panic msg => Panic msg
            end) as Hrun.
  { unfold offsets_for_timestamp, mbind, comp_bind, call, lift. rewrite Ha. simpl.
    by destruct (set_all_offsets oc (Off.Offset_ ts) l) as [[[u|e] l']|msg]. }
  rewrite Hrun. split.
  - intros Hts. destruct (set_all_offsets_ok oc l (Off.Offset_ ts) Hl Hts) as (l' & Hr & He & _).
    exists l'. split; [done|]. by rewrite Hr.
  - intros Hts Hne. assert (to_raw oc (Off.Offset_ ts) = Done None) as Ho by (by apply to_raw_none).
    pose proof (set_all_offsets_invalid oc l _ Hl Ho) as Hr. rewrite decide_False in Hr by done.
    by rewrite Hr.
Qed.

End properties.

(** ** A simulated consumer *)

#[export] Instance sim_consumer : ConsumerNative sim := {
  rd_kafka_err2str _ := "error";
  rd_kafka_subscribe _ s := (RD_KAFKA_RESP_ERR_NO_ERROR, s);
  rd_kafka_unsubscribe s := (RD_KAFKA_RESP_ERR_NO_ERROR, s);
  rd_kafka_assign _ s := (RD_KAFKA_RESP_ERR_NO_ERROR, s);
  rd_kafka_incremental_assign _ s := (None, s);
  rd_kafka_incremental_unassign _ s := (None, s);
  rd_kafka_seek _ _ _ _ s := (RD_KAFKA_RESP_ERR_NO_ERROR, s);
  rd_kafka_seek_partitions l _ s := (None, l, s);
  rd_kafka_commit _ _ s := (RD_KAFKA_RESP_ERR_NO_ERROR, s);
  rd_kafka_commit_message _ _ s := (RD_KAFKA_RESP_ERR_NO_ERROR, s);
  rd_kafka_offset_store _ _ _ s := (RD_KAFKA_RESP_ERR_NO_ERROR, s);
  rd_kafka_offsets_store _ s := (RD_KAFKA_RESP_ERR_NO_ERROR, s);
  rd_kafka_subscription s := (RD_KAFKA_RESP_ERR_NO_ERROR, Some sample_list, s);
  rd_kafka_assignment s := (RD_KAFKA_RESP_ERR_NO_ERROR, Some sample_list, s);
  rd_kafka_assignment_lost _ := 0;
  rd_kafka_committed l _ s := (RD_KAFKA_RESP_ERR_NO_ERROR, l, s);
  rd_kafka_offsets_for_times l _ s := (RD_KAFKA_RESP_ERR_NO_ERROR, l, s);
  rd_kafka_position l s := (RD_KAFKA_RESP_ERR_NO_ERROR, l, s);
  rd_kafka_pause_partitions _ s := (RD_KAFKA_RESP_ERR_NO_ERROR, s);
  rd_kafka_resume_partitions _ s := (RD_KAFKA_RESP_ERR_NO_ERROR, s);
  rd_kafka_consumer_close_queue _ s := (None, s);
  rd_kafka_consumer_closed s := if decide (sim_arrivals s = []) then 1 else 0;
  rd_kafka_queue_get_partition _ _ s := (Some 3%nat, s);
  rd_kafka_queue_forward _ _ s := s;
  rd_kafka_queue_cb_event_enable _ _ s := s;
  rd_kafka_poll_set_consumer s := s;
}.

#[export] Instance sim_consumer_context : ConsumerContext sim := {
  rebalance := default_rebalance (λ _ s, s) (λ _ s, s);
  commit_callback _ _ s := s;
  main_queue_min_poll_interval := default_min_poll_interval;
}.

#[export] Instance sim_queue_spec : ConsumerQueueSpec sim.
Proof.
  split.
  - intros q ms s ev s'. simpl. unfold sim_poll. repeat case_match; intros [= <- <-].
    destruct s0; unfold served; simpl.
    + left. left.
    + left. right. left.
    + right. left. done.
    + right. right. left. by split_and!.
    + right. right. left. split_and!; [done..|]. by eexists.
    + right. right. right. left. split; [done|]. by eexists.
    + by do 4 right.
  - intros e l s. unfold rebalance. simpl. unfold default_rebalance. destruct e; by do 2 eexists.
Qed.

Definition sim_at (t : Z) : sim := {| sim_now := t; sim_arrivals := []; sim_trace := [] |}.

Lemma poll_queue_safe_witness :
  poll_answer (After 7) (clock (sim_start [])) (clock (sim_at 7)) Poll.None.
Proof. apply (poll_queue_safe 9 0). vm_compute. reflexivity. Defined.

Lemma poll_queue_terminates_witness :
  ∃ r w', poll_queue 6 0 (After 5) (sim_start [(0, ArriveLog); (2, ArriveAssign)]) = Done (Some r, w').
Proof. apply (poll_queue_terminates 0 5). lia. Defined.

Lemma consumer_drop_closed_witness : closed (sim_at 1) = true.
Proof.
  assert (consumer_drop 9 0 (Some "g") (sim_start [(0, ArriveCommit)]) = Done (Some tt, sim_at 1)) as H
    by (vm_compute; reflexivity).
  apply consumer_drop_closed in H. vm_compute in H |- *. exact H.
Defined.

Lemma subscribe_spec_witness :
  ∃ l, elems l = [new_elem "a" (-1); new_elem "b" (-1)] ∧ cnt_ok l
    ∧ subscribe ["a"; "b"] (sim_at 0) = Done (Ok tt, sim_at 0).
Proof.
  destruct (proj1 (subscribe_spec ["a"; "b"] (sim_at 0))) as (l & H1 & H2 & H3); [by repeat constructor|].
  exists l. split_and!; [exact H1|exact H2|exact H3].
Defined.

Lemma offsets_for_timestamp_spec_witness :
  offsets_for_timestamp true (-1) Never (sim_at 0)
  = Done (Err (SetPartitionOffset Code.InvalidArgument), sim_at 0).
Proof.
  apply (offsets_for_timestamp_spec true (-1) Never sample_list (sim_at 0) (sim_at 0));
    [reflexivity|exact sample_list_wf|lia|discriminate].
Defined.
