(* ===== verification/StreamConsumer.v ===== *)
(** * The stream consumer

    [src/consumer/stream_consumer.rs]: the slab of wakers, message streams with
    their [poll_next], and the interleavings of streams with the thread of
    librdkafka that enqueues events and calls back when a queue stops being
    empty. A system state holds the native queue, the callbacks in flight, the
    slab, the phase of every stream and the streams whose task has been notified;
    [step] is one atomic action of one of the parties. [wake_all] and the other
    slab operations run under the mutex and are atomic. The file also holds [recv],
    the task that wakes the streams in the background, and partition queues. The
    [slab] crate chooses the key of an inserted value: the class [Slab]. A waker is
    identified by the stream whose poll created it. *)

From stdpp Require Import strings gmap prelude.
From S2P Require Import Prelude ErrorCodes KafkaErrors Util TopicPartitionList Config Message Client BaseConsumer.

Local Open Scope Z_scope.

(** ** Wakers *)

Abbreviation Waker := nat.
Abbreviation WakerSlab := (gmap nat (option Waker)).

(** [Slab::insert] puts the value at a vacant key. *)
Class Slab := {
  vacant : WakerSlab → nat;
  vacant_fresh m : m !! vacant m = None;
}.

Section wakers.
Context `{!Slab}.

(** [WakerSlab::new]. *)
Definition waker_slab_new : WakerSlab := ∅.

(** [WakerSlab::wake_all]: the wakers that are woken, and a slab without them. *)
Definition wake_all (wakers : WakerSlab) : gset Waker * WakerSlab :=
  (list_to_set (omap (λ kv : nat * option Waker, kv.2) (map_to_list wakers)), (λ _, None) <$> wakers).

(** [WakerSlab::register]: the slot. *)
Definition register (wakers : WakerSlab) : nat * WakerSlab :=
  (vacant wakers, <[vacant wakers := None]> wakers).

(** [WakerSlab::unregister]: [Slab::remove] panics on a vacant key. *)
Definition unregister (slot : nat) (wakers : WakerSlab) : outcome WakerSlab :=
  match wakers !! slot with Some _ => Done (delete slot wakers) | None => Panic "invalid key" end.

(** [WakerSlab::set_waker]: indexing panics on a vacant key. *)
Definition set_waker (slot : nat) (waker : Waker) (wakers : WakerSlab) : outcome WakerSlab :=
  match wakers !! slot with
  | Some _ => Done (<[slot := Some waker]> wakers)
  | None => Panic "invalid key"
  end.

End wakers.

(** ** The queue as a stream sees it *)

(** What an event is to [poll_queue] with a zero timeout: an item for the
    caller, an event that is served, or one that is skipped. *)
Inductive queued : Type :=
| Item (r : KafkaResult RDKafkaMessage)
| Served
| Skipped.

Definition classify (ev : RDKafkaEvent) : queued :=
  if bool_decide (event_type ev ∈ consumed_types) then Served
  else if event_type ev =? RD_KAFKA_EVENT_FETCH then
    match handle_fetch_event ev with Some r => Item r | None => Skipped end
  else if event_type ev =? RD_KAFKA_EVENT_ERROR then
    match handle_error_event ev with Done (Some e) => Item (Err e) | _ => Skipped end
  else if event_type ev =? RD_KAFKA_EVENT_REBALANCE then Served
  else if event_type ev =? RD_KAFKA_EVENT_OFFSET_COMMIT then Served
  else Skipped.

(** [MessageStream::poll]: [poll_queue(queue, Duration::ZERO)] on a queue. *)
Fixpoint stream_poll (queue : list queued) : EventPollResult (KafkaResult RDKafkaMessage) * list queued :=
  match queue with
  | [] => (Poll.None, [])
  | Item r :: queue => (Poll.Event r, queue)
  | Served :: queue => (Poll.EventConsumed, queue)
  | Skipped :: queue => stream_poll queue
  end.

(** ** The system *)

Inductive phase : Set :=
| Idle            (** not being polled, and not waiting *)
| Polling1        (** at the first [self.poll()] of [poll_next] *)
| Registering     (** at [set_waker] *)
| Polling2        (** at the second [self.poll()] *)
| Parked.         (** [poll_next] returned [Pending] *)

#[export] Instance phase_eq_dec : EqDecision phase.
Proof. solve_decision. Defined.

Record sys := {
  queue : list queued;
  callbacks : nat;
  wakers : WakerSlab;
  phases : gmap nat phase;
  notified : gset nat;
}.

Definition with_phase (i : nat) (p : phase) (s : sys) : sys :=
  {| queue := queue s; callbacks := callbacks s; wakers := wakers s;
     phases := <[i := p]> (phases s); notified := notified s |}.

Definition with_queue (q : list queued) (s : sys) : sys :=
  {| queue := q; callbacks := callbacks s; wakers := wakers s; phases := phases s;
     notified := notified s |}.

Definition with_wakers (m : WakerSlab) (s : sys) : sys :=
  {| queue := queue s; callbacks := callbacks s; wakers := m; phases := phases s;
     notified := notified s |}.

Definition notify (ws : gset nat) (s : sys) : sys :=
  {| queue := queue s; callbacks := callbacks s; wakers := wakers s; phases := phases s;
     notified := notified s ∪ ws |}.

Definition clear_notified (i : nat) (s : sys) : sys :=
  {| queue := queue s; callbacks := callbacks s; wakers := wakers s; phases := phases s;
     notified := notified s ∖ {[ i ]} |}.

(** librdkafka enqueues an event, and starts a callback when the queue was empty. *)
Definition enqueue (ev : queued) (s : sys) : sys :=
  {| queue := queue s ++ [ev];
     callbacks := callbacks s + (if decide (queue s = []) then 1 else 0);
     wakers := wakers s; phases := phases s; notified := notified s |}.

(** Every stored waker is taken and woken. *)
Definition wake_streams (s : sys) : sys :=
  let '(woken, m) := wake_all (wakers s) in notify woken (with_wakers m s).

(** [native_message_queue_nonempty_cb]: one callback in flight ends. *)
Definition nonempty_cb (s : sys) : sys :=
  wake_streams {| queue := queue s; callbacks := pred (callbacks s); wakers := wakers s;
                  phases := phases s; notified := notified s |}.

(** What a stream does with the answer of one of its two polls: [miss] is where
    it goes when there was nothing. *)
Definition after_poll (i : nat) (miss : phase) (r : EventPollResult (KafkaResult RDKafkaMessage))
    (s : sys) : sys :=
  match r with
  | Poll.Event _ => with_phase i Idle s
  | Poll.EventConsumed => notify {[ i ]} (with_phase i Parked s)
  | Poll.None => with_phase i miss s
  end.

Definition poll_step (i : nat) (miss : phase) (s : sys) : sys :=
  let '(r, q) := stream_poll (queue s) in after_poll i miss r (with_queue q s).

Section steps.
Context `{!Slab}.

Inductive step : sys → sys → Prop :=
| step_enqueue ev s : step s (enqueue ev s)
| step_callback s : (0 < callbacks s)%nat → step s (nonempty_cb s)
| step_timer s : step s (wake_streams s)
| step_new s i m : register (wakers s) = (i, m) →
    step s (with_phase i Idle (with_wakers m s))
| step_drop s i m p : phases s !! i = Some p → (p = Idle ∨ p = Parked) →
    unregister i (wakers s) = Done m →
    step s {| queue := queue s; callbacks := callbacks s; wakers := m;
              phases := delete i (phases s); notified := notified s ∖ {[ i ]} |}
| step_start s i p : phases s !! i = Some p → (p = Idle ∨ p = Parked) →
    step s (with_phase i Polling1 (clear_notified i s))
| step_poll1 s i : phases s !! i = Some Polling1 → step s (poll_step i Registering s)
| step_register s i m : phases s !! i = Some Registering → set_waker i i (wakers s) = Done m →
    step s (with_phase i Polling2 (with_wakers m s))
| step_poll2 s i : phases s !! i = Some Polling2 → step s (poll_step i Parked s).

(** A consumer without streams; the queue may already hold events. *)
Definition initial (q : list queued) : sys :=
  {| queue := q; callbacks := 0; wakers := waker_slab_new; phases := ∅; notified := ∅ |}.

Inductive reachable : sys → Prop :=
| reachable_initial q : reachable (initial q)
| reachable_step s s' : reachable s → step s s' → reachable s'.

(** [MessageStream::poll_next] run without interruption; [None] is [Pending]. *)
Definition poll_next (slot : nat) : comp sys (option (KafkaResult RDKafkaMessage)) :=
  let self_poll := call (λ s, let '(r, q) := stream_poll (queue s) in (r, with_queue q s)) in
  r ← self_poll;
  match r with
  | Poll.Event message => mret (Some message)
  | Poll.EventConsumed => _ ← modify (notify {[ slot ]}); mret None
  | Poll.None =>
      s ← get;
      m ← lift (set_waker slot slot (wakers s));
      _ ← modify (with_wakers m);
      r ← self_poll;
      match r with
      | Poll.Event message => mret (Some message)
      | Poll.EventConsumed => _ ← modify (notify {[ slot ]}); mret None
      | Poll.None => mret None
      end
  end.

(** [StreamConsumer::stream], [StreamPartitionQueue::stream]: a stream is its slot. *)
Definition stream_new : comp sys nat :=
  s ← get; let '(slot, m) := register (wakers s) in _ ← modify (with_wakers m); mret slot.

(** [impl Drop for MessageStream]. *)
Definition stream_drop (slot : nat) : comp sys unit :=
  s ← get; m ← lift (unregister slot (wakers s)); modify (with_wakers m).

(** One poll of the future of [recv]: the stream lives in the future, and is
    dropped when the future completes. *)
Definition recv_poll (slot : nat) : comp sys (option (KafkaResult RDKafkaMessage)) :=
  o ← poll_next slot;
  match o with
  | Some message => _ ← stream_drop slot; mret (Some message)
  | None => mret None
  end.

End steps.

(** ** The background task *)

(** What [future::select] of the delay and the tripwire gives. *)
Inductive selected : Set :=
| Elapsed         (** [Either::Left]: the delay is over *)
| Tripped.        (** [Either::Right]: the consumer was dropped *)

(** The loop of the task, over the results of its [select]s; whether it has ended. *)
Fixpoint wake_loop (rs : list selected) (s : sys) : bool * sys :=
  match rs with
  | [] => (false, s)
  | Elapsed :: rs => wake_loop rs (wake_streams s)
  | Tripped :: _ => (true, s)
  end.

(** ** Creating a stream consumer, and partition queues *)

Section stream_consumer.
Context {W : Type} `{!ClientNative W} `{!ConsumerNative W} `{N : ConfNative} `{!ClientNew W}.

(** [max.poll.interval.ms], in nanoseconds. *)
Definition poll_interval (native_config : RDKafkaConf) : outcome (KafkaResult Z) :=
  match native_config_get native_config "max.poll.interval.ms" with
  | Err e => Done (Err e)
  | Ok v =>
      match parse_u64 (str_of_bytes (rev (strip_zeros (rev (str_bytes v))))) with
      | Some millis => Done (Ok (duration_from_millis millis))
      | None => Panic "librdkafka validated config value is valid u64"
      end
  end.

(** [FromClientConfigAndContext for StreamConsumer]: the base consumer, and the
    delay between two wakeups of the task that is spawned. *)
Definition stream_consumer_new (config : ClientConfig) (entries : list (string * string)) (context : nat)
    : comp W (KafkaResult (BaseConsumer * Z)) :=
  native_config ←? lift (create_native_config entries);
  interval ←? lift (poll_interval native_config);
  base ←? base_consumer_new config native_config context;
  _ ← modify (rd_kafka_queue_cb_event_enable (bc_queue base) true);
  mret (Ok (base, interval / 2)).

(** [StreamConsumer::split_partition_queue]. *)
Definition stream_split_partition_queue (topic : string) (partition : Z) : comp W (option (nat * WakerSlab)) :=
  q ← split_partition_queue topic partition;
  match q with
  | None => mret None
  | Some queue =>
      _ ← modify (rd_kafka_queue_cb_event_enable queue true); mret (Some (queue, waker_slab_new))
  end.

(** [impl Drop for StreamPartitionQueue], then of its [PartitionQueue]. *)
Definition stream_partition_queue_drop (queue : nat) : comp W unit :=
  _ ← modify (rd_kafka_queue_cb_event_enable queue false); partition_queue_drop queue.

End stream_consumer.

(** ** The invariant *)

(** A stream that has its waker stored or its task notified. *)
Definition will_wake (s : sys) (i : nat) : Prop := i ∈ notified s ∨ wakers s !! i = Some (Some i).

Record inv (s : sys) : Prop := {
  inv_slots : dom (wakers s) = dom (phases s);
  inv_wakers i w : wakers s !! i = Some (Some w) → w = i;
  inv_polling i : phases s !! i = Some Polling2 → will_wake s i;
  inv_parked i : phases s !! i = Some Parked → will_wake s i;
  inv_callback i : phases s !! i = Some Parked → i ∉ notified s → queue s ≠ [] → (0 < callbacks s)%nat;
}.

Lemma elem_of_wake_all m w : w ∈ (wake_all m).1 ↔ ∃ k, m !! k = Some (Some w).
Proof.
  unfold wake_all. simpl. rewrite elem_of_list_to_set, list_elem_of_omap. split.
  - intros ([k x] & Hk & Hx). simpl in Hx. subst x. exists k. by apply elem_of_map_to_list.
  - intros [k Hk]. exists (k, Some w). split; [by apply elem_of_map_to_list|done].
Qed.

Lemma stream_poll_none q q' : stream_poll q = (Poll.None, q') → q' = [].
Proof. induction q as [|[] q IH]; simpl; intros H; [congruence|done|done|by apply IH]. Qed.

Lemma stream_poll_nonempty q r q' : stream_poll q = (r, q') → q' ≠ [] → q ≠ [].
Proof. destruct q; [|done]. by intros [= <- <-]. Qed.

(** A step that keeps the slots, the phases and the wakers, and loses no
    notification, keeps the invariant as long as the queue still has its callback. *)
Lemma inv_weaken s s' : inv s →
  wakers s' = wakers s → phases s' = phases s → notified s ⊆ notified s' →
  (queue s' ≠ [] → queue s ≠ [] ∧ (callbacks s ≤ callbacks s')%nat ∨ (0 < callbacks s')%nat) →
  inv s'.
Proof.
  intros [H1 H2 H3 H4 H5] Hw Hp Hn Hq.
  split; unfold will_wake; rewrite ?Hw, ?Hp; [done|done|..].
  - intros i Hi. destruct (H3 i Hi); [left; set_solver|by right].
  - intros i Hi. destruct (H4 i Hi); [left; set_solver|by right].
  - intros i Hi Hni Hne. destruct (Hq Hne) as [[Hne' Hc]|?]; [|done].
    enough (0 < callbacks s)%nat by lia. apply (H5 i); [done|set_solver|done].
Qed.

Lemma inv_enqueue ev s : inv s → inv (enqueue ev s).
Proof.
  intros H. apply (inv_weaken s); [done..|]. unfold enqueue. simpl. intros _.
  case_decide; [right; lia|left; split; [done|lia]].
Qed.

(** Waking every stored waker notifies every stream that has one. *)
Lemma inv_wake s n : inv s →
  inv (wake_streams {| queue := queue s; callbacks := n; wakers := wakers s;
                       phases := phases s; notified := notified s |}).
Proof.
  intros [H1 H2 H3 H4 H5].
  assert (∀ i, will_wake s i → i ∈ notified s ∪ (wake_all (wakers s)).1) as Hall.
  { intros i [Hi|Hi]; [set_solver|]. apply elem_of_union_r, elem_of_wake_all. by exists i. }
  unfold wake_streams. simpl. split; unfold will_wake; simpl.
  - by rewrite dom_fmap_L.
  - intros i w. rewrite lookup_fmap. by destruct (wakers s !! i).
  - intros i Hi. left. by apply Hall, H3.
  - intros i Hi. left. by apply Hall, H4.
  - intros i Hi Hn. exfalso. by apply Hn, Hall, H4.
Qed.

(** Moving one stream to a phase in which nothing is promised. *)
Lemma inv_with_phase i p s : inv s → i ∈ dom (phases s) → p ≠ Polling2 → p ≠ Parked →
  inv (with_phase i p s).
Proof.
  intros [H1 H2 H3 H4 H5] Hi Hp1 Hp2. split; unfold will_wake; simpl; [|done|..].
  - rewrite dom_insert_L. set_solver.
  - intros j. destruct (decide (i = j)) as [->|]; [rewrite lookup_insert_eq; congruence|].
    rewrite lookup_insert_ne by done. apply H3.
  - intros j. destruct (decide (i = j)) as [->|]; [rewrite lookup_insert_eq; congruence|].
    rewrite lookup_insert_ne by done. apply H4.
  - intros j. destruct (decide (i = j)) as [->|]; [rewrite lookup_insert_eq; congruence|].
    rewrite lookup_insert_ne by done. apply H5.
Qed.

(** Parking a stream that will be woken, on an empty queue or after notifying it. *)
Lemma inv_park i s : inv s → i ∈ dom (phases s) → will_wake s i →
  (i ∉ notified s → queue s = []) → inv (with_phase i Parked s).
Proof.
  intros [H1 H2 H3 H4 H5] Hi Hw Hq. split; unfold will_wake; simpl; [|done|..].
  - rewrite dom_insert_L. set_solver.
  - intros j. destruct (decide (i = j)) as [->|]; [done|]. rewrite lookup_insert_ne by done. apply H3.
  - intros j. destruct (decide (i = j)) as [->|]; [done|]. rewrite lookup_insert_ne by done. apply H4.
  - intros j. destruct (decide (i = j)) as [->|]; [|rewrite lookup_insert_ne by done; apply H5].
    intros _ Hn Hne. by destruct (Hne (Hq Hn)).
Qed.

Lemma inv_poll_step i miss s : inv s → i ∈ dom (phases s) →
  (miss = Registering ∨ miss = Parked ∧ will_wake s i) → inv (poll_step i miss s).
Proof.
  intros Hs Hi Hm. unfold poll_step. destruct (stream_poll (queue s)) as [r q] eqn:Eq.
  assert (inv (with_queue q s)) as Hs'.
  { apply (inv_weaken s); [done..|]. intros Hne. left. split; [by eapply stream_poll_nonempty|done]. }
  destruct r as [| |m]; simpl.
  - apply stream_poll_none in Eq as ->. destruct Hm as [->|[-> Hw]]; [by apply inv_with_phase|].
    apply inv_park; [done|done|exact Hw|done].
  - replace (notify {[i]} (with_phase i Parked (with_queue q s)))
      with (with_phase i Parked (notify {[i]} (with_queue q s))) by done.
    apply inv_park; [|done|left; simpl; set_solver|simpl; set_solver].
    apply (inv_weaken (with_queue q s)); [done..|simpl; set_solver|]. simpl. intros. by left.
  - by apply inv_with_phase.
Qed.

Section reach.
Context `{!Slab}.

Lemma inv_initial q : inv (initial q).
Proof. split; unfold initial, waker_slab_new; simpl; [set_solver|..]; intros i; by rewrite lookup_empty. Qed.

Lemma inv_new s i m : inv s → register (wakers s) = (i, m) → inv (with_phase i Idle (with_wakers m s)).
Proof.
  intros [H1 H2 H3 H4 H5] [= <- <-]. set (i := vacant (wakers s)).
  assert (wakers s !! i = None) as Hf by apply vacant_fresh.
  assert (phases s !! i = None) as Hp by (apply not_elem_of_dom; rewrite <- H1; by apply not_elem_of_dom).
  split; unfold will_wake; simpl.
  - by rewrite !dom_insert_L, H1.
  - intros j w. destruct (decide (i = j)) as [->|]; [by rewrite lookup_insert_eq|].
    rewrite lookup_insert_ne by done. apply H2.
  - intros j. destruct (decide (i = j)) as [->|]; [by rewrite lookup_insert_eq|].
    rewrite !lookup_insert_ne by done. apply H3.
  - intros j. destruct (decide (i = j)) as [->|]; [by rewrite lookup_insert_eq|].
    rewrite !lookup_insert_ne by done. apply H4.
  - intros j. destruct (decide (i = j)) as [->|]; [by rewrite lookup_insert_eq|].
    rewrite !lookup_insert_ne by done. apply H5.
Qed.

Lemma inv_drop s i m : inv s → unregister i (wakers s) = Done m →
  inv {| queue := queue s; callbacks := callbacks s; wakers := m; phases := delete i (phases s);
         notified := notified s ∖ {[ i ]} |}.
Proof.
  intros [H1 H2 H3 H4 H5] Hm. unfold unregister in Hm. destruct (wakers s !! i) eqn:Ei; [|done].
  injection Hm as <-. split; unfold will_wake; simpl.
  - by rewrite !dom_delete_L, H1.
  - intros j w [_ Hj]%lookup_delete_Some. by apply H2.
  - intros j [Hne Hj]%lookup_delete_Some. rewrite lookup_delete_ne by done.
    destruct (H3 j Hj); [left; set_solver|by right].
  - intros j [Hne Hj]%lookup_delete_Some. rewrite lookup_delete_ne by done.
    destruct (H4 j Hj); [left; set_solver|by right].
  - intros j [Hne Hj]%lookup_delete_Some Hn. apply (H5 j Hj). set_solver.
Qed.

Lemma inv_start s i : inv s → i ∈ dom (phases s) → inv (with_phase i Polling1 (clear_notified i s)).
Proof.
  intros [H1 H2 H3 H4 H5] Hi. split; unfold will_wake; simpl; [|done|..].
  - rewrite dom_insert_L. set_solver.
  - intros j [[-> ?]|[Hne Hj]]%lookup_insert_Some; [done|].
    destruct (H3 j Hj); [left; set_solver|by right].
  - intros j [[-> ?]|[Hne Hj]]%lookup_insert_Some; [done|].
    destruct (H4 j Hj); [left; set_solver|by right].
  - intros j [[-> ?]|[Hne Hj]]%lookup_insert_Some Hn; [done|]. apply (H5 j Hj). set_solver.
Qed.

Lemma inv_register s i m : inv s → phases s !! i = Some Registering →
  set_waker i i (wakers s) = Done m → inv (with_phase i Polling2 (with_wakers m s)).
Proof.
  intros [H1 H2 H3 H4 H5] Hi Hm. unfold set_waker in Hm. destruct (wakers s !! i) eqn:Ei; [|done].
  injection Hm as <-. apply elem_of_dom_2 in Hi as Hd. split; unfold will_wake; simpl.
  - rewrite !dom_insert_L. set_solver.
  - intros j w [[-> [= ->]]|[Hne Hj]]%lookup_insert_Some; [done|]. by apply H2.
  - intros j [[-> _]|[Hne Hj]]%lookup_insert_Some; [right; apply lookup_insert_eq|].
    rewrite lookup_insert_ne by done. by apply H3.
  - intros j [[-> ?]|[Hne Hj]]%lookup_insert_Some; [done|].
    rewrite lookup_insert_ne by done. by apply H4.
  - intros j [[-> ?]|[Hne Hj]]%lookup_insert_Some; [done|]. by apply H5.
Qed.

Lemma inv_step s s' : inv s → step s s' → inv s'.
Proof.
  intros Hs Hstep. destruct Hstep as [ev s|s Hc|s|s i m Hm|s i m p Hp Hq Hm|s i p Hp Hq|s i Hp|s i m Hp Hm|s i Hp].
  - by apply inv_enqueue.
  - by apply inv_wake.
  - pose proof (inv_wake s (callbacks s) Hs) as Hw. destruct s. exact Hw.
  - by apply inv_new.
  - by apply inv_drop.
  - apply inv_start; [done|by eapply elem_of_dom_2].
  - apply inv_poll_step; [done|by eapply elem_of_dom_2|by left].
  - by apply inv_register.
  - apply inv_poll_step; [done|by eapply elem_of_dom_2|]. right. split; [done|by apply inv_polling].
Qed.

Lemma reachable_inv s : reachable s → inv s.
Proof. induction 1; [apply inv_initial|by eapply inv_step]. Qed.

Lemma slot_registered s i p : inv s → phases s !! i = Some p → is_Some (wakers s !! i).
Proof. intros Hs Hi. apply elem_of_dom. rewrite inv_slots by done. by eapply elem_of_dom_2. Qed.

(** ** Properties *)

(** C4: no wakeup is lost. In every reachable state, whatever the
    interleaving of enqueues, callbacks, timer wakeups, new and dropped streams
    and the polls of any number of streams: if a stream is parked, its task has
    not been notified and the queue holds an event, then a callback of librdkafka
    is in flight and its end notifies the stream. *)
Theorem no_lost_wakeup s i :
  reachable s → phases s !! i = Some Parked → i ∉ notified s → queue s ≠ [] →
  (0 < callbacks s)%nat ∧ step s (nonempty_cb s) ∧ i ∈ notified (nonempty_cb s).
Proof.
  intros Hr Hi Hn Hq. apply reachable_inv in Hr as Hs.
  assert (0 < callbacks s)%nat as Hc by (by eapply inv_callback).
  split_and!; [done|by constructor|]. unfold nonempty_cb, wake_streams. simpl.
  destruct (inv_parked _ Hs i Hi) as [?|Hw]; [done|].
  apply elem_of_union_r, elem_of_wake_all. by exists i.
Qed.

(** The slab operations of a live stream never panic: in every
    reachable state the slot of a stream is occupied, and a stored waker is the
    waker of the stream of that slot. *)
Theorem waker_slots s i p :
  reachable s → phases s !! i = Some p →
  (∃ m, set_waker i i (wakers s) = Done m) ∧ (∃ m, unregister i (wakers s) = Done m)
  ∧ ∀ w, wakers s !! i = Some (Some w) → w = i.
Proof.
  intros Hr Hi. apply reachable_inv in Hr as Hs. destruct (slot_registered s i p Hs Hi) as [x Hx].
  unfold set_waker, unregister. rewrite Hx. split_and!; [by eexists..|].
  intros w Hw. apply (inv_wakers _ Hs). congruence.
Qed.

Lemma poll_next_run s i p : inv s → phases s !! i = Some p →
  ∃ o s', poll_next i (clear_notified i s) = Done (o, s')
    ∧ rtc step (with_phase i Polling1 (clear_notified i s))
        (with_phase i (match o with Some _ => Idle | None => Parked end) s').
Proof.
  intros Hs Hi. destruct (slot_registered s i p Hs Hi) as [x Hx].
  set (s0 := with_phase i Polling1 (clear_notified i s)).
  assert (step s0 (poll_step i Registering s0)) as Hstep1 by (constructor; apply lookup_insert_eq).
  unfold poll_next, mbind, comp_bind, call. unfold poll_step in Hstep1. simpl in Hstep1 |- *.
  destruct (stream_poll (queue s)) as [r q] eqn:E1. destruct r as [| |m]; simpl in Hstep1 |- *.
  - set (s1 := with_phase i Registering (with_queue q s0)) in Hstep1.
    assert (set_waker i i (wakers s) = Done (<[i := Some i]> (wakers s))) as Hset
      by (unfold set_waker; by rewrite Hx).
    unfold lift. rewrite Hset. simpl.
    set (s2 := with_phase i Polling2 (with_wakers (<[i := Some i]> (wakers s)) s1)).
    assert (step s1 s2) as Hstep2 by (apply step_register; [apply lookup_insert_eq|done]).
    assert (step s2 (poll_step i Parked s2)) as Hstep3 by (constructor; apply lookup_insert_eq).
    unfold poll_step in Hstep3. simpl in Hstep3. destruct (stream_poll q) as [r2 q2] eqn:E2.
    destruct r2; do 2 eexists; (split; [done|]);
      (eapply rtc_l; [exact Hstep1|]); (eapply rtc_l; [exact Hstep2|]); (eapply rtc_l; [exact Hstep3|]);
      unfold s2, s1, s0, after_poll, with_phase, with_queue, with_wakers, notify; simpl;
      rewrite !insert_insert_eq; apply rtc_refl.
  - do 2 eexists. split; [done|]. eapply rtc_l; [exact Hstep1|].
    unfold s0, with_phase, with_queue, notify; simpl. rewrite insert_insert_eq. apply rtc_refl.
  - do 2 eexists. split; [done|]. eapply rtc_l; [exact Hstep1|].
    unfold s0, with_phase, with_queue, notify; simpl. rewrite insert_insert_eq. apply rtc_refl.
Qed.

(** C28: [poll_next], run without interruption on a live stream,
    always returns, and is one of the interleavings: starting the poll and then
    the atomic steps lead to the state it leaves, with the stream idle when it
    returned a message and parked when it returned [Pending]. *)
Theorem poll_next_refines s i p :
  reachable s → phases s !! i = Some p → (p = Idle ∨ p = Parked) →
  ∃ o s', poll_next i (clear_notified i s) = Done (o, s')
    ∧ rtc step s (with_phase i (match o with Some _ => Idle | None => Parked end) s').
Proof.
  intros Hr Hi Hp. destruct (poll_next_run s i p (reachable_inv s Hr) Hi) as (o & s' & Hn & Hs).
  exists o, s'. split; [done|]. eapply rtc_l; [by eapply step_start|done].
Qed.

(** The items that a queue holds for its callers. *)
Definition items (q : list queued) : list (KafkaResult RDKafkaMessage) :=
  omap (λ x, match x with Item r => Some r | _ => None end) q.

Definition taken (r : EventPollResult (KafkaResult RDKafkaMessage)) : list (KafkaResult RDKafkaMessage) :=
  match r with Poll.Event m => [m] | _ => [] end.

Lemma stream_poll_items q r q' : stream_poll q = (r, q') → items q = taken r ++ items q'.
Proof. induction q as [|[] q IH]; simpl; intros Hq; [by simplify_eq..|by apply IH]. Qed.

(** A poll takes at most the item it returns, and touches no slot but its own. *)
Lemma poll_next_items slot x s : wakers s !! slot = Some x →
  ∃ o s', poll_next slot s = Done (o, s') ∧ items (queue s) = option_list o ++ items (queue s')
    ∧ is_Some (wakers s' !! slot) ∧ delete slot (wakers s') = delete slot (wakers s).
Proof.
  intros Hx. unfold poll_next, mbind, comp_bind, call.
  destruct (stream_poll (queue s)) as [r q] eqn:E1. apply stream_poll_items in E1 as Hq.
  destruct r as [| |m]; simpl in Hq |- *; [|by do 2 eexists; split_and!..].
  unfold lift, set_waker. rewrite Hx. simpl.
  destruct (stream_poll q) as [r2 q2] eqn:E2. apply stream_poll_items in E2. rewrite Hq.
  destruct r2; simpl in E2 |- *; do 2 eexists; split_and!; try done; simpl;
    first [by rewrite lookup_insert_eq; eexists|by rewrite delete_insert_eq].
Qed.

(** C29: receiving is cancellation safe. A poll of [recv] on a live stream
    returns without panic, and either takes the first item of the queue, returns
    it, and gives the slot back; or it is pending and has taken no item, and
    dropping it then gives the slot back and takes no item either. *)
Theorem recv_cancel_safe s slot p :
  reachable s → phases s !! slot = Some p →
  ∃ o s', recv_poll slot s = Done (o, s')
    ∧ match o with
      | Some r => items (queue s) = r :: items (queue s') ∧ wakers s' = delete slot (wakers s)
      | None => items (queue s') = items (queue s)
          ∧ ∃ s'', stream_drop slot s' = Done (tt, s'') ∧ queue s'' = queue s'
              ∧ wakers s'' = delete slot (wakers s)
      end.
Proof.
  intros Hr%reachable_inv Hp. destruct (slot_registered s slot p Hr Hp) as [x Hx].
  destruct (poll_next_items slot x s Hx) as (o & s' & Ho & Hi & [y Hy] & Hd).
  unfold recv_poll. rewrite (comp_bind_run _ _ _ _ _ Ho).
  assert (stream_drop slot s' = Done (tt, with_wakers (delete slot (wakers s)) s')) as Hdrop.
  { unfold stream_drop, mbind, comp_bind, get, lift, unregister. by rewrite Hy, Hd. }
  destruct o as [r|].
  - rewrite (comp_bind_run _ _ _ _ _ Hdrop). by do 2 eexists.
  - do 2 eexists. split; [done|]. split; [done|]. by eexists.
Qed.

Lemma wake_loop_steps rs s : rtc step s (wake_loop rs s).2.
Proof.
  revert s. induction rs as [|[] rs IH]; intros s; simpl; [done| |done].
  eapply rtc_l; [constructor|apply IH].
Qed.

Lemma wake_loop_notified rs s : notified s ⊆ notified (wake_loop rs s).2.
Proof.
  revert s. induction rs as [|[] rs IH]; intros s; simpl; [done| |done].
  etransitivity; [|apply IH]. unfold wake_streams. simpl. set_solver.
Qed.

(** C30: the background task keeps the consumer polled: each time its delay
    elapses, every stream that waits is notified, so that its task polls again;
    what the loop does is among the steps of the system, and it goes on until
    the consumer is dropped. *)
Theorem timer_wakes s i rs :
  reachable s → phases s !! i = Some Parked →
  i ∈ notified (wake_loop (Elapsed :: rs) s).2
  ∧ rtc step s (wake_loop (Elapsed :: rs) s).2
  ∧ ((wake_loop rs s).1 = true ↔ Tripped ∈ rs).
Proof.
  intros Hr%reachable_inv Hi. split_and!.
  - simpl. apply wake_loop_notified. unfold wake_streams. simpl. apply elem_of_union.
    destruct (inv_parked _ Hr i Hi) as [?|Hw]; [by left|right]. apply elem_of_wake_all. by exists i.
  - apply wake_loop_steps.
  - clear. revert s. induction rs as [|[] rs IH]; intros s; simpl; [set_solver|rewrite IH; set_solver|set_solver].
Qed.

End reach.

(** The delay of the background task is half of the interval that
    librdkafka reports: for a decimal [u64] the value is read without panic and
    is exact. *)
Theorem poll_interval_spec `{N : ConfNative, !ConfNativeSpec N} conf ms :
  conf_value conf "max.poll.interval.ms" = Some (format_int ms) → 0 ≤ ms ≤ u64_max →
  poll_interval conf = Done (Ok (duration_from_millis ms)).
Proof.
  intros Hv Hms. destruct (format_int_ascii ms) as [Hs _]. unfold poll_interval.
  rewrite (native_config_get_value conf "max.poll.interval.ms" (format_int ms)) by done.
  pose proof (zero_position_elem _ (conf_value_nul_free _ _ _ Hv)) as H0.
  rewrite strip_zeros_free by (by rewrite list_elem_of_In, <- in_rev, <- list_elem_of_In). rewrite rev_involutive, str_of_bytes_str_bytes.
  by rewrite parse_u64_format.
Qed.

(** ** The streams' queue and the consumer's poll loop *)

(** What a stream relies on: the events of a native queue come out in order, a
    poll with a zero timeout takes the first one if there is one, and neither
    the context nor the event handlers touch the queue. *)
Class QueueView (W : Type) `{!ClientNative W} `{!ClientContext W} `{!ConsumerContext W} (q : nat) := {
  pending : W → list RDKafkaEvent;
  view_poll w :
    match pending w with
    | [] => ∃ w', rd_kafka_queue_poll q 0 w = (None, w') ∧ pending w' = []
    | ev :: es => ∃ w', rd_kafka_queue_poll q 0 w = (Some ev, w') ∧ pending w' = es
    end;
  view_effect ev w w' : event_effect ev w = Done (tt, w') → pending w' = pending w;
  view_rebalance e l w : ∃ l' w', rebalance e l w = Done (l', w') ∧ pending w' = pending w;
  view_commit r l w : pending (commit_callback r l w) = pending w;
  view_error_event w ev : ev ∈ pending w → event_type ev = RD_KAFKA_EVENT_ERROR →
    ∃ e, handle_error_event ev = Done e;
  view_rebalance_event w ev : ev ∈ pending w → event_type ev = RD_KAFKA_EVENT_REBALANCE →
    is_Some (event_topic_partition_list ev);
  view_interval : timeout_ok main_queue_min_poll_interval;
}.
Arguments pending {W _ _ _} q {_} w.

Section refinement.
Context {W : Type} `{!ClientNative W} `{!ClientContext W} `{!ConsumerContext W} `{T : TplNative}.
Context (q : nat) `{!QueueView W q}.

Lemma zero_timeout : timeout_min (After 0) main_queue_min_poll_interval = After 0.
Proof.
  pose proof view_interval as H. unfold timeout_min. destruct main_queue_min_poll_interval as [d|]; simpl; [|done].
  destruct (Z.leb_spec 0 d); [done|]. unfold timeout_ok, is_duration in H. lia.
Qed.

Lemma zero_left start w : is_zero (saturating_sub (After 0) (instant_since (clock w) start)) = true.
Proof. simpl. unfold duration_saturating_sub, instant_since. apply Z.eqb_eq. lia. Qed.

Lemma poll_turn_empty start w : pending q w = [] →
  ∃ w', poll_turn q start (After 0) (After 0) w = Done (inl Poll.None, w') ∧ pending q w' = [].
Proof.
  intros Hp. pose proof (view_poll w) as Hv. rewrite Hp in Hv. destruct Hv as (w' & Hpoll & Hp').
  assert (poll_event q (After 0) w = Done (Poll.None, w')) as He.
  { rewrite poll_event_effect. change (as_millis (After 0)) with 0. by rewrite Hpoll. }
  exists w'. split; [|done]. unfold poll_turn. rewrite zero_timeout, (comp_bind_run _ _ _ _ _ He).
  unfold mbind, comp_bind, get. by rewrite zero_left.
Qed.

(** The handler that an event which is not consumed reaches leaves the queue alone. *)
Lemma handle_rebalance_view ev w : is_Some (event_topic_partition_list ev) →
  ∃ w', handle_rebalance_event ev w = Done (tt, w') ∧ pending q w' = pending q w.
Proof.
  intros [l Hl]. unfold handle_rebalance_event. rewrite Hl. unfold mbind, comp_bind, lift, expect.
  destruct (view_rebalance (event_error ev) l w) as (l' & w' & Hr & Hp).
  destruct (event_error ev); rewrite ?Hr; by eexists.
Qed.

Lemma handle_commit_view ev w :
  ∃ w', handle_offset_commit_event ev w = Done (tt, w') ∧ pending q w' = pending q w.
Proof.
  unfold handle_offset_commit_event, modify.
  destruct (event_topic_partition_list ev); eexists; (split; [done|]); apply view_commit.
Qed.

Lemma poll_turn_event start w ev es : pending q w = ev :: es →
  ∃ w', poll_turn q start (After 0) (After 0) w
        = Done (match classify ev with
                | Item r => inl (Poll.Event r)
                | Served => inl Poll.EventConsumed
                | Skipped => inr (After 0)
                end, w') ∧ pending q w' = es.
Proof.
  intros Hp. pose proof (view_poll w) as Hv. rewrite Hp in Hv. destruct Hv as (w1 & Hpoll & Hp1).
  destruct (event_effect_run ev w1) as [w2 H2]. pose proof (view_effect _ _ _ H2) as Hp2. rewrite Hp1 in Hp2.
  pose proof (poll_event_effect q (After 0) w) as He. change (as_millis (After 0)) with 0 in He.
  rewrite Hpoll, H2 in He. unfold classify, poll_turn. rewrite zero_timeout. case_bool_decide as Hc.
  { rewrite (comp_bind_run _ _ _ _ _ He). exists w2. split; [|done].
    unfold mbind, comp_bind, get. by rewrite zero_left. }
  rewrite (comp_bind_run _ _ _ _ _ He).
  assert (ev ∈ pending q w) as Hin by (rewrite Hp; left).
  destruct (Z.eqb_spec (event_type ev) RD_KAFKA_EVENT_FETCH).
  { exists w2. split; [|done]. by destruct (handle_fetch_event ev). }
  destruct (Z.eqb_spec (event_type ev) RD_KAFKA_EVENT_ERROR) as [Ht|].
  { destruct (view_error_event w ev Hin Ht) as [e Hee]. exists w2. split; [|done].
    unfold mbind, comp_bind, lift. rewrite Hee. by destruct e. }
  destruct (Z.eqb_spec (event_type ev) RD_KAFKA_EVENT_REBALANCE) as [Ht|].
  { destruct (handle_rebalance_view ev w2 (view_rebalance_event w ev Hin Ht)) as (w3 & H3 & Hp3).
    exists w3. rewrite (comp_bind_run _ _ _ _ _ H3). split; [done|congruence]. }
  destruct (Z.eqb_spec (event_type ev) RD_KAFKA_EVENT_OFFSET_COMMIT).
  { destruct (handle_commit_view ev w2) as (w3 & H3 & Hp3).
    exists w3. rewrite (comp_bind_run _ _ _ _ _ H3). split; [done|congruence]. }
  by exists w2.
Qed.

Lemma poll_loop_zero fuel start w : (length (pending q w) < fuel)%nat →
  ∃ w', poll_loop fuel q start (After 0) (After 0) w
        = Done (Some (stream_poll (classify <$> pending q w)).1, w')
    ∧ classify <$> pending q w' = (stream_poll (classify <$> pending q w)).2.
Proof.
  revert w. induction fuel as [|fuel IH]; intros w Hf; [lia|]. cbn [poll_loop].
  destruct (pending q w) as [|ev es] eqn:Hp.
  - destruct (poll_turn_empty start w Hp) as (w' & Hr & Hp'). rewrite (comp_bind_run _ _ _ _ _ Hr).
    exists w'. split; [done|]. by rewrite Hp'.
  - destruct (poll_turn_event start w ev es Hp) as (w' & Hr & Hp'). rewrite (comp_bind_run _ _ _ _ _ Hr).
    rewrite fmap_cons. destruct (classify ev); cbn [stream_poll].
    + exists w'. split; [done|]. by rewrite Hp'.
    + exists w'. split; [done|]. by rewrite Hp'.
    + rewrite <- Hp'. apply IH. rewrite Hp'. simpl in Hf. lia.
Qed.

(** C9: the poll of a stream, [poll_queue] with a zero timeout,
    implements the queue abstraction of the interleaving model: with more turns
    than events it returns the first event that is not skipped (an item, or a
    served event), or nothing on a queue without one, and leaves the rest. *)
Theorem stream_poll_refines fuel w : (length (pending q w) < fuel)%nat →
  ∃ w', poll_queue fuel q (After 0) w = Done (Some (stream_poll (classify <$> pending q w)).1, w')
    ∧ classify <$> pending q w' = (stream_poll (classify <$> pending q w)).2.
Proof. apply poll_loop_zero. Qed.

End refinement.

(** ** Instances *)

#[export, refine] Instance reference_slab : Slab := {| vacant m := fresh (dom m) |}.
Proof. intros m. apply not_elem_of_dom, is_fresh. Defined.

(** A stream that parked on an empty queue before an event arrived. *)
Definition slot0 : nat := vacant ∅.

Definition opened_state : sys := with_phase slot0 Idle (with_wakers {[ slot0 := None ]} (initial [])).
Definition polled_state : sys :=
  poll_step slot0 Registering (with_phase slot0 Polling1 (clear_notified slot0 opened_state)).
Definition registered_state : sys :=
  with_phase slot0 Polling2 (with_wakers {[ slot0 := Some slot0 ]} polled_state).
Definition parked_state : sys := enqueue Served (poll_step slot0 Parked registered_state).

Lemma registered_reachable : reachable registered_state.
Proof.
  assert (reachable opened_state) as H1.
  { eapply reachable_step; [apply (reachable_initial [])|]. by apply step_new. }
  assert (reachable polled_state) as H2.
  { eapply reachable_step; [eapply reachable_step; [exact H1|]|].
    - apply (step_start _ slot0 Idle); [apply lookup_insert_eq|by left].
    - apply step_poll1. apply lookup_insert_eq. }
  eapply reachable_step; [exact H2|]. apply step_register; [apply lookup_insert_eq|].
  unfold set_waker. simpl. by rewrite lookup_singleton_eq, insert_singleton_eq.
Qed.

Lemma parked_reachable : reachable parked_state.
Proof.
  eapply reachable_step; [eapply reachable_step; [apply registered_reachable|]|apply step_enqueue].
  apply step_poll2, lookup_insert_eq.
Qed.

Lemma no_lost_wakeup_witness :
  (0 < callbacks parked_state)%nat ∧ step parked_state (nonempty_cb parked_state)
  ∧ slot0 ∈ notified (nonempty_cb parked_state).
Proof.
  apply no_lost_wakeup; [apply parked_reachable|apply lookup_insert_eq| |discriminate].
  simpl. set_solver.
Defined.

Lemma waker_slots_witness :
  (∃ m, set_waker slot0 slot0 (wakers parked_state) = Done m)
  ∧ (∃ m, unregister slot0 (wakers parked_state) = Done m)
  ∧ ∀ w, wakers parked_state !! slot0 = Some (Some w) → w = slot0.
Proof. apply (waker_slots _ _ Parked); [apply parked_reachable|apply lookup_insert_eq]. Defined.

Lemma poll_next_refines_witness :
  ∃ o s', poll_next slot0 (clear_notified slot0 parked_state) = Done (o, s')
    ∧ rtc step parked_state (with_phase slot0 (match o with Some _ => Idle | None => Parked end) s').
Proof.
  apply (poll_next_refines _ _ Parked); [apply parked_reachable|apply lookup_insert_eq|by right].
Defined.

(** A world that is only a queue. *)
Record qworld := { qw : list sim_arrival }.

#[export] Instance qworld_native : ClientNative qworld := {
  clock _ := 0;
  rd_kafka_queue_poll _ _ w :=
    match qw w with [] => (None, w) | a :: l => (Some (sim_event_of a), {| qw := l |}) end;
  rd_kafka_oauthbearer_set_token _ _ _ w := (RD_KAFKA_RESP_ERR_NO_ERROR, [], w);
  rd_kafka_oauthbearer_set_token_failure _ w := w;
  rd_kafka_rebalance_protocol _ := None;
  rd_kafka_topic_new _ w := (None, w);
  rd_kafka_metadata _ _ _ w := (RD_KAFKA_RESP_ERR__TRANSPORT, None, w);
  rd_kafka_query_watermark_offsets _ _ _ _ w := (RD_KAFKA_RESP_ERR__TRANSPORT, (0, 0), w);
  rd_kafka_clusterid _ w := (None, w);
  rd_kafka_list_groups _ _ w := (RD_KAFKA_RESP_ERR__TRANSPORT, None, w);
  rd_kafka_fatal_error w := (RD_KAFKA_RESP_ERR_NO_ERROR, [], w);
  rd_kafka_queue_new w := (None, w);
  rd_kafka_queue_get_consumer w := (None, w);
  rd_kafka_queue_get_main w := (None, w);
}.

#[export] Instance qworld_context : ClientContext qworld := {
  ENABLE_REFRESH_OAUTH_TOKEN := false;
  log _ _ _ w := w;
  stats_raw _ w := w;
  error _ _ w := w;
  generate_oauth_token _ w := (Err "none", w);
}.

#[export] Instance qworld_consumer : ConsumerContext qworld := {
  rebalance _ l := mret l;
  commit_callback _ _ w := w;
  main_queue_min_poll_interval := default_min_poll_interval;
}.

#[export, refine] Instance qworld_view : QueueView qworld 0 := {|
  pending w := sim_event_of <$> qw w;
|}.
Proof.
  - intros [[|a l]]; simpl; by eexists.
  - intros ev w w'. unfold event_effect, handle_log_event. repeat case_match; by intros [= <-].
  - intros e l w. by exists l, w.
  - done.
  - intros w ev (a & -> & _)%list_elem_of_fmap. destruct a; try done; by eexists.
  - intros w ev (a & -> & _)%list_elem_of_fmap. by destruct a.
  - vm_compute. split; congruence.
Defined.

Lemma stream_poll_refines_witness :
  ∃ w', poll_queue 3 0 (After 0) {| qw := [ArriveLog; ArriveError] |} = Done (Some Poll.EventConsumed, w')
    ∧ classify <$> pending 0 w' = [Item (Err (MessageConsumption Code.BrokerTransportFailure))].
Proof.
  destruct (stream_poll_refines 0 3 {| qw := [ArriveLog; ArriveError] |}) as (w' & H1 & H2); [simpl; lia|].
  exists w'. split; [exact H1|exact H2].
Defined.

Lemma recv_cancel_safe_witness :
  ∃ o s', recv_poll slot0 parked_state = Done (o, s')
    ∧ match o with
      | Some r => items (queue parked_state) = r :: items (queue s') ∧ wakers s' = delete slot0 (wakers parked_state)
      | None => items (queue s') = items (queue parked_state)
          ∧ ∃ s'', stream_drop slot0 s' = Done (tt, s'') ∧ queue s'' = queue s'
              ∧ wakers s'' = delete slot0 (wakers parked_state)
      end.
Proof. apply (recv_cancel_safe _ _ Parked); [apply parked_reachable|apply lookup_insert_eq]. Defined.

Lemma timer_wakes_witness :
  slot0 ∈ notified (wake_loop [Elapsed; Tripped] parked_state).2
  ∧ rtc step parked_state (wake_loop [Elapsed; Tripped] parked_state).2
  ∧ ((wake_loop [Tripped] parked_state).1 = true ↔ Tripped ∈ [Tripped]).
Proof. apply (timer_wakes _ _ [Tripped]); [apply parked_reachable|apply lookup_insert_eq]. Defined.

Lemma poll_interval_spec_witness :
  poll_interval (N := reference_conf) {[ "max.poll.interval.ms" := "300000" ]}
  = Done (Ok (duration_from_millis 300000)).
Proof.
  apply (poll_interval_spec (N := reference_conf) {[ "max.poll.interval.ms" := "300000" ]} 300000);
    [vm_compute; reflexivity|unfold u64_max; lia].
Defined.
