(* ===== verification/NativePtr.v ===== *)
(** * Owned native objects

    [NativePtr] of [src/util.rs], the [KafkaDrop] implementations of the whole
    crate, and the [Arc]s of native pointers. librdkafka's documentation says of
    every function that returns a pointer whether the caller owns the object or
    borrows it from another one, and of every function that takes one whether it
    takes the object over. The [ledger] records who has to destroy each object
    that is alive; [give], [lend], [live], [consume] and [destroy] are what a call
    across the boundary means for it. What librdkafka answers, pointers included,
    is any list of numbers.

    The second half is the logic in which the functions of the crate are shown
    safe: [inv] relates the ledger to the list of resources that the Rust values
    in scope hold, and [spec] is a Hoare triple over it. *)

From stdpp Require Import strings gmap prelude.
From S2P Require Import Prelude.

Local Open Scope N_scope.

(** ** The native types and their destructors *)

(** [EventResult] stands for the result types of the admin operations, which are
    views of an event. *)
Inductive Native : Set :=
| RDKafka | RDKafkaConf | RDKafkaTopic | RDKafkaQueue | RDKafkaEvent | RDKafkaMessage
| RDKafkaHeaders | rd_kafka_error_t | RDKafkaTopicPartitionList | RDKafkaTopicPartition
| RDKafkaMetadata | RDKafkaGroupList | RDKafkaConsumerGroupMetadata | RDKafkaAdminOptions
| RDKafkaNewTopic | RDKafkaDeleteTopic | RDKafkaDeleteGroup | RDKafkaNewPartitions
| RDKafkaDeleteRecords | RDKafkaConfigResource | EventResult.

#[export] Instance Native_eq_dec : EqDecision Native.
Proof. solve_decision. Defined.

(** The functions of librdkafka that destroy an object, and [no_op]. *)
Inductive Destructor : Set :=
| rd_kafka_destroy | rd_kafka_conf_destroy | rd_kafka_topic_destroy | rd_kafka_queue_destroy
| rd_kafka_event_destroy | rd_kafka_headers_destroy | rd_kafka_error_destroy
| rd_kafka_topic_partition_list_destroy | rd_kafka_topic_partition_destroy
| rd_kafka_metadata_destroy | rd_kafka_group_list_destroy
| rd_kafka_consumer_group_metadata_destroy | rd_kafka_AdminOptions_destroy
| rd_kafka_NewTopic_destroy | rd_kafka_DeleteTopic_destroy | rd_kafka_DeleteGroup_destroy
| rd_kafka_NewPartitions_destroy | rd_kafka_DeleteRecords_destroy
| rd_kafka_ConfigResource_destroy | no_op.

(** What each of them destroys, from its declaration: the type of its argument. *)
Definition frees (d : Destructor) : option Native :=
  match d with
  | rd_kafka_destroy => Some RDKafka
  | rd_kafka_conf_destroy => Some RDKafkaConf
  | rd_kafka_topic_destroy => Some RDKafkaTopic
  | rd_kafka_queue_destroy => Some RDKafkaQueue
  | rd_kafka_event_destroy => Some RDKafkaEvent
  | rd_kafka_headers_destroy => Some RDKafkaHeaders
  | rd_kafka_error_destroy => Some rd_kafka_error_t
  | rd_kafka_topic_partition_list_destroy => Some RDKafkaTopicPartitionList
  | rd_kafka_topic_partition_destroy => Some RDKafkaTopicPartition
  | rd_kafka_metadata_destroy => Some RDKafkaMetadata
  | rd_kafka_group_list_destroy => Some RDKafkaGroupList
  | rd_kafka_consumer_group_metadata_destroy => Some RDKafkaConsumerGroupMetadata
  | rd_kafka_AdminOptions_destroy => Some RDKafkaAdminOptions
  | rd_kafka_NewTopic_destroy => Some RDKafkaNewTopic
  | rd_kafka_DeleteTopic_destroy => Some RDKafkaDeleteTopic
  | rd_kafka_DeleteGroup_destroy => Some RDKafkaDeleteGroup
  | rd_kafka_NewPartitions_destroy => Some RDKafkaNewPartitions
  | rd_kafka_DeleteRecords_destroy => Some RDKafkaDeleteRecords
  | rd_kafka_ConfigResource_destroy => Some RDKafkaConfigResource
  | no_op => None
  end.

(** [metadata.rs] and [groups.rs] wrap the destructor in a function of their own. *)
Definition drop_metadata : Destructor := rd_kafka_metadata_destroy.
Definition drop_group_list : Destructor := rd_kafka_group_list_destroy.

(** [trait KafkaDrop]. *)
Record KafkaDrop := { TYPE : string; DROP : Destructor }.

(** Its implementations, one for each native type that a [NativePtr] holds. *)
Definition drop_client : KafkaDrop := {| TYPE := "client"; DROP := rd_kafka_destroy |}.
Definition drop_Conf : KafkaDrop := {| TYPE := "client config"; DROP := rd_kafka_conf_destroy |}.
Definition drop_Topic : KafkaDrop := {| TYPE := "native topic"; DROP := rd_kafka_topic_destroy |}.
Definition drop_Queue : KafkaDrop := {| TYPE := "queue"; DROP := rd_kafka_queue_destroy |}.
Definition drop_Event : KafkaDrop := {| TYPE := "event"; DROP := rd_kafka_event_destroy |}.
Definition drop_Message : KafkaDrop := {| TYPE := "message"; DROP := no_op |}.
Definition drop_Headers : KafkaDrop := {| TYPE := "headers"; DROP := rd_kafka_headers_destroy |}.
Definition drop_error : KafkaDrop := {| TYPE := "error"; DROP := rd_kafka_error_destroy |}.
Definition drop_TopicPartitionList : KafkaDrop := {| TYPE := "topic partition list"; DROP := rd_kafka_topic_partition_list_destroy |}.
Definition drop_Metadata : KafkaDrop := {| TYPE := "metadata"; DROP := drop_metadata |}.
Definition drop_GroupList : KafkaDrop := {| TYPE := "group"; DROP := drop_group_list |}.
Definition drop_ConsumerGroupMetadata : KafkaDrop := {| TYPE := "consumer_group_metadata"; DROP := rd_kafka_consumer_group_metadata_destroy |}.
Definition drop_AdminOptions : KafkaDrop := {| TYPE := "admin options"; DROP := rd_kafka_AdminOptions_destroy |}.
Definition drop_NewTopic : KafkaDrop := {| TYPE := "new topic"; DROP := rd_kafka_NewTopic_destroy |}.
Definition drop_DeleteTopic : KafkaDrop := {| TYPE := "delete topic"; DROP := rd_kafka_DeleteTopic_destroy |}.
Definition drop_DeleteGroup : KafkaDrop := {| TYPE := "delete group"; DROP := rd_kafka_DeleteGroup_destroy |}.
Definition drop_NewPartitions : KafkaDrop := {| TYPE := "new partitions"; DROP := rd_kafka_NewPartitions_destroy |}.
Definition drop_DeleteRecords : KafkaDrop := {| TYPE := "delete records"; DROP := rd_kafka_DeleteRecords_destroy |}.
Definition drop_ConfigResource : KafkaDrop := {| TYPE := "config resource"; DROP := rd_kafka_ConfigResource_destroy |}.

Definition kafka_drop (t : Native) : option KafkaDrop :=
  match t with
  | RDKafka => Some drop_client
  | RDKafkaConf => Some drop_Conf
  | RDKafkaTopic => Some drop_Topic
  | RDKafkaQueue => Some drop_Queue
  | RDKafkaEvent => Some drop_Event
  | RDKafkaMessage => Some drop_Message
  | RDKafkaHeaders => Some drop_Headers
  | rd_kafka_error_t => Some drop_error
  | RDKafkaTopicPartitionList => Some drop_TopicPartitionList
  | RDKafkaMetadata => Some drop_Metadata
  | RDKafkaGroupList => Some drop_GroupList
  | RDKafkaConsumerGroupMetadata => Some drop_ConsumerGroupMetadata
  | RDKafkaAdminOptions => Some drop_AdminOptions
  | RDKafkaNewTopic => Some drop_NewTopic
  | RDKafkaDeleteTopic => Some drop_DeleteTopic
  | RDKafkaDeleteGroup => Some drop_DeleteGroup
  | RDKafkaNewPartitions => Some drop_NewPartitions
  | RDKafkaDeleteRecords => Some drop_DeleteRecords
  | RDKafkaConfigResource => Some drop_ConfigResource
  | RDKafkaTopicPartition | EventResult => None
  end.

Definition drop_of (t : Native) : option Destructor := DROP <$> kafka_drop t.

(** ** The memory that is shared with librdkafka *)

(** Who destroys an object: the crate, or the object that it is a part of. *)
Inductive holder : Set :=
| App
| Within (owner : N).

#[export] Instance holder_eq_dec : EqDecision holder.
Proof. solve_decision. Defined.

(** [ledger]: the objects that are alive, by address; [arcs]: the strong count of
    each [Arc<NativePtr<T>>], by the address of the object it holds; [answers]:
    what librdkafka will answer. [abandoned] is a record for the theorems, on which
    nothing depends: the objects that the crate owned and has no pointer to any more. *)
Record Mem := {
  ledger : gmap N (Native * holder);
  arcs : gmap N nat;
  answers : list N;
  abandoned : list (Native * N);
}.

Definition set_ledger (f : gmap N (Native * holder) → gmap N (Native * holder)) (m : Mem) : Mem :=
  {| ledger := f (ledger m); arcs := arcs m; answers := answers m; abandoned := abandoned m |}.
Definition set_arcs (f : gmap N nat → gmap N nat) (m : Mem) : Mem :=
  {| ledger := ledger m; arcs := f (arcs m); answers := answers m; abandoned := abandoned m |}.
Definition set_answers (l : list N) (m : Mem) : Mem :=
  {| ledger := ledger m; arcs := arcs m; answers := l; abandoned := abandoned m |}.
Definition set_abandoned (l : list (Native * N)) (m : Mem) : Mem :=
  {| ledger := ledger m; arcs := arcs m; answers := answers m; abandoned := l |}.

(** A run ends early when librdkafka returns a live object as a new one, when the
    crate panics, or when the crate breaks a rule: it uses or destroys an object
    that is no longer alive, has another type, or is not its own to destroy. *)
Inductive Fault : Set :=
| Breach
| Panicked
| Undefined.

Definition mem (A : Type) : Type := Mem → Fault + A * Mem.

#[export] Instance mem_ret : MRet mem := λ A a m, inr (a, m).
#[export] Instance mem_bind : MBind mem := λ A B k c m,
  match c m with inl f => inl f | inr (a, m') => k a m' end.

Definition fault {A} (f : Fault) : mem A := λ _, inl f.
Definition read_mem : mem Mem := λ m, inr (m, m).
Definition update (f : Mem → Mem) : mem unit := λ m, inr (tt, f m).
Definition ask : mem N := λ m,
  match answers m with [] => inr (0, m) | a :: l => inr (a, set_answers l m) end.

(** A new object that the caller has to destroy, or null. *)
Definition give (t : Native) : mem N :=
  p ← ask;
  if decide (p = 0) then mret 0 else
  m ← read_mem;
  match ledger m !! p with
  | Some _ => fault Breach
  | None => _ ← update (set_ledger <[p := (t, App)]>); mret p
  end.

(** [p] is read, or passed to a function that borrows it. *)
Definition live (t : Native) (p : N) : mem unit :=
  m ← read_mem;
  match ledger m !! p with
  | Some (t', _) => if decide (t' = t) then mret tt else fault Undefined
  | None => fault Undefined
  end.

(** A pointer into the object [p], or null: it is valid as long as the object that
    [p] is a part of. *)
Definition lend (t' t : Native) (p : N) : mem N :=
  _ ← live t p;
  q ← ask;
  if decide (q = 0) then mret 0 else
  m ← read_mem;
  let owner := match ledger m !! p with Some (_, Within o) => o | _ => p end in
  match ledger m !! q with
  | Some x => if decide (x = (t', Within owner)) then mret q else fault Breach
  | None => _ ← update (set_ledger <[q := (t', Within owner)]>); mret q
  end.

(** The end of [p] and of what is a part of it. *)
Definition without (p : N) : gmap N (Native * holder) → gmap N (Native * holder) :=
  filter (λ x, x.1 ≠ p ∧ x.2.2 ≠ Within p).

(** The caller loses an object that it owns. *)
Definition consume (t : Native) (p : N) : mem unit :=
  m ← read_mem;
  if decide (ledger m !! p = Some (t, App)) then update (set_ledger (without p)) else fault Undefined.

(** The last pointer to an object that the crate owns goes out of scope as a raw
    pointer, without a destructor. *)
Definition abandon (t : Native) (p : N) : mem unit := update (λ m, set_abandoned ((t, p) :: abandoned m) m).

Definition destroy (d : Destructor) (p : N) : mem unit :=
  match frees d with Some t => consume t p | None => mret tt end.

(** ** [NativePtr], and the [Arc] of one *)

(** [NativePtr::from_ptr]: [NonNull::new(ptr).map(..)]. *)
Definition from_ptr (p : N) : option N := if decide (p = 0) then None else Some p.

Definition unwrap {A} (o : option A) : mem A := match o with Some a => mret a | None => fault Panicked end.

(** [impl Drop for NativePtr]. *)
Definition drop_native (t : Native) (p : N) : mem unit :=
  match drop_of t with Some d => destroy d p | None => fault Undefined end.

(** [Arc::new], [clone] and [drop]. *)
Definition arc_new (p : N) : mem unit :=
  m ← read_mem;
  match arcs m !! p with
  | Some _ => fault Undefined
  | None => update (set_arcs <[p := 1%nat]>)
  end.

Definition arc_clone (p : N) : mem unit :=
  m ← read_mem;
  match arcs m !! p with
  | Some n => update (set_arcs <[p := S n]>)
  | None => fault Undefined
  end.

Definition arc_drop (t : Native) (p : N) : mem unit :=
  m ← read_mem;
  match arcs m !! p with
  | Some (S (S n)) => update (set_arcs <[p := S n]>)
  | Some 1%nat => _ ← update (set_arcs (delete p)); drop_native t p
  | _ => fault Undefined
  end.

(** ** Resources *)

(** What a value holds: a native object of its own, or a strong reference to a
    shared one, with the parts of it that the value points to. *)
Inductive Res : Set :=
| ROwn (t : Native) (p : N) (parts : list (Native * N))
| RArc (t : Native) (p : N) (parts : list (Native * N)).

Definition own_of (r : Res) : option N := match r with ROwn _ p _ => Some p | _ => None end.
Definition arc_of (r : Res) : option N := match r with RArc _ p _ => Some p | _ => None end.
Definition root (r : Res) : N := match r with ROwn _ p _ | RArc _ p _ => p end.
Definition kind (r : Res) : Native := match r with ROwn t _ _ | RArc t _ _ => t end.
Definition parts (r : Res) : list (Native * N) := match r with ROwn _ _ l | RArc _ _ l => l end.

(** The number of strong references to the object at [p]. *)
Definition arc_count (p : N) (h : list Res) : nat := length (filter (λ r, arc_of r = Some p) h).

(** The ledger agrees with the resources: what they name is alive and of their
    type, no object has two owners, the counts are right, and nothing that the
    crate has to destroy is unaccounted for. *)
Record inv (m : Mem) (h : list Res) : Prop := {
  inv_kind : ∀ r, r ∈ h → kind r ≠ RDKafkaMessage;
  inv_root : ∀ r, r ∈ h → ledger m !! root r = Some (kind r, App);
  inv_part : ∀ r t q, r ∈ h → (t, q) ∈ parts r → ledger m !! q = Some (t, Within (root r));
  inv_own : ∀ p, p ∈ omap own_of h → arcs m !! p = None;
  inv_nodup : NoDup (omap own_of h);
  inv_count : ∀ p, arc_count p h = default 0%nat (arcs m !! p);
  inv_arc : ∀ p n, arcs m !! p = Some n → n ≠ 0%nat;
  inv_full : ∀ p t, ledger m !! p = Some (t, App) → p ∈ root <$> h;
  inv_within : ∀ q t o, ledger m !! q = Some (t, Within o) → ∃ t', ledger m !! o = Some (t', App);
}.

#[export] Instance arc_count_proper p : Proper ((≡ₚ) ==> (=)) (arc_count p).
Proof. intros h h' Hh. unfold arc_count. by rewrite Hh. Qed.

#[export] Instance inv_proper m : Proper ((≡ₚ) ==> iff) (inv m).
Proof.
  assert (∀ h h', h ≡ₚ h' → inv m h → inv m h') as Himp.
  { intros h h' Hh [Hk Hr Hp Ho Hn Hc Ha Hf Hw]. split; [| | | | | |done| |done].
    - intros r. rewrite <- Hh. apply Hk.
    - intros r. rewrite <- Hh. apply Hr.
    - intros r t q. rewrite <- Hh. apply Hp.
    - intros p. rewrite <- Hh. apply Ho.
    - by rewrite <- Hh.
    - intros p. rewrite <- Hh. apply Hc.
    - intros p t. rewrite <- Hh. apply Hf. }
  intros h h' Hh. split; by apply Himp.
Qed.

Definition with_parts (l : list (Native * N)) (r : Res) : Res :=
  match r with ROwn t p _ => ROwn t p l | RArc t p _ => RArc t p l end.

Lemma arc_count_cons p r h : arc_count p (r :: h) = ((if decide (arc_of r = Some p) then 1 else 0) + arc_count p h)%nat.
Proof. unfold arc_count. rewrite filter_cons. by case_decide. Qed.

Lemma arc_count_elem p (h : list Res) : arc_count p h ≠ 0%nat → ∃ r, r ∈ h ∧ arc_of r = Some p.
Proof.
  unfold arc_count. intros Hn. destruct (filter _ h) as [|r l] eqn:He; [done|].
  assert (r ∈ filter (λ r, arc_of r = Some p) h) as Hr by (rewrite He; left).
  apply list_elem_of_filter in Hr. naive_solver.
Qed.

Lemma own_of_root r p : own_of r = Some p → root r = p.
Proof. destruct r; naive_solver. Qed.

Lemma arc_of_root r p : arc_of r = Some p → root r = p.
Proof. destruct r; naive_solver. Qed.

Lemma elem_own_of (h : list Res) p : p ∈ omap own_of h ↔ ∃ r, r ∈ h ∧ own_of r = Some p.
Proof. rewrite list_elem_of_omap. naive_solver. Qed.

(** An object that is not alive has no [Arc]. *)
Lemma inv_dead_arc m h p : inv m h → ledger m !! p = None → arcs m !! p = None.
Proof.
  intros Hi Hp. destruct (arcs m !! p) as [n|] eqn:Ha; [|done]. exfalso.
  pose proof (inv_count _ _ Hi p) as Hc. rewrite Ha in Hc. simpl in Hc.
  destruct (arc_count_elem p h) as (r & Hr & Hrp); [rewrite Hc; by eapply inv_arc|].
  apply (inv_root _ _ Hi) in Hr. rewrite (arc_of_root r p Hrp) in Hr. congruence.
Qed.

Lemma inv_answers m h l : inv m h → inv (set_answers l m) h.
Proof. by intros [????????]; split. Qed.

(** Only the parts of a resource change. *)
Lemma inv_with_parts m h r l : inv m (r :: h) →
  (∀ t q, (t, q) ∈ l → ledger m !! q = Some (t, Within (root r))) → inv m (with_parts l r :: h).
Proof.
  intros [Hk Hr Hp Ho Hn Hc Ha Hf Hw] Hl.
  assert (own_of (with_parts l r) = own_of r) as Eo by by destruct r.
  assert (arc_of (with_parts l r) = arc_of r) as Ea by by destruct r.
  assert (root (with_parts l r) = root r) as Er by by destruct r.
  assert (kind (with_parts l r) = kind r) as Ek by by destruct r.
  split; [| | | | | |done| |done].
  - intros x [->|Hx]%elem_of_cons; [rewrite Ek; apply Hk; left|apply Hk; by right].
  - intros x [->|Hx]%elem_of_cons; [rewrite Ek, Er; apply Hr; left|apply Hr; by right].
  - intros x t q [->|Hx]%elem_of_cons; [rewrite Er; destruct r; apply Hl|apply Hp; by right].
  - intros p. specialize (Ho p). revert Ho. simpl. by rewrite Eo.
  - revert Hn. simpl. by rewrite Eo.
  - intros p. rewrite <- Hc, !arc_count_cons. by rewrite Ea.
  - intros p t Hx. apply Hf in Hx. revert Hx. rewrite !fmap_cons, Er. done.
Qed.

Lemma inv_give m h t p : inv m h → ledger m !! p = None → t ≠ RDKafkaMessage →
  inv (set_ledger <[p := (t, App)]> m) (ROwn t p [] :: h).
Proof.
  intros Hi Hp Ht. pose proof (inv_dead_arc _ _ _ Hi Hp) as Hap.
  destruct Hi as [Hk Hr Hpa Ho Hn Hc Ha Hf Hw].
  assert (∀ r, r ∈ h → root r ≠ p) as Hne by (intros r Hx%Hr Hrp; congruence).
  split; simpl.
  - intros r [->|Hx]%elem_of_cons; eauto.
  - intros r [->|Hx]%elem_of_cons; simpl; [by rewrite lookup_insert_eq|].
    rewrite lookup_insert_ne by (apply not_eq_sym; eauto). eauto.
  - intros r t' q [->|Hx]%elem_of_cons Hq; simpl in *; [by apply elem_of_nil in Hq|].
    rewrite lookup_insert_ne; [eauto|]. intros <-. rewrite (Hpa r t' p) in Hp; eauto. done.
  - intros p' [->|Hx]%elem_of_cons; eauto.
  - constructor; [|done]. rewrite elem_own_of. intros (r & Hx & Hrp%own_of_root). by eapply Hne.
  - intros p'. rewrite arc_count_cons. simpl. by rewrite Hc.
  - done.
  - intros p' t'. destruct (decide (p' = p)) as [->|Hx]; [by left|].
    rewrite lookup_insert_ne by done. intros Hl%Hf. by right.
  - intros q t' o. rewrite lookup_insert_Some. intros [[_ [=]]|[_ Hq]].
    destruct (Hw _ _ _ Hq) as [t'' Ht'']. exists t''. rewrite lookup_insert_ne; [done|congruence].
Qed.

Lemma inv_lend m h r t q : inv m (r :: h) → ledger m !! q = None →
  inv (set_ledger <[q := (t, Within (root r))]> m) (with_parts ((t, q) :: parts r) r :: h).
Proof.
  intros Hi Hq. apply inv_with_parts.
  - destruct Hi as [Hk Hr Hpa Ho Hn Hc Ha Hf Hw].
    assert (∀ x t' ho, ledger m !! x = Some (t', ho) → <[q := (t, Within (root r))]> (ledger m) !! x = Some (t', ho)) as Hx.
    { intros x t' ho Hl. rewrite lookup_insert_ne; [done|congruence]. }
    split; simpl; [done| |by eauto|done|done|done|done| |].
    + intros x Hx'. by apply Hx, Hr.
    + intros p t'. rewrite lookup_insert_Some. intros [[_ [=]]|[_ Hl]]. by eapply Hf.
    + intros q' t' o. rewrite lookup_insert_Some. intros [[_ [= <- <-]]|[_ Hl]].
      * eexists. apply Hx, Hr. left.
      * destruct (Hw _ _ _ Hl) as [t'' Ht'']. eauto.
  - intros t' q' [[= -> ->]|Hx]%elem_of_cons; simpl; [by rewrite lookup_insert_eq|].
    rewrite lookup_insert_ne; [eapply inv_part; [done|left|done]|]. intros <-.
    rewrite (inv_part _ _ Hi r t' q) in Hq; [done|left|done].
Qed.

Lemma inv_consume m h t p l : inv m (ROwn t p l :: h) → inv (set_ledger (without p) m) h.
Proof.
  intros Hi. assert (∀ r, r ∈ h → root r ≠ p) as Hne.
  { intros r Hx Hrp. pose proof (inv_nodup _ _ Hi) as Hn. simpl in Hn. apply NoDup_cons in Hn as [Hn _].
    destruct r as [t' p' l'|t' p' l']; simpl in Hrp; subst p'.
    - apply Hn, elem_own_of. eauto.
    - pose proof (inv_own _ _ Hi p ltac:(left)) as Hap. pose proof (inv_count _ _ Hi p) as Hc.
      rewrite Hap in Hc. unfold arc_count in Hc. apply nil_length_inv in Hc.
      assert (RArc t' p l' ∈ filter (λ r, arc_of r = Some p) (ROwn t p l :: h)) as Hin.
      { apply list_elem_of_filter. split; [done|by right]. }
      rewrite Hc in Hin. by apply elem_of_nil in Hin. }
  destruct Hi as [Hk Hr Hpa Ho Hn Hc Ha Hf Hw].
  assert (∀ x t' ho, ledger m !! x = Some (t', ho) → x ≠ p → ho ≠ Within p → without p (ledger m) !! x = Some (t', ho)) as Hx.
  { intros x t' ho Hl Hxp Hho. by apply map_lookup_filter_Some. }
  split; simpl.
  - intros r Hin. apply Hk. by right.
  - intros r Hin. apply Hx; [apply Hr; by right|auto|done].
  - intros r t' q Hin Hq. apply Hx; [apply Hpa; [by right|done]| |].
    + intros ->. pose proof (Hpa r t' p ltac:(by right) Hq). pose proof (Hr (ROwn t p l) ltac:(left)). simpl in *. congruence.
    + intros [= Hrp]. by eapply Hne.
  - intros p' Hin. apply Ho. by right.
  - simpl in Hn. by apply NoDup_cons in Hn as [_ Hn].
  - intros p'. rewrite <- Hc, arc_count_cons. done.
  - done.
  - intros p' t' [Hl [Hp' _]]%map_lookup_filter_Some. simpl in Hp'. apply Hf, elem_of_cons in Hl as [->|Hl]; done.
  - intros q t' o [Hl [_ Ho']]%map_lookup_filter_Some. simpl in Ho'. destruct (Hw _ _ _ Hl) as [t'' Ht''].
    exists t''. apply Hx; [done|congruence|done].
Qed.

Lemma inv_arc_new m h t p l : inv m (ROwn t p l :: h) → inv (set_arcs <[p := 1%nat]> m) (RArc t p l :: h).
Proof.
  intros [Hk Hr Hpa Ho Hn Hc Ha Hf Hw]. simpl in Hn. apply NoDup_cons in Hn as [Hp Hn].
  split; simpl; [| | | |done| | | |done].
  - intros r [->|Hx]%elem_of_cons; [apply (Hk (ROwn t p l)); left|apply Hk; by right].
  - intros r [->|Hx]%elem_of_cons; [apply (Hr (ROwn t p l)); left|apply Hr; by right].
  - intros r t' q [->|Hx]%elem_of_cons; [apply (Hpa (ROwn t p l)); left|apply Hpa; by right].
  - intros p' Hin. rewrite lookup_insert_ne by congruence. apply Ho. by right.
  - intros p'. rewrite arc_count_cons. simpl. specialize (Hc p'). rewrite arc_count_cons in Hc. simpl in Hc.
    case_decide; simplify_eq; [|by rewrite lookup_insert_ne by congruence].
    rewrite lookup_insert_eq. simpl. rewrite Hc, (Ho p') by left. done.
  - intros p' n. rewrite lookup_insert_Some. intros [[_ <-]|[_ Hl]]; [done|by eauto].
  - intros p' t' Hl%Hf. done.
Qed.

(** One more reference. *)
Lemma inv_arc_clone m h t p l n : inv m (RArc t p l :: h) → arcs m !! p = Some n →
  inv (set_arcs <[p := S n]> m) (RArc t p l :: RArc t p l :: h).
Proof.
  intros [Hk Hr Hpa Ho Hn Hc Ha Hf Hw] Hp.
  assert (∀ x, x ∈ RArc t p l :: RArc t p l :: h → x ∈ RArc t p l :: h) as Hin.
  { intros x. rewrite !elem_of_cons. tauto. }
  split; simpl; [by auto|by auto|intros ???; by auto| |done| | | |done].
  - intros p' Hx. rewrite lookup_insert_ne; [by apply Ho|]. intros ->. pose proof (Ho p' Hx). congruence.
  - intros p'. rewrite arc_count_cons, Hc. simpl. case_decide; simplify_eq; [|by rewrite lookup_insert_ne by congruence].
    by rewrite lookup_insert_eq, Hp.
  - intros p' n'. rewrite lookup_insert_Some. intros [[_ <-]|[_ Hl]]; [done|by eauto].
  - intros p' t' Hl%Hf. by right.
Qed.

(** One reference less, of several. *)
Lemma inv_arc_less m h t p l n : inv m (RArc t p l :: h) → arcs m !! p = Some (S (S n)) →
  inv (set_arcs <[p := S n]> m) h.
Proof.
  intros [Hk Hr Hpa Ho Hn Hc Ha Hf Hw] Hp.
  assert (arc_count p h = S n) as Hcp.
  { pose proof (Hc p) as Hx. rewrite Hp, arc_count_cons in Hx. simpl in Hx. case_decide; [lia|done]. }
  split; simpl; [| | | |done| | | |done].
  - intros r Hx. apply Hk. by right.
  - intros r Hx. apply Hr. by right.
  - intros r t' q Hx. apply Hpa. by right.
  - intros p' Hx. rewrite lookup_insert_ne; [by apply Ho|]. intros ->. pose proof (Ho p' Hx). congruence.
  - intros p'. destruct (decide (p' = p)) as [->|Hne]; [by rewrite lookup_insert_eq|].
    rewrite lookup_insert_ne, <- Hc, arc_count_cons by done. simpl. by rewrite decide_False by congruence.
  - intros p' n'. rewrite lookup_insert_Some. intros [[_ <-]|[_ Hl]]; [done|by eauto].
  - intros p' t' Hl%Hf. apply elem_of_cons in Hl as [->|Hl]; [|done]. simpl.
    destruct (arc_count_elem p h) as (r & Hx & Hrp%arc_of_root); [lia|]. rewrite <- Hrp. by apply list_elem_of_fmap_2.
Qed.

(** The last reference is an owner. *)
Lemma inv_arc_last m h t p l : inv m (RArc t p l :: h) → arcs m !! p = Some 1%nat →
  inv (set_arcs (delete p) m) (ROwn t p l :: h).
Proof.
  intros [Hk Hr Hpa Ho Hn Hc Ha Hf Hw] Hp.
  split; simpl; [| | | | | | | |done].
  - intros r [->|Hx]%elem_of_cons; [apply (Hk (RArc t p l)); left|apply Hk; by right].
  - intros r [->|Hx]%elem_of_cons; [apply (Hr (RArc t p l)); left|apply Hr; by right].
  - intros r t' q [->|Hx]%elem_of_cons; [apply (Hpa (RArc t p l)); left|apply Hpa; by right].
  - intros p' [->|Hx]%elem_of_cons; [apply lookup_delete_eq|].
    apply lookup_delete_None. right. by apply Ho.
  - constructor; [|done]. intros Hx%Ho. congruence.
  - intros p'. specialize (Hc p'). rewrite arc_count_cons in *. simpl in *.
    destruct (decide (p' = p)) as [->|Hne].
    + rewrite lookup_delete_eq. rewrite Hp, decide_True in Hc by done. simpl in *. lia.
    + rewrite lookup_delete_ne, <- Hc, decide_False by congruence. done.
  - intros p' n'. rewrite lookup_delete_Some. intros [_ Hl]. eauto.
  - intros p' t' Hl%Hf. done.
Qed.

(** ** Triples *)

(** What nobody will destroy. *)
Definition forgotten (m : Mem) : list Res := (λ x : Native * N, ROwn x.1 x.2 []) <$> abandoned m.

(** From the resources [h], [c] breaks no rule, and if it returns [a] the
    resources satisfy [Q a]; what is in the ledger besides has been abandoned. *)
Definition spec {A} (h : list Res) (c : mem A) (Q : A → list Res → Prop) : Prop :=
  ∀ m, inv m (h ++ forgotten m) →
    match c m with inl f => f ≠ Undefined | inr (a, m') => ∃ h', Q a h' ∧ inv m' (h' ++ forgotten m') end.

#[export] Instance spec_proper {A} : Proper ((≡ₚ) ==> (=) ==> (=) ==> iff) (@spec A).
Proof.
  intros h h' Hh c ? <- Q ? <-. unfold spec. split; intros Hs m Hm; apply Hs; [by rewrite Hh|by rewrite <- Hh].
Qed.

Lemma spec_perm {A} h h' (c : mem A) Q : h ≡ₚ h' → spec h' c Q → spec h c Q.
Proof. by intros ->. Qed.

Lemma spec_ret {A} (a : A) h (Q : A → list Res → Prop) : Q a h → spec h (mret a) Q.
Proof. intros HQ m Hm. by exists h. Qed.

Lemma spec_panic {A} h (Q : A → list Res → Prop) : spec h (fault Panicked) Q.
Proof. by intros m Hm. Qed.

Lemma spec_bind {A B} h (c : mem A) (k : A → mem B) Q (R : B → list Res → Prop) :
  spec h c Q → (∀ a h', Q a h' → spec h' (k a) R) → spec h (c ≫= k) R.
Proof.
  intros Hc Hk m Hm. unfold mbind, mem_bind. specialize (Hc m Hm).
  destruct (c m) as [f|[a m']]; [done|]. destruct Hc as (h' & HQ & Hm'). exact (Hk a h' HQ m' Hm').
Qed.

Lemma spec_ret_bind {A B} h (a : A) (k : A → mem B) (R : B → list Res → Prop) :
  spec h (k a) R → spec h (mret a ≫= k) R.
Proof. done. Qed.

Lemma spec_panic_bind {A B} h (k : A → mem B) (R : B → list Res → Prop) : spec h (fault Panicked ≫= k) R.
Proof. by intros m Hm. Qed.

Lemma spec_mono {A} h (c : mem A) (Q R : A → list Res → Prop) :
  spec h c Q → (∀ a h', Q a h' → R a h') → spec h c R.
Proof.
  intros Hc HR m Hm. specialize (Hc m Hm). destruct (c m) as [f|[a m']]; [done|].
  destruct Hc as (h' & HQ & Hm'). eauto.
Qed.

(** A call that leaves the resources as they are. *)
Lemma spec_keep {A B} h (c : mem A) (k : A → mem B) (R : B → list Res → Prop) :
  spec h c (λ _ h', h' = h) → (∀ a, spec h (k a) R) → spec h (c ≫= k) R.
Proof. intros Hc Hk. eapply spec_bind; [done|]. by intros a h' ->. Qed.

Lemma spec_ask h : spec h ask (λ _ h', h' = h).
Proof.
  intros m Hm. unfold ask. destruct (answers m); exists h; (split; [done|]); [done|by apply inv_answers].
Qed.

Lemma spec_live_root h r : r ∈ h → spec h (live (kind r) (root r)) (λ _ h', h' = h).
Proof.
  intros Hr m Hm. unfold live, mbind, mem_bind, read_mem.
  rewrite (inv_root _ _ Hm r), decide_True by (done || by apply elem_of_app; left). by exists h.
Qed.

Lemma spec_live_own h t p l : ROwn t p l ∈ h → spec h (live t p) (λ _ h', h' = h).
Proof. apply (spec_live_root h (ROwn t p l)). Qed.

Lemma spec_live_arc h t p l : RArc t p l ∈ h → spec h (live t p) (λ _ h', h' = h).
Proof. apply (spec_live_root h (RArc t p l)). Qed.

Lemma spec_live_part h r t q : r ∈ h → (t, q) ∈ parts r → spec h (live t q) (λ _ h', h' = h).
Proof.
  intros Hr Hq m Hm. unfold live, mbind, mem_bind, read_mem.
  rewrite (inv_part _ _ Hm r t q), decide_True by (done || by apply elem_of_app; left). by exists h.
Qed.

(** A new object: null, or a resource. *)
Lemma spec_give t h : t ≠ RDKafkaMessage →
  spec h (give t) (λ p h', (p = 0 ∧ h' = h) ∨ (p ≠ 0 ∧ h' = ROwn t p [] :: h)).
Proof.
  intros Ht. unfold give. apply spec_keep; [apply spec_ask|]. intros p.
  case_decide; [by apply spec_ret; left|]. intros m Hm. unfold mbind, mem_bind, read_mem.
  destruct (ledger m !! p) as [x|] eqn:Hp; [done|]. simpl. eexists. split; [by right|]. by apply inv_give.
Qed.

Lemma inv_owner m h r t q : inv m (r :: h) → t = kind r ∧ q = root r ∨ (t, q) ∈ parts r →
  (match ledger m !! q with Some (_, Within o) => o | _ => q end) = root r.
Proof.
  intros Hm [[-> ->]|Hq].
  - by rewrite (inv_root _ _ Hm r) by left.
  - by rewrite (inv_part _ _ Hm r t q) by (done || left).
Qed.

(** A pointer into an object, from the object or from a part of it. *)
Lemma spec_lend h r t' t q : t = kind r ∧ q = root r ∨ (t, q) ∈ parts r →
  spec (r :: h) (lend t' t q)
    (λ x h', (x = 0 ∧ h' = r :: h) ∨ (x ≠ 0 ∧ h' = with_parts ((t', x) :: parts r) r :: h)).
Proof.
  intros Hq. unfold lend. apply spec_keep.
  { destruct Hq as [[-> ->]|Hq]; [apply spec_live_root; left|by eapply spec_live_part; [left|]]. }
  intros _. apply spec_keep; [apply spec_ask|]. intros x. case_decide; [by apply spec_ret; left|].
  intros m Hm. unfold mbind, mem_bind, read_mem. rewrite (inv_owner m (h ++ forgotten m) r t q Hm Hq).
  destruct (ledger m !! x) as [y|] eqn:Hx.
  - case_decide; [|done]. subst y. eexists. split; [by right|]. apply inv_with_parts; [done|].
    intros t0 q0 [[= -> ->]|Hin]%elem_of_cons; [done|]. eapply inv_part; [done|left|done].
  - simpl. eexists. split; [by right|]. by apply inv_lend.
Qed.

Lemma spec_consume h t p l : spec (ROwn t p l :: h) (consume t p) (λ _ h', h' = h).
Proof.
  intros m Hm. unfold consume, mbind, mem_bind, read_mem. rewrite decide_True by (apply (inv_root _ _ Hm (ROwn t p l)); left).
  simpl. eexists. split; [done|]. by eapply inv_consume.
Qed.

(** The destructor of a type destroys objects of that type, a message apart. *)
Lemma drop_frees t : t ≠ RDKafkaMessage → is_Some (drop_of t) →
  ∃ d, drop_of t = Some d ∧ frees d = Some t.
Proof. intros Ht [d Hd]. exists d. split; [done|]. destruct t; try done; by injection Hd as <-. Qed.

Lemma spec_drop h t p l : is_Some (drop_of t) →
  spec (ROwn t p l :: h) (drop_native t p) (λ _ h', h' = h).
Proof.
  intros Ht m Hm. assert (t ≠ RDKafkaMessage) as Hk by (apply (inv_kind _ _ Hm (ROwn t p l)); left).
  destruct (drop_frees t Hk Ht) as (d & Hd & Hf). unfold drop_native, destroy. rewrite Hd, Hf.
  by eapply spec_consume.
Qed.

Lemma spec_arc_new h t p l : spec (ROwn t p l :: h) (arc_new p) (λ _ h', h' = RArc t p l :: h).
Proof.
  intros m Hm. unfold arc_new, mbind, mem_bind, read_mem. rewrite (inv_own _ _ Hm p) by left.
  simpl. eexists. split; [done|]. by apply inv_arc_new.
Qed.

(** A value that refers to an [Arc] finds its count. *)
Lemma inv_arc_some m h t p l : inv m (RArc t p l :: h) → ∃ n, arcs m !! p = Some (S n).
Proof.
  intros Hm. pose proof (inv_count _ _ Hm p) as Hc. rewrite arc_count_cons in Hc. simpl in Hc.
  rewrite decide_True in Hc by done. destruct (arcs m !! p) as [[|n]|]; simpl in Hc; [lia|eauto|lia].
Qed.

Lemma spec_arc_clone h t p l : spec (RArc t p l :: h) (arc_clone p) (λ _ h', h' = RArc t p l :: RArc t p l :: h).
Proof.
  intros m Hm. destruct (inv_arc_some _ _ _ _ _ Hm) as [n Hn].
  unfold arc_clone, mbind, mem_bind, read_mem. rewrite Hn. simpl. eexists. split; [done|]. by apply inv_arc_clone.
Qed.

Lemma spec_arc_drop h t p l : is_Some (drop_of t) →
  spec (RArc t p l :: h) (arc_drop t p) (λ _ h', h' = h).
Proof.
  intros Ht m Hm. destruct (inv_arc_some _ _ _ _ _ Hm) as [n Hn].
  unfold arc_drop, mbind, mem_bind, read_mem. rewrite Hn. destruct n as [|n].
  - simpl. by eapply (spec_drop h t p l Ht), inv_arc_last.
  - simpl. eexists. split; [done|]. by eapply inv_arc_less.
Qed.

(** The invariant does not look at the answers or at what was abandoned. *)
Lemma inv_ext m m' h : ledger m' = ledger m → arcs m' = arcs m → inv m h → inv m' h.
Proof. intros Hl Ha [H1 H2 H3 H4 H5 H6 H7 H8 H9]. split; rewrite ?Hl, ?Ha; done. Qed.

Lemma spec_abandon h t p : spec (ROwn t p [] :: h) (abandon t p) (λ _ h', h' = h).
Proof.
  intros m Hm. exists h. split; [done|]. apply (inv_ext m); [done|done|]. unfold forgotten. simpl.
  by rewrite <- Permutation_middle.
Qed.

(** Forgetting the parts that a value points to. *)
Lemma spec_forget {A} h r l (c : mem A) Q : l ⊆ parts r → spec (with_parts l r :: h) c Q → spec (r :: h) c Q.
Proof.
  intros Hl Hc m Hm. apply Hc, inv_with_parts; [done|]. intros t q Hq.
  eapply inv_part; [done|left|]. by apply Hl.
Qed.

(** The ledger without any value. *)
Lemma inv_nil : ∀ l, inv {| ledger := ∅; arcs := ∅; answers := l; abandoned := [] |} [].
Proof. intros l. split; simpl; try done; try (by intros ? ?%elem_of_nil); try (by intros ??? ?%elem_of_nil). constructor. Qed.

Lemma inv_empty m : inv m [] → ledger m = ∅ ∧ arcs m = ∅.
Proof.
  intros [Hk Hr Hpa Ho Hn Hc Ha Hf Hw]. split; apply map_empty; intros p.
  - destruct (ledger m !! p) as [[t [|o]]|] eqn:Hp; [|destruct (Hw _ _ _ Hp) as [t' Ht']|done].
    + by apply Hf, elem_of_nil in Hp.
    + by apply Hf, elem_of_nil in Ht'.
  - destruct (arcs m !! p) as [n|] eqn:Hp; [|done]. specialize (Hc p). rewrite Hp in Hc. simpl in Hc.
    by apply Ha in Hp.
Qed.

(** With no value left, what is alive has been abandoned. *)
Lemma inv_forgotten m : inv m (forgotten m) →
  arcs m = ∅ ∧ ∀ p t, ledger m !! p = Some (t, App) ↔ (t, p) ∈ abandoned m.
Proof.
  intros Hi. split.
  - apply map_empty. intros p. destruct (arcs m !! p) as [n|] eqn:Hp; [|done].
    pose proof (inv_arc _ _ Hi p n Hp) as Hn. pose proof (inv_count _ _ Hi p) as Hc. rewrite Hp in Hc. simpl in Hc.
    destruct (arc_count_elem p (forgotten m)) as (r & Hr & Ha); [congruence|].
    by apply list_elem_of_fmap in Hr as (x & -> & _).
  - intros p t. split; intros Hp.
    + pose proof (inv_full _ _ Hi p t Hp) as Hin. apply list_elem_of_fmap in Hin as (r & -> & Hr).
      rewrite (inv_root _ _ Hi _ Hr) in Hp. apply list_elem_of_fmap in Hr as ([t' q] & -> & Hin). simpl in *.
      by injection Hp as ->.
    + apply (inv_root _ _ Hi (ROwn t p [])). apply list_elem_of_fmap. by exists (t, p).
Qed.

(** ** Computations that abandon nothing *)

Definition quiet {A} (c : mem A) : Prop := ∀ m a m', c m = inr (a, m') → abandoned m' = abandoned m.

Lemma quiet_ret {A} (a : A) : quiet (mret a).
Proof. by intros m ? ? [= _ <-]. Qed.

Lemma quiet_fault {A} f : quiet (fault (A := A) f).
Proof. done. Qed.

Lemma quiet_read : quiet read_mem.
Proof. by intros m ? ? [= _ <-]. Qed.

Lemma quiet_update f : (∀ m, abandoned (f m) = abandoned m) → quiet (update f).
Proof. intros Hf m ? ? [= _ <-]. apply Hf. Qed.

Lemma quiet_ask : quiet ask.
Proof. intros m a m'. unfold ask. destruct (answers m); by intros [= _ <-]. Qed.

Lemma quiet_bind {A B} (c : mem A) (k : A → mem B) : quiet c → (∀ a, quiet (k a)) → quiet (c ≫= k).
Proof.
  intros Hc Hk m b m'. unfold mbind, mem_bind. destruct (c m) as [|[a m1]] eqn:Em; [done|]. intros Hb.
  rewrite (Hk _ _ _ _ Hb). by eapply Hc.
Qed.

(** What [without] leaves. *)
Lemma without_empty p : without p ∅ = ∅.
Proof. apply map_filter_empty. Qed.

Lemma without_insert_eq p x m : without p (<[p := x]> m) = without p m.
Proof. unfold without. rewrite map_filter_insert. case_decide; [naive_solver|]. apply map_filter_delete_not. naive_solver. Qed.

Lemma without_insert_ne p q t m : q ≠ p → without p (<[q := (t, App)]> m) = <[q := (t, App)]> (without p m).
Proof. intros Hq. apply map_filter_insert_True. done. Qed.

Lemma lookup_without p m : without p m !! p = None.
Proof. apply map_lookup_filter_None. right. intros x _. naive_solver. Qed.
