(* ===== verification/Ownership.v ===== *)
(** * Who destroys the native objects

    The functions of the crate that receive, create, pass on or drop native
    objects, over the ledger of [NativePtr]: the configuration and the client, topic
    partition lists, events with their messages, headers, errors, metadata, queues,
    and the objects of admin requests. What a function computes from the objects is
    modelled in the file of its component; here every native call is what it means
    for the ledger, and a result that decides the course of the function is one of
    the answers of librdkafka. A program is any sequence of calls on the values that
    it holds, in which the callbacks of a poll are programs again. A panic ends a
    run: unwinding is not followed. That nothing outlives its client is left to the
    lifetimes of Rust and is not part of the ledger.

    The theorems: a program makes the crate break no rule ([native_memory_safe]), but
    for two calls: [Client::fetch_metadata] for a topic uses the topic that it has
    destroyed ([fetch_metadata_dangling]), and a rebalance callback that moves the list
    out of the reference it is given takes what belongs to the event
    ([rebalance_list_moved]). Once a program without them has dropped its values,
    exactly what [Client::new] abandons is left ([native_no_leak],
    [client_new_leaks]). *)

From stdpp Require Import strings gmap prelude.
From S2P Require Import Prelude NativePtr.

Local Open Scope N_scope.

(** A pointer that may be null is passed on. *)
Definition live_or_null (t : Native) (p : N) : mem unit := if decide (p = 0) then mret tt else live t p.

(** librdkafka promises an object. *)
Definition given (t : Native) : mem N :=
  p ← give t; if decide (p = 0) then fault Breach else mret p.

(** A fallible native call on the object [p]. *)
Definition try_call (t : Native) (p : N) : mem bool := _ ← live t p; err ← ask; mret (bool_decide (err = 0)).

(** [n] of them in a row, up to the first error. *)
Fixpoint try_calls (t : Native) (p : N) (n : nat) : mem bool :=
  match n with
  | O => mret true
  | S n => ok ← try_call t p; if (ok : bool) then try_calls t p n else mret false
  end.

(** [n] calls that cannot fail. *)
Fixpoint calls (t : Native) (p : N) (n : nat) : mem unit :=
  match n with O => mret tt | S n => _ ← live t p; calls t p n end.

(** A constructor of librdkafka whose result is unwrapped. *)
Definition create (t : Native) : mem N := p ← give t; unwrap (from_ptr p).

(** The owner of [p] goes out of scope unless the call succeeded. *)
Definition keep_if (t : Native) (p : N) (ok : bool) : mem (option N) :=
  if ok then mret (Some p) else _ ← drop_native t p; mret None.

(** ** Configuration and client *)

(** [ClientConfig::create_native_config], with [n] parameters to set. *)
Definition create_native_config (n : nat) : mem (option N) :=
  conf ← create RDKafkaConf;
  ok ← try_calls RDKafkaConf conf n;
  keep_if RDKafkaConf conf ok.

(** [rd_kafka_new]: takes the configuration over, unless it fails. *)
Definition rd_kafka_new (conf : N) : mem N :=
  _ ← live RDKafkaConf conf;
  client ← give RDKafka;
  if decide (client = 0) then mret 0 else _ ← consume RDKafkaConf conf; mret client.

(** An object, unless it is null, whose last pointer goes out of scope. *)
Definition abandon_if (t : Native) (p : N) : mem unit := if decide (p = 0) then mret tt else abandon t p.

(** [Client::new_context_arc]. The configuration is forgotten before [rd_kafka_new],
    which does not take it over when it fails; the reference to the main queue is a
    temporary; and the client is a raw pointer until the log queue is set. *)
Definition new_context_arc (native_config : N) : mem (option N) :=
  _ ← live RDKafkaConf native_config;
  ok ← try_call RDKafkaConf native_config;
  if negb ok then _ ← drop_native RDKafkaConf native_config; mret None else
  client_ptr ← rd_kafka_new native_config;
  if decide (client_ptr = 0) then _ ← abandon RDKafkaConf native_config; mret None else
  _ ← live RDKafka client_ptr;
  main ← give RDKafkaQueue;
  _ ← live RDKafka client_ptr;
  _ ← live_or_null RDKafkaQueue main;
  ret ← ask;
  _ ← abandon_if RDKafkaQueue main;
  if decide (ret = 0) then
    _ ← live RDKafka client_ptr;
    client ← unwrap (from_ptr client_ptr);
    mret (Some client)
  else _ ← abandon RDKafka client_ptr; mret None.

(** ** Topic partition lists *)

Definition with_capacity : mem N := create RDKafkaTopicPartitionList.

Definition tpl_clone (tpl : N) : mem N :=
  _ ← live RDKafkaTopicPartitionList tpl; create RDKafkaTopicPartitionList.

(** [TopicPartitionList::from_topic_map], with [n] entries. *)
Definition from_topic_map (n : nat) : mem (option N) :=
  tpl ← with_capacity;
  ok ← try_calls RDKafkaTopicPartitionList tpl n;
  keep_if RDKafkaTopicPartitionList tpl ok.

(** [BaseConsumer::subscribe], with [n] topics. *)
Definition subscribe (client : N) (n : nat) : mem bool :=
  tpl ← with_capacity;
  _ ← calls RDKafkaTopicPartitionList tpl n;
  _ ← live RDKafkaTopicPartitionList tpl;
  ok ← try_call RDKafka client;
  _ ← drop_native RDKafkaTopicPartitionList tpl;
  mret ok.

(** [rd_kafka_assignment] and [rd_kafka_subscription], which fill in a new list
    unless they fail: [BaseConsumer::assignment], [BaseConsumer::subscription]. *)
Definition assignment (client : N) : mem (option N) :=
  ok ← try_call RDKafka client;
  if (ok : bool) then tpl ← create RDKafkaTopicPartitionList; mret (Some tpl) else mret None.

(** [BaseConsumer::committed_offsets], [BaseConsumer::offsets_for_times]: the list
    is moved in, and out again on success. *)
Definition committed_offsets (client tpl : N) : mem (option N) :=
  _ ← live RDKafkaTopicPartitionList tpl;
  ok ← try_call RDKafka client;
  keep_if RDKafkaTopicPartitionList tpl ok.

(** [BaseConsumer::committed], [BaseConsumer::position]. *)
Definition committed (client : N) : mem (option N) :=
  o ← assignment client;
  match o with Some tpl => committed_offsets client tpl | None => mret None end.

(** [BaseConsumer::offsets_for_timestamp]. *)
Definition offsets_for_timestamp (client : N) : mem (option N) :=
  o ← assignment client;
  match o with
  | Some tpl =>
      ok ← try_call RDKafkaTopicPartitionList tpl;
      if (ok : bool) then committed_offsets client tpl
      else _ ← drop_native RDKafkaTopicPartitionList tpl; mret None
  | None => mret None
  end.

(** ** Errors *)

(** [RDKafkaError::from_ptr]. *)
Definition error_from_ptr (p : N) : mem (option N) :=
  match from_ptr p with Some e => _ ← arc_new e; mret (Some e) | None => mret None end.

(** A call that returns an error object: the transactional functions of
    [BaseProducer], which return it to the user. *)
Definition transaction (client : N) : mem (option N) :=
  _ ← live RDKafka client; p ← give rd_kafka_error_t; error_from_ptr p.

(** The functions that only read the name or the code of the error:
    [incremental_assign], [incremental_unassign], [close_queue]. *)
Definition with_error (client : N) (t : Native) (p : N) : mem bool :=
  _ ← live RDKafka client;
  _ ← live t p;
  e ← give rd_kafka_error_t;
  ret ← error_from_ptr e;
  match ret with
  | Some e => _ ← live rd_kafka_error_t e; _ ← arc_drop rd_kafka_error_t e; mret false
  | None => mret true
  end.

(** [BaseConsumer::seek_partitions]. *)
Definition seek_partitions (client tpl : N) : mem (option N) :=
  ok ← with_error client RDKafkaTopicPartitionList tpl;
  keep_if RDKafkaTopicPartitionList tpl ok.

(** ** Metadata, group lists, queues and topics *)

(** [BaseConsumer::group_metadata], [Client::consumer_queue], and the queue of
    [BaseConsumer::split_partition_queue]: null is [None]. *)
Definition obtain (t : Native) (client : N) : mem (option N) :=
  _ ← live RDKafka client; p ← give t; mret (from_ptr p).

(** [Client::new_native_queue], [Client::main_queue]. *)
Definition native_queue (client : N) : mem N := _ ← live RDKafka client; create RDKafkaQueue.

(** [Client::native_topic]: the name may contain a NUL. *)
Definition native_topic (client : N) : mem (option N) :=
  nul ← ask;
  if decide (nul = 0) then _ ← live RDKafka client; t ← create RDKafkaTopic; mret (Some t) else mret None.

(** [rd_kafka_metadata]: borrows the topic, and fills in the metadata unless it
    fails. *)
Definition rd_kafka_metadata (client topic : N) : mem (option N) :=
  _ ← live_or_null RDKafkaTopic topic;
  ok ← try_call RDKafka client;
  if (ok : bool) then p ← create RDKafkaMetadata; mret (Some p) else mret None.

(** [native_topic.map(|t| t.ptr()).unwrap_or_else(ptr::null_mut)]: the closure
    takes the topic by value, which is dropped when it returns. *)
Definition topic_ptr (native_topic : option N) : mem N :=
  match native_topic with
  | Some t => let p := t in _ ← drop_native RDKafkaTopic t; mret p
  | None => mret 0
  end.

(** [Client::fetch_metadata], for a topic or for all of them. *)
Definition fetch_metadata (client : N) (topic : bool) : mem (option N) :=
  if topic then
    o ← native_topic client;
    match o with
    | None => mret None
    | Some t => p ← topic_ptr (Some t); rd_kafka_metadata client p
    end
  else p ← topic_ptr None; rd_kafka_metadata client p.

(** [Client::fetch_group_list]. *)
Definition fetch_group_list (client : N) : mem (option N) :=
  nul ← ask;
  if decide (nul = 0) then
    ok ← try_call RDKafka client;
    if (ok : bool) then p ← create RDKafkaGroupList; mret (Some p) else mret None
  else mret None.

(** [BaseConsumer::seek]. *)
Definition seek (client : N) : mem bool :=
  o ← native_topic client;
  match o with
  | None => mret false
  | Some topic =>
      unrepresentable ← ask;
      if decide (unrepresentable = 0) then
        ok ← try_call RDKafkaTopic topic; _ ← drop_native RDKafkaTopic topic; mret ok
      else _ ← drop_native RDKafkaTopic topic; mret false
  end.

(** ** Headers *)

(** [OwnedHeaders::new_with_capacity], [insert], [clone]. *)
Definition headers_new : mem N := create RDKafkaHeaders.

Definition headers_insert (h : N) : mem N :=
  ok ← try_call RDKafkaHeaders h; if (ok : bool) then mret h else fault Panicked.

Definition headers_clone (h : N) : mem N := _ ← live RDKafkaHeaders h; create RDKafkaHeaders.

(** [BorrowedMessage::headers]: the headers are a part of the message. *)
Definition message_headers (msg : N) : mem (option N) := h ← lend RDKafkaHeaders RDKafkaMessage msg; mret (from_ptr h).

(** [BorrowedHeaders::detach]. *)
Definition headers_detach (h : N) : mem N := _ ← live RDKafkaHeaders h; create RDKafkaHeaders.

(** [BorrowedMessage::detach]: the accessors, and a copy of the headers. *)
Definition detach (msg : N) : mem (option N) :=
  _ ← live RDKafkaMessage msg;
  o ← message_headers msg;
  match o with Some h => c ← headers_detach h; mret (Some c) | None => mret None end.

(** [rd_kafka_producev]: takes the headers over, unless it fails. *)
Definition rd_kafka_producev (client : N) (headers : option N) : mem bool :=
  _ ← match headers with Some h => live RDKafkaHeaders h | None => mret tt end;
  ok ← try_call RDKafka client;
  _ ← match headers with Some h => if (ok : bool) then consume RDKafkaHeaders h else mret tt | None => mret tt end;
  mret ok.

(** [BaseProducer::send]: the record, with its headers, comes back on failure; on
    success they are forgotten. *)
Definition send (client : N) (headers : option N) : mem (option N) :=
  ok ← rd_kafka_producev client headers;
  mret (if (ok : bool) then None else headers).

(** ** Values *)

(** The values of a program that hold native objects: a wrapper of a [NativePtr];
    a [BorrowedMessage], with the [Arc] of its event; an [RDKafkaError]. *)
Inductive Val : Set :=
| Own (t : Native) (p : N)
| Message (event ptr : N)
| Error (p : N).

Definition drop_value (v : Val) : mem unit :=
  match v with
  | Own t p => drop_native t p
  | Message event ptr => _ ← drop_native RDKafkaMessage ptr; arc_drop RDKafkaEvent event
  | Error p => arc_drop rd_kafka_error_t p
  end.

(** The accessors of a value read the object. *)
Definition read_value (v : Val) : mem unit :=
  match v with
  | Own t p => live t p
  | Message _ ptr => live RDKafkaMessage ptr
  | Error p => live rd_kafka_error_t p
  end.

(** ** Events *)

(** How the type of an event is dispatched on. *)
Inductive EventType : Set :=
| Served
| Fetch
| DeliveryReport
| ErrorEvent
| Rebalance
| OffsetCommit
| Other.

Definition event_type (event : N) : mem EventType :=
  _ ← live RDKafkaEvent event;
  a ← ask;
  mret (match a with 0 => Served | 1 => Fetch | 2 => DeliveryReport | 3 => ErrorEvent | 4 => Rebalance
                   | 5 => OffsetCommit | _ => Other end).

(** [Client::poll_event]: log, statistics and token events are served and dropped
    here, the others go to the caller. *)
Definition poll_event (queue : N) : mem (option (N * EventType)) :=
  _ ← live RDKafkaQueue queue;
  e ← give RDKafkaEvent;
  match from_ptr e with
  | None => mret None
  | Some ev =>
      ty ← event_type ev;
      match ty with
      | Served => _ ← live RDKafkaEvent ev; _ ← drop_native RDKafkaEvent ev; mret None
      | ErrorEvent => _ ← live RDKafkaEvent ev; mret (Some (ev, ty))
      | _ => mret (Some (ev, ty))
      end
  end.

(** [BorrowedMessage::from_client]: with an error in the message, it and the event
    are dropped. *)
Definition from_client (ptr event : N) : mem (option Val) :=
  ok ← try_call RDKafkaMessage ptr;
  if (ok : bool) then mret (Some (Message event ptr))
  else
    _ ← live RDKafkaMessage ptr;
    _ ← arc_drop RDKafkaEvent event;
    _ ← drop_native RDKafkaMessage ptr;
    mret None.

(** [BaseConsumer::handle_fetch_event]. *)
Definition handle_fetch_event (event : N) : mem (option Val) :=
  m ← lend RDKafkaMessage RDKafkaEvent event;
  match from_ptr m with
  | Some ptr => _ ← arc_new event; from_client ptr event
  | None => _ ← drop_native RDKafkaEvent event; mret None
  end.

Section callbacks.

(** A callback, given a list or a message, on the values of the program. *)
Context (callback : N → list Val → mem (list Val)).

(** [BaseConsumer::handle_rebalance_event]: the list is a part of the event, which
    a [ManuallyDrop] leaves to the event; the callback has it by mutable reference. *)
Definition handle_rebalance_event (event : N) (vs : list Val) : mem (list Val) :=
  valid ← try_call RDKafkaEvent event;
  vs' ← (if (valid : bool) then
           native_tpl ← lend RDKafkaTopicPartitionList RDKafkaEvent event;
           tpl ← unwrap (from_ptr native_tpl);
           callback tpl vs
         else _ ← live RDKafkaEvent event; mret vs);
  _ ← drop_native RDKafkaEvent event;
  mret vs'.

(** [BaseConsumer::handle_offset_commit_event]. *)
Definition handle_offset_commit_event (event : N) (vs : list Val) : mem (list Val) :=
  _ ← live RDKafkaEvent event;
  offsets ← lend RDKafkaTopicPartitionList RDKafkaEvent event;
  vs' ← (if decide (offsets = 0) then
           tpl ← with_capacity;
           vs' ← callback tpl vs;
           _ ← drop_native RDKafkaTopicPartitionList tpl;
           mret vs'
         else callback offsets vs);
  _ ← drop_native RDKafkaEvent event;
  mret vs'.

(** The loop of [BaseProducer::handle_delivery_report_event]:
    [BorrowedMessage::from_dr_event] on a clone of the [Arc], the callback, and the
    drop of the message. *)
Fixpoint deliver (event : N) (messages : list N) (vs : list Val) : mem (list Val) :=
  match messages with
  | [] => mret vs
  | msg :: messages =>
      _ ← arc_clone event;
      ptr ← unwrap (from_ptr msg);
      _ ← live RDKafkaMessage ptr;
      vs' ← callback ptr vs;
      _ ← drop_value (Message event ptr);
      deliver event messages vs'
  end.

(** [rd_kafka_event_message_array]. *)
Fixpoint message_array (event : N) (n : nat) : mem (list N) :=
  match n with
  | O => mret []
  | S n => m ← lend RDKafkaMessage RDKafkaEvent event; l ← message_array event n; mret (m :: l)
  end.

Definition handle_delivery_report_event (event : N) (vs : list Val) : mem (list Val) :=
  _ ← live RDKafkaEvent event;
  msgs_cnt ← ask;
  messages ← message_array event (N.to_nat msgs_cnt);
  _ ← arc_new event;
  vs' ← deliver event messages vs;
  _ ← arc_drop RDKafkaEvent event;
  mret vs'.

(** [BaseConsumer::handle_error_event]: at the end of a partition librdkafka
    returns a topic partition, to be destroyed by hand. *)
Definition handle_error_event (event : N) : mem unit :=
  ok ← try_call RDKafkaEvent event;
  if (ok : bool) then drop_native RDKafkaEvent event
  else
    other ← ask;
    _ ← (if decide (other = 0) then
           _ ← live RDKafkaEvent event;
           tp ← given RDKafkaTopicPartition;
           _ ← live RDKafkaTopicPartition tp;
           destroy rd_kafka_topic_partition_destroy tp
         else live RDKafkaEvent event);
    drop_native RDKafkaEvent event.

(** A turn of [BaseProducer::poll]. *)
Definition producer_turn (queue : N) (vs : list Val) : mem (list Val) :=
  e ← poll_event queue;
  match e with
  | None => mret vs
  | Some (event, ty) =>
      _ ← live RDKafkaEvent event;
      match ty with
      | DeliveryReport => handle_delivery_report_event event vs
      | _ => _ ← live RDKafkaEvent event; _ ← drop_native RDKafkaEvent event; mret vs
      end
  end.

End callbacks.

(** A turn of [BaseConsumer::poll_queue]: the message that is returned becomes a
    value of the program. *)
Definition poll_turn (rebalance commit_callback : N → list Val → mem (list Val)) (queue : N) (vs : list Val)
    : mem (list Val) :=
  e ← poll_event queue;
  match e with
  | None => mret vs
  | Some (event, ty) =>
      _ ← live RDKafkaEvent event;
      match ty with
      | Fetch => o ← handle_fetch_event event; mret (match o with Some v => v :: vs | None => vs end)
      | ErrorEvent => _ ← handle_error_event event; mret vs
      | Rebalance => handle_rebalance_event rebalance event vs
      | OffsetCommit => handle_offset_commit_event commit_callback event vs
      | _ => _ ← live RDKafkaEvent event; _ ← drop_native RDKafkaEvent event; mret vs
      end
  end.

(** ** Admin requests *)

(** A vector of native pointers goes out of scope. *)
Fixpoint drop_all (t : Native) (l : list N) : mem unit :=
  match l with [] => mret tt | p :: l => _ ← drop_native t p; drop_all t l end.

Fixpoint live_all (t : Native) (l : list N) : mem unit :=
  match l with [] => mret tt | p :: l => _ ← live t p; live_all t l end.

(** [NewTopic::to_native] and [NewPartitions::to_native], with [n] settings: the
    object is wrapped at once, so that it is dropped when one of them fails. *)
Definition new_to_native (t : Native) (n : nat) : mem (option N) :=
  p ← give t;
  match from_ptr p with
  | None => mret None
  | Some topic => ok ← try_calls t topic n; keep_if t topic ok
  end.

(** [AlterConfig::to_native]; with [n = 0] a resource of [describe_configs_inner],
    a topic of [delete_topics_inner] and a group of [delete_groups_inner]. *)
Definition config_to_native (t : Native) (n : nat) : mem (option N) :=
  config ← create t; ok ← try_calls t config n; keep_if t config ok.

(** The loop that fills the vector: the name of a resource may contain a NUL, and
    what there is so far is dropped when a conversion fails. *)
Fixpoint to_natives (t : Native) (to_native : nat → mem (option N)) (specs : list nat) (acc : list N)
    : mem (option (list N)) :=
  match specs with
  | [] => mret (Some acc)
  | n :: specs =>
      nul ← ask;
      o ← (if decide (nul = 0) then to_native n else mret None);
      match o with
      | Some p => to_natives t to_native specs (acc ++ [p])
      | None => _ ← drop_all t acc; mret None
      end
  end.

(** [AdminOptions::to_native], with [n] options to set. *)
Definition options_to_native (client : N) (n : nat) : mem (option N) :=
  _ ← live RDKafka client;
  native_opts ← create RDKafkaAdminOptions;
  ok ← try_calls RDKafkaAdminOptions native_opts n;
  if (ok : bool) then _ ← live RDKafkaAdminOptions native_opts; mret (Some native_opts)
  else _ ← drop_native RDKafkaAdminOptions native_opts; mret None.

(** [create_topics_inner] and the other requests for a list of resources. *)
Definition request_inner (t : Native) (to_native : nat → mem (option N)) (specs : list nat)
    (client queue : N) (opts : nat) : mem bool :=
  o ← to_natives t to_native specs [];
  match o with
  | None => mret false
  | Some natives =>
      no ← options_to_native client opts;
      match no with
      | None => _ ← drop_all t natives; mret false
      | Some native_opts =>
          _ ← live RDKafka client;
          _ ← live_all t natives;
          _ ← live RDKafkaAdminOptions native_opts;
          _ ← live RDKafkaQueue queue;
          _ ← drop_native RDKafkaAdminOptions native_opts;
          _ ← drop_all t natives;
          mret true
      end
  end.

(** [delete_records_inner]. *)
Definition delete_records_inner (client queue offsets : N) (opts : nat) : mem bool :=
  _ ← live RDKafkaTopicPartitionList offsets;
  p ← give RDKafkaDeleteRecords;
  match from_ptr p with
  | None => mret false
  | Some delete_records =>
      no ← options_to_native client opts;
      match no with
      | None => _ ← drop_native RDKafkaDeleteRecords delete_records; mret false
      | Some native_opts =>
          _ ← live RDKafka client;
          _ ← live RDKafkaDeleteRecords delete_records;
          _ ← live RDKafkaAdminOptions native_opts;
          _ ← live RDKafkaQueue queue;
          _ ← drop_native RDKafkaAdminOptions native_opts;
          _ ← drop_native RDKafkaDeleteRecords delete_records;
          mret true
      end
  end.

(** A turn of the thread of [start_poll_thread]: the event is moved into the
    channel of the request, or dropped when the receiver is gone. *)
Definition admin_turn (queue : N) : mem (option N) :=
  _ ← live RDKafkaQueue queue;
  event ← give RDKafkaEvent;
  match from_ptr event with
  | None => mret None
  | Some event =>
      _ ← live RDKafkaEvent event;
      canceled ← ask;
      if decide (canceled = 0) then mret (Some event)
      else _ ← drop_native RDKafkaEvent event; mret None
  end.

(** The polls of [CreateTopicsFuture] and of the other futures, once the event is
    there: the results are read, and the event is dropped. *)
Definition future_poll (event : N) : mem bool :=
  ok ← try_call RDKafkaEvent event;
  if negb ok then _ ← drop_native RDKafkaEvent event; mret false else
  res ← lend EventResult RDKafkaEvent event;
  if decide (res = 0) then
    _ ← live RDKafkaEvent event; _ ← drop_native RDKafkaEvent event; mret false
  else
    _ ← live EventResult res; _ ← drop_native RDKafkaEvent event; mret true.

(** The poll of [DeleteRecordsFuture]: the list is copied out of the event. *)
Definition delete_records_poll (event : N) : mem (option N) :=
  ok ← try_call RDKafkaEvent event;
  if negb ok then _ ← drop_native RDKafkaEvent event; mret None else
  res ← lend EventResult RDKafkaEvent event;
  if decide (res = 0) then
    _ ← live RDKafkaEvent event; _ ← drop_native RDKafkaEvent event; mret None
  else
    offsets ← lend RDKafkaTopicPartitionList EventResult res;
    if decide (offsets = 0) then fault Breach else
    tpl ← tpl_clone offsets;
    _ ← drop_native RDKafkaEvent event;
    mret (Some tpl).

(** ** Programs *)

(** What a rebalance callback does with the list that it is given as [&mut]: it reads
    and changes it in place, swaps it with one of its lists ([mem::swap]), or moves one
    of its lists into it ([*tpl = list]), which drops the list that was there. *)
Inductive ListUse : Set :=
| InPlace
| Swapped (i : nat)
| Replaced (i : nat).

(** The calls of a program. A number names one of its values by position; a call
    whose arguments are not values of the right types is not one that the compiler
    accepts, and does nothing. *)
Inductive Op : Set :=
| OConfig (n : nat) | OClient (conf : nat)
| ODrop (i : nat) | ORead (i : nat)
| OTplNew | OTplClone (tpl : nat) | OTopicMap (n : nat)
| OSubscribe (client n : nat) | OAssignment (client : nat) | OCommitted (client : nat)
| OCommittedOffsets (client tpl : nat) | OOffsetsForTimestamp (client : nat)
| OSeekPartitions (client tpl : nat) | OSeek (client : nat)
| OTransaction (client : nat) | OErrorClone (i : nat) | OIncrementalAssign (client tpl : nat)
| OCloseQueue (client queue : nat)
| OObtain (t : Native) (client : nat) | OQueue (client : nat) | OMetadata (client : nat) (topic : bool)
| OGroupList (client : nat)
| OHeadersNew | OHeadersInsert (h : nat) | OHeadersClone (h : nat) | ODetach (msg : nat)
| OSend (client : nat) (headers : option nat)
| OPoll (queue : nat) (use : ListUse) (rebalance commit_callback : list Op)
| OProducerPoll (queue : nat) (detaches : bool) (callback : list Op)
| ORequest (t : Native) (specs : list nat) (client queue opts : nat)
| ODeleteRecords (client queue tpl opts : nat)
| OAdminTurn (queue : nat) | OFuturePoll (event : nat) | ODeleteRecordsPoll (event : nat).

(** The object of type [t] at position [i]. *)
Definition owned (t : Native) (vs : list Val) (i : nat) : option N :=
  match vs !! i with
  | Some (Own t' p) => if decide (t' = t) then Some p else None
  | _ => None
  end.

(** A call with an argument, borrowed. *)
Definition borrowing (t : Native) (i : nat) (vs : list Val) (f : N → mem (list Val)) : mem (list Val) :=
  match owned t vs i with Some p => f p | None => mret vs end.

(** The list in the reference afterwards, and the values. *)
Definition use_list (u : ListUse) (tpl : N) (vs : list Val) : mem (N * list Val) :=
  match u with
  | InPlace => mret (tpl, vs)
  | Swapped i =>
      match owned RDKafkaTopicPartitionList vs i with
      | Some q => mret (q, <[i := Own RDKafkaTopicPartitionList tpl]> vs)
      | None => mret (tpl, vs)
      end
  | Replaced i =>
      match owned RDKafkaTopicPartitionList vs i with
      | Some q => _ ← drop_native RDKafkaTopicPartitionList tpl; mret (q, delete i vs)
      | None => mret (tpl, vs)
      end
  end.

(** A rebalance callback that uses its list in this way and then makes other calls. *)
Definition rebalance_with (u : ListUse) (rest : list Val → mem (list Val)) (tpl : N) (vs : list Val) : mem (list Val) :=
  _ ← live RDKafkaTopicPartitionList tpl;
  used ← use_list u tpl vs;
  vs' ← rest used.2;
  _ ← live RDKafkaTopicPartitionList used.1;
  mret vs'.

(** A commit callback, which has its list by shared reference. *)
Definition committed_with (rest : list Val → mem (list Val)) (tpl : N) (vs : list Val) : mem (list Val) :=
  _ ← live RDKafkaTopicPartitionList tpl; vs' ← rest vs; _ ← live RDKafkaTopicPartitionList tpl; mret vs'.

(** A result becomes a value of the program. *)
Definition result_of (t : Native) (vs : list Val) (c : mem (option N)) : mem (list Val) :=
  o ← c; mret (match o with Some p => Own t p :: vs | None => vs end).

Definition some_of (c : mem N) : mem (option N) := p ← c; mret (Some p).

Definition discard {A} (vs : list Val) (c : mem A) : mem (list Val) := _ ← c; mret vs.

(** The types that [OObtain] can return, and the conversion of a resource. *)
Definition obtainable (t : Native) : bool :=
  match t with RDKafkaQueue | RDKafkaConsumerGroupMetadata => true | _ => false end.

Definition resource (t : Native) : option (nat → mem (option N)) :=
  match t with
  | RDKafkaNewTopic => Some (new_to_native RDKafkaNewTopic)
  | RDKafkaNewPartitions => Some (new_to_native RDKafkaNewPartitions)
  | RDKafkaConfigResource => Some (config_to_native RDKafkaConfigResource)
  | RDKafkaDeleteTopic => Some (λ _, config_to_native RDKafkaDeleteTopic 0)
  | RDKafkaDeleteGroup => Some (λ _, config_to_native RDKafkaDeleteGroup 0)
  | _ => None
  end.

(** Calls in sequence. *)
Definition in_turn (exec : Op → list Val → mem (list Val)) : list Op → list Val → mem (list Val) :=
  fix go (os : list Op) (vs : list Val) : mem (list Val) :=
    match os with [] => mret vs | o :: os => vs' ← exec o vs; go os vs' end.

Fixpoint exec (o : Op) (vs : list Val) : mem (list Val) :=
  match o with
  | OConfig n => result_of RDKafkaConf vs (create_native_config n)
  | OClient i => borrowing RDKafkaConf i vs (λ p, result_of RDKafka (delete i vs) (new_context_arc p))
  | ODrop i => match vs !! i with Some v => _ ← drop_value v; mret (delete i vs) | None => mret vs end
  | ORead i => match vs !! i with Some v => _ ← read_value v; mret vs | None => mret vs end
  | OTplNew => result_of RDKafkaTopicPartitionList vs (some_of with_capacity)
  | OTplClone i =>
      borrowing RDKafkaTopicPartitionList i vs
        (λ p, result_of RDKafkaTopicPartitionList vs (some_of (tpl_clone p)))
  | OTopicMap n => result_of RDKafkaTopicPartitionList vs (from_topic_map n)
  | OSubscribe c n => borrowing RDKafka c vs (λ c, discard vs (subscribe c n))
  | OAssignment c => borrowing RDKafka c vs (λ c, result_of RDKafkaTopicPartitionList vs (assignment c))
  | OCommitted c => borrowing RDKafka c vs (λ c, result_of RDKafkaTopicPartitionList vs (committed c))
  | OCommittedOffsets c i =>
      borrowing RDKafka c vs (λ c, borrowing RDKafkaTopicPartitionList i vs (λ p,
        result_of RDKafkaTopicPartitionList (delete i vs) (committed_offsets c p)))
  | OOffsetsForTimestamp c =>
      borrowing RDKafka c vs (λ c, result_of RDKafkaTopicPartitionList vs (offsets_for_timestamp c))
  | OSeekPartitions c i =>
      borrowing RDKafka c vs (λ c, borrowing RDKafkaTopicPartitionList i vs (λ p,
        result_of RDKafkaTopicPartitionList (delete i vs) (seek_partitions c p)))
  | OSeek c => borrowing RDKafka c vs (λ c, discard vs (seek c))
  | OTransaction c =>
      borrowing RDKafka c vs (λ c,
        o ← transaction c; mret (match o with Some e => Error e :: vs | None => vs end))
  | OErrorClone i =>
      match vs !! i with Some (Error e) => _ ← arc_clone e; mret (Error e :: vs) | _ => mret vs end
  | OIncrementalAssign c i =>
      borrowing RDKafka c vs (λ c, borrowing RDKafkaTopicPartitionList i vs (λ p,
        discard vs (with_error c RDKafkaTopicPartitionList p)))
  | OCloseQueue c q =>
      borrowing RDKafka c vs (λ c, borrowing RDKafkaQueue q vs (λ q, discard vs (with_error c RDKafkaQueue q)))
  | OObtain t c => if obtainable t then borrowing RDKafka c vs (λ c, result_of t vs (obtain t c)) else mret vs
  | OQueue c => borrowing RDKafka c vs (λ c, result_of RDKafkaQueue vs (some_of (native_queue c)))
  | OMetadata c topic => borrowing RDKafka c vs (λ c, result_of RDKafkaMetadata vs (fetch_metadata c topic))
  | OGroupList c => borrowing RDKafka c vs (λ c, result_of RDKafkaGroupList vs (fetch_group_list c))
  | OHeadersNew => result_of RDKafkaHeaders vs (some_of headers_new)
  | OHeadersInsert i =>
      borrowing RDKafkaHeaders i vs (λ h, result_of RDKafkaHeaders (delete i vs) (some_of (headers_insert h)))
  | OHeadersClone i => borrowing RDKafkaHeaders i vs (λ h, result_of RDKafkaHeaders vs (some_of (headers_clone h)))
  | ODetach i =>
      match vs !! i with Some (Message _ ptr) => result_of RDKafkaHeaders vs (detach ptr) | _ => mret vs end
  | OSend c None => borrowing RDKafka c vs (λ c, discard vs (send c None))
  | OSend c (Some i) =>
      borrowing RDKafka c vs (λ c, borrowing RDKafkaHeaders i vs (λ h,
        result_of RDKafkaHeaders (delete i vs) (send c (Some h))))
  | OPoll q u rebalance commit_callback =>
      borrowing RDKafkaQueue q vs (λ q,
        poll_turn (rebalance_with u (in_turn exec rebalance)) (committed_with (in_turn exec commit_callback)) q vs)
  | OProducerPoll q detaches cb =>
      borrowing RDKafkaQueue q vs (λ q,
        producer_turn (λ msg vs, _ ← live RDKafkaMessage msg;
                                 vs' ← (if (detaches : bool) then result_of RDKafkaHeaders vs (detach msg) else mret vs);
                                 vs'' ← in_turn exec cb vs'; _ ← live RDKafkaMessage msg; mret vs'') q vs)
  | ORequest t specs c q opts =>
      match resource t with
      | Some to_native =>
          borrowing RDKafka c vs (λ c, borrowing RDKafkaQueue q vs (λ q,
            discard vs (request_inner t to_native specs c q opts)))
      | None => mret vs
      end
  | ODeleteRecords c q i opts =>
      borrowing RDKafka c vs (λ c, borrowing RDKafkaQueue q vs (λ q,
        borrowing RDKafkaTopicPartitionList i vs (λ p, discard vs (delete_records_inner c q p opts))))
  | OAdminTurn q => borrowing RDKafkaQueue q vs (λ q, result_of RDKafkaEvent vs (admin_turn q))
  | OFuturePoll i => borrowing RDKafkaEvent i vs (λ e, discard (delete i vs) (future_poll e))
  | ODeleteRecordsPoll i =>
      borrowing RDKafkaEvent i vs (λ e, result_of RDKafkaTopicPartitionList (delete i vs) (delete_records_poll e))
  end.

(** A program from its start, with the answers of librdkafka. *)
Definition run (os : list Op) (l : list N) : Fault + list Val * Mem :=
  in_turn exec os [] {| ledger := ∅; arcs := ∅; answers := l; abandoned := [] |}.

(** ** The triples of the functions *)

(** A pointer that can be followed: to an object that a value holds, or into one. *)
Definition alive (t : Native) (p : N) (h : list Res) : Prop :=
  ∃ r, r ∈ h ∧ (t = kind r ∧ p = root r ∨ (t, p) ∈ parts r).

Lemma alive_here t p h r : t = kind r ∧ p = root r ∨ (t, p) ∈ parts r → alive t p (r :: h).
Proof. intros Hr. exists r. split; [left|done]. Qed.

Lemma alive_own t p l h : ROwn t p l ∈ h → alive t p h.
Proof. intros Hr. by exists (ROwn t p l); split; [|left]. Qed.

Lemma alive_mono t p h h' : h ⊆ h' → alive t p h → alive t p h'.
Proof. intros Hh (r & Hr & Hp). exists r. split; [by apply Hh|done]. Qed.

Lemma alive_cons t p r h : alive t p h → alive t p (r :: h).
Proof. apply alive_mono. set_solver. Qed.

Lemma alive_app t p h h' : alive t p h' → alive t p (h ++ h').
Proof. apply alive_mono. set_solver. Qed.

(** A computation that leaves the resources as they are. *)
Local Notation "'keeps' h c" := (spec h%list c (λ _ h', h' = h%list)) (at level 10, h at level 9, c at level 9).

Lemma spec_live t p h : alive t p h → keeps h (live t p).
Proof. intros (r & Hr & [[-> ->]|Hp]); [by apply spec_live_root|by eapply spec_live_part]. Qed.

Lemma spec_try_call t p h : alive t p h → keeps h (try_call t p).
Proof.
  intros Ha. apply spec_keep; [by apply spec_live|]. intros _. apply spec_keep; [apply spec_ask|].
  intros a. by apply spec_ret.
Qed.

Lemma spec_try_calls t p n h : alive t p h → keeps h (try_calls t p n).
Proof.
  intros Ha. induction n as [|n IH]; simpl; [by apply spec_ret|]. apply spec_keep; [by apply spec_try_call|].
  intros []; [done|by apply spec_ret].
Qed.

Lemma spec_calls t p n h : alive t p h → keeps h (calls t p n).
Proof.
  intros Ha. induction n as [|n IH]; simpl; [by apply spec_ret|]. apply spec_keep; [by apply spec_live|]. by intros _.
Qed.

Create HintDb native.
#[export] Hint Resolve spec_ask spec_live spec_calls spec_try_call spec_try_calls alive_own alive_cons alive_app : native.
#[export] Hint Extern 2 (alive _ _ (_ :: _)) => apply alive_here; by left : native.
#[export] Hint Extern 3 (is_Some (drop_of _)) => by eexists : native.
#[export] Hint Extern 3 (_ ≠ RDKafkaMessage) => discriminate : native.

(** A step that keeps the resources; a branch on a result; the end. *)
Ltac keep := apply spec_keep; [by eauto with native|].
Ltac step :=
  repeat first
    [ progress simpl
    | lazymatch goal with
      | |- spec _ (mret _) _ => apply spec_ret
      | |- spec _ (mret _ ≫= _) _ => apply spec_ret_bind
      | |- spec _ (fault Panicked ≫= _) _ => apply spec_panic_bind
      | |- spec _ (fault Panicked) _ => apply spec_panic
      | |- spec _ (if decide _ then _ else _) _ => case_decide
      | |- spec _ (if ?b then _ else _) _ => destruct b
      | |- spec _ ((live _ _) ≫= _) _ => keep; intros _
      | |- spec _ (ask ≫= _) _ => keep; intros ?
      | |- spec _ ((try_call _ _) ≫= _) _ => keep; intros ?
      | |- spec _ ((try_calls _ _ _) ≫= _) _ => keep; intros ?
      | |- spec _ ((calls _ _ _) ≫= _) _ => keep; intros _
      end ].

(** A new value of type [t], or none. *)
Definition produced (t : Native) (h : list Res) (o : option N) (h' : list Res) : Prop :=
  h' ≡ₚ match o with Some p => ROwn t p [] :: h | None => h end.

#[export] Hint Extern 0 (produced _ _ _ _) => unfold produced; reflexivity : core.

#[local] Arguments from_ptr : simpl never.

Lemma from_ptr_null : from_ptr 0 = None.
Proof. done. Qed.

Lemma from_ptr_some p : p ≠ 0 → from_ptr p = Some p.
Proof. intros Hp. unfold from_ptr. by rewrite decide_False. Qed.

Lemma spec_create t h : t ≠ RDKafkaMessage → spec h (create t) (λ p h', h' = ROwn t p [] :: h).
Proof.
  intros Ht. eapply spec_bind; [by apply spec_give|]. intros p h' [[-> ->]|[Hp ->]]; [apply spec_panic|].
  rewrite from_ptr_some by done. by apply spec_ret.
Qed.

Lemma spec_keep_if t p ok h : is_Some (drop_of t) → spec (ROwn t p [] :: h) (keep_if t p ok) (produced t h).
Proof.
  intros Ht. destruct ok; [by apply spec_ret|]. eapply spec_bind; [by apply spec_drop|]. intros _ h' ->. by apply spec_ret.
Qed.

Lemma spec_create_native_config n h : spec h (create_native_config n) (produced RDKafkaConf h).
Proof.
  eapply spec_bind; [by apply spec_create|]. intros conf h' ->. step. by apply spec_keep_if.
Qed.

Lemma spec_rd_kafka_new conf h : spec (ROwn RDKafkaConf conf [] :: h) (rd_kafka_new conf)
  (λ c h', (c = 0 ∧ h' = ROwn RDKafkaConf conf [] :: h) ∨ (c ≠ 0 ∧ h' = ROwn RDKafka c [] :: h)).
Proof.
  unfold rd_kafka_new. step. eapply spec_bind; [by apply spec_give|]. intros c h' [[-> ->]|[Hc ->]].
  - rewrite decide_True by done. apply spec_ret. by left.
  - rewrite decide_False by done. rewrite Permutation_swap. eapply spec_bind; [apply spec_consume|].
    intros _ h' ->. apply spec_ret. by right.
Qed.

Lemma spec_live_or_null t p h : alive t p h ∨ p = 0 → keeps h (live_or_null t p).
Proof. unfold live_or_null. intros [Ha| ->]; step; auto with native. Qed.

(** The end of a value of its own, at the head or in the middle. *)
Lemma spec_drop_bind {B} t p l h (k : () → mem B) R : is_Some (drop_of t) →
  spec h (k tt) R → spec (ROwn t p l :: h) (drop_native t p ≫= k) R.
Proof. intros Ht Hk. eapply spec_bind; [by apply spec_drop|]. by intros [] h' ->. Qed.

(** The pointer of a message has nothing to destroy. *)
Lemma spec_drop_message {B} p h (k : () → mem B) R : spec h (k tt) R → spec h (drop_native RDKafkaMessage p ≫= k) R.
Proof. done. Qed.

Lemma spec_arc_drop_bind {B} t p l h (k : () → mem B) R : is_Some (drop_of t) →
  spec h (k tt) R → spec (RArc t p l :: h) (arc_drop t p ≫= k) R.
Proof. intros Ht Hk. eapply spec_bind; [by apply spec_arc_drop|]. by intros [] h' ->. Qed.

Lemma spec_create_bind {B} t h (k : N → mem B) R : t ≠ RDKafkaMessage →
  (∀ p, spec (ROwn t p [] :: h) (k p) R) → spec h (create t ≫= k) R.
Proof. intros Ht Hk. eapply spec_bind; [by apply spec_create|]. by intros p h' ->. Qed.

(** A new object that may be null, in both cases. *)
Lemma spec_give_bind {B} t h (k : N → mem B) R : t ≠ RDKafkaMessage →
  spec h (k 0) R → (∀ p, p ≠ 0 → spec (ROwn t p [] :: h) (k p) R) → spec h (give t ≫= k) R.
Proof. intros Ht H0 Hk. eapply spec_bind; [by apply spec_give|]. intros p h' [[-> ->]|[Hp ->]]; auto. Qed.

Lemma spec_produced_bind {B} t h h0 (c : mem (option N)) (k : option N → mem B) R :
  spec h c (produced t h0) → spec h0 (k None) R → (∀ p, spec (ROwn t p [] :: h0) (k (Some p)) R) →
  spec h (c ≫= k) R.
Proof. intros Hc Hn Hk. eapply spec_bind; [done|]. intros [p|] h' Hh; unfold produced in Hh; rewrite Hh; auto. Qed.

Ltac own :=
  repeat first
    [ progress step
    | lazymatch goal with
      | |- spec _ (drop_native RDKafkaMessage _ ≫= _) _ => apply spec_drop_message
      | |- spec _ (drop_native _ _ ≫= _) _ => apply spec_drop_bind; [by eauto with native|]
      | |- spec _ (arc_drop _ _ ≫= _) _ => apply spec_arc_drop_bind; [by eauto with native|]
      | |- spec _ (create _ ≫= _) _ => apply spec_create_bind; [by eauto with native|]; intros ?
      | |- spec _ (give _ ≫= _) _ => apply spec_give_bind; [by eauto with native| |]; [|intros ??]
      | |- spec _ (keep_if _ _ _) _ => apply spec_keep_if; by eauto with native
      | |- context [from_ptr 0] => rewrite from_ptr_null
      | |- context [from_ptr ?p] => rewrite (from_ptr_some p) by done
      end ].

Lemma spec_new_context_arc conf h :
  spec (ROwn RDKafkaConf conf [] :: h) (new_context_arc conf) (produced RDKafka h).
Proof.
  unfold new_context_arc. step; [by own|].
  eapply spec_bind; [apply spec_rd_kafka_new|]. intros c h' [[-> ->]|[Hc ->]].
  { rewrite decide_True by done. eapply spec_bind; [apply spec_abandon|]. intros _ h' ->. by own. }
  rewrite decide_False by done. keep. intros _.
  eapply spec_bind with (Q := λ main h', h' = (if decide (main = 0) then [] else [ROwn RDKafkaQueue main []])
    ++ ROwn RDKafka c [] :: h).
  { eapply spec_mono; [by apply spec_give|]. intros main h' [[-> ->]|[Hm ->]]; by rewrite ?decide_False by done. }
  intros main h' ->. keep. intros _. apply spec_keep; [apply spec_live_or_null; case_decide; [by right|left; apply alive_here; by left]|].
  intros _. apply spec_keep; [apply spec_ask|]. intros ret.
  eapply spec_bind with (Q := λ _ h', h' = ROwn RDKafka c [] :: h).
  { unfold abandon_if. case_decide; [by step|apply spec_abandon]. }
  intros _ h' ->. own; [done|]. eapply spec_bind; [apply spec_abandon|]. intros _ h' ->. by own.
Qed.

Lemma spec_from_topic_map n h : spec h (from_topic_map n) (produced RDKafkaTopicPartitionList h).
Proof. unfold from_topic_map, with_capacity. own. Qed.

Lemma spec_subscribe c n h : alive RDKafka c h → keeps h (subscribe c n).
Proof. intros Hc. unfold subscribe, with_capacity. by own. Qed.

Lemma spec_assignment c h : alive RDKafka c h → spec h (assignment c) (produced RDKafkaTopicPartitionList h).
Proof. intros Hc. unfold assignment. by own. Qed.

Lemma spec_committed_offsets c tpl h : alive RDKafka c h →
  spec (ROwn RDKafkaTopicPartitionList tpl [] :: h) (committed_offsets c tpl) (produced RDKafkaTopicPartitionList h).
Proof. intros Hc. unfold committed_offsets. by own. Qed.

Lemma spec_committed c h : alive RDKafka c h → spec h (committed c) (produced RDKafkaTopicPartitionList h).
Proof.
  intros Hc. unfold committed. eapply spec_produced_bind; [by apply spec_assignment|by own|].
  intros p. by apply spec_committed_offsets.
Qed.

Lemma spec_offsets_for_timestamp c h : alive RDKafka c h →
  spec h (offsets_for_timestamp c) (produced RDKafkaTopicPartitionList h).
Proof.
  intros Hc. unfold offsets_for_timestamp. eapply spec_produced_bind; [by apply spec_assignment|by own|].
  intros p. own; [by apply spec_committed_offsets|done].
Qed.

(** An error object is an [Arc] at once. *)
Lemma spec_error_bind {B} h (k : option N → mem B) R :
  spec h (k None) R → (∀ e, spec (RArc rd_kafka_error_t e [] :: h) (k (Some e)) R) →
  spec h (p ← give rd_kafka_error_t; error_from_ptr p ≫= k) R.
Proof.
  intros Hn Hk. apply spec_give_bind; [done| |]; [by own|]. intros p Hp. unfold error_from_ptr.
  rewrite from_ptr_some by done. eapply spec_bind; [eapply spec_bind; [apply spec_arc_new|]|].
  - intros _ h' ->. by apply (spec_ret (Some p) _ (λ o h', o = Some p ∧ h' = RArc rd_kafka_error_t p [] :: h)).
  - intros o h' [-> ->]. apply Hk.
Qed.

Lemma spec_with_error c t p h : alive RDKafka c h → alive t p h → keeps h (with_error c t p).
Proof.
  intros Hc Hp. unfold with_error. step. apply spec_error_bind; [by own|]. intros e.
  apply spec_keep; [apply spec_live, alive_here; by left|]. intros _. by own.
Qed.

Lemma spec_seek_partitions c tpl h : alive RDKafka c h →
  spec (ROwn RDKafkaTopicPartitionList tpl [] :: h) (seek_partitions c tpl) (produced RDKafkaTopicPartitionList h).
Proof.
  intros Hc. unfold seek_partitions. apply spec_keep; [apply spec_with_error; by eauto with native|]. intros ok. by own.
Qed.

Lemma spec_obtain t c h : alive RDKafka c h → t ≠ RDKafkaMessage → spec h (obtain t c) (produced t h).
Proof. intros Hc Ht. unfold obtain. by own. Qed.

Lemma spec_native_topic c h : alive RDKafka c h → spec h (native_topic c) (produced RDKafkaTopic h).
Proof. intros Hc. unfold native_topic. by own. Qed.

Lemma spec_fetch_metadata c h : alive RDKafka c h → spec h (fetch_metadata c false) (produced RDKafkaMetadata h).
Proof.
  intros Hc. unfold fetch_metadata, topic_ptr. step. unfold rd_kafka_metadata.
  apply spec_keep; [apply spec_live_or_null; by right|]. intros _. by own.
Qed.

Lemma spec_fetch_group_list c h : alive RDKafka c h → spec h (fetch_group_list c) (produced RDKafkaGroupList h).
Proof. intros Hc. unfold fetch_group_list. by own. Qed.

Lemma spec_seek c h : alive RDKafka c h → keeps h (seek c).
Proof.
  intros Hc. unfold seek. eapply spec_produced_bind; [by apply spec_native_topic|by own|]. intros p. by own.
Qed.

(** Copies, of a list or of headers, and new queues. *)
Lemma spec_copy t t' p h : alive t p h → t' ≠ RDKafkaMessage →
  spec h (_ ← live t p; create t') (λ c h', h' = ROwn t' c [] :: h).
Proof. intros Hp Ht. keep. intros _. by apply spec_create. Qed.

(** The headers of a message are read out of its event: the resources of the
    message are the same afterwards. *)
Lemma spec_detach msg h : alive RDKafkaMessage msg h → spec h (detach msg) (produced RDKafkaHeaders h).
Proof.
  intros (r & Hr & Hm). apply list_elem_of_split in Hr as (h1 & h2 & ->).
  assert (h1 ++ r :: h2 ≡ₚ r :: h1 ++ h2) as Hp by by rewrite Permutation_middle.
  unfold detach. apply spec_keep; [apply spec_live; exists r; split; [set_solver|done]|]. intros _.
  apply (spec_perm _ _ _ _ Hp). unfold message_headers. eapply spec_bind with (Q := λ o h', match o with
    | Some x => h' = with_parts ((RDKafkaHeaders, x) :: parts r) r :: h1 ++ h2 | None => h' = r :: h1 ++ h2 end).
  - eapply spec_bind; [by apply spec_lend|]. intros x h' [[-> ->]|[Hx ->]]; by own.
  - intros [x|] h' ->; [|apply spec_ret; unfold produced; by rewrite Hp]. unfold headers_detach.
    eapply spec_bind; [apply spec_copy; [apply alive_here; right; destruct r; left|done]|]. intros c h' ->. eapply spec_perm; [apply Permutation_swap|]. apply spec_forget with (l := parts r).
    { destruct r; simpl; set_solver. }
    apply spec_ret. unfold produced. rewrite Hp. destruct r; apply Permutation_swap.
Qed.

Lemma spec_send_some c x h : alive RDKafka c h →
  spec (ROwn RDKafkaHeaders x [] :: h) (send c (Some x)) (produced RDKafkaHeaders h).
Proof.
  intros Hc. unfold send, rd_kafka_producev. eapply spec_bind with (Q := λ ok h',
    h' = if (ok : bool) then h else ROwn RDKafkaHeaders x [] :: h).
  - keep. intros _. keep. intros []; [|by own]. eapply spec_bind; [apply spec_consume|]. intros _ h' ->. by own.
  - intros [] h' ->; by own.
Qed.

Lemma spec_send_none c h : alive RDKafka c h → keeps h (send c None).
Proof.
  intros Hc. unfold send, rd_kafka_producev. eapply spec_bind with (Q := λ _ h', h' = h); [by own|].
  intros ok h' ->. by own.
Qed.

(** The value that a fetch event becomes. *)
Definition fetched (h : list Res) (o : option Val) (h' : list Res) : Prop :=
  match o with
  | Some (Message ev q) => h' = RArc RDKafkaEvent ev [(RDKafkaMessage, q)] :: h
  | Some _ => False
  | None => h' = h
  end.

Lemma spec_handle_fetch_event ev h : spec (ROwn RDKafkaEvent ev [] :: h) (handle_fetch_event ev) (fetched h).
Proof.
  unfold handle_fetch_event. eapply spec_bind; [apply spec_lend; by left|]. intros q h' [[-> ->]|[Hq ->]]; [by own|].
  rewrite from_ptr_some by done. simpl. eapply spec_bind; [apply spec_arc_new|]. intros _ h' ->. unfold from_client.
  assert (alive RDKafkaMessage q (RArc RDKafkaEvent ev [(RDKafkaMessage, q)] :: h)) as Ha by (apply alive_here; right; left).
  step; [done|]. by own.
Qed.

Lemma spec_given t h : t ≠ RDKafkaMessage → spec h (given t) (λ p h', h' = ROwn t p [] :: h).
Proof.
  intros Ht. eapply spec_bind; [by apply spec_give|]. intros p h' [[-> ->]|[Hp ->]]; [by intros m Hm|].
  rewrite decide_False by done. by apply spec_ret.
Qed.

Lemma spec_handle_error_event ev h : spec (ROwn RDKafkaEvent ev [] :: h) (handle_error_event ev) (λ _ h', h' = h).
Proof.
  unfold handle_error_event. step; [by apply spec_drop|]. apply spec_keep; [|intros _; by apply spec_drop].
  step; [|by eauto with native]. eapply spec_bind; [by apply spec_given|]. intros tp h' ->. step.
  apply spec_consume.
Qed.

(** ** The triples of programs *)

(** The resources of a value, and the types that values have. *)
Definition res (v : Val) : Res :=
  match v with
  | Own t p => ROwn t p []
  | Message event ptr => RArc RDKafkaEvent event [(RDKafkaMessage, ptr)]
  | Error p => RArc rd_kafka_error_t p []
  end.

Definition wf (v : Val) : Prop := match v with Own t _ => is_Some (drop_of t) | _ => True end.

(** After a call: the values, and what was there besides. *)
Definition good (G : list Res) (vs : list Val) (h : list Res) : Prop := Forall wf vs ∧ h ≡ₚ (res <$> vs) ++ G.

Lemma good_nil G vs h : Forall wf vs → h ≡ₚ (res <$> vs) ++ G → good G vs h.
Proof. by split. Qed.

Lemma owned_lookup t vs i p : owned t vs i = Some p → vs !! i = Some (Own t p).
Proof. unfold owned. destruct (vs !! i) as [[t' q| |]|]; try done. case_decide; naive_solver. Qed.

Lemma res_lookup vs i v G : vs !! i = Some v → (res <$> vs) ++ G ≡ₚ res v :: (res <$> delete i vs) ++ G.
Proof. intros Hv%delete_Permutation. by rewrite Hv at 1. Qed.

Lemma alive_owned t vs i p G : owned t vs i = Some p → alive t p ((res <$> vs) ++ G).
Proof.
  intros Hp%owned_lookup. apply (alive_own t p []), elem_of_app. left.
  apply (list_elem_of_fmap_2 res vs (Own t p)). by eapply list_elem_of_lookup_2.
Qed.

Lemma wf_delete vs i : Forall wf vs → Forall wf (delete i vs).
Proof. apply Forall_delete. Qed.

#[export] Hint Resolve alive_owned wf_delete : native.

(** A result joins the values. *)
Lemma spec_result_of t h vs G c : spec h c (produced t ((res <$> vs) ++ G)) → is_Some (drop_of t) → Forall wf vs →
  spec h (result_of t vs c) (good G).
Proof.
  intros Hc Ht Hv. unfold result_of. eapply spec_bind; [done|]. intros o h' Hh. apply spec_ret.
  destruct o as [p|]; apply good_nil; auto.
Qed.

Lemma spec_some_of t h h0 c : spec h c (λ p h', h' = ROwn t p [] :: h0) → spec h (some_of c) (produced t h0).
Proof. intros Hc. eapply spec_bind; [done|]. intros p h' ->. by apply spec_ret. Qed.

Lemma spec_discard {A} h vs G (c : mem A) : spec h c (λ _ h', h' = (res <$> vs) ++ G) → Forall wf vs →
  spec h (discard vs c) (good G).
Proof. intros Hc Hv. eapply spec_bind; [done|]. intros a h' ->. apply spec_ret. by apply good_nil. Qed.

(** A call that borrows its argument, and one that moves it. *)
Lemma spec_borrowing t i vs G f : Forall wf vs →
  (∀ p, alive t p ((res <$> vs) ++ G) → spec ((res <$> vs) ++ G) (f p) (good G)) →
  spec ((res <$> vs) ++ G) (borrowing t i vs f) (good G).
Proof.
  intros Hv Hf. unfold borrowing. destruct (owned t vs i) as [p|] eqn:Hp; [by eauto with native|].
  apply spec_ret. by apply good_nil.
Qed.

Lemma spec_moving t i vs G f : Forall wf vs →
  (∀ p, owned t vs i = Some p → spec (ROwn t p [] :: (res <$> delete i vs) ++ G) (f p) (good G)) →
  spec ((res <$> vs) ++ G) (borrowing t i vs f) (good G).
Proof.
  intros Hv Hf. unfold borrowing. destruct (owned t vs i) as [p|] eqn:Hp; [|apply spec_ret; by apply good_nil].
  eapply spec_perm; [apply (res_lookup vs i (Own t p)); by apply owned_lookup|]. by apply Hf.
Qed.

(** ** Polling, with callbacks *)

(** A callback is safe whatever the values and what else there is, if the pointer
    it is given can be followed. *)
Definition cb_ok (t : Native) (cb : N → list Val → mem (list Val)) : Prop :=
  ∀ x vs G, alive t x G → Forall wf vs → spec ((res <$> vs) ++ G) (cb x vs) (good G).

(** A local is dropped after a callback. *)
Lemma spec_drop_after t p h G (c : mem (list Val)) : is_Some (drop_of t) →
  spec h c (λ vs h', ∃ l, good (ROwn t p l :: G) vs h') → spec h (vs ← c; _ ← drop_native t p; mret vs) (good G).
Proof.
  intros Ht Hc. eapply spec_bind; [done|]. intros vs h' [l [Hv Hh]].
  eapply spec_perm; [rewrite Hh; by rewrite <- Permutation_middle|]. own. by split.
Qed.

Lemma spec_poll_event q h : alive RDKafkaQueue q h →
  spec h (poll_event q) (λ o h', h' = match o with Some (ev, _) => ROwn RDKafkaEvent ev [] :: h | None => h end).
Proof.
  intros Hq. unfold poll_event, event_type. own; [done|].
  eapply spec_bind with (Q := λ _ h', h' = ROwn RDKafkaEvent p [] :: h); [by own|]. intros ty h' ->. destruct ty; by own.
Qed.

Lemma middle (h : list Res) r G : h ++ r :: G ≡ₚ r :: h ++ G.
Proof. by rewrite Permutation_middle. Qed.

Section callback_triples.
Context (cb : N → list Val → mem (list Val)).

(** The callback runs while a local holds the object it may look at. *)
Lemma spec_callback t x r vs G : cb_ok t cb → Forall wf vs → alive t x [r] →
  spec (r :: (res <$> vs) ++ G) (cb x vs) (good (r :: G)).
Proof.
  intros Hcb Hv Ha. eapply spec_perm; [symmetry; apply middle|]. apply Hcb; [|done].
  eapply alive_mono; [|done]. set_solver.
Qed.

Lemma alive_part t x r : (t, x) ∈ parts r → alive t x [r].
Proof. intros Hx. apply alive_here. by right. Qed.

Lemma spec_handle_rebalance_event ev vs G : cb_ok RDKafkaTopicPartitionList cb → Forall wf vs →
  spec (ROwn RDKafkaEvent ev [] :: (res <$> vs) ++ G) (handle_rebalance_event cb ev vs) (good G).
Proof.
  intros Hcb Hv. unfold handle_rebalance_event. keep. intros valid. apply spec_drop_after; [by eauto with native|].
  destruct valid.
  - eapply spec_bind; [apply spec_lend; by left|]. intros x h' [[-> ->]|[Hx ->]]; [by own|].
    rewrite from_ptr_some by done. apply spec_ret_bind.
    eapply spec_mono; [apply (spec_callback RDKafkaTopicPartitionList); [done|done|apply alive_part; left]|]. eauto.
  - step. exists []. apply good_nil; [done|]. by rewrite middle.
Qed.

Lemma spec_handle_offset_commit_event ev vs G : cb_ok RDKafkaTopicPartitionList cb → Forall wf vs →
  spec (ROwn RDKafkaEvent ev [] :: (res <$> vs) ++ G) (handle_offset_commit_event cb ev vs) (good G).
Proof.
  intros Hcb Hv. unfold handle_offset_commit_event. keep. intros _.
  eapply spec_bind; [apply spec_lend; by left|]. intros x h' Hx. apply spec_drop_after; [by eauto with native|].
  destruct Hx as [[-> ->]|[Hx ->]].
  - rewrite decide_True by done. apply spec_create_bind; [done|]. intros tpl.
    eapply spec_mono; [apply spec_drop_after with (G := ROwn RDKafkaEvent ev [] :: G); [by eauto with native|]|eauto].
    eapply spec_perm; [rewrite <- middle; reflexivity|].
    eapply spec_mono; [apply (spec_callback RDKafkaTopicPartitionList); [done|done|apply alive_here; by left]|]. eauto.
  - rewrite decide_False by done. eapply spec_mono; [apply (spec_callback RDKafkaTopicPartitionList); [done|done|apply alive_part; left]|]. eauto.
Qed.

Lemma spec_message_array ev n l h : spec (ROwn RDKafkaEvent ev l :: h) (message_array ev n)
  (λ ms h', ∃ l', h' = ROwn RDKafkaEvent ev l' :: h ∧ l ⊆ l' ∧ ∀ x, x ∈ ms → x ≠ 0 → (RDKafkaMessage, x) ∈ l').
Proof.
  revert l. induction n as [|n IH]; intros l; simpl; [step; exists l; set_solver|].
  eapply spec_bind; [apply spec_lend; by left|]. intros x h' Hx.
  assert (∃ l', h' = ROwn RDKafkaEvent ev l' :: h ∧ l ⊆ l' ∧ (x ≠ 0 → (RDKafkaMessage, x) ∈ l')) as (l' & -> & Hl & Hx').
  { destruct Hx as [[-> ->]|[Hx ->]]; eexists; (split; [done|]); set_solver. }
  eapply spec_bind; [apply IH|]. intros ms h' (l'' & -> & Hl' & Hms). step. exists l''. set_solver.
Qed.

Lemma spec_deliver ev l ms vs G : cb_ok RDKafkaMessage cb → Forall wf vs →
  (∀ x, x ∈ ms → x ≠ 0 → (RDKafkaMessage, x) ∈ l) →
  spec ((res <$> vs) ++ RArc RDKafkaEvent ev l :: G) (deliver cb ev ms vs) (good (RArc RDKafkaEvent ev l :: G)).
Proof.
  intros Hcb. revert vs G. induction ms as [|x ms IH]; intros vs G Hv Hms; simpl; [step; by apply good_nil|].
  eapply spec_perm; [apply middle|]. eapply spec_bind; [apply spec_arc_clone|]. intros _ h' ->.
  destruct (decide (x = 0)) as [->|Hx]; [rewrite from_ptr_null; by own|]. rewrite from_ptr_some by done. apply spec_ret_bind.
  assert ((RDKafkaMessage, x) ∈ l) as Hxl by (apply Hms; [left|done]).
  apply spec_keep; [apply spec_live, alive_here; by right|]. intros _.
  eapply spec_perm; [rewrite <- middle; reflexivity|].
  eapply spec_bind; [apply (spec_callback RDKafkaMessage); [done|done|by apply alive_part]|].
  intros vs' h' [Hv' Hh]. eapply spec_perm; [rewrite Hh; by rewrite middle|].
  eapply spec_bind; [apply spec_arc_drop; by eauto with native|]. intros _ h'' ->. apply IH; [done|set_solver].
Qed.

Lemma spec_handle_delivery_report_event ev vs G : cb_ok RDKafkaMessage cb → Forall wf vs →
  spec (ROwn RDKafkaEvent ev [] :: (res <$> vs) ++ G) (handle_delivery_report_event cb ev vs) (good G).
Proof.
  intros Hcb Hv. unfold handle_delivery_report_event. step.
  eapply spec_bind; [apply spec_message_array|]. intros ms h' (l & -> & _ & Hms).
  eapply spec_bind; [apply spec_arc_new|]. intros _ h' ->. eapply spec_perm; [symmetry; apply middle|].
  eapply spec_bind; [by apply spec_deliver|]. intros vs' h' [Hv' Hh].
  eapply spec_perm; [rewrite Hh; by rewrite middle|]. own. by split.
Qed.

Lemma spec_producer_turn q vs G : cb_ok RDKafkaMessage cb → Forall wf vs → alive RDKafkaQueue q ((res <$> vs) ++ G) →
  spec ((res <$> vs) ++ G) (producer_turn cb q vs) (good G).
Proof.
  intros Hcb Hv Hq. unfold producer_turn. eapply spec_bind; [by apply spec_poll_event|]. intros [[ev ty]|] h' ->;
    [|step; by apply good_nil]. keep. intros _.
  destruct ty; try (own; by apply good_nil). by apply spec_handle_delivery_report_event.
Qed.

End callback_triples.

Lemma spec_poll_turn cb cb' q vs G : cb_ok RDKafkaTopicPartitionList cb → cb_ok RDKafkaTopicPartitionList cb' →
  Forall wf vs → alive RDKafkaQueue q ((res <$> vs) ++ G) →
  spec ((res <$> vs) ++ G) (poll_turn cb cb' q vs) (good G).
Proof.
  intros Hcb Hcb' Hv Hq. unfold poll_turn. eapply spec_bind; [by apply spec_poll_event|]. intros [[ev ty]|] h' ->;
    [|step; by apply good_nil]. keep. intros _. destruct ty.
  - own. by apply good_nil.
  - eapply spec_bind; [apply spec_handle_fetch_event|]. intros [[| |]|] h' Hf; try done; simpl in Hf; subst h'; step;
      apply good_nil; auto. by constructor.
  - own. by apply good_nil.
  - eapply spec_bind; [apply spec_handle_error_event|]. intros _ h' ->. step. by apply good_nil.
  - by apply spec_handle_rebalance_event.
  - by apply spec_handle_offset_commit_event.
  - own. by apply good_nil.
Qed.

(** ** Requests *)

Definition owns (t : Native) (l : list N) : list Res := (λ p, ROwn t p []) <$> l.

Lemma spec_drop_all t l h : is_Some (drop_of t) → spec (owns t l ++ h) (drop_all t l) (λ _ h', h' = h).
Proof. intros Ht. induction l as [|p l IH]; simpl; [by step|]. by apply spec_drop_bind. Qed.

Lemma spec_live_all t l h : owns t l ⊆ h → keeps h (live_all t l).
Proof.
  induction l as [|p l IH]; intros Hl; simpl; [by step|]. apply spec_keep; [|intros _; apply IH; set_solver].
  apply spec_live, (alive_own t p []), Hl. left.
Qed.

Lemma spec_new_to_native t n h : t ≠ RDKafkaMessage → is_Some (drop_of t) → spec h (new_to_native t n) (produced t h).
Proof. intros Ht Hd. unfold new_to_native. by own. Qed.

Lemma spec_config_to_native t n h : t ≠ RDKafkaMessage → is_Some (drop_of t) → spec h (config_to_native t n) (produced t h).
Proof. intros Ht Hd. unfold config_to_native. by own. Qed.

Lemma spec_to_natives t to_native specs acc h : is_Some (drop_of t) → (∀ n h, spec h (to_native n) (produced t h)) →
  spec (owns t acc ++ h) (to_natives t to_native specs acc)
    (λ o h', match o with Some l => h' ≡ₚ owns t l ++ h | None => h' = h end).
Proof.
  intros Ht Hn. revert acc. induction specs as [|n specs IH]; intros acc; simpl; [by step|]. keep. intros nul.
  eapply spec_produced_bind with (t := t) (h0 := owns t acc ++ h).
  - case_decide; [apply Hn|by step].
  - eapply spec_bind; [by apply spec_drop_all|]. intros _ h' ->. by step.
  - intros p. eapply spec_perm; [|apply IH]. unfold owns. rewrite fmap_app. simpl. solve_Permutation.
Qed.

Lemma spec_options_to_native c n h : alive RDKafka c h → spec h (options_to_native c n) (produced RDKafkaAdminOptions h).
Proof. intros Hc. unfold options_to_native. by own. Qed.

Lemma spec_request_inner t to_native specs c q opts h : is_Some (drop_of t) →
  (∀ n h, spec h (to_native n) (produced t h)) → alive RDKafka c h → alive RDKafkaQueue q h →
  keeps h (request_inner t to_native specs c q opts).
Proof.
  intros Ht Hn Hc Hq. unfold request_inner.
  eapply spec_bind; [apply (spec_to_natives t to_native specs [] h Ht Hn)|]. intros [l|] h' Hh; [|subst h'; by step].
  eapply spec_perm; [done|]. eapply spec_produced_bind; [apply spec_options_to_native; by eauto with native| |].
  - eapply spec_bind; [by apply spec_drop_all|]. intros _ h'' ->. by step.
  - intros o. step. apply spec_keep; [apply spec_live_all; set_solver|]. intros _. own.
    eapply spec_bind; [by apply spec_drop_all|]. intros _ h'' ->. by step.
Qed.

Lemma spec_delete_records_inner c q tpl opts h : alive RDKafka c h → alive RDKafkaQueue q h →
  alive RDKafkaTopicPartitionList tpl h → keeps h (delete_records_inner c q tpl opts).
Proof.
  intros Hc Hq Ht. unfold delete_records_inner. own; [done|].
  eapply spec_produced_bind; [apply spec_options_to_native; by eauto with native|by own|]. intros o. by own.
Qed.

Lemma spec_admin_turn q h : alive RDKafkaQueue q h → spec h (admin_turn q) (produced RDKafkaEvent h).
Proof. intros Hq. unfold admin_turn. by own. Qed.

Lemma spec_future_poll ev h : spec (ROwn RDKafkaEvent ev [] :: h) (future_poll ev) (λ _ h', h' = h).
Proof.
  unfold future_poll. keep. intros [] ; [|by own]. simpl. eapply spec_bind; [apply spec_lend; by left|].
  intros x h' [[-> ->]|[Hx ->]]; [rewrite decide_True by done|rewrite decide_False by done]; [by own|].
  apply spec_keep; [apply spec_live, alive_here; right; left|]. intros _. by own.
Qed.

Lemma spec_delete_records_poll ev h :
  spec (ROwn RDKafkaEvent ev [] :: h) (delete_records_poll ev) (produced RDKafkaTopicPartitionList h).
Proof.
  unfold delete_records_poll. keep. intros []; [|by own]. simpl. eapply spec_bind; [apply spec_lend; by left|].
  intros x h' [[-> ->]|[Hx ->]]; [rewrite decide_True by done|rewrite decide_False by done]; [by own|].
  eapply spec_bind; [apply spec_lend; right; left|]. intros y h' [[-> ->]|[Hy ->]]; [by intros m Hm|].
  rewrite decide_False by done. eapply spec_bind; [apply spec_copy; [apply alive_here; right; left|done]|].
  intros tpl h' ->. eapply spec_perm; [apply Permutation_swap|]. by own.
Qed.

(** ** Programs *)

(** The calls in the callbacks of a call, and induction through them. *)
Definition callbacks (o : Op) : list Op :=
  match o with OPoll _ _ cb cb' => cb ++ cb' | OProducerPoll _ _ cb => cb | _ => [] end.

Lemma Op_callbacks_ind (P : Op → Prop) : (∀ o, Forall P (callbacks o) → P o) → ∀ o, P o.
Proof.
  intros HP. fix rec 1. intros o. apply HP. destruct o; simpl; try constructor.
  - apply Forall_app_2; [induction rebalance as [|o l IH]|induction commit_callback as [|o l IH]];
      constructor; try (apply rec); exact IH.
  - induction callback as [|o l IH]; constructor; [apply rec|exact IH].
Qed.

(** Does the program create a client? *)
Fixpoint creates (o : Op) : bool :=
  match o with
  | OClient _ => true
  | OPoll _ _ cb cb' => existsb creates cb || existsb creates cb'
  | OProducerPoll _ _ cb => existsb creates cb
  | _ => false
  end.

(** The two calls that break rules: the metadata of a topic, and a rebalance callback
    that moves its list. *)
Fixpoint sound (o : Op) : bool :=
  match o with
  | OMetadata _ topic => negb topic
  | OPoll _ u cb cb' => match u with InPlace => true | _ => false end && forallb sound cb && forallb sound cb'
  | OProducerPoll _ _ cb => forallb sound cb
  | _ => true
  end.

(** Calls in sequence are safe if each of them is. *)
Lemma spec_in_turn os vs G :
  Forall (λ o, sound o = true → ∀ vs G, Forall wf vs → spec ((res <$> vs) ++ G) (exec o vs) (good G)) os →
  forallb sound os = true → Forall wf vs → spec ((res <$> vs) ++ G) (in_turn exec os vs) (good G).
Proof.
  intros Hos. revert vs G. induction Hos as [|o os Ho _ IH]; intros vs G Hs Hv; simpl; [step; by apply good_nil|].
  apply andb_true_iff in Hs as [Hs Hs']. eapply spec_bind; [by apply Ho|]. intros vs' h' [Hv' Hh].
  eapply spec_perm; [done|]. by apply IH.
Qed.

(** The callbacks of a consumer and of a producer are such calls. *)
Lemma cb_ok_committed cb : (∀ vs G, Forall wf vs → spec ((res <$> vs) ++ G) (in_turn exec cb vs) (good G)) →
  cb_ok RDKafkaTopicPartitionList (committed_with (in_turn exec cb)).
Proof.
  intros Hcb x vs G Ha Hv. unfold committed_with. keep. intros _. eapply spec_bind; [by apply Hcb|].
  intros vs' h' [Hv' Hh]. eapply spec_perm; [done|]. keep. intros _. step. by split.
Qed.

Lemma cb_ok_rebalance cb : (∀ vs G, Forall wf vs → spec ((res <$> vs) ++ G) (in_turn exec cb vs) (good G)) →
  cb_ok RDKafkaTopicPartitionList (rebalance_with InPlace (in_turn exec cb)).
Proof. exact (cb_ok_committed cb). Qed.

Lemma cb_ok_producer (detaches : bool) cb :
  (∀ vs G, Forall wf vs → spec ((res <$> vs) ++ G) (in_turn exec cb vs) (good G)) →
  cb_ok RDKafkaMessage
    (λ msg vs, _ ← live RDKafkaMessage msg;
               vs' ← (if detaches then result_of RDKafkaHeaders vs (detach msg) else mret vs);
               vs'' ← in_turn exec cb vs'; _ ← live RDKafkaMessage msg; mret vs'').
Proof.
  intros Hcb x vs G Ha Hv. keep. intros _. eapply spec_bind with (Q := good G).
  - destruct detaches; [|step; by apply good_nil].
    apply spec_result_of; [apply spec_detach; by eauto with native|by eauto with native|done].
  - intros vs' h' [Hv' Hh]. eapply spec_perm; [done|]. eapply spec_bind; [by apply Hcb|].
    intros vs'' h'' [Hv'' Hh']. eapply spec_perm; [done|]. keep. intros _. step. by split.
Qed.

Lemma alive_perm t p h h' : h ≡ₚ h' → alive t p h → alive t p h'.
Proof. intros Hh. apply alive_mono. intros x. by rewrite Hh. Qed.

(** Moving a value of another type leaves the object alone. *)
Lemma alive_tail t t' p p' h : t ≠ t' → alive t p (ROwn t' p' [] :: h) → alive t p h.
Proof. intros Ht (r & [->|Hr]%elem_of_cons & Hp); [|by exists r]. simpl in Hp. set_solver. Qed.

Lemma alive_moved t t' vs i p p' G : t ≠ t' → owned t' vs i = Some p' → alive t p ((res <$> vs) ++ G) →
  alive t p ((res <$> delete i vs) ++ G).
Proof.
  intros Ht Hp Ha. apply (alive_tail t t' p p' _ Ht). eapply alive_perm; [|done].
  apply (res_lookup vs i (Own t' p')). by apply owned_lookup.
Qed.

Lemma spec_drop_value v h : wf v → spec (res v :: h) (drop_value v) (λ _ h', h' = h).
Proof.
  destruct v as [t p|ev q|e]; simpl; intros Hv; [by apply spec_drop| |by apply spec_arc_drop].
  apply spec_drop_message. by apply spec_arc_drop.
Qed.

Lemma spec_read_value v h : res v ∈ h → keeps h (read_value v).
Proof.
  intros Hv. destruct v as [t p|ev q|e]; simpl; apply spec_live; eexists; (split; [exact Hv|]); [by left|right; left|by left].
Qed.

Lemma wf_lookup vs i v : Forall wf vs → vs !! i = Some v → wf v.
Proof. intros Hv Hi. rewrite Forall_lookup in Hv. eauto. Qed.

Ltac produce := apply spec_result_of; [|by eauto with native|by eauto with native].
Ltac borrow := apply spec_borrowing; [done|]; intros ? ?.
Ltac move_in := apply spec_moving; [done|]; intros ? ?.
Ltac moved := eapply alive_moved; [|done..]; done.

(** The calls with a case of their own. *)
Lemma exec_drop i vs G : Forall wf vs → spec ((res <$> vs) ++ G) (exec (ODrop i) vs) (good G).
Proof.
  intros Hv. simpl. destruct (vs !! i) as [v|] eqn:Hi; [|step; by apply good_nil].
  eapply spec_perm; [by apply res_lookup|]. eapply spec_bind; [apply spec_drop_value; by eapply wf_lookup|].
  intros _ h' ->. step. apply good_nil; by eauto with native.
Qed.

Lemma elem_res vs i v G : vs !! i = Some v → res v ∈ (res <$> vs) ++ G.
Proof. intros Hi. apply elem_of_app. left. apply list_elem_of_fmap_2. by eapply list_elem_of_lookup_2. Qed.

Lemma exec_read i vs G : Forall wf vs → spec ((res <$> vs) ++ G) (exec (ORead i) vs) (good G).
Proof.
  intros Hv. simpl. destruct (vs !! i) as [v|] eqn:Hi; [|step; by apply good_nil].
  apply spec_keep; [apply spec_read_value; by eapply elem_res|]. intros _. step. by apply good_nil.
Qed.

Lemma exec_transaction c vs G : Forall wf vs → spec ((res <$> vs) ++ G) (exec (OTransaction c) vs) (good G).
Proof.
  intros Hv. simpl. borrow. unfold transaction.
  eapply spec_bind with (Q := λ o h', h' = match o with Some e => RArc rd_kafka_error_t e [] :: (res <$> vs) ++ G
                                                      | None => (res <$> vs) ++ G end).
  - keep. intros _. eapply spec_bind; [by apply spec_give|]. unfold error_from_ptr.
    intros e h' [[-> ->]|[He ->]]; [by step|]. rewrite from_ptr_some by done. eapply spec_bind; [apply spec_arc_new|].
    intros _ h' ->. by step.
  - intros [e|] h' ->; step; apply good_nil; auto. by constructor.
Qed.

Lemma exec_error_clone i vs G : Forall wf vs → spec ((res <$> vs) ++ G) (exec (OErrorClone i) vs) (good G).
Proof.
  intros Hv. simpl. destruct (vs !! i) as [[| |e]|] eqn:Hi; try (step; by apply good_nil).
  eapply spec_perm; [by apply res_lookup|]. eapply spec_bind; [apply spec_arc_clone|]. intros _ h' ->. step.
  apply good_nil; [by constructor|]. simpl. by rewrite (res_lookup vs i (Error e)).
Qed.

Lemma exec_detach i vs G : Forall wf vs → spec ((res <$> vs) ++ G) (exec (ODetach i) vs) (good G).
Proof.
  intros Hv. simpl. destruct (vs !! i) as [[|ev q|]|] eqn:Hi; try (step; by apply good_nil).
  produce. apply spec_detach. eexists. split; [by eapply elem_res|]. right. left.
Qed.

Lemma exec_send c h vs G : Forall wf vs → spec ((res <$> vs) ++ G) (exec (OSend c h) vs) (good G).
Proof.
  intros Hv. destruct h as [i|]; simpl; borrow; [|by apply spec_discard; [apply spec_send_none|]].
  move_in. produce. apply spec_send_some. moved.
Qed.

Lemma exec_request t specs c q opts vs G : Forall wf vs →
  spec ((res <$> vs) ++ G) (exec (ORequest t specs c q opts) vs) (good G).
Proof.
  intros Hv. simpl. destruct (resource t) as [to_native|] eqn:Hr; [|step; by apply good_nil]. do 2 borrow.
  apply spec_discard; [|done]. apply spec_request_inner; [| |done|done].
  - destruct t; try done; by eexists.
  - intros n h. destruct t; simplify_eq/=; (apply spec_new_to_native || apply spec_config_to_native); done || by eexists.
Qed.

(** Every call is safe: by cases, with the triple of the function it calls. *)
Lemma exec_call_ok o : sound o = true → ∀ vs G, Forall wf vs → spec ((res <$> vs) ++ G) (exec o vs) (good G).
Proof.
  induction o as [o IH] using Op_callbacks_ind. intros Hs vs G Hv.
  destruct o; cbn [exec sound callbacks] in *.
  - produce. apply spec_create_native_config.
  - move_in. produce. apply spec_new_context_arc.
  - by apply exec_drop.
  - by apply exec_read.
  - produce. by apply spec_some_of, spec_create.
  - borrow. produce. by apply spec_some_of, spec_copy.
  - produce. apply spec_from_topic_map.
  - borrow. apply spec_discard; [by apply spec_subscribe|done].
  - borrow. produce. by apply spec_assignment.
  - borrow. produce. by apply spec_committed.
  - borrow. move_in. produce. apply spec_committed_offsets. moved.
  - borrow. produce. by apply spec_offsets_for_timestamp.
  - borrow. move_in. produce. apply spec_seek_partitions. moved.
  - borrow. apply spec_discard; [by apply spec_seek|done].
  - by apply exec_transaction.
  - by apply exec_error_clone.
  - do 2 borrow. apply spec_discard; [by apply spec_with_error|done].
  - do 2 borrow. apply spec_discard; [by apply spec_with_error|done].
  - destruct (obtainable t) eqn:Ht; [|step; by apply good_nil]. borrow.
    apply spec_result_of; [apply spec_obtain; [done|by destruct t]|destruct t; try done; by eexists|done].
  - borrow. produce. by apply spec_some_of, spec_copy.
  - destruct topic; [done|]. borrow. produce. by apply spec_fetch_metadata.
  - borrow. produce. by apply spec_fetch_group_list.
  - produce. by apply spec_some_of, spec_create.
  - move_in. produce. apply spec_some_of. unfold headers_insert. by own.
  - borrow. produce. by apply spec_some_of, spec_copy.
  - by apply exec_detach.
  - by apply exec_send.
  - apply andb_true_iff in Hs as [[Hu Hs]%andb_true_iff Hs']. apply Forall_app in IH as [IH IH']. destruct use; try done.
    borrow. apply spec_poll_turn; [apply cb_ok_rebalance|apply cb_ok_committed|done|done];
      intros vs' G' Hv'; by apply spec_in_turn.
  - borrow. apply spec_producer_turn; [|done|done]. apply cb_ok_producer. intros vs' G' Hv'. by apply spec_in_turn.
  - by apply exec_request.
  - do 3 borrow. apply spec_discard; [by apply spec_delete_records_inner|done].
  - borrow. produce. by apply spec_admin_turn.
  - move_in. apply spec_discard; [apply spec_future_poll|by eauto with native].
  - move_in. produce. apply spec_delete_records_poll.
Qed.

Lemma run_ok os l : forallb sound os = true → match run os l with
  | inl f => f ≠ Undefined
  | inr (vs, m) => ∃ h, good [] vs h ∧ inv m (h ++ forgotten m)
  end.
Proof.
  intros Hs. apply (spec_in_turn os [] []); [|done|done|apply inv_nil]. apply Forall_forall. intros o _. apply exec_call_ok.
Qed.

(** ** Programs without a client *)

Create HintDb quiet_defs.
#[local] Hint Unfold given try_call create keep_if create_native_config with_capacity tpl_clone from_topic_map
  subscribe assignment committed_offsets committed offsets_for_timestamp error_from_ptr transaction with_error
  seek_partitions obtain native_queue native_topic rd_kafka_metadata topic_ptr fetch_metadata fetch_group_list seek
  headers_new headers_insert headers_clone message_headers headers_detach detach rd_kafka_producev send drop_value
  read_value event_type poll_event from_client handle_fetch_event handle_rebalance_event handle_offset_commit_event
  handle_delivery_report_event handle_error_event poll_turn producer_turn new_to_native config_to_native
  options_to_native request_inner delete_records_inner admin_turn future_poll delete_records_poll borrowing result_of
  some_of discard rebalance_with committed_with use_list live_or_null
  give live lend consume destroy unwrap drop_native arc_new arc_clone arc_drop : quiet_defs.

(** A computation made of such ones. *)
Ltac quiet_step :=
  first
    [ apply quiet_ret | apply quiet_fault | apply quiet_read | apply quiet_ask | apply quiet_update; done
    | by eauto
    | apply quiet_bind; [|intros ?]
    | lazymatch goal with
      | |- quiet (if ?x then _ else _) => destruct x
      | |- quiet (match ?x with _ => _ end) => destruct x
      end
    | progress (autounfold with quiet_defs)
    | progress simpl ].
Ltac quiet := repeat quiet_step.

Lemma quiet_try_calls t p n : quiet (try_calls t p n).
Proof. induction n; quiet. Qed.
Lemma quiet_calls t p n : quiet (calls t p n).
Proof. induction n; quiet. Qed.
Lemma quiet_message_array e n : quiet (message_array e n).
Proof. induction n; quiet. Qed.
Lemma quiet_drop_all t l : quiet (drop_all t l).
Proof. induction l; quiet. Qed.
Lemma quiet_live_all t l : quiet (live_all t l).
Proof. induction l; quiet. Qed.
#[local] Hint Resolve quiet_try_calls quiet_calls quiet_message_array quiet_drop_all quiet_live_all : core.

Lemma quiet_to_natives t f specs acc : (∀ n, quiet (f n)) → quiet (to_natives t f specs acc).
Proof. intros Hf. revert acc. induction specs; intros acc; quiet. Qed.

Lemma quiet_deliver cb e ms vs : (∀ x vs, quiet (cb x vs)) → quiet (deliver cb e ms vs).
Proof. intros Hcb. revert vs. induction ms; intros vs; quiet. Qed.

Lemma quiet_in_turn os vs : Forall (λ o, creates o = false → ∀ vs, quiet (exec o vs)) os → existsb creates os = false →
  quiet (in_turn exec os vs).
Proof.
  intros Hos. revert vs. induction Hos as [|o os Ho _ IH]; intros vs Hc; simpl in *; [apply quiet_ret|].
  apply orb_false_iff in Hc as [Hc Hc']. apply quiet_bind; [by apply Ho|]. intros vs'. by apply IH.
Qed.

Lemma quiet_resource t f n : resource t = Some f → quiet (f n).
Proof. destruct t; intros [= <-]; quiet. Qed.

(** Only [Client::new] abandons. *)
Lemma quiet_exec o vs : creates o = false → quiet (exec o vs).
Proof.
  intros Hc. revert Hc vs. induction o as [o IH] using Op_callbacks_ind. intros Hc vs.
  destruct o; cbn [exec creates callbacks] in *; try done; try (by quiet).
  - apply orb_false_iff in Hc as [Hc Hc']. apply Forall_app in IH as [IH IH'].
    pose proof (λ vs, quiet_in_turn rebalance vs IH Hc). pose proof (λ vs, quiet_in_turn commit_callback vs IH' Hc'). quiet.
  - pose proof (λ vs, quiet_in_turn callback vs IH Hc). unfold borrowing, producer_turn, handle_delivery_report_event.
    quiet. apply quiet_deliver. intros ??. quiet.
  - destruct (resource t) as [f|] eqn:Hr; [|quiet]. pose proof (λ n, quiet_resource t f n Hr).
    unfold borrowing, discard, request_inner. quiet. by apply quiet_to_natives.
Qed.

Lemma run_quiet os l vs m : run os l = inr (vs, m) → existsb creates os = false → abandoned m = [].
Proof.
  intros Hr Hc. apply (quiet_in_turn os []) in Hr; [done| |done]. apply Forall_forall. intros o _ Ho vs'. by apply quiet_exec.
Qed.

(** ** Theorems *)

(** C3: Native memory safety. Whatever a program calls, in whatever order, its
    callbacks included, and whatever librdkafka answers, the crate never uses or
    destroys an object that is no longer alive, is of another type, or belongs to
    another object; and what the values of the program refer to is alive, of the
    type of the value, and no other value's to destroy. The program does not ask for
    the metadata of a topic, and its rebalance callbacks do not move the list out of
    the reference that they are given: these two calls are not safe
    ([fetch_metadata_dangling], [rebalance_list_moved]). *)
Theorem native_memory_safe os l : forallb sound os = true →
  match run os l with
  | inl f => f ≠ Undefined
  | inr (vs, m) =>
      Forall (λ v, ledger m !! root (res v) = Some (kind (res v), App)) vs
      ∧ Forall (λ v, match v with Message ev q => ledger m !! q = Some (RDKafkaMessage, Within ev) | _ => True end) vs
      ∧ NoDup (omap own_of (res <$> vs))
  end.
Proof.
  intros Hs. pose proof (run_ok os l Hs) as Hr. destruct (run os l) as [f|[vs m]]; [done|].
  destruct Hr as (h & [_ Hh] & Hi). rewrite Hh, app_nil_r in Hi.
  assert (∀ v, v ∈ vs → res v ∈ (res <$> vs) ++ forgotten m) as Hin
    by (intros v Hv; apply elem_of_app; left; by apply list_elem_of_fmap_2).
  split_and!; [apply Forall_forall; intros v Hv; by apply (inv_root _ _ Hi), Hin| |].
  - apply Forall_forall. intros [| ev q|] Hv; try done. apply (inv_part _ _ Hi (res (Message ev q))); [by apply Hin|left].
  - pose proof (inv_nodup _ _ Hi) as Hn. rewrite omap_app in Hn. by apply NoDup_app in Hn as [Hn _].
Qed.

(** C16: Nothing leaks but what [Client::new] abandons. Once a program (without the two
    calls that are not safe) has dropped its values, no [Arc] is left, and the objects
    that the crate had to destroy and has not are exactly those that were abandoned,
    which only [Client::new] does: the configuration when the client cannot be created,
    the reference to the main queue, and the client when its log queue cannot be set.
    In a program that creates no client nothing is left at all. *)
Theorem native_no_leak os l m : forallb sound os = true → run os l = inr ([], m) →
  arcs m = ∅
  ∧ (∀ p t, ledger m !! p = Some (t, App) ↔ (t, p) ∈ abandoned m)
  ∧ (existsb creates os = false → ledger m = ∅).
Proof.
  intros Hs Hr. pose proof (run_ok os l Hs) as Hok. rewrite Hr in Hok.
  destruct Hok as (h & [_ Hh] & Hi). rewrite Hh in Hi. simpl in Hi.
  destruct (inv_forgotten m Hi) as [Ha Hl]. split_and!; [done|done|].
  intros Hc. unfold forgotten in Hi. rewrite (run_quiet _ _ _ _ Hr Hc) in Hi. by apply inv_empty.
Qed.

(** Running a computation on a memory that is known. *)
Lemma bind_run {A B} (c : mem A) (k : A → mem B) m a m' : c m = inr (a, m') → (c ≫= k) m = k a m'.
Proof. unfold mbind, mem_bind. by intros ->. Qed.

Lemma ret_run {A B} (a : A) (k : A → mem B) m : (mret a ≫= k) m = k a m.
Proof. done. Qed.

Lemma assoc_run {A B C} (c : mem A) (k : A → mem B) (k' : B → mem C) m :
  ((c ≫= k) ≫= k') m = (c ≫= λ a, k a ≫= k') m.
Proof. unfold mbind, mem_bind. by destruct (c m) as [|[]]. Qed.

Lemma ask_run m a l : answers m = a :: l → ask m = inr (a, set_answers l m).
Proof. unfold ask. by intros ->. Qed.

Lemma live_run m t h p : ledger m !! p = Some (t, h) → live t p m = inr (tt, m).
Proof. unfold live, mbind, mem_bind, read_mem. intros ->. by rewrite decide_True. Qed.

Lemma live_dead {B} m t p (k : () → mem B) : ledger m !! p = None → (live t p ≫= k) m = inl Undefined.
Proof. unfold live, mbind, mem_bind, read_mem. by intros ->. Qed.

Lemma give_run m t p l : answers m = p :: l → p ≠ 0 → ledger m !! p = None →
  give t m = inr (p, set_ledger <[p := (t, App)]> (set_answers l m)).
Proof.
  intros Ha Hp Hl. unfold give. erewrite bind_run by by apply ask_run. rewrite decide_False by done.
  unfold mbind, mem_bind, read_mem. simpl. by rewrite Hl.
Qed.

Lemma give_null_run m t l : answers m = 0 :: l → give t m = inr (0, set_answers l m).
Proof. intros Ha. unfold give. by erewrite bind_run by by apply ask_run. Qed.

Lemma consume_run m t p : ledger m !! p = Some (t, App) → consume t p m = inr (tt, set_ledger (without p) m).
Proof. intros Hp. unfold consume, mbind, mem_bind, read_mem. by rewrite decide_True. Qed.

Lemma abandon_run m t p : abandon t p m = inr (tt, set_abandoned ((t, p) :: abandoned m) m).
Proof. done. Qed.

Lemma consume_undefined {A} m t p (k : () → mem A) : ledger m !! p ≠ Some (t, App) → (consume t p ≫= k) m = inl Undefined.
Proof. intros Hp. unfold consume, mbind, mem_bind, read_mem. by rewrite decide_False. Qed.

Ltac unwithout := repeat first [rewrite without_empty | rewrite without_insert_eq | rewrite without_insert_ne by done].
Ltac look := simpl; unwithout; by simplify_map_eq.
Ltac nrun :=
  repeat first
    [ progress simpl
    | rewrite assoc_run
    | rewrite ret_run
    | match goal with
      | |- context [(?c ≫= _) ?m] =>
          first [ erewrite (bind_run c) by (eapply ask_run; reflexivity || eassumption)
                | erewrite (bind_run c) by (eapply live_run; look)
                | erewrite (bind_run c) by (eapply give_run; [reflexivity|done|look])
                | erewrite (bind_run c) by (eapply give_null_run; reflexivity)
                | erewrite (bind_run c) by (eapply consume_run; look)
                | erewrite (bind_run c) by apply abandon_run ]
      end
    | rewrite decide_False by done
    | rewrite decide_True by done
    | rewrite from_ptr_some by done
    | progress unwithout ].

(** The values and the objects that are left when a program has run. *)
Definition left_behind (os : list Op) (l : list N) : option (list Val * gmap N (Native * holder)) :=
  match run os l with inl _ => None | inr (vs, m) => Some (vs, ledger m) end.

(** C38: [Client::new] does lose objects. Creating a client and dropping it leaves
    the reference to the main queue, on every success; when [rd_kafka_new] fails the
    configuration is left, and when the log queue cannot be set the client too. *)
Theorem client_new_leaks conf client queue err : conf ≠ 0 → client ≠ 0 → queue ≠ 0 → err ≠ 0 →
  client ≠ conf → queue ≠ client →
  left_behind [OConfig 0; OClient 0; ODrop 0] [conf; 0; client; queue; 0] = Some ([], {[ queue := (RDKafkaQueue, App) ]})
  ∧ left_behind [OConfig 0; OClient 0] [conf; 0; 0] = Some ([], {[ conf := (RDKafkaConf, App) ]})
  ∧ left_behind [OConfig 0; OClient 0] [conf; 0; client; queue; err]
    = Some ([], {[ client := (RDKafka, App); queue := (RDKafkaQueue, App) ]}).
Proof.
  intros Hc Hk Hq He Hkc Hqk. unfold left_behind, run.
  split_and!; unfold in_turn, exec, result_of, create_native_config, create; nrun;
    unfold borrowing, owned; nrun; unfold new_context_arc, try_call, rd_kafka_new, live_or_null, abandon_if; nrun.
  - done.
  - done.
  - by rewrite insert_insert_ne.
Qed.

(** C37: [Client::fetch_metadata] uses a topic that it has destroyed. For every topic
    that librdkafka creates, the closure that reads the pointer drops the topic, and
    the request for the metadata is made with a pointer that is no longer valid. *)
Theorem fetch_metadata_dangling m client topic l : ledger m !! client = Some (RDKafka, App) →
  answers m = 0 :: topic :: l → topic ≠ 0 → ledger m !! topic = None →
  fetch_metadata client true m = inl Undefined.
Proof.
  intros Hc Ha Ht Hl. unfold fetch_metadata, native_topic, create, topic_ptr, rd_kafka_metadata, live_or_null.
  nrun. apply live_dead, lookup_without.
Qed.

Lemma lend_run m t' t p h q l : ledger m !! p = Some (t, h) → h = App → answers m = q :: l → q ≠ 0 →
  ledger m !! q = None → lend t' t p m = inr (q, set_ledger <[q := (t', Within p)]> (set_answers l m)).
Proof.
  intros Hp -> Ha Hq Hl. unfold lend. erewrite bind_run by by eapply live_run.
  erewrite bind_run by by apply ask_run. rewrite decide_False by done.
  unfold mbind, mem_bind, read_mem. simpl. by rewrite Hp, Hl.
Qed.

(** C32: A rebalance callback can take the event's list. [ConsumerContext::rebalance]
    gets the list of the event as [&mut TopicPartitionList], through a [ManuallyDrop].
    If the callback assigns a list of its own to it, the event's list is destroyed as
    if it were the program's. If it swaps the two, it is left with a value that owns
    the event's list, which is gone when the event has been dropped, so that dropping
    the value is undefined behaviour, while its own list is never destroyed. *)
Theorem rebalance_list_moved m event list mine l :
  ledger m !! event = Some (RDKafkaEvent, App) → ledger m !! mine = Some (RDKafkaTopicPartitionList, App) →
  answers m = 0 :: list :: l → list ≠ 0 → ledger m !! list = None →
  handle_rebalance_event (rebalance_with (Replaced 0) mret) event [Own RDKafkaTopicPartitionList mine] m = inl Undefined
  ∧ ∃ m', handle_rebalance_event (rebalance_with (Swapped 0) mret) event [Own RDKafkaTopicPartitionList mine] m
            = inr ([Own RDKafkaTopicPartitionList list], m')
          ∧ drop_value (Own RDKafkaTopicPartitionList list) m' = inl Undefined
          ∧ ledger m' !! mine = Some (RDKafkaTopicPartitionList, App).
Proof.
  intros He Hm Ha Hl Hn. assert (event ≠ mine) by congruence. assert (list ≠ event) by congruence.
  assert (list ≠ mine) by congruence.
  assert (∀ cb, handle_rebalance_event cb event [Own RDKafkaTopicPartitionList mine] m
    = (vs ← cb list [Own RDKafkaTopicPartitionList mine]; _ ← drop_native RDKafkaEvent event; mret vs)
        (set_ledger <[list := (RDKafkaTopicPartitionList, Within event)]> (set_answers l (set_answers (list :: l) m)))) as Hcb.
  { intros cb. unfold handle_rebalance_event, try_call. nrun.
    erewrite bind_run by (eapply lend_run; done). by nrun. }
  rewrite !Hcb. unfold rebalance_with, use_list, owned, drop_native. simpl. split.
  - nrun. apply consume_undefined. simpl. by rewrite lookup_insert_eq.
  - unfold destroy. simpl. eexists. split; [nrun; reflexivity|]. split.
    + change (consume RDKafkaTopicPartitionList list (set_ledger (without event)
        (set_ledger <[list := (RDKafkaTopicPartitionList, Within event)]> (set_answers l (set_answers (list :: l) m))))
        = inl Undefined).
      unfold consume, mbind, mem_bind, read_mem. rewrite decide_False; [done|]. simpl.
      intros [Hx _]%map_lookup_filter_Some. rewrite lookup_insert_eq in Hx. done.
    + simpl. apply map_lookup_filter_Some. by rewrite lookup_insert_ne.
Qed.

(** A program that creates a client and a queue, receives a message, sends a copy of
    its headers, creates a list while a rebalance is served, and drops its values. *)
Definition example_program : list Op :=
  [OConfig 1; OClient 0; OObtain RDKafkaQueue 0; OPoll 0 InPlace [] []; ODetach 0; OSend 3 (Some 0%nat);
   OPoll 1 InPlace [OTplNew] [];
   ODrop 1; ODrop 2; ODrop 0; ODrop 0].

Definition example_answers : list N := [1; 0; 0; 2; 3; 0; 4; 5; 1; 6; 0; 7; 8; 0; 9; 4; 0; 10; 11].

Lemma native_memory_safe_witness : match run example_program example_answers with
  | inl f => f ≠ Undefined
  | inr (vs, m) =>
      Forall (λ v, ledger m !! root (res v) = Some (kind (res v), App)) vs
      ∧ Forall (λ v, match v with Message ev q => ledger m !! q = Some (RDKafkaMessage, Within ev) | _ => True end) vs
      ∧ NoDup (omap own_of (res <$> vs))
  end.
Proof. apply (native_memory_safe example_program example_answers). vm_compute. reflexivity. Defined.

Lemma native_no_leak_witness : ∃ m, run example_program example_answers = inr ([], m)
  ∧ ledger m !! 3 = Some (RDKafkaQueue, App) ∧ (RDKafkaQueue, 3) ∈ abandoned m ∧ ledger m !! 2 = None.
Proof.
  eexists. split; [vm_compute; reflexivity|]. split; [by vm_compute|]. split; [|by vm_compute].
  apply (native_no_leak example_program example_answers); [by vm_compute..|]. by vm_compute.
Defined.

Lemma client_new_leaks_witness :
  left_behind [OConfig 0; OClient 0; ODrop 0] [1; 0; 2; 3; 0] = Some ([], {[ 3 := (RDKafkaQueue, App) ]}).
Proof. by apply (client_new_leaks 1 2 3 1). Defined.

Lemma rebalance_list_moved_witness :
  handle_rebalance_event (rebalance_with (Replaced 0) mret) 1 [Own RDKafkaTopicPartitionList 2]
    {| ledger := {[ 1 := (RDKafkaEvent, App); 2 := (RDKafkaTopicPartitionList, App) ]}; arcs := ∅;
       answers := [0; 3]; abandoned := [] |} = inl Undefined.
Proof. by apply (rebalance_list_moved _ 1 3 2 []). Defined.

Lemma fetch_metadata_dangling_witness :
  fetch_metadata 1 true {| ledger := {[ 1 := (RDKafka, App) ]}; arcs := ∅; answers := [0; 2]; abandoned := [] |} = inl Undefined.
Proof. by apply (fetch_metadata_dangling _ 1 2 []). Defined.
