(* ===== verification/QueueCallbacks.v ===== *)
(** * Queue callbacks and the lifetime of what they point to

    [src/consumer/base_consumer.rs] and [src/consumer/stream_consumer.rs]: a
    consumer gives librdkafka a raw pointer, to the box of a closure
    ([set_nonempty_callback]) or to a waker slab ([enable_nonempty_callback]), that
    is followed whenever a queue becomes nonempty. What is pointed to is owned by
    Rust values that share consumers through [Arc]s and that are dropped in any
    order. The store below is the heap with those values; [exec] runs the calls of
    a program on it. Freeing an allocation twice, freeing one that librdkafka still
    points to, and a callback on a freed one panic, so that a run without panic is
    one without a use after free. *)

From stdpp Require Import strings gmap prelude.
From S2P Require Import Prelude.

(** ** The store *)

(** The references that values hold, each in a field: an [Arc<BaseConsumer>] of
    the user or of a [PartitionQueue]; the [base] of a [StreamConsumer], with the
    slab that goes with it; the [Arc<BaseConsumer>] within a [StreamPartitionQueue]
    of a stream consumer; an [Arc<StreamConsumer>]; an [Arc<WakerSlab>]; the box of
    a closure. *)
Inductive ref : Set :=
| RBase (b : nat)
| RMain (b w : nat)
| RInner (b s : nat)
| RStream (s : nat)
| RSlab (w : nat)
| RBox (a : nat).

#[export] Instance ref_eq_dec : EqDecision ref.
Proof. solve_decision. Defined.

(** [struct BaseConsumer] and [struct StreamConsumer], within their [Arc]s. *)
Record base := { b_queue : nat; b_callback : option nat }.
Record stream := { s_base : nat; s_wakers : nat }.

(** The values of the program: a [BaseConsumer] or an [Arc] of it; a
    [PartitionQueue]; a [StreamConsumer] or an [Arc] of it; a
    [StreamPartitionQueue], whose [PartitionQueue] never has a callback of its own;
    the background task of a stream consumer. *)
Inductive handle : Set :=
| Base (b : nat)
| Partition (b q : nat) (callback : option nat)
| Stream (s : nat)
| StreamPartition (b q w s : nat)
| Task (w : nat).

(** The fields of a value, in the order in which they are dropped. *)
Definition box_refs (callback : option nat) : list ref :=
  match callback with Some a => [RBox a] | None => [] end.

Definition handle_refs (h : handle) : list ref :=
  match h with
  | Base b => [RBase b]
  | Partition b _ callback => RBase b :: box_refs callback
  | Stream s => [RStream s]
  | StreamPartition b _ w s => [RInner b s; RSlab w; RStream s]
  | Task w => [RSlab w]
  end.

Definition base_refs (x : base) : list ref := box_refs (b_callback x).
Definition stream_refs (x : stream) : list ref := [RMain (s_base x) (s_wakers x); RSlab (s_wakers x)].

(** [heap]: the live allocations; [registered]: the pointer that librdkafka has
    for a queue; [dropping]: the fields that the drop in progress has yet to drop. *)
Record store := {
  heap : gset nat;
  bases : gmap nat base;
  streams : gmap nat stream;
  handles : gmap nat handle;
  registered : gmap nat nat;
  dropping : list ref;
}.

Definition set_heap (f : gset nat → gset nat) (s : store) : store :=
  {| heap := f (heap s); bases := bases s; streams := streams s; handles := handles s;
     registered := registered s; dropping := dropping s |}.
Definition set_bases (f : gmap nat base → gmap nat base) (s : store) : store :=
  {| heap := heap s; bases := f (bases s); streams := streams s; handles := handles s;
     registered := registered s; dropping := dropping s |}.
Definition set_streams (f : gmap nat stream → gmap nat stream) (s : store) : store :=
  {| heap := heap s; bases := bases s; streams := f (streams s); handles := handles s;
     registered := registered s; dropping := dropping s |}.
Definition set_handles (f : gmap nat handle → gmap nat handle) (s : store) : store :=
  {| heap := heap s; bases := bases s; streams := streams s; handles := f (handles s);
     registered := registered s; dropping := dropping s |}.
Definition set_registered (f : gmap nat nat → gmap nat nat) (s : store) : store :=
  {| heap := heap s; bases := bases s; streams := streams s; handles := handles s;
     registered := f (registered s); dropping := dropping s |}.
Definition set_dropping (f : list ref → list ref) (s : store) : store :=
  {| heap := heap s; bases := bases s; streams := streams s; handles := handles s;
     registered := registered s; dropping := f (dropping s) |}.

Definition store_new : store :=
  {| heap := ∅; bases := ∅; streams := ∅; handles := ∅; registered := ∅; dropping := [] |}.

(** The references of the entries of a map. *)
Definition map_refs {A} (f : A → list ref) (m : gmap nat A) : list ref := map_to_list m ≫= λ x, f x.2.

(** All references that there are. *)
Definition refs (s : store) : list ref :=
  dropping s ++ map_refs handle_refs (handles s) ++ map_refs stream_refs (streams s)
  ++ map_refs base_refs (bases s).

(** The consumer that a reference keeps alive. *)
Definition ref_base (r : ref) : option nat :=
  match r with RBase b | RMain b _ | RInner b _ => Some b | _ => None end.

Definition base_holders (l : list ref) : list nat := omap ref_base l.

(** ** librdkafka's registration, and the heap *)

(** [rd_kafka_queue_cb_event_enable] with a callback and without. *)
Definition cb_event_enable (q a : nat) : comp store unit := modify (set_registered <[q := a]>).
Definition cb_event_disable (q : nat) : comp store unit := modify (set_registered (delete q)).

Definition alloc : comp store nat :=
  s ← get; let a := fresh (heap s) in _ ← modify (set_heap (λ h, {[ a ]} ∪ h)); mret a.

Definition is_registered (a : nat) (s : store) : bool :=
  bool_decide (Exists (λ x, x.2 = a) (map_to_list (registered s))).

Definition free (a : nat) : comp store unit :=
  s ← get;
  if bool_decide (a ∈ heap s) then
    if is_registered a s then panic "freed while registered" else modify (set_heap (λ h, h ∖ {[ a ]}))
  else panic "double free".

(** ** Dropping a field: the head of [dropping] *)

Definition pop : comp store unit := modify (set_dropping tail).
Definition push (rs : list ref) : comp store unit := modify (set_dropping (app rs)).

(** A [Box], and an [Arc<WakerSlab>]. *)
Definition drop_box (a : nat) : comp store unit := _ ← pop; free a.

Definition drop_slab (w : nat) : comp store unit :=
  _ ← pop;
  s ← get;
  if bool_decide (RSlab w ∈ refs s) then mret tt else free w.

Definition drop_callback (callback : option nat) : comp store unit :=
  match callback with Some a => drop_box a | None => mret tt end.

(** An [Arc<BaseConsumer>]: the last one drops the consumer, which disables the
    callback on its queue before its fields are dropped. *)
Definition drop_base (b : nat) : comp store unit :=
  _ ← pop;
  s ← get;
  if bool_decide (b ∈ base_holders (refs s)) then mret tt
  else
    x ← lift (expect "no consumer" (bases s !! b));
    _ ← cb_event_disable (b_queue x);
    _ ← modify (set_bases (delete b));
    _ ← push (base_refs x);
    drop_callback (b_callback x).

(** An [Arc<StreamConsumer>]: the last one drops the base consumer, then the slab. *)
Definition drop_stream (st : nat) : comp store unit :=
  _ ← pop;
  s ← get;
  if bool_decide (RStream st ∈ refs s) then mret tt
  else
    x ← lift (expect "no consumer" (streams s !! st));
    _ ← modify (set_streams (delete st));
    _ ← push (stream_refs x);
    _ ← drop_base (s_base x);
    drop_slab (s_wakers x).

(** ** The calls of a program *)

Definition new_handle (x : handle) : comp store unit :=
  modify (λ s, set_handles <[fresh (dom (handles s)) := x]> s).

(** [BaseConsumer::new], on the queue that librdkafka gives it. *)
Definition base_new (q : nat) : comp store nat :=
  s ← get;
  let b := fresh (dom (bases s)) in
  _ ← modify (set_bases <[b := {| b_queue := q; b_callback := None |}]>);
  mret b.

(** [FromClientConfigAndContext for StreamConsumer]. *)
Definition stream_new (q : nat) : comp store unit :=
  b ← base_new q;
  wakers ← alloc;
  _ ← cb_event_enable q wakers;
  s ← get;
  let st := fresh (dom (streams s)) in
  _ ← modify (set_streams <[st := {| s_base := b; s_wakers := wakers |}]>);
  _ ← new_handle (Task wakers);
  new_handle (Stream st).

(** [set_nonempty_callback] of a consumer that is not shared, and of a partition
    queue: the new box is registered before the old one is dropped. *)
Definition base_set_callback (b : nat) (x : base) : comp store unit :=
  f ← alloc;
  _ ← cb_event_enable (b_queue x) f;
  _ ← modify (set_bases <[b := {| b_queue := b_queue x; b_callback := Some f |}]>);
  _ ← push (base_refs x);
  drop_callback (b_callback x).

Definition partition_set_callback (h b q : nat) (callback : option nat) : comp store unit :=
  f ← alloc;
  _ ← cb_event_enable q f;
  _ ← modify (set_handles <[h := Partition b q (Some f)]>);
  _ ← push (box_refs callback);
  drop_callback callback.

(** [BaseConsumer::split_partition_queue] and [StreamConsumer::split_partition_queue],
    with the queue that librdkafka gives. *)
Definition base_split (b q : nat) : comp store unit := new_handle (Partition b q None).

Definition stream_split (st q : nat) : comp store unit :=
  s ← get;
  x ← lift (expect "no consumer" (streams s !! st));
  wakers ← alloc;
  _ ← cb_event_enable q wakers;
  new_handle (StreamPartition (s_base x) q wakers st).

(** Dropping a value: its [Drop], then its fields. *)
Definition drop_handle (h : nat) (x : handle) : comp store unit :=
  _ ← match x with
      | Partition _ q _ => cb_event_disable q
      | StreamPartition _ q _ _ => _ ← cb_event_disable q; cb_event_disable q
      | _ => mret tt
      end;
  _ ← modify (set_handles (delete h));
  _ ← push (handle_refs x);
  match x with
  | Base b => drop_base b
  | Partition b _ callback => _ ← drop_base b; drop_callback callback
  | Stream st => drop_stream st
  | StreamPartition b _ w st => _ ← drop_base b; _ ← drop_slab w; drop_stream st
  | Task w => drop_slab w
  end.

(** A queue becomes nonempty: librdkafka follows the pointer it has. *)
Definition nonempty (q : nat) : comp store unit :=
  s ← get;
  match registered s !! q with
  | None => mret tt
  | Some a => if bool_decide (a ∈ heap s) then mret tt else panic "use after free"
  end.

(** The calls. A value is named by its number; a call that the value's type does
    not have is none. The background task may end at any time. *)
Inductive op : Set :=
| NewBase (q : nat)
| NewStream (q : nat)
| Clone (h : nat)
| SetCallback (h : nat)
| Split (h q : nat)
| DropValue (h : nat)
| Nonempty (q : nat).

(** Whether a value is the only one that shares its consumer. *)
Definition sole_owner (b : nat) (s : store) : bool :=
  (length (filter (λ r, ref_base r = Some b) (refs s)) <=? 1)%nat.

Definition exec (o : op) : comp store unit :=
  s ← get;
  match o with
  | NewBase q => b ← base_new q; new_handle (Base b)
  | NewStream q => stream_new q
  | Clone h =>
      match handles s !! h with
      | Some (Base b) => new_handle (Base b)
      | Some (Stream st) => new_handle (Stream st)
      | _ => mret tt
      end
  | SetCallback h =>
      match handles s !! h with
      | Some (Base b) =>
          if sole_owner b s then x ← lift (expect "no consumer" (bases s !! b)); base_set_callback b x
          else mret tt
      | Some (Partition b q callback) => partition_set_callback h b q callback
      | _ => mret tt
      end
  | Split h q =>
      match handles s !! h with
      | Some (Base b) => base_split b q
      | Some (Stream st) => stream_split st q
      | _ => mret tt
      end
  | DropValue h => match handles s !! h with Some x => drop_handle h x | None => mret tt end
  | Nonempty q => nonempty q
  end.

Fixpoint exec_all (os : list op) : comp store unit :=
  match os with
  | [] => mret tt
  | o :: os => _ ← exec o; exec_all os
  end.

(** ** References *)

Lemma map_refs_insert {A} (f : A → list ref) m i x : m !! i = None →
  map_refs f (<[i := x]> m) ≡ₚ f x ++ map_refs f m.
Proof. intros Hi. unfold map_refs. by rewrite (map_to_list_insert m i x Hi). Qed.

Lemma map_refs_delete {A} (f : A → list ref) m i x : m !! i = Some x →
  map_refs f m ≡ₚ f x ++ map_refs f (delete i m).
Proof. intros Hi. unfold map_refs. by rewrite <- (map_to_list_delete m i x Hi). Qed.

Lemma elem_of_map_refs {A} (f : A → list ref) m r : r ∈ map_refs f m ↔ ∃ i x, m !! i = Some x ∧ r ∈ f x.
Proof.
  unfold map_refs. rewrite list_elem_of_bind. split.
  - intros ([i x] & Hr & Hi%elem_of_map_to_list). by exists i, x.
  - intros (i & x & Hi & Hr). exists (i, x). by rewrite elem_of_map_to_list.
Qed.

Definition boxes (l : list ref) : list nat := omap (λ r, match r with RBox a => Some a | _ => None end) l.
Definition mains (l : list ref) : list nat := omap (λ r, match r with RMain b _ => Some b | _ => None end) l.

#[export] Instance boxes_Permutation : Proper ((≡ₚ) ==> (≡ₚ)) boxes.
Proof. intros l l' Hl. by apply omap_Permutation. Qed.
#[export] Instance mains_Permutation : Proper ((≡ₚ) ==> (≡ₚ)) mains.
Proof. intros l l' Hl. by apply omap_Permutation. Qed.
#[export] Instance base_holders_Permutation : Proper ((≡ₚ) ==> (≡ₚ)) base_holders.
Proof. intros l l' Hl. by apply omap_Permutation. Qed.

Lemma elem_of_boxes l a : a ∈ boxes l ↔ RBox a ∈ l.
Proof.
  unfold boxes. rewrite list_elem_of_omap. split; [|intros ?; by exists (RBox a)].
  intros (r & Hr & Ha). destruct r; try done. by injection Ha as ->.
Qed.

Lemma elem_of_mains l b : b ∈ mains l ↔ ∃ w, RMain b w ∈ l.
Proof.
  unfold mains. rewrite list_elem_of_omap. split.
  - intros (r & Hr & Ha). destruct r; try done. injection Ha as ->. by eexists.
  - intros [w Hw]. by exists (RMain b w).
Qed.

Lemma elem_of_base_holders l b : b ∈ base_holders l ↔ RBase b ∈ l ∨ (∃ w, RMain b w ∈ l) ∨ ∃ s, RInner b s ∈ l.
Proof.
  unfold base_holders. rewrite list_elem_of_omap. split.
  - intros (r & Hr & Ha). destruct r; try done; injection Ha as ->; eauto.
  - intros [?|[[w ?]|[s ?]]]; by eexists.
Qed.

(** ** The invariant *)

(** Within a drop, the slab of a stream consumer is dropped after its base, and a
    stream partition queue lets go of its consumer last. *)
Fixpoint stack_ok (l : list ref) : Prop :=
  match l with
  | [] => True
  | RMain _ w :: l => RSlab w ∈ l ∧ stack_ok l
  | RInner _ s :: l => RStream s ∈ l ∧ stack_ok l
  | _ :: l => stack_ok l
  end.

(** The owner of the pointer that librdkafka has for a queue. *)
Definition pointed (s : store) (q a : nat) : Prop :=
  (∃ b x, bases s !! b = Some x ∧ b_queue x = q ∧ b_callback x = Some a)
  ∨ (∃ h b, handles s !! h = Some (Partition b q (Some a)))
  ∨ (∃ h b st, handles s !! h = Some (StreamPartition b q a st))
  ∨ (∃ b x, RMain b a ∈ refs s ∧ bases s !! b = Some x ∧ b_queue x = q).

Record inv (s : store) : Prop := {
  iv_boxes : NoDup (boxes (refs s));
  iv_heap a : a ∈ heap s ↔ RBox a ∈ refs s ∨ RSlab a ∈ refs s;
  iv_apart a : RBox a ∈ refs s → RSlab a ∉ refs s;
  iv_registered q a : registered s !! q = Some a → pointed s q a;
  iv_bases b : is_Some (bases s !! b) ↔ b ∈ base_holders (refs s);
  iv_streams st : is_Some (streams s !! st) ↔ RStream st ∈ refs s;
  iv_inner b st : RInner b st ∈ refs s → ∃ w, streams s !! st = Some {| s_base := b; s_wakers := w |};
  iv_private b w : RMain b w ∈ refs s → RBase b ∉ refs s;
  iv_mains : NoDup (mains (refs s));
  iv_stack : stack_ok (dropping s);
}.

Lemma cb_inv_new : inv store_new.
Proof.
  split; simpl; try (by constructor); try done; try (intros *; set_solver).
  - intros b. rewrite lookup_empty. split; [by intros []|set_solver].
  - intros b. rewrite lookup_empty. split; [by intros []|set_solver].
Qed.

Lemma stack_main l b w : stack_ok l → RMain b w ∈ l → RSlab w ∈ l.
Proof.
  induction l as [|r l IH]; [by intros _ []%elem_of_nil|]. intros Hs [<-|Hin]%elem_of_cons.
  - right. apply Hs.
  - right. apply IH; [|done]. by destruct r; simpl in Hs; tauto.
Qed.

Lemma stack_inner l b st : stack_ok l → RInner b st ∈ l → RStream st ∈ l.
Proof.
  induction l as [|r l IH]; [by intros _ []%elem_of_nil|]. intros Hs [<-|Hin]%elem_of_cons.
  - right. apply Hs.
  - right. apply IH; [|done]. by destruct r; simpl in Hs; tauto.
Qed.

Lemma stack_tail r l : stack_ok (r :: l) → stack_ok l.
Proof. destruct r; simpl; tauto. Qed.

Lemma elem_of_refs s r : r ∈ refs s ↔
  r ∈ dropping s ∨ (∃ h x, handles s !! h = Some x ∧ r ∈ handle_refs x)
  ∨ (∃ st x, streams s !! st = Some x ∧ r ∈ stream_refs x) ∨ (∃ b x, bases s !! b = Some x ∧ r ∈ base_refs x).
Proof. unfold refs. by rewrite !elem_of_app, !elem_of_map_refs. Qed.

Lemma box_refs_elem r o : r ∈ box_refs o ↔ ∃ a, o = Some a ∧ r = RBox a.
Proof. destruct o; simpl; set_solver. Qed.

(** A slab lives as long as the base that goes with it; a stream consumer as long
    as its partition queues. *)
Lemma main_slab s b w : stack_ok (dropping s) → RMain b w ∈ refs s → RSlab w ∈ refs s.
Proof.
  rewrite !elem_of_refs. intros Hs [Hd|[(h & x & Hx & Hr)|[(st & x & Hx & Hr)|(b' & x & Hx & Hr)]]].
  - left. by eapply stack_main.
  - destruct x; simpl in Hr; rewrite ?elem_of_cons, ?box_refs_elem, ?elem_of_nil in Hr; naive_solver.
  - right. right. left. exists st, x. split; [done|]. unfold stream_refs in *. set_solver.
  - unfold base_refs in Hr. rewrite box_refs_elem in Hr. naive_solver.
Qed.

Lemma inner_stream s b st : stack_ok (dropping s) → RInner b st ∈ refs s → RStream st ∈ refs s.
Proof.
  rewrite !elem_of_refs. intros Hs [Hd|[(h & x & Hx & Hr)|[(st' & x & Hx & Hr)|(b' & x & Hx & Hr)]]].
  - left. by eapply stack_inner.
  - right. left. exists h, x. split; [done|].
    destruct x; simpl in *; rewrite ?elem_of_cons, ?box_refs_elem, ?elem_of_nil in *; naive_solver.
  - unfold stream_refs in Hr. set_solver.
  - unfold base_refs in Hr. rewrite box_refs_elem in Hr. naive_solver.
Qed.

(** What librdkafka points to is referenced. *)
Lemma pointed_live s q a : stack_ok (dropping s) → pointed s q a → RBox a ∈ refs s ∨ RSlab a ∈ refs s.
Proof.
  intros Hs [(b & x & Hb & _ & Ha)|[(h & b & Hh)|[(h & b & st & Hh)|(b & x & Hm & _)]]].
  - left. apply elem_of_refs. do 3 right. exists b, x. split; [done|]. unfold base_refs. rewrite Ha. left.
  - left. apply elem_of_refs. right. left. exists h, (Partition b q (Some a)). split; [done|]. right. left.
  - right. apply elem_of_refs. right. left. exists h, (StreamPartition b q a st). split; [done|]. right. left.
  - right. by eapply main_slab.
Qed.

Lemma free_ok s a : (∀ q x, registered s !! q = Some x → pointed s q x) → stack_ok (dropping s) →
  RBox a ∉ refs s → RSlab a ∉ refs s → a ∈ heap s → free a s = Done (tt, set_heap (λ h, h ∖ {[ a ]}) s).
Proof.
  intros Hp Hs Hb Hw Ha. unfold free, mbind, comp_bind, get. rewrite bool_decide_eq_true_2 by done.
  unfold is_registered. rewrite bool_decide_eq_false_2; [done|]. rewrite Exists_exists.
  intros ([q x] & Hin%elem_of_map_to_list & Hx). simpl in Hx. subst x.
  destruct (pointed_live s q a Hs (Hp _ _ Hin)); done.
Qed.

(** A reference less. *)
Lemma cb_inv_drop s s' r : inv s → refs s ≡ₚ r :: refs s' →
  (∀ b st, RInner b st ∈ refs s' → streams s' !! st = streams s !! st) →
  (∀ a, a ∈ heap s' ↔ RBox a ∈ refs s' ∨ RSlab a ∈ refs s') →
  (∀ q a, registered s' !! q = Some a → pointed s' q a) →
  (∀ b, is_Some (bases s' !! b) ↔ b ∈ base_holders (refs s')) →
  (∀ st, is_Some (streams s' !! st) ↔ RStream st ∈ refs s') →
  stack_ok (dropping s') → inv s'.
Proof.
  intros [H1 H2 H3 H4 H5 H6 H7 H8 H9 H10] Hp Hin Hh Hr Hb Hst Hs.
  assert (∀ x, x ∈ refs s' → x ∈ refs s) as Hsub by (intros x Hx; rewrite Hp; by right).
  split; [..|done].
  - unfold boxes in *. rewrite Hp in H1. destruct r; simpl in H1; try done. by apply NoDup_cons in H1 as [_ ?].
  - done.
  - intros a Ha Hw. by apply (H3 a); apply Hsub.
  - done.
  - done.
  - done.
  - intros b st Hi. rewrite (Hin b st Hi). by apply H7, Hsub.
  - intros b w Hw Hx. by apply (H8 b w); apply Hsub.
  - unfold mains in *. rewrite Hp in H9. destruct r; simpl in H9; try done. by apply NoDup_cons in H9 as [_ ?].
Qed.

Definition popped (s : store) : store := set_dropping tail s.

Lemma refs_popped s r l : dropping s = r :: l → refs s = r :: refs (popped s).
Proof. intros Hd. unfold refs, popped. simpl. by rewrite Hd. Qed.

Lemma set_heap_refs f s : refs (set_heap f s) = refs s.
Proof. done. Qed.

(** Only the references of consumers matter to where librdkafka points. *)
Lemma pointed_popped s r l q a : dropping s = r :: l → (∀ b, r ≠ RMain b a) → pointed s q a → pointed (popped s) q a.
Proof.
  intros Hd Hr Hp. unfold pointed in *. rewrite (refs_popped s r l Hd) in Hp. simpl in *.
  destruct Hp as [?|[?|[?|(b & x & Hm & Hx)]]]; auto. do 3 right. exists b, x. split; [|done].
  apply elem_of_cons in Hm as [Hm|?]; [|done]. by destruct (Hr b).
Qed.

(** The last reference to an allocation is dropped, and the allocation freed. *)
Lemma free_popped s r l a : inv s → dropping s = r :: l → r = RBox a ∨ r = RSlab a →
  RBox a ∉ refs (popped s) → RSlab a ∉ refs (popped s) →
  ∃ s', free a (popped s) = Done (tt, s') ∧ inv s' ∧ dropping s' = l ∧ handles s' = handles s.
Proof.
  intros Hi Hd Ha Hb Hw. pose proof (refs_popped _ _ _ Hd) as Hr. pose proof (iv_stack _ Hi) as Hs.
  rewrite Hd in Hs. apply stack_tail in Hs.
  assert (∀ q x, registered (popped s) !! q = Some x → pointed (popped s) q x) as Hp.
  { intros q x Hx. eapply pointed_popped; [done| |by apply (iv_registered _ Hi)]. by destruct Ha as [->| ->]. }
  assert (stack_ok (dropping (popped s))) as Hs' by (simpl; by rewrite Hd).
  exists (set_heap (λ h, h ∖ {[ a ]}) (popped s)). split.
  { apply free_ok; [done..|]. simpl. apply (iv_heap _ Hi). rewrite Hr, !elem_of_cons. destruct Ha as [->| ->]; auto. }
  split; [|simpl; by rewrite Hd]. apply (cb_inv_drop s _ r); simpl; [done|by rewrite Hr|done|..|by rewrite Hd].
  - intros x. rewrite set_heap_refs, elem_of_difference, elem_of_singleton, (iv_heap _ Hi), Hr, !elem_of_cons.
    destruct Ha as [->| ->]; naive_solver.
  - done.
  - intros b. rewrite (iv_bases _ Hi), set_heap_refs, Hr. unfold base_holders. by destruct Ha as [->| ->].
  - intros st. rewrite set_heap_refs, (iv_streams _ Hi), Hr, elem_of_cons. destruct Ha as [->| ->]; naive_solver.
Qed.

Lemma drop_box_ok s a l : inv s → dropping s = RBox a :: l →
  ∃ s', drop_box a s = Done (tt, s') ∧ inv s' ∧ dropping s' = l ∧ handles s' = handles s.
Proof.
  intros Hi Hd. pose proof (refs_popped _ _ _ Hd) as Hr.
  apply (free_popped s (RBox a) l a); [done|done|by left|..].
  - pose proof (iv_boxes _ Hi) as Hn. rewrite Hr in Hn. simpl in Hn. apply NoDup_cons in Hn as [Hn _].
    by rewrite elem_of_boxes in Hn.
  - intros Hw. apply (iv_apart _ Hi a); rewrite Hr; [left|by right].
Qed.

(** A reference is dropped while others keep what it refers to. *)
Lemma pop_ok s r l : inv s → dropping s = r :: l →
  match r with
  | RBox _ | RMain _ _ => False
  | RSlab w => RSlab w ∈ refs (popped s)
  | RStream st => RStream st ∈ refs (popped s)
  | RBase b | RInner b _ => b ∈ base_holders (refs (popped s))
  end → inv (popped s) ∧ dropping (popped s) = l ∧ handles (popped s) = handles s.
Proof.
  intros Hi Hd Hr. pose proof (refs_popped _ _ _ Hd) as He. pose proof (iv_stack _ Hi) as Hs. rewrite Hd in Hs.
  split; [|simpl; by rewrite Hd]. apply (cb_inv_drop s _ r); [done|by rewrite He|done|..].
  - intros a. simpl. rewrite (iv_heap _ Hi), He, !elem_of_cons. destruct r; naive_solver.
  - intros q a Ha. eapply pointed_popped; [done| |by apply (iv_registered _ Hi)]. intros b ->. done.
  - intros b. simpl. rewrite (iv_bases _ Hi), !elem_of_base_holders, He. setoid_rewrite elem_of_cons.
    destruct r; rewrite ?elem_of_base_holders in Hr; naive_solver.
  - intros st. simpl. rewrite (iv_streams _ Hi), He, elem_of_cons. destruct r; naive_solver.
  - simpl. rewrite Hd. by apply stack_tail in Hs.
Qed.

Lemma drop_slab_ok s w l : inv s → dropping s = RSlab w :: l →
  ∃ s', drop_slab w s = Done (tt, s') ∧ inv s' ∧ dropping s' = l ∧ handles s' = handles s.
Proof.
  intros Hi Hd. unfold drop_slab, pop, mbind, comp_bind, modify, get.
  change (set_dropping tail s) with (popped s). case_bool_decide as Hw.
  { exists (popped s). split; [done|]. by apply (pop_ok s (RSlab w)). }
  apply (free_popped s (RSlab w) l w); [done|done|by right| |done].
  pose proof (refs_popped _ _ _ Hd) as Hr. intros Hb. apply (iv_apart _ Hi w); rewrite Hr; [by right|left].
Qed.

Lemma drop_callback_ok s o l : inv s → dropping s = box_refs o ++ l →
  ∃ s', drop_callback o s = Done (tt, s') ∧ inv s' ∧ dropping s' = l ∧ handles s' = handles s.
Proof. destruct o as [a|]; [apply drop_box_ok|]. intros Hi Hd. by exists s. Qed.

(** The base of a stream consumer that is being dropped is nobody else's. *)
Lemma main_sole s b w l : inv s → dropping s = RMain b w :: l → b ∉ base_holders (refs (popped s)).
Proof.
  intros Hi Hd. pose proof (refs_popped _ _ _ Hd) as Hr.
  assert (∀ w', RMain b w' ∉ refs (popped s)) as Hm.
  { pose proof (iv_mains _ Hi) as Hn. rewrite Hr in Hn. simpl in Hn. apply NoDup_cons in Hn as [Hn _].
    intros w' Hw'. apply Hn, elem_of_mains. by exists w'. }
  rewrite elem_of_base_holders. intros [Hb|[[w' Hb]|[st Hb]]].
  - apply (iv_private _ Hi b w); rewrite Hr; [left|by right].
  - by apply (Hm w').
  - destruct (iv_inner _ Hi b st) as [w' Hw']; [rewrite Hr; by right|]. apply (Hm w'), elem_of_refs.
    do 2 right. left. exists st, {| s_base := b; s_wakers := w' |}. split; [done|left].
Qed.

(** The consumer that the last [Arc] leaves, with its fields to be dropped. *)
Definition abandoned (b : nat) (x : base) (s : store) : store :=
  set_dropping (app (base_refs x)) (set_bases (delete b) (set_registered (delete (b_queue x)) (popped s))).

Lemma abandoned_refs b x s : bases s !! b = Some x → refs (abandoned b x s) ≡ₚ refs (popped s).
Proof.
  intros Hb. unfold refs. simpl. rewrite (map_refs_delete base_refs (bases s) b x Hb). solve_Permutation.
Qed.

Lemma abandoned_ok s r l b x : inv s → dropping s = r :: l → ref_base r = Some b → bases s !! b = Some x →
  b ∉ base_holders (refs (popped s)) → inv (abandoned b x s).
Proof.
  intros Hi Hd Hr Hb Hn. pose proof (refs_popped _ _ _ Hd) as He. pose proof (abandoned_refs b x s Hb) as Hp.
  pose proof (iv_stack _ Hi) as Hs. rewrite Hd in Hs. apply stack_tail in Hs.
  apply (cb_inv_drop s _ r); [done|by rewrite Hp, He|done|..].
  - intros a. simpl. rewrite Hp, (iv_heap _ Hi), He, !elem_of_cons. destruct r; naive_solver.
  - intros q a. simpl. intros [Hq Ha]%lookup_delete_Some. apply (iv_registered _ Hi) in Ha.
    unfold pointed in *. setoid_rewrite Hp. rewrite He in Ha. simpl.
    destruct Ha as [(b' & y & Hy & Hqy & Hcb)|[?|[?|(b' & y & Hm & Hy & Hqy)]]]; auto.
    + left. exists b', y. rewrite lookup_delete_ne; [done|]. intros ->. congruence.
    + do 3 right. exists b', y. assert (b ≠ b') by (intros ->; congruence).
      rewrite lookup_delete_ne by done. split; [|done]. apply elem_of_cons in Hm as [<-|?]; [|done].
      by injection Hr as ->.
  - intros b'. rewrite Hp. simpl. destruct (decide (b' = b)) as [->|Hne].
    + rewrite lookup_delete_eq. split; [by intros []|done].
    + rewrite lookup_delete_ne, (iv_bases _ Hi), He by done. unfold base_holders. simpl. rewrite Hr. set_solver.
  - intros st. simpl. rewrite (iv_streams _ Hi), Hp, He, elem_of_cons. destruct r; naive_solver.
  - simpl. rewrite Hd. unfold base_refs. by destruct (b_callback x).
Qed.

Lemma drop_base_ok s r l b : inv s → dropping s = r :: l → ref_base r = Some b →
  ∃ s', drop_base b s = Done (tt, s') ∧ inv s' ∧ dropping s' = l ∧ handles s' = handles s.
Proof.
  intros Hi Hd Hr. pose proof (refs_popped _ _ _ Hd) as He.
  unfold drop_base, pop, mbind, comp_bind, modify, get. change (set_dropping tail s) with (popped s).
  case_bool_decide as Hn.
  - exists (popped s). split; [done|]. apply (pop_ok s r); [done|done|].
    destruct r; simpl in Hr; try done; injection Hr as ->; try done. by eapply main_sole.
  - destruct (proj2 (iv_bases _ Hi b)) as [x Hx].
    { rewrite He. unfold base_holders. simpl. rewrite Hr. left. }
    unfold lift, expect. simpl. rewrite Hx.
    destruct (drop_callback_ok (abandoned b x s) (b_callback x) l) as (s' & Hr' & Hi' & Hd' & Hh').
    + by apply (abandoned_ok s r l).
    + simpl. by rewrite Hd.
    + exists s'. split; [done|]. split; [done|]. split; [done|]. by rewrite Hh'.
Qed.

(** The stream consumer that the last [Arc] leaves. *)
Definition unstreamed (st : nat) (x : stream) (s : store) : store :=
  set_dropping (app (stream_refs x)) (set_streams (delete st) (popped s)).

Lemma unstreamed_ok s l st x : inv s → dropping s = RStream st :: l → streams s !! st = Some x →
  RStream st ∉ refs (popped s) → inv (unstreamed st x s).
Proof.
  intros Hi Hd Hx Hn. pose proof (refs_popped _ _ _ Hd) as He.
  assert (refs (unstreamed st x s) ≡ₚ refs (popped s)) as Hp.
  { unfold refs. simpl. rewrite (map_refs_delete stream_refs (streams s) st x Hx). simpl. solve_Permutation. }
  pose proof (iv_stack _ Hi) as Hs. rewrite Hd in Hs. apply stack_tail in Hs.
  apply (cb_inv_drop s _ (RStream st)); [done|by rewrite Hp, He|..].
  - intros b st'. rewrite Hp. simpl. intros Hin. rewrite lookup_delete_ne; [done|]. intros ->. apply Hn.
    apply (inner_stream _ b); [|done]. simpl. by rewrite Hd.
  - intros a. simpl. rewrite Hp, (iv_heap _ Hi), He, !elem_of_cons. naive_solver.
  - intros q a. simpl. intros Ha%(iv_registered _ Hi). apply (pointed_popped _ _ _ _ _ Hd) in Ha; [|done].
    unfold pointed in *. setoid_rewrite Hp. done.
  - intros b. rewrite Hp. simpl. by rewrite (iv_bases _ Hi), He.
  - intros st'. simpl. rewrite Hp. destruct (decide (st' = st)) as [->|Hne].
    + rewrite lookup_delete_eq. split; [by intros []|done].
    + rewrite lookup_delete_ne, (iv_streams _ Hi), He, elem_of_cons by done. naive_solver.
  - simpl. rewrite Hd. split; [left|done].
Qed.

Lemma drop_stream_ok s l st : inv s → dropping s = RStream st :: l →
  ∃ s', drop_stream st s = Done (tt, s') ∧ inv s' ∧ dropping s' = l ∧ handles s' = handles s.
Proof.
  intros Hi Hd. pose proof (refs_popped _ _ _ Hd) as He.
  unfold drop_stream, pop. unfold mbind at 1, comp_bind at 1, modify at 1. unfold mbind at 1, comp_bind at 1, get at 1.
  change (set_dropping tail s) with (popped s). case_bool_decide as Hn.
  { exists (popped s). split; [done|]. by apply (pop_ok s (RStream st)). }
  destruct (proj2 (iv_streams _ Hi st)) as [x Hx]; [rewrite He; left|].
  pose proof (unstreamed_ok s l st x Hi Hd Hx Hn) as Hi'.
  destruct (drop_base_ok (unstreamed st x s) (RMain (s_base x) (s_wakers x)) (RSlab (s_wakers x) :: l) (s_base x))
    as (s1 & H1 & Hi1 & Hd1 & Hh1); [done|simpl; by rewrite Hd|done|].
  destruct (drop_slab_ok s1 (s_wakers x) l Hi1 Hd1) as (s2 & H2 & Hi2 & Hd2 & Hh2).
  exists s2. split; [|split; [done|]; split; [done|]; by rewrite Hh2, Hh1].
  unfold lift, expect. unfold mbind at 1, comp_bind at 1. simpl. rewrite Hx.
  unfold push, mbind at 1 2, comp_bind at 1 2, modify. change (set_dropping (app _) _) with (unstreamed st x s).
  by rewrite (comp_bind_run _ _ _ _ _ H1).
Qed.

(** ** Dropping a value *)

Lemma disable_ok q s : inv s → inv (set_registered (delete q) s).
Proof.
  intros [H1 H2 H3 H4 H5 H6 H7 H8 H9 H10]. split; try done.
  simpl. intros q' a [_ Ha]%lookup_delete_Some. by apply H4.
Qed.

(** The queue that a value has registered a callback on. *)
Definition handle_queue (x : handle) : option nat :=
  match x with Partition _ q _ | StreamPartition _ q _ _ => Some q | _ => None end.

Definition taken (h : nat) (x : handle) (s : store) : store :=
  set_dropping (app (handle_refs x)) (set_handles (delete h) s).

Lemma taken_ok s h x : inv s → dropping s = [] → handles s !! h = Some x →
  (∀ q, handle_queue x = Some q → registered s !! q = None) → inv (taken h x s).
Proof.
  intros Hi Hd Hx Hq. assert (refs (taken h x s) ≡ₚ refs s) as Hp.
  { unfold refs. simpl. rewrite (map_refs_delete handle_refs (handles s) h x Hx). solve_Permutation. }
  destruct Hi as [H1 H2 H3 H4 H5 H6 H7 H8 H9 H10]. split.
  - by rewrite Hp.
  - intros a. rewrite Hp. apply H2.
  - intros a. rewrite Hp. apply H3.
  - intros q a Ha. simpl in Ha. pose proof (H4 q a Ha) as Hpt. unfold pointed in *. simpl. setoid_rewrite Hp.
    destruct Hpt as [?|[(h' & b & Hh)|[(h' & b & st & Hh)|?]]]; auto.
    + right. left. exists h', b. rewrite lookup_delete_ne; [done|]. intros ->.
      rewrite Hx in Hh. injection Hh as ->. by rewrite (Hq q) in Ha.
    + right. right. left. exists h', b, st. rewrite lookup_delete_ne; [done|]. intros ->.
      rewrite Hx in Hh. injection Hh as ->. by rewrite (Hq q) in Ha.
  - intros b. rewrite Hp. apply H5.
  - intros st. rewrite Hp. apply H6.
  - intros b st. rewrite Hp. apply H7.
  - intros b w. rewrite Hp. apply H8.
  - by rewrite Hp.
  - simpl. rewrite Hd. destruct x as [b|b q [a|]|st|b q w st|w]; simpl; set_solver.
Qed.

Lemma disable_twice q s :
  set_registered (delete q) (set_registered (delete q) s) = set_registered (delete q) s.
Proof. unfold set_registered. simpl. by rewrite delete_delete_eq. Qed.

Lemma drop_handle_ok s h x : inv s → dropping s = [] → handles s !! h = Some x →
  ∃ s', drop_handle h x s = Done (tt, s') ∧ inv s' ∧ dropping s' = [].
Proof.
  intros Hi Hd Hx.
  set (s0 := match handle_queue x with Some q => set_registered (delete q) s | None => s end).
  assert (drop_handle h x s = match x with
    | Base b => drop_base b
    | Partition b _ callback => _ ← drop_base b; drop_callback callback
    | Stream st => drop_stream st
    | StreamPartition b _ w st => _ ← drop_base b; _ ← drop_slab w; drop_stream st
    | Task w => drop_slab w
    end (taken h x s0)) as ->.
  { unfold drop_handle, cb_event_disable. destruct x; try done.
    unfold mbind, comp_bind, modify. by rewrite disable_twice. }
  assert (inv (taken h x s0)) as Ht.
  { apply taken_ok.
    - unfold s0. destruct (handle_queue x); [by apply disable_ok|done].
    - unfold s0. by destruct (handle_queue x).
    - unfold s0. by destruct (handle_queue x).
    - unfold s0. intros q ->. simpl. apply lookup_delete_eq. }
  assert (dropping (taken h x s0) = handle_refs x) as Hd0.
  { unfold s0. destruct (handle_queue x); simpl; by rewrite Hd, app_nil_r. }
  destruct x as [b|b q cb|st|b q w st|w]; simpl in Hd0.
  - destruct (drop_base_ok _ _ _ _ Ht Hd0 eq_refl) as (s' & ? & ? & ? & _). by exists s'.
  - destruct (drop_base_ok _ _ _ _ Ht Hd0 eq_refl) as (s1 & H1 & Hi1 & Hd1 & _).
    destruct (drop_callback_ok s1 cb [] Hi1) as (s2 & H2 & Hi2 & Hd2 & _); [by rewrite app_nil_r|].
    exists s2. by rewrite (comp_bind_run _ _ _ _ _ H1).
  - destruct (drop_stream_ok _ _ _ Ht Hd0) as (s' & ? & ? & ? & _). by exists s'.
  - destruct (drop_base_ok _ _ _ _ Ht Hd0 eq_refl) as (s1 & H1 & Hi1 & Hd1 & _).
    destruct (drop_slab_ok _ _ _ Hi1 Hd1) as (s2 & H2 & Hi2 & Hd2 & _).
    destruct (drop_stream_ok _ _ _ Hi2 Hd2) as (s3 & H3 & Hi3 & Hd3 & _).
    exists s3. by rewrite (comp_bind_run _ _ _ _ _ H1), (comp_bind_run _ _ _ _ _ H2).
  - destruct (drop_slab_ok _ _ _ Ht Hd0) as (s' & ? & ? & ? & _). by exists s'.
Qed.

(** ** New values *)

Lemma pointed_mono s s' q a :
  (∀ b x, bases s !! b = Some x → b_queue x = q → bases s' !! b = Some x) →
  (∀ h x, handles s !! h = Some x → handle_queue x = Some q → handles s' !! h = Some x) →
  (∀ r, r ∈ refs s → r ∈ refs s') → pointed s q a → pointed s' q a.
Proof.
  intros Hb Hh Hr [(b & x & Hx & Hq & Ha)|[(h & b & Hx)|[(h & b & st & Hx)|(b & x & Hm & Hx & Hq)]]].
  - left. exists b, x. auto.
  - right. left. exists h, b. auto.
  - right. right. left. exists h, b, st. auto.
  - do 3 right. exists b, x. auto.
Qed.

(** References more: [rs] are those of new values. *)
Lemma inv_grow s s' rs : inv s → refs s' ≡ₚ rs ++ refs s →
  (∀ a, a ∈ heap s' ↔ RBox a ∈ rs ∨ RSlab a ∈ rs ∨ a ∈ heap s) →
  NoDup (boxes rs) → (∀ a, RBox a ∈ rs → (a ∉ heap s) ∧ RSlab a ∉ rs) →
  (∀ a, RSlab a ∈ rs → RBox a ∉ refs s) →
  (∀ q a, registered s' !! q = Some a → pointed s' q a) →
  (∀ b, is_Some (bases s' !! b) ↔ b ∈ base_holders rs ∨ is_Some (bases s !! b)) →
  (∀ st, is_Some (streams s' !! st) ↔ RStream st ∈ rs ∨ is_Some (streams s !! st)) →
  (∀ st x, streams s !! st = Some x → streams s' !! st = Some x) →
  (∀ b st, RInner b st ∈ rs → ∃ w, streams s' !! st = Some {| s_base := b; s_wakers := w |}) →
  (∀ b w, RMain b w ∈ rs ++ refs s → RBase b ∉ rs ++ refs s) → NoDup (mains (rs ++ refs s)) →
  stack_ok (dropping s') → inv s'.
Proof.
  intros Hi Hp Hh Hn Hb Hw Hr Hbs Hst Hkeep Hin Hpr Hm Hs. split; [..|done].
  - rewrite Hp. unfold boxes. rewrite omap_app. apply NoDup_app. split; [done|]. split; [|apply Hi].
    intros a Ha%elem_of_boxes Hx%elem_of_boxes. destruct (Hb a Ha) as [Hna _]. apply Hna, (iv_heap _ Hi). by left.
  - intros a. rewrite Hp, Hh, (iv_heap _ Hi), !elem_of_app. naive_solver.
  - intros a. rewrite Hp, !elem_of_app. intros [Ha|Ha] [Ha'|Ha'].
    + by apply (Hb a Ha).
    + destruct (Hb a Ha) as [Hna _]. apply Hna, (iv_heap _ Hi). by right.
    + by apply (Hw a).
    + by apply (iv_apart _ Hi a).
  - done.
  - intros b. rewrite Hp, Hbs, (iv_bases _ Hi). unfold base_holders. by rewrite omap_app, elem_of_app.
  - intros st. rewrite Hp, Hst, (iv_streams _ Hi). by rewrite elem_of_app.
  - intros b st. rewrite Hp, elem_of_app. intros [?|Hx]; [by apply Hin|].
    destruct (iv_inner _ Hi b st Hx) as [w Hw']. exists w. by apply Hkeep.
  - intros b w. rewrite Hp. apply Hpr.
  - by rewrite Hp.
Qed.

Definition added (x : handle) (s : store) : store := set_handles <[fresh (dom (handles s)) := x]> s.

Lemma fresh_lookup {A} (m : gmap nat A) : m !! fresh (dom m) = None.
Proof. apply not_elem_of_dom, is_fresh. Qed.

Lemma added_refs x s : refs (added x s) ≡ₚ handle_refs x ++ refs s.
Proof. unfold refs. simpl. rewrite map_refs_insert by apply fresh_lookup. solve_Permutation. Qed.

Lemma added_handles x s h y : handles s !! h = Some y → handles (added x s) !! h = Some y.
Proof. intros Hy. simpl. rewrite lookup_insert_ne; [done|]. intros <-. by rewrite fresh_lookup in Hy. Qed.

Lemma handle_elem s h x r : handles s !! h = Some x → r ∈ handle_refs x → r ∈ refs s.
Proof. intros Hx Hr. apply elem_of_refs. right. left. by exists h, x. Qed.

(** An [Arc] is cloned: into a variable, or into a partition queue. *)
Lemma share_ok s x : inv s →
  match x with
  | Base b | Partition b _ None => RBase b ∈ refs s
  | Stream st => RStream st ∈ refs s
  | _ => False
  end → inv (added x s).
Proof.
  intros Hi Hx. assert (∀ b w, RMain b w ∈ handle_refs x ++ refs s → RMain b w ∈ refs s) as Hmain.
  { intros b w [Hin|?]%elem_of_app; [|done]. destruct x as [|? ? []| | |]; simpl in *; set_solver. }
  assert (∀ r, r ∈ handle_refs x → r ∈ refs s) as Hold.
  { intros r Hr. destruct x as [|? ? []| | |]; simpl in *; set_solver. }
  apply (inv_grow s _ (handle_refs x) Hi (added_refs x s)); simpl.
  - intros a. rewrite (iv_heap _ Hi). naive_solver.
  - destruct x as [|? ? []| | |]; simpl; by constructor || done.
  - intros a Ha. destruct x as [|? ? []| | |]; simpl in *; set_solver.
  - intros a Ha Hb. apply (iv_apart _ Hi a Hb). by apply Hold.
  - intros q a Ha. apply (pointed_mono s); [done|..|by apply (iv_registered _ Hi)].
    + intros h y Hy _. by apply added_handles.
    + intros r Hr. rewrite added_refs. apply elem_of_app. by right.
  - intros b. rewrite (iv_bases _ Hi), !elem_of_base_holders. naive_solver.
  - intros st. rewrite (iv_streams _ Hi). naive_solver.
  - done.
  - intros b st Hr. apply (iv_inner _ Hi). by apply Hold.
  - intros b w Hm%Hmain Hb. apply (iv_private _ Hi b w Hm). apply elem_of_app in Hb as [?|?]; [by apply Hold|done].
  - unfold mains. rewrite omap_app. destruct x as [|? ? []| | |]; simpl; try done; apply Hi.
  - apply Hi.
Qed.

(** [BaseConsumer::new] in a variable. *)
Lemma new_base_ok s q : inv s → ∃ s', exec (NewBase q) s = Done (tt, s') ∧ inv s' ∧ dropping s' = dropping s.
Proof.
  intros Hi. set (b := fresh (dom (bases s))). set (x := {| b_queue := q; b_callback := None |}).
  assert (bases s !! b = None) as Hb by apply fresh_lookup.
  assert (∀ r, r ∈ refs s → ref_base r ≠ Some b) as Hnb.
  { intros r Hr Hrb. assert (b ∈ base_holders (refs s)) as [y Hy]%(iv_bases _ Hi); [|congruence].
    apply list_elem_of_omap. by exists r. }
  exists (added (Base b) (set_bases <[b := x]> s)). split; [done|]. split; [|done].
  assert (refs (added (Base b) (set_bases <[b := x]> s)) ≡ₚ [RBase b] ++ refs s) as Hp.
  { rewrite added_refs. unfold refs. simpl. by rewrite (map_refs_insert _ _ _ _ Hb). }
  apply (inv_grow s _ [RBase b] Hi Hp); simpl.
  - set_solver.
  - constructor.
  - set_solver.
  - set_solver.
  - intros p a Ha. apply (pointed_mono s); [..|by apply (iv_registered _ Hi)].
    + intros b' y Hy _. simpl. rewrite lookup_insert_ne; [done|congruence].
    + intros h y Hy _. by apply (added_handles (Base b) (set_bases <[b := x]> s)).
    + intros r Hr. rewrite Hp. by right.
  - intros b'. rewrite list_elem_of_singleton, lookup_insert_is_Some. destruct (decide (b = b')); naive_solver.
  - set_solver.
  - done.
  - set_solver.
  - intros b' w. rewrite !elem_of_cons. intros [|Hm] [Hb'|?]; try done; [|by apply (iv_private _ Hi b' w)].
    injection Hb' as ->. by apply (Hnb _ Hm).
  - apply Hi.
  - apply Hi.
Qed.

(** Nothing refers to what does not exist yet. *)
Lemma unborn s : inv s →
  (∀ r, r ∈ refs s → ref_base r ≠ Some (fresh (dom (bases s))))
  ∧ (RStream (fresh (dom (streams s))) ∉ refs s)
  ∧ (RBox (fresh (heap s)) ∉ refs s) ∧ RSlab (fresh (heap s)) ∉ refs s.
Proof.
  intros Hi. split_and!.
  - intros r Hr Hb. assert (fresh (dom (bases s)) ∈ base_holders (refs s)) as [y Hy]%(iv_bases _ Hi).
    + apply list_elem_of_omap. by exists r.
    + by rewrite fresh_lookup in Hy.
  - intros [y Hy]%(iv_streams _ Hi). by rewrite fresh_lookup in Hy.
  - intros Hb. apply (is_fresh (heap s)), (iv_heap _ Hi). by left.
  - intros Hb. apply (is_fresh (heap s)), (iv_heap _ Hi). by right.
Qed.

Lemma new_stream_ok s q : inv s → ∃ s', exec (NewStream q) s = Done (tt, s') ∧ inv s' ∧ dropping s' = dropping s.
Proof.
  intros Hi. destruct (unborn s Hi) as (Hnb & Hns & Hnx & Hnw).
  set (b := fresh (dom (bases s))) in *. set (a := fresh (heap s)) in *. set (st := fresh (dom (streams s))) in *.
  set (x := {| b_queue := q; b_callback := None |}). set (y := {| s_base := b; s_wakers := a |}).
  assert (bases s !! b = None) as Hb by apply fresh_lookup.
  assert (streams s !! st = None) as Hst by apply fresh_lookup.
  set (s4 := set_streams <[st := y]> (set_registered <[q := a]> (set_heap (λ h, {[ a ]} ∪ h) (set_bases <[b := x]> s)))).
  exists (added (Stream st) (added (Task a) s4)). split; [done|]. split; [|done].
  assert (refs (added (Stream st) (added (Task a) s4)) ≡ₚ [RStream st; RSlab a; RMain b a; RSlab a] ++ refs s) as Hp.
  { rewrite !added_refs. unfold refs. simpl. rewrite (map_refs_insert _ _ _ _ Hb), (map_refs_insert _ _ _ _ Hst).
    simpl. solve_Permutation. }
  clearbody a b st. apply (inv_grow s _ _ Hi Hp); simpl.
  - intros c. rewrite !elem_of_cons, !elem_of_nil, elem_of_union, elem_of_singleton. naive_solver.
  - constructor.
  - set_solver.
  - intros c Hc. assert (c = a) as -> by set_solver. done.
  - intros p c [[<- <-]|[Hne Hc]]%lookup_insert_Some.
    + do 3 right. exists b, x. rewrite Hp. split; [set_solver|]. simpl. by rewrite lookup_insert_eq.
    + apply (pointed_mono s); [..|by apply (iv_registered _ Hi)].
      * intros b' z Hz _. simpl. rewrite lookup_insert_ne; [done|congruence].
      * intros h z Hz _. by apply (added_handles (Stream st)), (added_handles (Task a) s4).
      * intros r Hr. rewrite Hp. apply elem_of_app. by right.
  - intros b'. rewrite list_elem_of_singleton, lookup_insert_is_Some. destruct (decide (b = b')); naive_solver.
  - intros st'. rewrite !elem_of_cons, !elem_of_nil, lookup_insert_is_Some. destruct (decide (st = st')); naive_solver.
  - intros st' z Hz. rewrite lookup_insert_ne; [done|congruence].
  - set_solver.
  - intros b' w. rewrite !elem_of_cons. intros [|[|[[= -> ->]|[|Hm]]]] [|[|[|[|Hx]]]]; try done.
    + by apply (Hnb _ Hx).
    + by apply (iv_private _ Hi b' w).
  - constructor; [|apply Hi]. intros [w Hw]%elem_of_mains. by apply (Hnb _ Hw).
  - apply Hi.
Qed.

Lemma stream_split_ok s st q : inv s → RStream st ∈ refs s →
  ∃ s', stream_split st q s = Done (tt, s') ∧ inv s' ∧ dropping s' = dropping s.
Proof.
  intros Hi [[b w] Hx]%(iv_streams _ Hi). destruct (unborn s Hi) as (_ & _ & Hnx & Hnw).
  set (a := fresh (heap s)) in *.
  set (s1 := set_registered <[q := a]> (set_heap (λ h, {[ a ]} ∪ h) s)).
  exists (added (StreamPartition b q a st) s1). split.
  { unfold stream_split, lift, expect, mbind, comp_bind, get. by rewrite Hx. }
  split; [|done]. pose proof (added_refs (StreamPartition b q a st) s1) as Hp. change (refs s1) with (refs s) in Hp.
  assert (RMain b w ∈ refs s) as Hm.
  { apply elem_of_refs. do 2 right. left. exists st, {| s_base := b; s_wakers := w |}. split; [done|left]. }
  clearbody a. apply (inv_grow s _ _ Hi Hp); simpl.
  - intros c. rewrite !elem_of_cons, !elem_of_nil, elem_of_union, elem_of_singleton. naive_solver.
  - constructor.
  - set_solver.
  - intros c Hc. assert (c = a) as -> by set_solver. done.
  - intros p c [[<- <-]|[Hne Hc]]%lookup_insert_Some.
    + do 2 right. left. eexists _, b, st. simpl. apply lookup_insert_eq.
    + apply (pointed_mono s); [done|..|by apply (iv_registered _ Hi)].
      * intros h z Hz _. by apply (added_handles _ s1).
      * intros r Hr. rewrite Hp. apply elem_of_app. by right.
  - intros b'. rewrite list_elem_of_singleton. split; [by right|]. intros [->|?]; [|done].
    apply (iv_bases _ Hi), elem_of_base_holders. eauto.
  - intros st'. rewrite !elem_of_cons, !elem_of_nil. naive_solver.
  - done.
  - intros b' st' Hin. exists w. assert (b' = b ∧ st' = st) as [-> ->] by set_solver. done.
  - intros b' w'. rewrite !elem_of_cons. intros [|[|[|Hm']]] [|[|[|Hb']]]; try done. by apply (iv_private _ Hi b' w').
  - apply Hi.
  - apply Hi.
Qed.

(** ** Replacing a callback *)

Lemma map_refs_replace {A} (f : A → list ref) m i x y : m !! i = Some x →
  f x ++ map_refs f (<[i := y]> m) ≡ₚ f y ++ map_refs f m.
Proof.
  intros Hx. rewrite (map_refs_delete f m i x Hx), <- insert_delete_eq, map_refs_insert by apply lookup_delete_eq.
  solve_Permutation.
Qed.

(** The store once a new box [f] is registered on [q], with the old one in [old] yet
    to be dropped. *)
Lemma replaced_ok s s' q old : inv s → dropping s = [] → let f := fresh (heap s) in
  refs s' ≡ₚ RBox f :: refs s → heap s' = {[ f ]} ∪ heap s → registered s' = <[q := f]> (registered s) →
  streams s' = streams s → dropping s' = box_refs old → pointed s' q f →
  (∀ b, is_Some (bases s' !! b) ↔ is_Some (bases s !! b)) →
  (∀ b x, bases s !! b = Some x → b_queue x ≠ q → bases s' !! b = Some x) →
  (∀ h x, handles s !! h = Some x → handle_queue x ≠ Some q → handles s' !! h = Some x) →
  ∃ s'', drop_callback old s' = Done (tt, s'') ∧ inv s'' ∧ dropping s'' = [].
Proof.
  intros Hi Hd f Hp Hh Hr Hst Hd' Hpt Hb Hbk Hhk. destruct (unborn s Hi) as (_ & _ & Hnx & Hnw).
  change (fresh (heap s)) with f in Hnx, Hnw. assert (f ∉ heap s) as Hf by apply is_fresh. clearbody f.
  assert (inv s') as Hi'.
  { apply (inv_grow s s' [RBox f] Hi Hp); rewrite ?Hh, ?Hr, ?Hst, ?Hd'.
    - intros a. rewrite !elem_of_cons, !elem_of_nil, elem_of_union, elem_of_singleton. naive_solver.
    - repeat constructor. apply not_elem_of_nil.
    - intros a Ha. assert (a = f) as -> by set_solver. split; [done|set_solver].
    - set_solver.
    - intros p a [[<- <-]|[Hne Ha]]%lookup_insert_Some; [done|].
      apply (pointed_mono s); [| | |by apply (iv_registered _ Hi)].
      + intros b x Hx Hq. apply Hbk; [done|congruence].
      + intros h x Hx Hq. apply Hhk; [done|congruence].
      + intros r Hx. rewrite Hp. by right.
    - intros b. rewrite Hb. unfold base_holders. simpl. set_solver.
    - set_solver.
    - done.
    - set_solver.
    - intros b w. simpl. rewrite !elem_of_cons. intros [|Hm] [|Hx]; try done. by apply (iv_private _ Hi b w).
    - apply Hi.
    - by destruct old. }
  destruct (drop_callback_ok s' old [] Hi') as (s'' & H1 & H2 & H3 & _); [by rewrite app_nil_r|]. by exists s''.
Qed.

Lemma base_set_callback_ok s b x : inv s → dropping s = [] → bases s !! b = Some x →
  ∃ s', base_set_callback b x s = Done (tt, s') ∧ inv s' ∧ dropping s' = [].
Proof.
  intros Hi Hd Hx. set (f := fresh (heap s)). set (y := {| b_queue := b_queue x; b_callback := Some f |}).
  apply (replaced_ok s (set_dropping (app (base_refs x)) (set_bases <[b := y]>
    (set_registered <[b_queue x := f]> (set_heap (λ h, {[ f ]} ∪ h) s)))) (b_queue x)); try done.
  - unfold refs. simpl. pose proof (map_refs_replace base_refs (bases s) b x y Hx) as Hp. 
    trans (dropping s ++ map_refs handle_refs (handles s) ++ map_refs stream_refs (streams s)
      ++ base_refs x ++ map_refs base_refs (<[b := y]> (bases s))); [solve_Permutation|].
    rewrite Hp. simpl. fold f. solve_Permutation.
  - simpl. by rewrite Hd, app_nil_r.
  - left. exists b, y. simpl. by rewrite lookup_insert_eq.
  - intros b'. simpl. rewrite lookup_insert_is_Some. destruct (decide (b = b')) as [->|]; naive_solver.
  - intros b' z Hz Hq. simpl. rewrite lookup_insert_ne; [done|congruence].
Qed.

Lemma partition_set_callback_ok s h b q cb : inv s → dropping s = [] → handles s !! h = Some (Partition b q cb) →
  ∃ s', partition_set_callback h b q cb s = Done (tt, s') ∧ inv s' ∧ dropping s' = [].
Proof.
  intros Hi Hd Hx. set (f := fresh (heap s)).
  apply (replaced_ok s (set_dropping (app (box_refs cb)) (set_handles <[h := Partition b q (Some f)]>
    (set_registered <[q := f]> (set_heap (λ h, {[ f ]} ∪ h) s)))) q); try done.
  - unfold refs. simpl. pose proof (map_refs_replace handle_refs _ h _ (Partition b q (Some f)) Hx) as Hp. 
    simpl in Hp. apply Permutation_cons_inv in Hp.
    trans (dropping s ++ (box_refs cb ++ map_refs handle_refs (<[h := Partition b q (Some f)]> (handles s)))
      ++ map_refs stream_refs (streams s) ++ map_refs base_refs (bases s)); [solve_Permutation|].
    rewrite Hp. fold f. solve_Permutation.
  - simpl. by rewrite Hd, app_nil_r.
  - right. left. exists h, b. simpl. by rewrite lookup_insert_eq.
  - intros h' z Hz Hq. simpl. rewrite lookup_insert_ne; [done|]. intros <-. rewrite Hx in Hz. by injection Hz as <-.
Qed.

(** ** Runs *)

Lemma nonempty_ok q s : inv s → nonempty q s = Done (tt, s).
Proof.
  intros Hi. unfold nonempty, mbind, comp_bind, get. destruct (registered s !! q) as [a|] eqn:Ha; [|done].
  rewrite bool_decide_eq_true_2; [done|]. apply (iv_heap _ Hi). apply (pointed_live _ q); [apply Hi|].
  by apply (iv_registered _ Hi).
Qed.

Lemma exec_ok o s : inv s → dropping s = [] → ∃ s', exec o s = Done (tt, s') ∧ inv s' ∧ dropping s' = [].
Proof.
  intros Hi Hd. assert (∃ s', Done (tt, s) = Done (tt, s') ∧ inv s' ∧ dropping s' = []) as Hskip by (by exists s).
  destruct o as [q|q|h|h|h q|h|q].
  - destruct (new_base_ok s q Hi) as (s' & ? & ? & ?). exists s'. by rewrite <- Hd.
  - destruct (new_stream_ok s q Hi) as (s' & ? & ? & ?). exists s'. by rewrite <- Hd.
  - unfold exec, mbind, comp_bind, get. destruct (handles s !! h) as [[b| |st| |]|] eqn:Hh; try done.
    + exists (added (Base b) s). split; [done|]. split; [|done]. apply share_ok; [done|].
      apply (handle_elem _ _ _ _ Hh). left.
    + exists (added (Stream st) s). split; [done|]. split; [|done]. apply share_ok; [done|].
      apply (handle_elem _ _ _ _ Hh). left.
  - unfold exec. unfold mbind at 1, comp_bind at 1, get at 1.
    destruct (handles s !! h) as [[b|b q cb|st| |]|] eqn:Hh; try done.
    + destruct (sole_owner b s); [|done].
      destruct (proj2 (iv_bases _ Hi b)) as [x Hx].
      { apply elem_of_base_holders. left. apply (handle_elem _ _ _ _ Hh). left. }
      unfold lift, expect, mbind, comp_bind. rewrite Hx. by apply base_set_callback_ok.
    + by apply partition_set_callback_ok.
  - unfold exec. unfold mbind at 1, comp_bind at 1, get at 1.
    destruct (handles s !! h) as [[b| |st| |]|] eqn:Hh; try done.
    + exists (added (Partition b q None) s). split; [done|]. split; [|done]. apply share_ok; [done|].
      apply (handle_elem _ _ _ _ Hh). left.
    + destruct (stream_split_ok s st q Hi) as (s' & ? & ? & ?); [apply (handle_elem _ _ _ _ Hh); left|].
      exists s'. by rewrite <- Hd.
  - unfold exec. unfold mbind at 1, comp_bind at 1, get at 1.
    destruct (handles s !! h) as [x|] eqn:Hh; [|done]. by apply drop_handle_ok.
  - exists s. split; [by apply nonempty_ok|done].
Qed.

Lemma exec_all_ok os s : inv s → dropping s = [] →
  ∃ s', exec_all os s = Done (tt, s') ∧ inv s' ∧ dropping s' = [].
Proof.
  revert s. induction os as [|o os IH]; intros s Hi Hd; [by exists s|].
  destruct (exec_ok o s Hi Hd) as (s1 & H1 & Hi1 & Hd1). destruct (IH s1 Hi1 Hd1) as (s2 & H2 & Hi2 & Hd2).
  exists s2. cbn [exec_all]. by rewrite (comp_bind_run _ _ _ _ _ H1).
Qed.

(** C2: queue callbacks are memory safe. Whatever consumers, partition
    queues, streams and background tasks a program creates, shares, gives
    callbacks to and drops, in any order, no allocation is freed twice or while
    librdkafka has a pointer to it, and a queue that becomes nonempty at any time
    calls back into a live closure or waker slab. *)
Theorem callbacks_memory_safe os :
  ∃ s, exec_all os store_new = Done (tt, s) ∧ ∀ q a, registered s !! q = Some a → a ∈ heap s.
Proof.
  destruct (exec_all_ok os store_new cb_inv_new eq_refl) as (s & Hr & Hi & _). exists s. split; [done|].
  intros q a Ha. apply (iv_heap _ Hi). apply (pointed_live _ q); [apply Hi|]. by apply (iv_registered _ Hi).
Qed.

(** C33: nothing outlives the values of the program. Once all of them
    are dropped, the background tasks included, every consumer, closure and slab
    has been freed and librdkafka has no callback left. *)
Theorem callbacks_no_leak os s :
  exec_all os store_new = Done (tt, s) → handles s = ∅ →
  heap s = ∅ ∧ bases s = ∅ ∧ streams s = ∅ ∧ registered s = ∅.
Proof.
  intros Hr Hh. destruct (exec_all_ok os store_new cb_inv_new eq_refl) as (s' & Hr' & Hi & Hd).
  rewrite Hr in Hr'. injection Hr' as <-.
  assert (streams s = ∅) as Hst.
  { apply map_empty. intros st. destruct (streams s !! st) as [x|] eqn:Hx; [|done].
    assert (RStream st ∈ refs s) as Hin by (apply (iv_streams _ Hi); by eexists).
    rewrite elem_of_refs, Hd, Hh in Hin. unfold stream_refs, base_refs in Hin. setoid_rewrite box_refs_elem in Hin.
    set_solver. }
  assert (bases s = ∅) as Hb.
  { apply map_empty. intros b. destruct (bases s !! b) as [x|] eqn:Hx; [|done].
    assert (b ∈ base_holders (refs s)) as Hin by (apply (iv_bases _ Hi); by eexists).
    rewrite elem_of_base_holders in Hin. setoid_rewrite elem_of_refs in Hin. rewrite Hd, Hh, Hst in Hin.
    unfold base_refs in Hin. setoid_rewrite box_refs_elem in Hin. set_solver. }
  assert (refs s = []) as Hrefs by (unfold refs; by rewrite Hd, Hh, Hst, Hb).
  split_and!; [|done|done|].
  - apply set_eq. intros a. rewrite (iv_heap _ Hi), Hrefs. set_solver.
  - apply map_empty. intros q. destruct (registered s !! q) as [a|] eqn:Ha; [|done].
    apply (iv_registered _ Hi), pointed_live in Ha; [|apply Hi]. rewrite Hrefs in Ha. set_solver.
Qed.

(** A stream consumer with a partition queue that outlives the user's variable. *)
Definition cb_program : list op :=
  [NewStream 1; Split 1 2; DropValue 1; Nonempty 1; Nonempty 2; DropValue 0; Nonempty 1; DropValue 2].

Lemma callbacks_no_leak_witness :
  heap store_new = ∅ ∧ bases store_new = ∅ ∧ streams store_new = ∅ ∧ registered store_new = ∅.
Proof. apply (callbacks_no_leak cb_program store_new); vm_compute; reflexivity. Defined.
