(* ===== verification/BaseProducer.v ===== *)
(** * The base producer

    [src/producer/mod.rs], [src/producer/base_producer.rs] and [IntoOpaque] of
    [src/util.rs]: records and their builders, purge flags, the partitioner
    callback, sending, polling for delivery reports, flushing, transactions and
    the drop of a producer.

    A record's opaque value travels through librdkafka as a raw pointer: the
    class [IntoOpaque] gives the conversions on a heap of leaked values and
    [OpaqueSpec] what they promise, an invariant that relates the heap to the
    list of the pointers that are out with their values. A producer runs on a
    state [pworld]: the world of the client and that heap. *)

From stdpp Require Import strings gmap prelude.
From S2P Require Import Prelude ErrorCodes KafkaErrors Util TopicPartitionList Config Message Client.

Local Open Scope Z_scope.

(** ** Opaque values *)

Class IntoOpaque (D : Type) := {
  opaque_heap : Type;
  into_ptr : D → opaque_heap → option nat * opaque_heap;
  from_ptr : option nat → opaque_heap → outcome (D * opaque_heap);
}.

(** [opaque_inv h l]: the pointers of [l] are out, each for the value beside it.
    Converting a value adds a pointer, converting a pointer back gives the value
    that went out with it and removes it. *)
Class OpaqueSpec (D : Type) `{!IntoOpaque D} := {
  opaque_inv : opaque_heap → list (option nat * D) → Prop;
  opaque_perm h l l' : l ≡ₚ l' → opaque_inv h l → opaque_inv h l';
  opaque_into d h l p h' : opaque_inv h l → into_ptr d h = (p, h') → opaque_inv h' ((p, d) :: l);
  opaque_from p d h l : opaque_inv h ((p, d) :: l) →
    ∃ h', from_ptr p h = Done (d, h') ∧ opaque_inv h' l;
}.

(** [impl IntoOpaque for ()]. *)
#[export] Instance IntoOpaque_unit : IntoOpaque unit := {
  opaque_heap := unit;
  into_ptr _ h := (None, h);
  from_ptr _ h := Done (tt, h);
}.

(** [impl IntoOpaque for usize]: the address is the number; zero is null. *)
#[export] Instance IntoOpaque_usize : IntoOpaque nat := {
  opaque_heap := unit;
  into_ptr n h := (match n with O => None | _ => Some n end, h);
  from_ptr p h := Done (default 0%nat p, h);
}.

(** [impl IntoOpaque for Box<T>]: [Box::into_raw] leaks the allocation, and
    [Box::from_raw] takes it back, which is undefined behaviour for a pointer that
    is not out. *)
Record Box (T : Type) := mkBox { unbox : T }.
Arguments mkBox {T} _.
Arguments unbox {T} _.

#[export] Instance IntoOpaque_Box {T} : IntoOpaque (Box T) := {
  opaque_heap := gmap nat T;
  into_ptr b h := let a := fresh (dom h) in (Some a, <[a := unbox b]> h);
  from_ptr p h :=
    match p with
    | Some a => match h !! a with Some x => Done (mkBox x, delete a h) | None => Panic "double free" end
    | None => Panic "null pointer"
    end;
}.

(** [impl IntoOpaque for Arc<T>]: an [Arc] is the address of its allocation;
    the heap counts the strong references that have been leaked. *)
Record Arc := mkArc { arc_addr : nat }.

#[export] Instance IntoOpaque_Arc : IntoOpaque Arc := {
  opaque_heap := gmap nat nat;
  into_ptr a h := (Some (arc_addr a), <[arc_addr a := S (default 0%nat (h !! arc_addr a))]> h);
  from_ptr p h :=
    match p with
    | Some a => match h !! a with
                | Some (S n) => Done (mkArc a, <[a := n]> h)
                | _ => Panic "reference count underflow"
                end
    | None => Panic "null pointer"
    end;
}.

(** ** Records *)

Record BaseRecord `{N : HeadersNative} (K P D : Type) := mkBaseRecord {
  br_topic : string;
  br_partition : option Z;
  br_payload : option P;
  br_key : option K;
  br_timestamp : option Z;
  br_headers : option RDKafkaHeaders;
  br_delivery_opaque : D;
}.
Arguments mkBaseRecord {N K P D} _ _ _ _ _ _ _.
Arguments br_topic {N K P D} _.
Arguments br_partition {N K P D} _.
Arguments br_payload {N K P D} _.
Arguments br_key {N K P D} _.
Arguments br_timestamp {N K P D} _.
Arguments br_headers {N K P D} _.
Arguments br_delivery_opaque {N K P D} _.

Section records.
Context `{N : HeadersNative} {K P D : Type}.
Implicit Types (r : BaseRecord K P D).

(** [BaseRecord::with_opaque_to] and [BaseRecord::to]. *)
Definition with_opaque_to (topic : string) (delivery_opaque : D) : BaseRecord K P D :=
  mkBaseRecord topic None None None None None delivery_opaque.
Definition record_to (topic : string) : BaseRecord K P unit :=
  mkBaseRecord topic None None None None None tt.

Definition with_partition (p : Z) r : BaseRecord K P D :=
  mkBaseRecord (br_topic r) (Some p) (br_payload r) (br_key r) (br_timestamp r) (br_headers r)
    (br_delivery_opaque r).
Definition with_payload (p : P) r : BaseRecord K P D :=
  mkBaseRecord (br_topic r) (br_partition r) (Some p) (br_key r) (br_timestamp r) (br_headers r)
    (br_delivery_opaque r).
Definition with_key (k : K) r : BaseRecord K P D :=
  mkBaseRecord (br_topic r) (br_partition r) (br_payload r) (Some k) (br_timestamp r) (br_headers r)
    (br_delivery_opaque r).
Definition with_timestamp (t : Z) r : BaseRecord K P D :=
  mkBaseRecord (br_topic r) (br_partition r) (br_payload r) (br_key r) (Some t) (br_headers r)
    (br_delivery_opaque r).
Definition with_record_headers (h : RDKafkaHeaders) r : BaseRecord K P D :=
  mkBaseRecord (br_topic r) (br_partition r) (br_payload r) (br_key r) (br_timestamp r) (Some h)
    (br_delivery_opaque r).
Definition with_topic (t : string) r : BaseRecord K P D :=
  mkBaseRecord t (br_partition r) (br_payload r) (br_key r) (br_timestamp r) (br_headers r)
    (br_delivery_opaque r).
Definition with_delivery_opaque (d : D) r : BaseRecord K P D :=
  mkBaseRecord (br_topic r) (br_partition r) (br_payload r) (br_key r) (br_timestamp r) (br_headers r) d.

End records.

(** ** Purge flags *)

Definition RD_KAFKA_PURGE_F_QUEUE : Z := 1.
Definition RD_KAFKA_PURGE_F_INFLIGHT : Z := 2.
Definition RD_KAFKA_PURGE_F_NON_BLOCKING : Z := 4.

(** [struct PurgeConfig], its [Default] and its methods. *)
Record PurgeConfig := mkPurge { flag_bits : Z }.
Definition purge_default : PurgeConfig := mkPurge 0.
Definition purge_queue (c : PurgeConfig) : PurgeConfig :=
  mkPurge (Z.lor (flag_bits c) RD_KAFKA_PURGE_F_QUEUE).
Definition purge_inflight (c : PurgeConfig) : PurgeConfig :=
  mkPurge (Z.lor (flag_bits c) RD_KAFKA_PURGE_F_INFLIGHT).
Definition purge_non_blocking (c : PurgeConfig) : PurgeConfig :=
  mkPurge (Z.lor (flag_bits c) RD_KAFKA_PURGE_F_NON_BLOCKING).

(** The methods that [negative_and_debug_impls!] generates from a setter. *)
Definition purge_unset (set_fn : PurgeConfig → PurgeConfig) (c : PurgeConfig) : PurgeConfig :=
  mkPurge (Z.land (flag_bits c) (Z.lnot (flag_bits (set_fn purge_default)))).
Definition purge_no_queue : PurgeConfig → PurgeConfig := purge_unset purge_queue.
Definition purge_no_inflight : PurgeConfig → PurgeConfig := purge_unset purge_inflight.
Definition purge_blocking : PurgeConfig → PurgeConfig := purge_unset purge_non_blocking.

(** The three fields of [Debug for PurgeConfig]. *)
Definition purge_flag (set_fn : PurgeConfig → PurgeConfig) (c : PurgeConfig) : bool :=
  negb (Z.land (flag_bits c) (flag_bits (set_fn purge_default)) =? 0).
Definition purge_debug (c : PurgeConfig) : bool * bool * bool :=
  (purge_flag purge_queue c, purge_flag purge_inflight c, purge_flag purge_non_blocking c).

(** ** The producer *)

Definition RD_KAFKA_MSG_F_COPY : Z := 2.
Definition PARTITION_UA : Z := -1.

Class ProducerNative (W : Type) `{N : HeadersNative} := {
  rd_kafka_producev : string → Z → Z → carray Byte.byte → nat → carray Byte.byte → nat → option nat →
    Z → option RDKafkaHeaders → W → RDKafkaRespErr * W;
  rd_kafka_flush : Z → W → RDKafkaRespErr * W;
  rd_kafka_purge : Z → W → RDKafkaRespErr * W;
  rd_kafka_outq_len : W → Z;
  rd_kafka_init_transactions : Z → W → option rd_kafka_error_t * W;
  rd_kafka_begin_transaction : W → option rd_kafka_error_t * W;
  rd_kafka_send_offsets_to_transaction : tpl → nat → Z → W → option rd_kafka_error_t * W;
  rd_kafka_commit_transaction : Z → W → option rd_kafka_error_t * W;
  rd_kafka_abort_transaction : Z → W → option rd_kafka_error_t * W;
}.

(** [trait ProducerContext], less the partitioner. *)
Class ProducerContext (W : Type) (D : Type) := {
  delivery : DeliveryResult → D → comp W unit;
}.

(** [trait Partitioner] and [partitioner_cb]; the partitioner is the one that
    the context returns, if any. *)
Definition Partitioner : Type := string → option bytes → Z → (Z → bool) → outcome Z.

(** The placeholder for a context without a partitioner. *)
Definition NoCustomPartitioner : Partitioner := λ _ _ _ _, Panic "NoCustomPartitioner should not be called".

Definition partitioner_cb (custom : option Partitioner) (topic_name : string) (keydata : carray Byte.byte)
    (keylen : nat) (partition_cnt : Z) (available : Z → Z) : outcome Z :=
  let is_partition_available p := available p =? 1 in
  let key := match keydata with None => None | Some l => Some (take keylen l) end in
  part ← expect "custom partitioner is not set" custom;
  part topic_name key partition_cnt is_partition_available.

Section producer.
Context {W D : Type} `{!ClientNative W} `{!ClientContext W} `{N : HeadersNative} `{!ProducerNative W}
  `{!IntoOpaque D} `{!ProducerContext W D}.

Record pworld := { pw : W; ph : opaque_heap (D := D) }.

(** A computation of the client, and a native call, on the producer's state. *)
Definition on_world {A} (m : comp W A) : comp pworld A := λ s,
  match m (pw s) with
  | Done (a, w') => Done (a, {| pw := w'; ph := ph s |})
  | Panic msg => Panic msg
  end.

Definition native {A} (f : W → A * W) : comp pworld A := on_world (call f).

(** [D::into_ptr] and [D::from_ptr]. *)
Definition leak (d : D) : comp pworld (option nat) :=
  call (λ s, let '(p, h) := into_ptr d (ph s) in (p, {| pw := pw s; ph := h |})).

Definition reclaim (p : option nat) : comp pworld D := λ s,
  match from_ptr p (ph s) with
  | Done (d, h) => Done (d, {| pw := pw s; ph := h |})
  | Panic msg => Panic msg
  end.

(** [as_bytes] in [BaseProducer::send]. *)
Definition as_bytes {V} `{!ToBytes V} (opt : option V) : carray Byte.byte * nat :=
  match opt with
  | None => (None, 0%nat)
  | Some v => (Some (to_bytes v), length (to_bytes v))
  end.

(** [BaseProducer::send]: an error gives the record back. *)
Definition send {K P} `{!ToBytes K} `{!ToBytes P} (record : BaseRecord K P D)
    : comp pworld (result (KafkaError * BaseRecord K P D) unit) :=
  let '(payload_ptr, payload_len) := as_bytes (br_payload record) in
  let '(key_ptr, key_len) := as_bytes (br_key record) in
  match CString_new (br_topic record) with
  | Err nul_error => mret (Err (Nul nul_error, record))
  | Ok topic_cstring =>
      opaque_ptr ← leak (br_delivery_opaque record);
      produce_error ← native (rd_kafka_producev topic_cstring (default (-1) (br_partition record))
        RD_KAFKA_MSG_F_COPY payload_ptr payload_len key_ptr key_len opaque_ptr
        (default 0 (br_timestamp record)) (br_headers record));
      if resp_is_error produce_error then
        d ← reclaim opaque_ptr;
        mret (Err (MessageProduction (code_of produce_error), with_delivery_opaque d record))
      else mret (Ok tt)
  end.

(** [BaseProducer::handle_delivery_report_event]. *)
Fixpoint deliver_all (messages : list RDKafkaMessage) : comp pworld unit :=
  match messages with
  | [] => mret tt
  | msg :: messages =>
      delivery_result ← lift (from_dr_event (Some msg));
      delivery_opaque ← reclaim (msg_private msg);
      _ ← on_world (delivery delivery_result delivery_opaque);
      deliver_all messages
  end.

Definition handle_delivery_report_event (event : RDKafkaEvent) : comp pworld unit :=
  deliver_all (event_messages event).

(** [BaseProducer::handle_error_event]. *)
Definition producer_handle_error_event (event : RDKafkaEvent) : comp pworld unit :=
  on_world (modify (error (Global (code_of (event_error event)))
                          (trim (to_string_lossy (event_error_string event))))).

(** One turn of the loop of [BaseProducer::poll]. *)
Definition producer_turn (queue : nat) (deadline : Deadline) : comp pworld unit :=
  s ← get;
  event ← on_world (poll_event queue (timeout_of_deadline (clock (pw s)) deadline));
  match event with
  | Poll.Event ev =>
      if event_type ev =? RD_KAFKA_EVENT_DR then handle_delivery_report_event ev
      else if event_type ev =? RD_KAFKA_EVENT_ERROR then producer_handle_error_event ev
      else mret tt
  | _ => mret tt
  end.

Fixpoint producer_loop (fuel : nat) (queue : nat) (deadline : Deadline) : comp pworld (option unit) :=
  match fuel with
  | O => mret None
  | S fuel =>
      _ ← producer_turn queue deadline;
      s ← get;
      if elapsed (clock (pw s)) deadline then mret (Some tt) else producer_loop fuel queue deadline
  end.

(** [BaseProducer::poll]; [None] is out of fuel. *)
Definition producer_poll (fuel : nat) (queue : nat) (timeout : Timeout) : comp pworld (option unit) :=
  s ← get;
  deadline ← lift (deadline_of_timeout (clock (pw s)) timeout);
  producer_loop fuel queue deadline.

(** [BaseProducer::flush]. *)
Fixpoint flush_loop (fuel : nat) (queue : nat) (deadline : Deadline)
    : comp pworld (option (KafkaResult unit)) :=
  match fuel with
  | O => mret None
  | S fuel' =>
      ret ← native (rd_kafka_flush 0);
      match ret with
      | RD_KAFKA_RESP_ERR_NO_ERROR => mret (Some (Ok tt))
      | RD_KAFKA_RESP_ERR__TIMED_OUT =>
          s ← get;
          if elapsed (clock (pw s)) deadline then mret (Some (Err (Flush (code_of ret))))
          else
            s ← get;
            r ← producer_poll fuel queue
                  (After (Z.min (remaining (clock (pw s)) deadline) (duration_from_millis 100)));
            match r with None => mret None | Some _ => flush_loop fuel' queue deadline end
      | e => mret (Some (Err (Flush (code_of e))))
      end
  end.

Definition flush (fuel : nat) (queue : nat) (timeout : Timeout) : comp pworld (option (KafkaResult unit)) :=
  s ← get;
  deadline ← lift (deadline_of_timeout (clock (pw s)) timeout);
  flush_loop fuel queue deadline.

(** [BaseProducer::purge]. *)
Definition purge (flags : PurgeConfig) : comp pworld unit :=
  ret ← native (rd_kafka_purge (flag_bits flags));
  if resp_is_error ret then panic "purge with valid arguments failed" else mret tt.

(** [BaseProducer::in_flight_count]. *)
Definition in_flight_count (s : pworld) : Z := rd_kafka_outq_len (pw s).

(** The transaction calls: a native error object becomes [Transaction]. *)
Definition check_transaction (p : option rd_kafka_error_t) : KafkaResult unit :=
  let ret := RDKafkaError_from_ptr p in
  if rderr_is_error ret then Err (Transaction ret) else Ok tt.

Definition init_transactions (timeout : Timeout) : comp pworld (KafkaResult unit) :=
  p ← native (rd_kafka_init_transactions (as_millis timeout)); mret (check_transaction p).

Definition begin_transaction : comp pworld (KafkaResult unit) :=
  p ← native rd_kafka_begin_transaction; mret (check_transaction p).

Definition send_offsets_to_transaction (offsets : tpl) (cgm : nat) (timeout : Timeout)
    : comp pworld (KafkaResult unit) :=
  p ← native (rd_kafka_send_offsets_to_transaction offsets cgm (as_millis timeout));
  mret (check_transaction p).

(** [BaseProducer::commit_transaction]: flush first, then commit. *)
Definition commit_transaction (fuel queue : nat) (timeout : Timeout)
    : comp pworld (option (KafkaResult unit)) :=
  r ← flush fuel queue timeout;
  match r with
  | None => mret None
  | Some (Err e) => mret (Some (Err e))
  | Some (Ok _) =>
      p ← native (rd_kafka_commit_transaction (as_millis timeout)); mret (Some (check_transaction p))
  end.

Definition abort_transaction (timeout : Timeout) : comp pworld (KafkaResult unit) :=
  p ← native (rd_kafka_abort_transaction (as_millis timeout)); mret (check_transaction p).

(** [impl Drop for BaseProducer]: a failed flush is only logged. *)
Definition producer_drop (fuel queue : nat) : comp pworld (option unit) :=
  _ ← purge (purge_inflight (purge_queue purge_default));
  r ← flush fuel queue (After (duration_from_millis 500));
  mret (option_map (λ _, tt) r).

End producer.
Arguments pworld W D {_}.

(** ** Creation *)

(** The calls that install the partitioner callback, on the default topic
    configuration of a native configuration. *)
Class ProducerNew `{N : ConfNative} := {
  rd_kafka_topic_conf_set_opaque : RDKafkaConf → nat → RDKafkaConf;
  rd_kafka_topic_conf_set_partitioner_cb : RDKafkaConf → RDKafkaConf;
}.

Section producer_new.
Context {W : Type} `{!ClientNative W} `{N : ConfNative} `{!ClientNew W} `{!ProducerNew}.

(** [struct BaseProducer]. *)
Record BaseProducer := { bp_client : nat; bp_queue : nat }.

(** The events a producer asks for. *)
Definition producer_events : Z :=
  Z.lor RD_KAFKA_EVENT_DR (Z.lor RD_KAFKA_EVENT_STATS
    (Z.lor RD_KAFKA_EVENT_ERROR RD_KAFKA_EVENT_OAUTHBEARER_TOKEN_REFRESH)).

(** [BaseProducer::from_client]. *)
Definition from_client_handle (client : nat) : comp W BaseProducer :=
  queue ← main_queue;
  mret {| bp_client := client; bp_queue := queue |}.

(** [FromClientConfigAndContext for BaseProducer]; the entries are those of the
    configuration map, in the order its iterator yields them. *)
Definition base_producer_new (config : ClientConfig) (entries : list (string * string)) (context : nat)
    (custom_partitioner : bool) : comp W (KafkaResult BaseProducer) :=
  native_config ←? lift (create_native_config entries);
  let native_config :=
    if custom_partitioner then
      rd_kafka_topic_conf_set_partitioner_cb (rd_kafka_topic_conf_set_opaque native_config context)
    else native_config in
  let native_config := rd_kafka_conf_set_events native_config producer_events in
  client ←? client_new config native_config RD_KAFKA_PRODUCER context;
  p ← from_client_handle client; mret (Ok p).

End producer_new.

(** ** What librdkafka promises a producer *)

(** The delivery result of a message, and the message of a delivery result. *)
Definition delivered (m : RDKafkaMessage) : DeliveryResult :=
  if resp_is_error (msg_err m) then Err (MessageProduction (code_of (msg_err m)), m) else Ok m.
Definition result_message (r : DeliveryResult) : RDKafkaMessage :=
  match r with Ok m => m | Err (_, m) => m end.

(** [inflight w]: the opaque pointers of the messages that librdkafka still owes
    a delivery report for. A message that is accepted is added, a rejected one is
    not; a delivery report event removes the messages it carries; nothing else
    changes them, and delivery callbacks do not send. [reports w]: the calls of
    the delivery callback, in order, [noted r d] being the one with result [r] and
    opaque value [d]. [untouched w]: a part of the world that neither librdkafka
    nor the callbacks change. [deliverable]: the messages that librdkafka reports,
    for which the callback returns without panic. *)
Class ProducerSpec (W D : Type) `{!ClientNative W} `{!ClientContext W} `{N : HeadersNative}
    `{!ProducerNative W} `{!ProducerContext W D} := {
  note : Type;
  rest : Type;
  inflight : W → list (option nat);
  reports : W → list note;
  untouched : W → rest;
  noted : DeliveryResult → D → note;
  deliverable : RDKafkaMessage → Prop;
  producev_spec t p f pl pn k kn o ts h w e w' :
    rd_kafka_producev t p f pl pn k kn o ts h w = (e, w') →
    inflight w' ≡ₚ (if resp_is_error e then inflight w else o :: inflight w)
    ∧ reports w' = reports w ∧ untouched w' = untouched w;
  poll_spec q ms w o w' : rd_kafka_queue_poll q ms w = (o, w') →
    inflight w ≡ₚ match o with
                  | Some ev => if event_type ev =? RD_KAFKA_EVENT_DR then msg_private <$> event_messages ev
                               else []
                  | None => []
                  end ++ inflight w'
    ∧ reports w' = reports w ∧ untouched w' = untouched w
    ∧ (∀ ev, o = Some ev → Forall deliverable (event_messages ev));
  effect_spec ev w w' : event_effect ev w = Done (tt, w') →
    inflight w' ≡ₚ inflight w ∧ reports w' = reports w ∧ untouched w' = untouched w;
  error_spec e r w :
    inflight (error e r w) ≡ₚ inflight w ∧ reports (error e r w) = reports w
    ∧ untouched (error e r w) = untouched w;
  flush_spec ms w e w' : rd_kafka_flush ms w = (e, w') →
    inflight w' ≡ₚ inflight w ∧ reports w' = reports w ∧ untouched w' = untouched w;
  delivery_spec r d w : deliverable (result_message r) →
    ∃ w', delivery r d w = Done (tt, w') ∧ inflight w' ≡ₚ inflight w
      ∧ reports w' = reports w ++ [noted r d] ∧ untouched w' = untouched w;
}.
Arguments note W D {_ _ _ _ _ _}.
Arguments inflight {W} D {_ _ _ _ _ _} _.
Arguments reports {W} D {_ _ _ _ _ _} _.
Arguments untouched {W} D {_ _ _ _ _ _} _.
Arguments noted {W D _ _ _ _ _ _} _ _.
Arguments deliverable {W} D {_ _ _ _ _ _} _.

(** ** The opaque conversions keep their promise *)

#[export, refine] Instance OpaqueSpec_unit : OpaqueSpec unit := {|
  opaque_inv _ _ := True;
|}.
Proof. all: try done. intros p [] h l _. by exists h. Defined.

#[export, refine] Instance OpaqueSpec_usize : OpaqueSpec nat := {|
  opaque_inv _ l := Forall (λ x : option nat * nat, default 0%nat x.1 = x.2) l;
|}.
Proof.
  - intros h l l' Hp. by rewrite Hp.
  - intros d h l p h' Hl [= <- <-]. constructor; [by destruct d|done].
  - intros p d h l [Hd Hl]%Forall_cons. exists h. simpl in *. by rewrite Hd.
Defined.

(** Boxes: distinct addresses, each holding the value that went out with it. *)
Definition box_inv {T} (h : gmap nat T) (l : list (option nat * Box T)) : Prop :=
  NoDup l.*1 ∧ ∀ p d, (p, d) ∈ l → ∃ a, p = Some a ∧ h !! a = Some (unbox d).

Lemma box_into {T} (d : T) (h : gmap nat T) l : box_inv h l →
  box_inv (<[fresh (dom h) := d]> h) ((Some (fresh (dom h)), mkBox d) :: l).
Proof.
  intros [H1 H2]. pose proof (is_fresh (dom h)) as Hf. split.
  - constructor; [|done]. intros ([p' d'] & Hp & Hin)%list_elem_of_fmap. simpl in Hp. subst p'.
    destruct (H2 _ _ Hin) as (a & [= <-] & Ha). apply Hf, elem_of_dom. by eexists.
  - intros p d' [[= -> ->]|Hin]%elem_of_cons.
    + exists (fresh (dom h)). by rewrite lookup_insert_eq.
    + destruct (H2 _ _ Hin) as (a & -> & Ha). exists a. split; [done|].
      rewrite lookup_insert_ne; [done|]. intros <-. apply Hf, elem_of_dom. by eexists.
Qed.

Lemma box_from {T} p (d : Box T) h l : box_inv h ((p, d) :: l) →
  ∃ a, p = Some a ∧ h !! a = Some (unbox d) ∧ box_inv (delete a h) l.
Proof.
  intros [[Hni Hnd]%NoDup_cons H2]. destruct (H2 p d) as (a & -> & Ha); [left|].
  exists a. split; [done|]. split; [done|]. split; [done|]. intros p' d' Hin. destruct (H2 p' d') as (a' & -> & Ha'); [by right|].
  exists a'. split; [done|]. rewrite lookup_delete_ne; [done|]. intros <-. apply Hni.
  apply list_elem_of_fmap. by exists (Some a, d').
Qed.

#[export] Instance OpaqueSpec_Box {T} : OpaqueSpec (Box T).
Proof.
  refine (@Build_OpaqueSpec (Box T) IntoOpaque_Box box_inv _ _ _).
  - intros h l l' Hp [H1 H2]. split; [by rewrite <- Hp|]. intros p d. rewrite <- Hp. apply H2.
  - intros [d] h l p h' Hl [= <- <-]. by apply box_into.
  - intros p [d] h l (a & -> & Ha & Hl)%box_from. simpl in *. rewrite Ha. by eexists.
Defined.

(** Shared references: how often an address is out is how often it was leaked. *)
Definition times_out (a : nat) (l : list (option nat * Arc)) : nat :=
  length (filter (λ x : option nat * Arc, x.1 = Some a) l).

Definition arc_inv (h : gmap nat nat) (l : list (option nat * Arc)) : Prop :=
  Forall (λ x : option nat * Arc, x.1 = Some (arc_addr x.2)) l ∧ ∀ a, default 0%nat (h !! a) = times_out a l.

Lemma times_out_cons a b l :
  times_out a ((Some b, mkArc b) :: l) = if decide (b = a) then S (times_out a l) else times_out a l.
Proof.
  unfold times_out. rewrite filter_cons. simpl. destruct (decide (b = a)) as [->|Hne].
  - by rewrite decide_True.
  - by rewrite decide_False by congruence.
Qed.

Lemma arc_into b (h : gmap nat nat) l : arc_inv h l →
  arc_inv (<[b := S (default 0%nat (h !! b))]> h) ((Some b, mkArc b) :: l).
Proof.
  intros [H1 H2]. split; [by constructor|]. intros a. rewrite times_out_cons. case_decide as Hb.
  - subst b. rewrite lookup_insert_eq. simpl. by rewrite H2.
  - by rewrite lookup_insert_ne, H2.
Qed.

Lemma arc_from b (h : gmap nat nat) l : arc_inv h ((Some b, mkArc b) :: l) →
  ∃ n, h !! b = Some (S n) ∧ arc_inv (<[b := n]> h) l.
Proof.
  intros [[_ H1]%Forall_cons H2]. pose proof (H2 b) as Hb. rewrite times_out_cons, decide_True in Hb by done.
  destruct (h !! b) as [n|] eqn:Eh; simpl in Hb; [|done]. subst n. eexists. split; [done|]. split; [done|].
  intros a. destruct (decide (b = a)) as [->|Hne]; [by rewrite lookup_insert_eq|].
  by rewrite lookup_insert_ne, H2, times_out_cons, decide_False.
Qed.

#[export] Instance OpaqueSpec_Arc : OpaqueSpec Arc.
Proof.
  refine (@Build_OpaqueSpec Arc IntoOpaque_Arc arc_inv _ _ _).
  - intros h l l' Hp [H1 H2]. split; [by rewrite <- Hp|]. intros a. rewrite H2. unfold times_out. by rewrite Hp.
  - intros [d] h l p h' Hl [= <- <-]. by apply arc_into.
  - intros p [d] h l Hl. assert (p = Some d) as ->; [by destruct Hl as [[? _]%Forall_cons _]|].
    destruct (arc_from _ _ _ Hl) as (n & Hn & Hl'). simpl. rewrite Hn. by eexists.
Defined.

(** ** Ownership of opaque values *)

Section ownership.
Context {W D : Type} `{!ClientNative W} `{!ClientContext W} `{N : HeadersNative} `{!ProducerNative W}
  `{!IntoOpaque D} `{!ProducerContext W D} `{!OpaqueSpec D} `{!ProducerSpec W D}.

Implicit Types (s : pworld W D) (l : list (option nat * D)).

(** [owed s l]: the values of [l] are with librdkafka, and nothing else is. *)
Definition owed (s : pworld W D) (l : list (option nat * D)) : Prop :=
  opaque_inv (ph s) l ∧ l.*1 ≡ₚ inflight D (pw s).

(** [settles_by ms s l s' l']: from [s] to [s'], the values of [l] that are no
    longer in [l'] have been reported, each once, with the result of the message of
    [ms] that carried its pointer, and nothing else has been. *)
Definition settles_by (ms : list RDKafkaMessage) (s : pworld W D) (l : list (option nat * D))
    (s' : pworld W D) (l' : list (option nat * D)) : Prop :=
  ∃ gone, l ≡ₚ gone ++ l' ∧ gone.*1 = msg_private <$> ms
    ∧ reports D (pw s') = reports D (pw s) ++ zip_with noted (delivered <$> ms) gone.*2
    ∧ untouched D (pw s') = untouched D (pw s) ∧ owed s' l'.

(** The same, for some messages. *)
Definition settles (s : pworld W D) (l : list (option nat * D)) (s' : pworld W D)
    (l' : list (option nat * D)) : Prop := ∃ ms, settles_by ms s l s' l'.

Lemma settles_same s l w : owed s l → inflight D w ≡ₚ inflight D (pw s) → reports D w = reports D (pw s) →
  untouched D w = untouched D (pw s) → settles s l {| pw := w; ph := ph s |} l.
Proof.
  intros [H1 H2] Hi Hr Hu. exists [], []. split_and!; [done|done|by simpl; rewrite app_nil_r|done|].
  split; [done|]. simpl. by rewrite Hi.
Qed.

Lemma settles_refl s l : owed s l → settles s l s l.
Proof. intros H. destruct s as [w h]. by apply (settles_same {| pw := w; ph := h |}). Qed.

Lemma settles_trans s1 l1 s2 l2 s3 l3 : settles s1 l1 s2 l2 → settles s2 l2 s3 l3 → settles s1 l1 s3 l3.
Proof.
  intros (m1 & g1 & Hp1 & Hm1 & Hr1 & Hu1 & _) (m2 & g2 & Hp2 & Hm2 & Hr2 & Hu2 & Ho).
  exists (m1 ++ m2), (g1 ++ g2). split_and!; [| | |congruence|done].
  - by rewrite Hp1, Hp2, app_assoc.
  - by rewrite !fmap_app, Hm1, Hm2.
  - rewrite Hr2, Hr1, !fmap_app, zip_with_app, app_assoc; [done|].
    rewrite !length_fmap. apply (f_equal length) in Hm1. by rewrite !length_fmap in Hm1.
Qed.

(** A part of the world that only librdkafka and the context touch. *)
Lemma owed_world s l w : owed s l → inflight D w ≡ₚ inflight D (pw s) → owed {| pw := w; ph := ph s |} l.
Proof. intros [H1 H2] Hw. split; [done|]. simpl. by rewrite Hw. Qed.

Lemma reclaim_run s p d l : opaque_inv (ph s) ((p, d) :: l) →
  ∃ h', reclaim p s = Done (d, {| pw := pw s; ph := h' |}) ∧ opaque_inv h' l.
Proof. intros (h' & Hf & Hi)%opaque_from. exists h'. split; [|done]. unfold reclaim. by rewrite Hf. Qed.

Lemma from_dr_event_run m : from_dr_event (Some m) = Done (delivered m).
Proof. unfold from_dr_event, delivered. simpl. by case_match. Qed.

Lemma result_message_delivered m : result_message (delivered m) = m.
Proof. unfold delivered. by case_match. Qed.

(** Delivering the messages of an event takes back exactly their values. *)
Lemma deliver_all_run msgs s (gone l : list (option nat * D)) :
  Forall (deliverable D) msgs → gone.*1 = msg_private <$> msgs → opaque_inv (ph s) (gone ++ l) →
  ∃ s', deliver_all msgs s = Done (tt, s') ∧ opaque_inv (ph s') l
    ∧ reports D (pw s') = reports D (pw s) ++ zip_with noted (delivered <$> msgs) gone.*2
    ∧ inflight D (pw s') ≡ₚ inflight D (pw s) ∧ untouched D (pw s') = untouched D (pw s).
Proof.
  intros Hok. revert s gone. induction Hok as [|m msgs Hm Hok IH]; intros s gone Hg Hi.
  { destruct gone; [|done]. exists s. split_and!; [done..|by rewrite app_nil_r|done|done]. }
  destruct gone as [|[p d] gone]; [done|]. injection Hg as -> Hg. cbn [deliver_all].
  unfold mbind, comp_bind, lift. rewrite from_dr_event_run.
  destruct (reclaim_run s _ _ _ Hi) as (h' & -> & Hi'). unfold on_world. simpl.
  destruct (delivery_spec (delivered m) d (pw s)) as (w' & -> & Hd1 & Hd2 & Hd3).
  { by rewrite result_message_delivered. }
  destruct (IH {| pw := w'; ph := h' |} gone Hg Hi') as (s' & Hrun & H1 & H2 & H3 & H4).
  exists s'. split_and!; [done|done| | |]; simpl in *.
  - by rewrite H2, Hd2, <- app_assoc.
  - by rewrite H3.
  - by rewrite H4.
Qed.

(** The values of a permuted list of pointers. *)
Lemma owed_split s l ps qs : owed s l → inflight D (pw s) ≡ₚ ps ++ qs →
  ∃ gone l', l ≡ₚ gone ++ l' ∧ gone.*1 = ps ∧ l'.*1 = qs.
Proof.
  intros [_ H] Hw. rewrite Hw in H. symmetry in H. apply Permutation_map_inv in H as (l3 & He & Hp).
  symmetry in He. apply fmap_app_inv in He as (gone & l' & H1 & H2 & ->). by exists gone, l'.
Qed.

(** The messages that a result of [poll_event] reports. *)
Definition reported (r : EventPollResult RDKafkaEvent) : list RDKafkaMessage :=
  match r with
  | Poll.Event ev => if event_type ev =? RD_KAFKA_EVENT_DR then event_messages ev else []
  | _ => []
  end.

(** The messages of the delivery report that a turn of the poll loop takes from
    librdkafka's queue; none if it takes no event, or another one. *)
Definition turn_reports (queue : nat) (deadline : Deadline) (w : W) : list RDKafkaMessage :=
  match (rd_kafka_queue_poll queue (as_millis (timeout_of_deadline (clock w) deadline)) w).1 with
  | Some ev => if event_type ev =? RD_KAFKA_EVENT_DR then event_messages ev else []
  | None => []
  end.

Lemma reported_turn q dl w r w' : poll_event q (timeout_of_deadline (clock w) dl) w = Done (r, w') →
  reported r = turn_reports q dl w.
Proof.
  unfold turn_reports. rewrite poll_event_effect. destruct (rd_kafka_queue_poll _ _ _) as [[ev|] w1]; [|by intros [= <- _]].
  destruct (event_effect ev w1) as [[[] w2]|]; [|done]. intros [= <- _]. simpl. rewrite consumed_eqb.
  destruct (Z.eqb_spec (event_type ev) RD_KAFKA_EVENT_DR) as [Ht|Hne].
  - rewrite Ht. simpl. by rewrite Ht.
  - destruct (_ || _); [done|]. simpl. by rewrite (proj2 (Z.eqb_neq _ _) Hne).
Qed.

(** An event that has been taken from the queue and served by the client. *)
Lemma poll_event_owed q t s l : owed s l →
  ∃ r w' gone l', poll_event q t (pw s) = Done (r, w') ∧ l ≡ₚ gone ++ l'
    ∧ gone.*1 = msg_private <$> reported r ∧ l'.*1 ≡ₚ inflight D w' ∧ reports D w' = reports D (pw s)
    ∧ untouched D w' = untouched D (pw s) ∧ Forall (deliverable D) (reported r).
Proof.
  intros Ho. rewrite poll_event_effect.
  destruct (rd_kafka_queue_poll q (as_millis t) (pw s)) as [[ev|] w1] eqn:Ep;
    apply poll_spec in Ep as (Hin & Hrep & Hu & Hok);
    destruct (owed_split s l _ _ Ho Hin) as (gone & l' & Hp & Hg & Hl').
  - destruct (event_effect_run ev w1) as [w2 H2]. rewrite H2. apply effect_spec in H2 as (He1 & He2 & He3).
    do 4 eexists. split; [done|].
    assert (reported (if bool_decide (event_type ev ∈ consumed_types) then Poll.EventConsumed else Poll.Event ev)
            = if event_type ev =? RD_KAFKA_EVENT_DR then event_messages ev else []) as ->.
    { rewrite consumed_eqb. destruct (Z.eqb_spec (event_type ev) RD_KAFKA_EVENT_DR) as [Ht|Hne].
      - rewrite Ht. simpl. by rewrite Ht.
      - destruct (_ || _); [done|]. simpl. by rewrite (proj2 (Z.eqb_neq _ _) Hne). }
    split_and!; [done|by rewrite Hg; case_match|by rewrite Hl', He1|congruence|congruence|].
    case_match; [by apply Hok|constructor].
  - do 4 eexists. split; [done|]. split_and!; [done|done|by rewrite Hl'|done|done|constructor].
Qed.

(** A turn of the loop reports the messages of the event it takes from the queue. *)
Lemma producer_turn_settles_by q dl s l : owed s l →
  ∃ r w' s' l', poll_event q (timeout_of_deadline (clock (pw s)) dl) (pw s) = Done (r, w')
    ∧ producer_turn q dl s = Done (tt, s') ∧ settles_by (reported r) s l s' l'.
Proof.
  intros Ho. unfold producer_turn, mbind, comp_bind, get, on_world.
  destruct (poll_event_owed q (timeout_of_deadline (clock (pw s)) dl) s l Ho)
    as (r & w' & gone & l' & -> & Hp & Hg & Hl' & Hrep & Hu & Hok). exists r, w'.
  pose proof (opaque_perm _ _ _ Hp (proj1 Ho)) as Hi.
  assert (reported r = [] → ∀ w2, inflight D w2 ≡ₚ inflight D w' → reports D w2 = reports D w' →
          untouched D w2 = untouched D w' →
          settles_by (reported r) s l {| pw := w2; ph := ph s |} l') as Hsame.
  { intros Hr w2 H1 H2 H3. rewrite Hr in Hg |- *. apply fmap_nil_inv in Hg as ->. exists [].
    split_and!; [done|done|by simpl; rewrite app_nil_r, H2|by simpl; rewrite H3|].
    split; [done|]. simpl. by rewrite H1. }
  destruct r as [| |ev]; [by eexists _, l'; split; [done|]; split; [done|]; apply Hsame..|].
  unfold reported in Hg, Hok, Hsame |- *. destruct (event_type ev =? RD_KAFKA_EVENT_DR).
  - destruct (deliver_all_run (event_messages ev) {| pw := w'; ph := ph s |} gone l' Hok Hg Hi)
      as (s' & Hrun & H1 & H2 & H3 & H4).
    exists s', l'. split; [done|]. split; [done|]. exists gone.
    split_and!; [done|done|by rewrite H2; simpl; rewrite Hrep|by rewrite H4|]. split; [done|]. by rewrite H3.
  - destruct (event_type ev =? RD_KAFKA_EVENT_ERROR).
    + eexists _, l'. split; [done|]. split; [done|].
      destruct (error_spec (Global (code_of (event_error ev)))
                 (trim (to_string_lossy (event_error_string ev))) w') as (He1 & He2 & He3). by apply Hsame.
    + eexists _, l'. split; [done|]. split; [done|]. by apply Hsame.
Qed.

Lemma producer_turn_settles q dl s l : owed s l →
  ∃ s' l', producer_turn q dl s = Done (tt, s') ∧ settles s l s' l'.
Proof.
  intros (r & w' & s' & l' & _ & Hr & Hs)%(producer_turn_settles_by q dl). exists s', l'. split; [done|].
  by exists (reported r).
Qed.

Lemma settles_owed s l s' l' : settles s l s' l' → owed s' l'.
Proof. by intros (ms & gone & _ & _ & _ & _ & H). Qed.

Lemma producer_loop_settles fuel q dl s l : owed s l →
  ∃ r s' l', producer_loop fuel q dl s = Done (r, s') ∧ settles s l s' l'.
Proof.
  revert s l. induction fuel as [|fuel IH]; intros s l Ho; cbn [producer_loop].
  { exists None, s, l. split; [done|by apply settles_refl]. }
  destruct (producer_turn_settles q dl s l Ho) as (s1 & l1 & H1 & Hs1).
  rewrite (comp_bind_run _ _ _ _ _ H1). unfold mbind at 1, comp_bind at 1, get.
  destruct (elapsed _ _).
  - by exists (Some tt), s1, l1.
  - destruct (IH s1 l1 (settles_owed _ _ _ _ Hs1)) as (r & s' & l' & Hrun & Hs').
    exists r, s', l'. split; [done|]. by eapply settles_trans.
Qed.

Lemma producer_poll_settles fuel q t s l r s' : owed s l → producer_poll fuel q t s = Done (r, s') →
  ∃ l', settles s l s' l'.
Proof.
  intros Ho H. unfold producer_poll in H. apply comp_bind_Done in H as (x & s1 & [= <- <-] & H).
  apply comp_bind_Done in H as (dl & s1 & Hdl & H). unfold lift in Hdl.
  destruct (deadline_of_timeout _ _); [|done]. injection Hdl as -> <-.
  destruct (producer_loop_settles fuel q dl s l Ho) as (r' & s2 & l' & Hrun & Hs).
  rewrite H in Hrun. injection Hrun as <- <-. by exists l'.
Qed.

Lemma flush_loop_settles fuel q dl s l r s' : owed s l → flush_loop fuel q dl s = Done (r, s') →
  ∃ l', settles s l s' l'.
Proof.
  revert s l. induction fuel as [|fuel IH]; intros s l Ho H; cbn [flush_loop] in H.
  { injection H as <- <-. exists l. by apply settles_refl. }
  apply comp_bind_Done in H as (ret & s1 & Hret & H).
  assert (settles s l s1 l) as Hs1.
  { unfold native, on_world, call in Hret. destruct (rd_kafka_flush 0 (pw s)) as [e w'] eqn:Ef.
    injection Hret as -> <-. apply flush_spec in Ef as (Hf1 & Hf2 & Hf3). by apply settles_same. }
  destruct (decide (ret = RD_KAFKA_RESP_ERR__TIMED_OUT)) as [->|Hne].
  2:{ exists l. destruct ret; try done; by injection H as <- <-. }
  apply comp_bind_Done in H as (x & s2 & [= <- <-] & H). destruct (elapsed _ _); [by injection H as <- <-; exists l|].
  apply comp_bind_Done in H as (x & s2 & [= <- <-] & H). apply comp_bind_Done in H as (o & s3 & Hpoll & H).
  destruct (producer_poll_settles _ _ _ _ _ _ _ (settles_owed _ _ _ _ Hs1) Hpoll) as (l3 & Hs3).
  pose proof (settles_trans _ _ _ _ _ _ Hs1 Hs3) as Hs13. destruct o; [|injection H as <- <-; by exists l3].
  destruct (IH s3 l3 (settles_owed _ _ _ _ Hs3) H) as (l' & Hs'). exists l'. by eapply settles_trans.
Qed.

End ownership.

(** ** Time *)

Class ProducerClock (W D : Type) `{!ClientNative W} `{!ClientContext W} `{N : HeadersNative}
    `{!ProducerNative W} `{!ProducerContext W D} : Prop := {
  delivery_clock r d (w w' : W) : delivery r d w = Done (tt, w') → clock w ≤ clock w';
  flush_clock ms w : clock w ≤ clock (rd_kafka_flush ms w).2;
}.

Section termination.
Context {W D : Type} `{!ClientNative W} `{!ClientContext W} `{N : HeadersNative} `{!ProducerNative W}
  `{!IntoOpaque D} `{!ProducerContext W D} `{!OpaqueSpec D} `{!ProducerSpec W D}.
Context `{!ClockSpec W} `{!ProducerClock W D}.
Implicit Types (s : pworld W D) (l : list (option nat * D)).

Lemma deliver_all_clock msgs s s' : deliver_all msgs s = Done (tt, s') → clock (pw s) ≤ clock (pw s').
Proof.
  revert s. induction msgs as [|m msgs IH]; intros s; [by intros [= <-]|]. cbn [deliver_all]. intros H.
  apply comp_bind_Done in H as (r & s1 & H1 & H). apply comp_bind_Done in H as (d & s2 & H2 & H).
  apply comp_bind_Done in H as (u & s3 & H3 & H). apply IH in H.
  unfold lift in H1. destruct (from_dr_event _); [|done]. injection H1 as -> <-.
  unfold reclaim in H2. destruct (from_ptr _ _) as [[d' h']|]; [|done]. injection H2 as -> <-.
  unfold on_world in H3. simpl in H3. destruct (delivery r d (pw s)) as [[[] w']|] eqn:Ed; [|done].
  injection H3 as <- <-. simpl in *. apply delivery_clock in Ed. lia.
Qed.

Lemma producer_turn_clock q dl s s' : producer_turn q dl s = Done (tt, s') → clock (pw s) < clock (pw s').
Proof.
  unfold producer_turn. intros H. apply comp_bind_Done in H as (x & s1 & [= <- <-] & H).
  apply comp_bind_Done in H as (ev & s1 & H1 & H). unfold on_world in H1.
  destruct (poll_event _ _ _) as [[r w']|] eqn:Ep; [|done]. injection H1 as -> <-.
  apply poll_event_clock in Ep as [Hc _]. destruct ev as [| |ev]; [by injection H as <-..|].
  destruct (event_type ev =? _).
  - apply deliver_all_clock in H. simpl in H. lia.
  - destruct (event_type ev =? _); [|by injection H as <-].
    unfold producer_handle_error_event, on_world, modify in H. injection H as <-. simpl.
    pose proof (error_clock (Global (code_of (event_error ev)))
                  (trim (to_string_lossy (event_error_string ev))) w'). lia.
Qed.

(** A loop with a deadline ends after it, within its fuel. *)
Lemma producer_loop_returns fuel q i s l : owed s l → i - clock (pw s) < Z.of_nat fuel → (0 < fuel)%nat →
  ∃ s' l', producer_loop fuel q (At i) s = Done (Some tt, s') ∧ settles s l s' l'
    ∧ clock (pw s) < clock (pw s') ∧ i ≤ clock (pw s').
Proof.
  revert s l. induction fuel as [|fuel IH]; intros s l Ho Hf H0; [lia|]. cbn [producer_loop].
  destruct (producer_turn_settles q (At i) s l Ho) as (s1 & l1 & H1 & Hs1).
  pose proof (producer_turn_clock _ _ _ _ H1) as Hc.
  rewrite (comp_bind_run _ _ _ _ _ H1). unfold mbind at 1, comp_bind at 1, get.
  rewrite elapsed_at. case_bool_decide as He; [by exists s1, l1|].
  destruct (IH s1 l1 (settles_owed _ _ _ _ Hs1)) as (s' & l' & Hr & Hs' & Hc' & He'); [lia..|].
  exists s', l'. split_and!; [done|by eapply settles_trans|lia|done].
Qed.

Lemma producer_poll_returns fuel q d s l : owed s l → 0 ≤ d < Z.of_nat fuel → clock (pw s) + d ≤ instant_max →
  ∃ s' l', producer_poll fuel q (After d) s = Done (Some tt, s') ∧ settles s l s' l'
    ∧ clock (pw s) < clock (pw s') ∧ clock (pw s) + d ≤ clock (pw s').
Proof.
  intros Ho Hd Hi. unfold producer_poll, mbind at 1, comp_bind at 1, get.
  assert (deadline_of_timeout (clock (pw s)) (After d) = Done (At (clock (pw s) + d))) as Hdl.
  { simpl. unfold instant_add. by rewrite (proj2 (Z.leb_le _ _) Hi). }
  unfold mbind at 1, comp_bind at 1, lift. rewrite Hdl. apply producer_loop_returns; [done|lia..].
Qed.

Lemma flush_loop_returns fuel q i s l : owed s l → i ≤ instant_max →
  i - clock (pw s) < Z.of_nat fuel → (0 < fuel)%nat →
  ∃ r s', flush_loop fuel q (At i) s = Done (Some r, s').
Proof.
  revert s l. induction fuel as [|fuel IH]; intros s l Ho Hi Hf H0; [lia|]. cbn [flush_loop].
  pose proof (flush_clock 0 (pw s)) as Hfc.
  destruct (rd_kafka_flush 0 (pw s)) as [ret w'] eqn:Ef. simpl in Hfc.
  apply flush_spec in Ef as Hfs. destruct Hfs as (Hf1 & _ & _).
  set (s1 := {| pw := w'; ph := ph s |}).
  assert (native (rd_kafka_flush 0) s = Done (ret, s1)) as Hn by (unfold native, on_world, call; by rewrite Ef).
  rewrite (comp_bind_run _ _ _ _ _ Hn).
  destruct (decide (ret = RD_KAFKA_RESP_ERR__TIMED_OUT)) as [->|Hne]; [|destruct ret; try done; by do 2 eexists].
  unfold mbind at 1, comp_bind at 1, get at 1. destruct (elapsed _ _) eqn:Ee; [by do 2 eexists|].
  rewrite elapsed_at in Ee. apply bool_decide_eq_false in Ee. simpl in Ee.
  unfold mbind at 1, comp_bind at 1, get at 1.
  set (d := Z.min (remaining (clock (pw s1)) (At i)) (duration_from_millis 100)).
  assert (0 ≤ d ≤ i - clock w') as Hd.
  { unfold d, remaining, instant_since, duration_from_millis, nanos_per_milli. simpl. lia. }
  destruct (producer_poll_returns (S fuel) q d s1 l) as (s2 & l2 & H2 & Hs2 & Hc2 & _).
  - by apply owed_world.
  - lia.
  - simpl. lia.
  - rewrite (comp_bind_run _ _ _ _ _ H2). simpl in Hc2.
    apply (IH s2 l2); [by eapply settles_owed|done|lia|].
    destruct fuel; [lia|lia].
Qed.

Lemma flush_loop_timed_out fuel q i s s' :
  flush_loop fuel q (At i) s = Done (Some (Err (Flush Code.OperationTimedOut)), s') → i ≤ clock (pw s').
Proof.
  revert s. induction fuel as [|fuel IH]; intros s H; [done|]. cbn [flush_loop] in H.
  apply comp_bind_Done in H as (ret & s1 & _ & H).
  destruct (decide (ret = RD_KAFKA_RESP_ERR__TIMED_OUT)) as [->|Hne].
  2:{ exfalso. destruct ret; try done; by vm_compute in H. }
  apply comp_bind_Done in H as (x & s2 & [= <- <-] & H). destruct (elapsed _ _) eqn:Ee.
  { injection H as <-. rewrite elapsed_at in Ee. by apply bool_decide_eq_true in Ee. }
  apply comp_bind_Done in H as (x & s2 & [= <- <-] & H). apply comp_bind_Done in H as (o & s3 & _ & H).
  destruct o; [by apply (IH s3)|done].
Qed.

End termination.

(** ** Properties *)

Section properties.
Context {W D : Type} `{!ClientNative W} `{!ClientContext W} `{N : HeadersNative} `{!ProducerNative W}
  `{!IntoOpaque D} `{!ProducerContext W D} `{!OpaqueSpec D} `{!ProducerSpec W D}.
Implicit Types (s : pworld W D) (l : list (option nat * D)).

(** What sending does, with the native call it makes. *)
Lemma send_run {K P} `{!ToBytes K} `{!ToBytes P} (record : BaseRecord K P D) s l :
  owed s l →
  ∃ r s', send record s = Done (r, s')
    ∧ reports D (pw s') = reports D (pw s) ∧ untouched D (pw s') = untouched D (pw s)
    ∧ match r with
      | Ok _ => ∃ p, owed s' ((p, br_delivery_opaque record) :: l)
      | Err (e, record') => record' = record ∧ owed s' l
          ∧ match e with
            | Nul _ => nul_free (br_topic record) = false
            | MessageProduction c => nul_free (br_topic record) = true ∧ c ≠ Code.NoError
            | _ => False
            end
      end.
Proof.
  intros Ho. unfold send. destruct (as_bytes (br_payload record)) as [pl pn].
  destruct (as_bytes (br_key record)) as [k kn]. unfold nul_free, CString_new.
  destruct (nul_position (br_topic record)) eqn:En; [by do 2 eexists; split_and!|].
  unfold mbind, comp_bind, leak, call, native, on_world.
  destruct (into_ptr (br_delivery_opaque record) (ph s)) as [o h] eqn:Ei. simpl.
  destruct (rd_kafka_producev _ _ _ _ _ _ _ _ _ _ (pw s)) as [e w'] eqn:Ep.
  destruct Ho as [Hi Hw]. apply producev_spec in Ep as (Hp & Hr & Hu).
  pose proof (opaque_into _ _ _ _ _ Hi Ei) as Hi'.
  destruct (resp_is_error e) eqn:Ee.
  - destruct (reclaim_run {| pw := w'; ph := h |} _ _ _ Hi') as (h' & -> & Hi'').
    do 2 eexists. split; [done|]. split; [done|]. split; [done|]. split; [by destruct record|].
    split; [split; [done|simpl; by rewrite Hw, Hp]|]. split; [done|].
    apply resp_is_error_true in Ee. by destruct e.
  - do 2 eexists. split; [done|]. split; [done|]. split; [done|]. exists o. split; [done|]. simpl. by rewrite Hp, Hw.
Qed.

(** The native call of [send]. *)
Definition produce_call {K P} `{!ToBytes K} `{!ToBytes P} (record : BaseRecord K P D) (opaque_ptr : option nat)
    : W → RDKafkaRespErr * W :=
  let '(payload_ptr, payload_len) := as_bytes (br_payload record) in
  let '(key_ptr, key_len) := as_bytes (br_key record) in
  rd_kafka_producev (br_topic record) (default (-1) (br_partition record)) RD_KAFKA_MSG_F_COPY
    payload_ptr payload_len key_ptr key_len opaque_ptr (default 0 (br_timestamp record)) (br_headers record).

(** Which call a send makes, and what becomes of its opaque value. *)
Lemma send_native {K P} `{!ToBytes K} `{!ToBytes P} (record : BaseRecord K P D) s l r s' :
  owed s l → send record s = Done (r, s') →
  match r with
  | Ok _ => ∃ p e, owed s' ((p, br_delivery_opaque record) :: l) ∧ resp_is_error e = false
              ∧ produce_call record p (pw s) = (e, pw s')
  | Err _ => pw s' = pw s ∨ ∃ p e, resp_is_error e = true ∧ produce_call record p (pw s) = (e, pw s')
  end.
Proof.
  intros [Hi Hw]. unfold send, produce_call. destruct (as_bytes (br_payload record)) as [pl pn].
  destruct (as_bytes (br_key record)) as [k kn]. unfold CString_new.
  destruct (nul_position (br_topic record)) eqn:En; [intros [= <- <-]; by left|].
  unfold mbind, comp_bind, leak, call, native, on_world.
  destruct (into_ptr (br_delivery_opaque record) (ph s)) as [o h] eqn:Ei. simpl.
  destruct (rd_kafka_producev _ _ _ _ _ _ _ _ _ _ (pw s)) as [e w'] eqn:Ep.
  pose proof (opaque_into _ _ _ _ _ Hi Ei) as Hi'.
  destruct (resp_is_error e) eqn:Ee.
  - destruct (reclaim_run {| pw := w'; ph := h |} _ _ _ Hi') as (h' & -> & _). intros [= <- <-]. right.
    by exists o, e.
  - intros [= <- <-]. exists o, e. split; [|done]. split; [done|]. apply producev_spec in Ep as (Hp & _ & _).
    simpl. rewrite Hp, Ee. by constructor.
Qed.

(** C6: sending never panics and never loses or duplicates an
    opaque value: an accepted record's value is with librdkafka, a rejected record
    comes back unchanged, its value included, with [Nul] for a topic that is not a
    C string and [MessageProduction] otherwise. *)
Theorem send_ownership {K P} `{!ToBytes K} `{!ToBytes P} (record : BaseRecord K P D) s l :
  owed s l →
  ∃ r s', send record s = Done (r, s')
    ∧ match r with
      | Ok _ => ∃ p, owed s' ((p, br_delivery_opaque record) :: l)
      | Err (e, record') => record' = record ∧ owed s' l
          ∧ match e with
            | Nul _ => nul_free (br_topic record) = false
            | MessageProduction c => nul_free (br_topic record) = true ∧ c ≠ Code.NoError
            | _ => False
            end
      end.
Proof. intros (r & s' & H1 & _ & _ & H2)%(send_run record). by exists r, s'. Qed.

(** C5: polling with a finite timeout returns, once the timeout
    has passed, and in between the delivery callback has been called exactly once
    for each message that librdkafka reported, with that message's result and the
    opaque value that was sent with it, and for nothing else: what is still owed is
    what was owed less what was reported. *)
Theorem producer_poll_exactly_once `{!ClockSpec W} `{!ProducerClock W D} q d s l :
  owed s l → 0 ≤ d → clock (pw s) + d ≤ instant_max →
  ∃ s' l', producer_poll (S (Z.to_nat d)) q (After d) s = Done (Some tt, s')
    ∧ settles s l s' l' ∧ clock (pw s) + d ≤ clock (pw s').
Proof.
  intros Ho Hd Hi. destruct (producer_poll_returns (S (Z.to_nat d)) q d s l) as (s' & l' & H1 & H2 & _ & H4);
    [done|lia|done|]. by exists s', l'.
Qed.

(** Polling with [Timeout::Never] never returns, however many events
    are served: for every number of turns the loop is still running. *)
Theorem producer_poll_never fuel q s l : owed s l → ∃ s', producer_poll fuel q Never s = Done (None, s').
Proof.
  intros Ho. unfold producer_poll, mbind at 1, comp_bind at 1, get.
  unfold mbind at 1, comp_bind at 1, lift. simpl. revert s l Ho.
  induction fuel as [|fuel IH]; intros s l Ho; cbn [producer_loop]; [by eexists|].
  destruct (producer_turn_settles q NeverEnds s l Ho) as (s1 & l1 & H1 & Hs1).
  rewrite (comp_bind_run _ _ _ _ _ H1). unfold mbind at 1, comp_bind at 1, get.
  change (elapsed _ NeverEnds) with false. by eapply IH, settles_owed.
Qed.

(** C14: flushing with a finite timeout returns without panic; the reports it
    served are settled exactly once; and it reports a timeout only when the timeout
    has really passed. *)
Theorem flush_returns `{!ClockSpec W} `{!ProducerClock W D} q d s l :
  owed s l → 0 ≤ d → clock (pw s) + d ≤ instant_max →
  ∃ r s' l', flush (S (Z.to_nat d)) q (After d) s = Done (Some r, s') ∧ settles s l s' l'
    ∧ (r = Err (Flush Code.OperationTimedOut) → clock (pw s) + d ≤ clock (pw s')).
Proof.
  intros Ho Hd Hi.
  assert (flush (S (Z.to_nat d)) q (After d) s = flush_loop (S (Z.to_nat d)) q (At (clock (pw s) + d)) s) as Hrun.
  { unfold flush, mbind at 1, comp_bind at 1, get. unfold mbind at 1, comp_bind at 1, lift. simpl.
    unfold instant_add. by rewrite (proj2 (Z.leb_le _ _) Hi). }
  destruct (flush_loop_returns (S (Z.to_nat d)) q (clock (pw s) + d) s l) as (r & s' & Hr); [done..|lia|lia|].
  destruct (flush_loop_settles _ _ _ _ _ _ _ Ho Hr) as [l' Hs].
  exists r, s', l'. rewrite Hrun. split_and!; [done..|]. intros ->. by eapply flush_loop_timed_out.
Qed.

(** A transaction is committed only after a flush that
    succeeded, with the full timeout given again to the commit: a failed flush is
    returned and nothing is committed. *)
Theorem commit_after_flush fuel q t s r s' :
  commit_transaction fuel q t s = Done (Some r, s') →
  (∃ s1 p, flush fuel q t s = Done (Some (Ok tt), s1) ∧ ph s' = ph s1
     ∧ rd_kafka_commit_transaction (as_millis t) (pw s1) = (p, pw s') ∧ r = check_transaction p)
  ∨ (∃ e, flush fuel q t s = Done (Some (Err e), s') ∧ r = Err e).
Proof.
  intros H. unfold commit_transaction in H. apply comp_bind_Done in H as (o & s1 & Hf & H).
  destruct o as [[[]|e]|]; [|right; exists e; by injection H as <- <-|done].
  left. apply comp_bind_Done in H as (p & s2 & Hn & [= <- <-]). unfold native, on_world, call in Hn.
  destruct (rd_kafka_commit_transaction (as_millis t) (pw s1)) as [p' w'] eqn:Ec. injection Hn as -> <-.
  by exists s1, p.
Qed.

(** An error event on the producer's queue reaches the context's
    [error] callback twice, with the same error and reason: once from the client
    that dispatches the event, once from the producer. *)
Theorem producer_error_twice q dl s ev w1 :
  rd_kafka_queue_poll q (as_millis (timeout_of_deadline (clock (pw s)) dl)) (pw s) = (Some ev, w1) →
  event_type ev = RD_KAFKA_EVENT_ERROR →
  let report := error (Global (code_of (event_error ev))) (trim (to_string_lossy (event_error_string ev))) in
  producer_turn q dl s = Done (tt, {| pw := report (report w1); ph := ph s |}).
Proof.
  intros Hp Ht report. unfold producer_turn, mbind at 1, comp_bind at 1, get.
  unfold mbind at 1, comp_bind at 1, on_world at 1. rewrite poll_event_effect, Hp.
  unfold event_effect. rewrite consumed_eqb, Ht. simpl. by rewrite Ht.
Qed.

End properties.

Lemma land_pow2 b k : 0 ≤ k → negb (Z.land b (2 ^ k) =? 0) = Z.testbit b k.
Proof.
  intros Hk. destruct (Z.testbit b k) eqn:E.
  - apply negb_true_iff, Z.eqb_neq. intros H0.
    assert (Z.testbit (Z.land b (2 ^ k)) k = true) as H by (by rewrite Z.land_spec, E, Z.pow2_bits_true).
    by rewrite H0, Z.bits_0 in H.
  - apply negb_false_iff, Z.eqb_eq, Z.bits_inj'. intros n Hn. rewrite Z.land_spec, Z.bits_0, Z.pow2_bits_eqb by done.
    destruct (Z.eqb_spec k n) as [->|]; [by rewrite E|apply andb_false_r].
Qed.

(** The debug view of a flag word is its three lowest bits. *)
Lemma purge_debug_bits c :
  purge_debug c = (Z.testbit (flag_bits c) 0, Z.testbit (flag_bits c) 1, Z.testbit (flag_bits c) 2).
Proof.
  unfold purge_debug, purge_flag. simpl.
  by rewrite (land_pow2 _ 0), (land_pow2 _ 1), (land_pow2 _ 2).
Qed.

(** The three purge flags are independent: setting or unsetting
    one changes that flag and no other, on any flag word. *)
Theorem purge_flags c :
  let '(q, i, n) := purge_debug c in
  purge_debug (purge_queue c) = (true, i, n) ∧ purge_debug (purge_inflight c) = (q, true, n)
  ∧ purge_debug (purge_non_blocking c) = (q, i, true) ∧ purge_debug (purge_no_queue c) = (false, i, n)
  ∧ purge_debug (purge_no_inflight c) = (q, false, n) ∧ purge_debug (purge_blocking c) = (q, i, false).
Proof.
  rewrite !purge_debug_bits. cbn [flag_bits purge_queue purge_inflight purge_non_blocking purge_no_queue
    purge_no_inflight purge_blocking purge_unset].
  rewrite !Z.lor_spec, !Z.land_spec, !Z.lnot_spec by done. simpl.
  by rewrite ?orb_true_r, ?orb_false_r, ?andb_true_r, ?andb_false_r.
Qed.

(** ** A simulated producer

    Accepted messages wait until the next poll, which reports all of them; every
    poll takes a nanosecond. Topics named [full] are refused. *)

Record psim := {
  ps_now : Z;
  ps_out : list RDKafkaMessage;
  ps_reports : list (DeliveryResult * Box string);
}.

Definition psim_message (o : option nat) : RDKafkaMessage :=
  {| msg_err := RD_KAFKA_RESP_ERR_NO_ERROR; msg_rkt := 0; msg_partition := 0; msg_payload := None;
     msg_len := 0; msg_key := None; msg_key_len := 0; msg_offset := 0; msg_private := o |}.

Definition psim_poll (ms : Z) (s : psim) : option RDKafkaEvent * psim :=
  let wait := Z.max 0 ms * nanos_per_milli in
  match ps_out s with
  | [] => (None, {| ps_now := ps_now s + wait + 1; ps_out := []; ps_reports := ps_reports s |})
  | msgs => (Some (sim_event RD_KAFKA_EVENT_DR RD_KAFKA_RESP_ERR_NO_ERROR msgs),
             {| ps_now := ps_now s + 1; ps_out := []; ps_reports := ps_reports s |})
  end.

#[export] Instance psim_native : ClientNative psim := {
  clock := ps_now;
  rd_kafka_queue_poll _ := psim_poll;
  rd_kafka_oauthbearer_set_token _ _ _ s := (RD_KAFKA_RESP_ERR_NO_ERROR, [], s);
  rd_kafka_oauthbearer_set_token_failure _ s := s;
  rd_kafka_rebalance_protocol _ := None;
  rd_kafka_topic_new _ s := (None, s);
  rd_kafka_metadata _ _ _ s := (RD_KAFKA_RESP_ERR__TRANSPORT, None, s);
  rd_kafka_query_watermark_offsets _ _ _ _ s := (RD_KAFKA_RESP_ERR__TRANSPORT, (0, 0), s);
  rd_kafka_clusterid _ s := (None, s);
  rd_kafka_list_groups _ _ s := (RD_KAFKA_RESP_ERR__TRANSPORT, None, s);
  rd_kafka_fatal_error s := (RD_KAFKA_RESP_ERR_NO_ERROR, [], s);
  rd_kafka_queue_new s := (None, s);
  rd_kafka_queue_get_consumer s := (None, s);
  rd_kafka_queue_get_main s := (Some 0%nat, s);
}.

#[export] Instance psim_context : ClientContext psim := {
  ENABLE_REFRESH_OAUTH_TOKEN := false;
  log _ _ _ s := s;
  stats_raw _ s := s;
  error _ _ s := s;
  generate_oauth_token _ s := (Err "none", s);
}.

#[export] Instance psim_producer : ProducerNative psim := {
  rd_kafka_producev t _ _ _ _ _ _ o _ _ s :=
    if String.eqb t "full" then (RD_KAFKA_RESP_ERR__QUEUE_FULL, s)
    else (RD_KAFKA_RESP_ERR_NO_ERROR,
          {| ps_now := ps_now s; ps_out := ps_out s ++ [psim_message o]; ps_reports := ps_reports s |});
  rd_kafka_flush _ s :=
    (if decide (ps_out s = []) then RD_KAFKA_RESP_ERR_NO_ERROR else RD_KAFKA_RESP_ERR__TIMED_OUT, s);
  rd_kafka_purge _ s := (RD_KAFKA_RESP_ERR_NO_ERROR, s);
  rd_kafka_outq_len s := Z.of_nat (length (ps_out s));
  rd_kafka_init_transactions _ s := (None, s);
  rd_kafka_begin_transaction s := (None, s);
  rd_kafka_send_offsets_to_transaction _ _ _ s := (None, s);
  rd_kafka_commit_transaction _ s := (None, s);
  rd_kafka_abort_transaction _ s := (None, s);
}.

#[export] Instance psim_delivery : ProducerContext psim (Box string) := {
  delivery r d :=
    modify (λ s, {| ps_now := ps_now s; ps_out := ps_out s; ps_reports := ps_reports s ++ [(r, d)] |});
}.

#[export, refine] Instance psim_spec : ProducerSpec psim (Box string) := {|
  inflight s := msg_private <$> ps_out s;
  reports := ps_reports;
  untouched _ := tt;
  noted := pair;
  deliverable _ := True;
|}.
Proof.
  - intros t p f pl pn k kn o ts h w e w'. simpl. case_match; intros [= <- <-]; simpl; [done|].
    split; [|done]. rewrite fmap_app. simpl. by rewrite Permutation_app_comm.
  - intros q ms w o w'. simpl. unfold psim_poll. destruct (ps_out w) eqn:E; intros [= <- <-]; simpl;
      rewrite ?app_nil_r; split_and!; try done; intros ev _; by apply Forall_true.
  - intros ev w w'. unfold event_effect, handle_log_event. repeat case_match; by intros [= <-].
  - done.
  - intros ms w e w'. simpl. by intros [= <- <-].
  - intros r d w _. by eexists.
Defined.

#[export] Instance psim_clock : ClockSpec psim.
Proof.
  split; try (intros; simpl; lia).
  - intros q ms s. simpl. unfold psim_poll. case_match; simpl; unfold nanos_per_milli; lia.
  - intros q ms s s' Hms. simpl. unfold psim_poll. case_match; intros [= <-]; simpl; unfold nanos_per_milli; lia.
Qed.

#[export] Instance psim_producer_clock : ProducerClock psim (Box string).
Proof. split; [by intros r d w w' [= <-]|intros; simpl; lia]. Qed.

Definition psim_start : pworld psim (Box string) :=
  @Build_pworld psim (Box string) IntoOpaque_Box
    {| ps_now := 0; ps_out := []; ps_reports := [] |} (∅ : gmap nat string).

Definition psim_record (t : string) : BaseRecord string string (Box string) :=
  with_payload "v" (with_opaque_to t (mkBox "opaque")).

Definition psim_sent : pworld psim (Box string) :=
  @Build_pworld psim (Box string) IntoOpaque_Box
    {| ps_now := 0; ps_out := [psim_message (Some 7%nat)]; ps_reports := [] |}
    ({[ 7%nat := "opaque" ]} : gmap nat string).

Lemma psim_start_owed : owed psim_start [].
Proof. split; [|done]. split; [constructor|]. intros p d []%elem_of_nil. Qed.

Lemma psim_sent_owed : owed psim_sent [(Some 7%nat, mkBox "opaque")].
Proof.
  split; [|done]. split; [repeat constructor; apply not_elem_of_nil|].
  intros p d [= -> ->]%list_elem_of_singleton. by exists 7%nat.
Qed.

Lemma send_ownership_witness :
  ∃ r s', send (psim_record "full") psim_start = Done (r, s')
    ∧ match r with
      | Ok _ => ∃ p, owed s' [(p, mkBox "opaque")]
      | Err (e, record') => record' = psim_record "full" ∧ owed s' []
          ∧ match e with
            | Nul _ => nul_free "full" = false
            | MessageProduction c => nul_free "full" = true ∧ c ≠ Code.NoError
            | _ => False
            end
      end.
Proof. apply (send_ownership (psim_record "full") psim_start [] psim_start_owed). Defined.

Lemma producer_poll_exactly_once_witness :
  ∃ s' l', producer_poll 4 0 (After 3) psim_sent = Done (Some tt, s')
    ∧ settles psim_sent [(Some 7%nat, mkBox "opaque")] s' l' ∧ clock (pw psim_sent) + 3 ≤ clock (pw s').
Proof.
  apply (producer_poll_exactly_once 0 3); [apply psim_sent_owed|lia|vm_compute; congruence].
Defined.

Lemma producer_poll_never_witness : ∃ s', producer_poll 5 0 Never psim_sent = Done (None, s').
Proof. apply (producer_poll_never 5 0 psim_sent _ psim_sent_owed). Defined.

Lemma flush_returns_witness :
  ∃ r s' l', flush 4 0 (After 3) psim_sent = Done (Some r, s')
    ∧ settles psim_sent [(Some 7%nat, mkBox "opaque")] s' l'
    ∧ (r = Err (Flush Code.OperationTimedOut) → clock (pw psim_sent) + 3 ≤ clock (pw s')).
Proof. apply (flush_returns 0 3); [apply psim_sent_owed|lia|vm_compute; congruence]. Defined.

Lemma commit_after_flush_witness :
  (∃ s1 p, flush 4 0 (After 3) psim_start = Done (Some (Ok tt), s1) ∧ ph psim_start = ph s1
     ∧ rd_kafka_commit_transaction 0 (pw s1) = (p, pw psim_start) ∧ Ok tt = check_transaction p)
  ∨ (∃ e, flush 4 0 (After 3) psim_start = Done (Some (Err e), psim_start) ∧ Ok tt = Err e).
Proof. apply (commit_after_flush 4 0 (After 3)). reflexivity. Defined.

#[export] Instance sim_delivery : ProducerContext sim unit := { delivery _ _ := mret tt }.

Definition sim_producer (s : sim) : pworld sim unit := @Build_pworld sim unit IntoOpaque_unit s tt.

Lemma producer_error_twice_witness :
  let e := CalledError (Global Code.BrokerTransportFailure) "reason" in
  producer_turn 0 (At 1000) (sim_producer (sim_start [(0, ArriveError)]))
  = Done (tt, sim_producer {| sim_now := 1; sim_arrivals := []; sim_trace := [e; e] |}).
Proof.
  intros e.
  rewrite (producer_error_twice 0 (At 1000) (sim_producer (sim_start [(0, ArriveError)]))
             (sim_event_of ArriveError) {| sim_now := 1; sim_arrivals := []; sim_trace := [] |});
    [vm_compute; reflexivity|vm_compute; reflexivity|reflexivity].
Defined.
