(* ===== verification/FutureProducer.v ===== *)
(** * The future producer

    [src/producer/future_producer.rs]: records, the context that completes a
    oneshot channel on delivery, and the two ways to send. An [async fn] is a
    state machine whose states are its await points: [send_task] is the future of
    [FutureProducer::send], [send_resume] runs it to its next await. The step
    relation [fstep] interleaves any number of such futures with the thread that
    polls the producer. The oneshot channels of the [futures] crate are a
    parameter ([Oneshot]) with their documented behaviour ([FutureSpec]). *)

From stdpp Require Import strings gmap prelude.
From S2P Require Import Prelude ErrorCodes KafkaErrors Util Message Client BaseProducer.

Local Open Scope Z_scope.

(** ** Records *)

Record FutureRecord `{N : HeadersNative} (K P : Type) := mkFutureRecord {
  fr_topic : string;
  fr_partition : option Z;
  fr_payload : option P;
  fr_key : option K;
  fr_timestamp : option Z;
  fr_headers : option RDKafkaHeaders;
}.
Arguments mkFutureRecord {N K P} _ _ _ _ _ _.
Arguments fr_topic {N K P} _.
Arguments fr_partition {N K P} _.
Arguments fr_payload {N K P} _.
Arguments fr_key {N K P} _.
Arguments fr_timestamp {N K P} _.
Arguments fr_headers {N K P} _.

Section records.
Context `{N : HeadersNative} {K P : Type}.
Implicit Types (r : FutureRecord K P).

(** [FutureRecord::to] and the builder methods. *)
Definition future_to (topic : string) : FutureRecord K P :=
  mkFutureRecord topic None None None None None.
Definition future_partition (p : Z) r : FutureRecord K P :=
  mkFutureRecord (fr_topic r) (Some p) (fr_payload r) (fr_key r) (fr_timestamp r) (fr_headers r).
Definition future_payload (p : P) r : FutureRecord K P :=
  mkFutureRecord (fr_topic r) (fr_partition r) (Some p) (fr_key r) (fr_timestamp r) (fr_headers r).
Definition future_key (k : K) r : FutureRecord K P :=
  mkFutureRecord (fr_topic r) (fr_partition r) (fr_payload r) (Some k) (fr_timestamp r) (fr_headers r).
Definition future_timestamp (t : Z) r : FutureRecord K P :=
  mkFutureRecord (fr_topic r) (fr_partition r) (fr_payload r) (fr_key r) (Some t) (fr_headers r).
Definition future_headers (h : RDKafkaHeaders) r : FutureRecord K P :=
  mkFutureRecord (fr_topic r) (fr_partition r) (fr_payload r) (fr_key r) (fr_timestamp r) (Some h).

(** [FutureRecord::from_base_record] and [FutureRecord::into_base_record]. *)
Definition from_base_record {D} (b : BaseRecord K P D) : FutureRecord K P :=
  mkFutureRecord (br_topic b) (br_partition b) (br_payload b) (br_key b) (br_timestamp b) (br_headers b).
Definition into_base_record {D} r (delivery_opaque : D) : BaseRecord K P D :=
  mkBaseRecord (fr_topic r) (fr_partition r) (fr_payload r) (fr_key r) (fr_timestamp r) (fr_headers r)
    delivery_opaque.

End records.

(** ** Delivery *)

(** [struct Delivery] and [type OwnedDeliveryResult]. *)
Record Delivery := { d_partition : Z; d_offset : Z; d_timestamp : Timestamp }.

Definition OwnedDeliveryResult `{N : HeadersNative} : Type := result (KafkaError * OwnedMessage) Delivery.

(** Oneshot channels: a channel is a number, its sender and its receiver. The
    receiver's poll is [None] while pending and [Err] when the sender is gone. *)
Class Oneshot (W R : Type) := {
  oneshot_channel : W → nat * W;
  oneshot_send : nat → R → W → W;
  oneshot_drop : nat → W → W;
  oneshot_poll : nat → W → option (result unit R);
}.

Section delivery.
Context {W : Type} `{N : HeadersNative} `{!MessageNative} `{!Oneshot W OwnedDeliveryResult}.

(** The value that [FutureProducerContext::delivery] sends. *)
Definition owned_delivery_result (r : DeliveryResult) : outcome OwnedDeliveryResult :=
  match r with
  | Ok message =>
      Done (Ok {| d_partition := partition message; d_offset := offset message;
                  d_timestamp := timestamp message |})
  | Err (error, message) => m ← detach message; Done (Err (error, m))
  end.

(** [impl ProducerContext for FutureProducerContext]. *)
#[export] Instance future_delivery : ProducerContext W (Box nat) := {
  delivery delivery_result tx :=
    owned ← lift (owned_delivery_result delivery_result);
    modify (oneshot_send (unbox tx) owned);
}.

End delivery.

(** [impl ClientContext for FutureProducerContext]: every method is the wrapped
    context's. *)
Definition future_context {W} (wrapped_context : ClientContext W) : ClientContext W := {|
  ENABLE_REFRESH_OAUTH_TOKEN := @ENABLE_REFRESH_OAUTH_TOKEN W wrapped_context;
  log level fac log_message := @log W wrapped_context level fac log_message;
  stats_raw statistics := @stats_raw W wrapped_context statistics;
  error e reason := @error W wrapped_context e reason;
  generate_oauth_token oauthbearer_config := @generate_oauth_token W wrapped_context oauthbearer_config;
|}.

(** ** Sending *)

Section send.
Context {W : Type} `{!ClientNative W} `{!ClientContext W} `{N : HeadersNative} `{!MessageNative}
  `{!ProducerNative W} `{!Oneshot W OwnedDeliveryResult}.
Context {K P : Type} `{!ToBytes K} `{!ToBytes P}.

Abbreviation world := (pworld W (Box nat)).
Abbreviation record := (BaseRecord K P (Box nat)).

(** Where the future of [FutureProducer::send] is suspended: it has not run, it
    waits for [delay_for], it waits for the delivery, it has returned. *)
Inductive send_state :=
| Sending (base_record : record)
| Delaying (until : Z) (base_record : record)
| Waiting
| Returned (r : OwnedDeliveryResult).

Record send_task := {
  st_start : Z;
  st_timeout : Timeout;
  st_rx : nat;
  st_state : send_state;
}.

Definition with_state (st : send_state) (t : send_task) : send_task :=
  {| st_start := st_start t; st_timeout := st_timeout t; st_rx := st_rx t; st_state := st |}.

(** The closure [can_retry]. *)
Definition can_retry (now start_time : Z) (queue_timeout : Timeout) : bool :=
  match queue_timeout with
  | Never => true
  | After t => instant_since now start_time <? t
  end.

(** The owned message of an error. *)
Definition rejected_message (b : record) : OwnedMessage :=
  owned_message_new (option_map to_bytes (br_payload b)) (option_map to_bytes (br_key b)) (br_topic b)
    (match br_timestamp b with Some ts => Ts.CreateTime ts | None => Ts.NotAvailable end)
    (default (-1) (br_partition b)) 0 (br_headers b).

(** What precedes the loop: the clock is read and the channel created. *)
Definition send_start (r : FutureRecord K P) (queue_timeout : Timeout) : comp world send_task :=
  s ← get;
  rx ← native oneshot_channel;
  mret {| st_start := clock (pw s); st_timeout := queue_timeout; st_rx := rx;
          st_state := Sending (into_base_record r (mkBox rx)) |}.

(** One turn of the loop, to its await or its [break]. A record that is not sent
    again is dropped, and its sender with it. *)
Definition send_attempt (start_time : Z) (queue_timeout : Timeout) (base_record : record)
    : comp world send_state :=
  r ← send base_record;
  match r with
  | Ok _ => mret Waiting
  | Err (e, b) =>
      s ← get;
      if kafka_error_eqb e (MessageProduction Code.QueueFull)
         && can_retry (clock (pw s)) start_time queue_timeout
      then mret (Delaying (clock (pw s) + duration_from_millis 100) b)
      else
        _ ← on_world (modify (oneshot_drop (unbox (br_delivery_opaque b))));
        mret (Returned (Err (e, rejected_message b)))
  end.

(** One poll of the future. *)
Definition send_resume (t : send_task) : comp world send_task :=
  s ← get;
  match st_state t with
  | Sending b => st ← send_attempt (st_start t) (st_timeout t) b; mret (with_state st t)
  | Delaying until b =>
      if clock (pw s) <? until then mret t
      else st ← send_attempt (st_start t) (st_timeout t) b; mret (with_state st t)
  | Waiting =>
      match oneshot_poll (st_rx t) (pw s) with
      | None => mret t
      | Some (Ok r) => mret (with_state (Returned r) t)
      | Some (Err _) => panic "producer unexpectedly dropped"
      end
  | Returned _ => panic "`async fn` resumed after completion"
  end.

(** Dropping the future: a record it still holds is dropped with its sender. *)
Definition send_cancel (t : send_task) : comp world unit :=
  match st_state t with
  | Sending b | Delaying _ b => on_world (modify (oneshot_drop (unbox (br_delivery_opaque b))))
  | _ => mret tt
  end.

(** [FutureProducer::send_result]: the receiver, or the record given back. *)
Definition send_result (r : FutureRecord K P) : comp world (result (KafkaError * FutureRecord K P) nat) :=
  rx ← native oneshot_channel;
  x ← send (into_base_record r (mkBox rx));
  match x with
  | Ok _ => mret (Ok rx)
  | Err (e, b) =>
      _ ← on_world (modify (oneshot_drop (unbox (br_delivery_opaque b))));
      mret (Err (e, from_base_record b))
  end.

(** [DeliveryFuture::poll]. *)
Definition delivery_future_poll (rx : nat) (s : world) : option (result unit OwnedDeliveryResult) :=
  oneshot_poll rx (pw s).

(** ** Interleavings *)

Record fsys := { shared : world; tasks : gmap nat send_task }.

Inductive fstep : fsys → fsys → Prop :=
| fstep_spawn s i (r : FutureRecord K P) timeout t sh : tasks s !! i = None →
    send_start r timeout (shared s) = Done (t, sh) →
    fstep s {| shared := sh; tasks := <[i := t]> (tasks s) |}
| fstep_resume s i t t' sh : tasks s !! i = Some t → send_resume t (shared s) = Done (t', sh) →
    fstep s {| shared := sh; tasks := <[i := t']> (tasks s) |}
| fstep_cancel s i t sh : tasks s !! i = Some t → send_cancel t (shared s) = Done (tt, sh) →
    fstep s {| shared := sh; tasks := delete i (tasks s) |}
| fstep_result s (r : FutureRecord K P) x sh : send_result r (shared s) = Done (x, sh) →
    fstep s {| shared := sh; tasks := tasks s |}
| fstep_poll s queue deadline sh : producer_turn queue deadline (shared s) = Done (tt, sh) →
    fstep s {| shared := sh; tasks := tasks s |}.

End send.
Arguments send_state {N} K P.
Arguments send_task {N} K P.
Arguments fsys W {N} K P.

(** ** What the native producer and the channels promise *)

(** The value sent on a channel, in a log of sends. *)
Definition value_of {R} (c : nat) (log : list (nat * R)) : option R :=
  snd <$> head (filter (λ x, x.1 = c) log).

Lemma value_of_cons {R} c x (log : list (nat * R)) :
  value_of c (x :: log) = if decide (x.1 = c) then Some x.2 else value_of c log.
Proof. unfold value_of. rewrite filter_cons. by case_decide. Qed.

Lemma value_of_None {R} c (log : list (nat * R)) : value_of c log = None ↔ c ∉ log.*1.
Proof.
  induction log as [|x log IH]; [split; [intros _; apply not_elem_of_nil|done]|].
  rewrite value_of_cons. simpl. rewrite not_elem_of_cons, <- IH. case_decide; split; [done|..]; tauto || naive_solver.
Qed.

Lemma value_of_app {R} c (l1 l2 : list (nat * R)) : value_of c l1 = None → value_of c (l1 ++ l2) = value_of c l2.
Proof.
  induction l1 as [|x l1 IH]; [done|]. simpl. rewrite !value_of_cons. case_decide; [done|]. apply IH.
Qed.

Lemma value_of_elem {R} c (r : R) (log : list (nat * R)) : value_of c log = Some r → (c, r) ∈ log.
Proof.
  induction log as [|[c' x] log IH]; [done|]. rewrite value_of_cons. simpl. case_decide as Hc.
  - intros [= ->]. subst c'. left.
  - intros Hr. right. by apply IH.
Qed.

Lemma value_of_lookup {R} k c (r : R) (log : list (nat * R)) :
  NoDup log.*1 → log !! k = Some (c, r) → value_of c log = Some r.
Proof.
  revert k. induction log as [|x log IH]; intros k; [done|]. simpl. intros [Hx Hnd]%NoDup_cons.
  rewrite value_of_cons. destruct k as [|k]; simpl.
  - intros [= ->]. simpl. by rewrite decide_True.
  - intros Hk. rewrite decide_False; [by apply (IH k)|]. intros <-. apply Hx, list_elem_of_fmap.
    exists (x.1, r). split; [done|]. by eapply list_elem_of_lookup_2.
Qed.

(** An entry of the log, as a call of the delivery callback. *)
Definition done_entry {R} (x : nat * R) : nat * outcome R := (x.1, Done x.2).

#[export] Instance done_entry_inj {R} : Inj (=) (=) (done_entry (R := R)).
Proof. intros [] []. unfold done_entry. by intros [= -> ->]. Qed.

(** [owes], as [inflight] of the base producer; [sent]: what has been sent on the
    channels; [opened] and [dropped]: the channels, and those whose sender was
    dropped unused. librdkafka and the wrapped context do not touch channels, and
    channels do not touch librdkafka; a new channel is a fresh one; a receiver sees
    the value sent, or that the sender is gone. The messages that librdkafka
    reports are of topics that were given as Rust strings. *)
Class FutureSpec (W : Type) `{!ClientNative W} `{!ClientContext W} `{N : HeadersNative} `{!MessageNative}
    `{!ProducerNative W} `{!Oneshot W OwnedDeliveryResult} := {
  owes : W → list (option nat);
  sent : W → list (nat * OwnedDeliveryResult);
  opened : W → gset nat;
  dropped : W → gset nat;
  fut_producev t p f pl pn k kn o ts h w e w' :
    rd_kafka_producev t p f pl pn k kn o ts h w = (e, w') →
    owes w' ≡ₚ (if resp_is_error e then owes w else o :: owes w)
    ∧ sent w' = sent w ∧ (opened w', dropped w') = (opened w, dropped w);
  fut_poll q ms w o w' : rd_kafka_queue_poll q ms w = (o, w') →
    owes w ≡ₚ match o with
              | Some ev => if event_type ev =? RD_KAFKA_EVENT_DR then msg_private <$> event_messages ev else []
              | None => []
              end ++ owes w'
    ∧ sent w' = sent w ∧ (opened w', dropped w') = (opened w, dropped w)
    ∧ (∀ ev, o = Some ev →
         Forall (λ m, is_str (rd_kafka_topic_name (msg_rkt m)) = true) (event_messages ev));
  fut_effect ev w w' : event_effect ev w = Done (tt, w') →
    owes w' ≡ₚ owes w ∧ sent w' = sent w ∧ (opened w', dropped w') = (opened w, dropped w);
  fut_error e r w :
    owes (error e r w) ≡ₚ owes w ∧ sent (error e r w) = sent w
    ∧ (opened (error e r w), dropped (error e r w)) = (opened w, dropped w);
  fut_flush ms w e w' : rd_kafka_flush ms w = (e, w') →
    owes w' ≡ₚ owes w ∧ sent w' = sent w ∧ (opened w', dropped w') = (opened w, dropped w);
  fut_channel w c w' : oneshot_channel w = (c, w') →
    (c ∉ opened w) ∧ (c ∉ dropped w) ∧ (c ∉ (sent w).*1) ∧ owes w' ≡ₚ owes w ∧ sent w' = sent w
    ∧ (opened w', dropped w') = ({[ c ]} ∪ opened w, dropped w);
  fut_send c r w :
    owes (oneshot_send c r w) ≡ₚ owes w ∧ sent (oneshot_send c r w) = sent w ++ [(c, r)]
    ∧ (opened (oneshot_send c r w), dropped (oneshot_send c r w)) = (opened w, dropped w);
  fut_drop c w :
    owes (oneshot_drop c w) ≡ₚ owes w ∧ sent (oneshot_drop c w) = sent w
    ∧ (opened (oneshot_drop c w), dropped (oneshot_drop c w)) = (opened w, {[ c ]} ∪ dropped w);
  fut_drop_clock c w : clock w ≤ clock (oneshot_drop c w);
  fut_receive c w :
    oneshot_poll c w
    = match value_of c (sent w) with
      | Some r => Some (Ok r)
      | None => if decide (c ∈ dropped w) then Some (Err tt) else None
      end;
}.

Section future_spec.
Context {W : Type} `{!ClientNative W} `{!ClientContext W} `{N : HeadersNative} `{!HeadersNativeSpec N}
  `{!MessageNative} `{!ProducerNative W} `{!Oneshot W OwnedDeliveryResult} `{!FutureSpec W}.

Lemma owned_delivery_result_run r : is_str (rd_kafka_topic_name (msg_rkt (result_message r))) = true →
  ∃ o, owned_delivery_result r = Done o.
Proof.
  destruct r as [m|[e m]]; simpl; intros Ht; [by eexists|].
  destruct (detach_run m Ht) as (o & -> & _). by eexists.
Qed.

(** The future producer's context keeps the promise of a delivery callback. *)
#[export] Instance future_producer_spec : ProducerSpec W (Box nat).
Proof.
  refine {| inflight := owes;
            reports w := done_entry <$> sent w;
            untouched w := (opened w, dropped w);
            noted r (d : Box nat) := (unbox d, owned_delivery_result r);
            deliverable m := is_str (rd_kafka_topic_name (msg_rkt m)) = true |}.
  - intros * (H1 & H2 & H3)%fut_producev. by rewrite H2.
  - intros * (H1 & H2 & H3 & H4)%fut_poll. by rewrite H2.
  - intros * (H1 & H2 & H3)%fut_effect. by rewrite H2.
  - intros e r w. destruct (fut_error e r w) as (H1 & H2 & H3). by rewrite H2.
  - intros * (H1 & H2 & H3)%fut_flush. by rewrite H2.
  - intros r d w Hr. destruct (owned_delivery_result_run r Hr) as [o Ho]. simpl.
    unfold mbind, comp_bind, lift. rewrite Ho. eexists. split; [done|].
    destruct (fut_send (unbox d) o w) as (H1 & H2 & H3). rewrite H2, fmap_app. by split_and!.
Defined.

End future_spec.

(** ** One attempt to send *)

Section attempt.
Context {W : Type} `{!ClientNative W} `{!ClientContext W} `{N : HeadersNative} `{!HeadersNativeSpec N}
  `{!MessageNative} `{!ProducerNative W} `{!Oneshot W OwnedDeliveryResult} `{!FutureSpec W}.
Context {K P : Type} `{!ToBytes K} `{!ToBytes P}.
Implicit Types (w : W) (s sh : pworld W (Box nat)) (b : BaseRecord K P (Box nat)).

Lemma queue_full_eqb e : kafka_error_eqb e (MessageProduction Code.QueueFull) = true
  ↔ e = MessageProduction Code.QueueFull.
Proof. split; [|by intros ->]. destruct e; simpl; try done. by intros ->%bool_decide_eq_true. Qed.

(** Sending leaves the channels alone. *)
Lemma send_channels b s l : owed s l →
  ∃ r s', send b s = Done (r, s') ∧ sent (pw s') = sent (pw s)
    ∧ opened (pw s') = opened (pw s) ∧ dropped (pw s') = dropped (pw s)
    ∧ match r with
      | Ok _ => ∃ p, owed s' ((p, br_delivery_opaque b) :: l)
      | Err (_, b') => b' = b ∧ owed s' l
      end.
Proof.
  intros (r & s' & H1 & H2 & H3 & H4)%(send_run b). exists r, s'. split; [done|].
  simpl in H2, H3. injection H3 as H3 H3'. split_and!; [|done|done|].
  - by apply (inj (fmap done_entry)) in H2.
  - destruct r as [|[e b']]; [done|]. by destruct H4 as (? & ? & _).
Qed.

Definition drop_sender (c : nat) s : pworld W (Box nat) := {| pw := oneshot_drop c (pw s); ph := ph s |}.

Lemma drop_sender_owed c s l : owed s l → owed (drop_sender c s) l.
Proof. intros Ho. apply (owed_world s l); [done|]. apply (fut_drop c (pw s)). Qed.

(** An attempt ends in one of three ways: the record is with librdkafka; the
    queue was full and the record is kept for another attempt; the record is
    given back as an owned message, and if the queue was full the time is over. *)
Lemma send_attempt_run start tmo b s l : owed s l →
  ∃ st s', send_attempt start tmo b s = Done (st, s') ∧ sent (pw s') = sent (pw s)
    ∧ opened (pw s') = opened (pw s)
    ∧ match st with
      | Sending _ => False
      | Waiting => dropped (pw s') = dropped (pw s) ∧ ∃ p, owed s' ((p, br_delivery_opaque b) :: l)
      | Delaying until b' => b' = b ∧ owed s' l ∧ dropped (pw s') = dropped (pw s)
          ∧ until = clock (pw s') + duration_from_millis 100 ∧ can_retry (clock (pw s')) start tmo = true
      | Returned r => owed s' l ∧ dropped (pw s') = {[ unbox (br_delivery_opaque b) ]} ∪ dropped (pw s)
          ∧ ∃ e, r = Err (e, rejected_message b)
            ∧ (e = MessageProduction Code.QueueFull → can_retry (clock (pw s')) start tmo = false)
      end.
Proof.
  intros Ho. unfold send_attempt. destruct (send_channels b s l Ho) as (r & s1 & H1 & H2 & H3 & H4 & H5).
  rewrite (comp_bind_run _ _ _ _ _ H1). destruct r as [u|[e b']].
  { exists Waiting, s1. by split_and!. }
  destruct H5 as [-> H5]. unfold mbind at 1, comp_bind at 1, get. destruct (_ && _) eqn:Er.
  - apply andb_true_iff in Er as [_ Er]. eexists (Delaying _ _), s1. by split_and!.
  - eexists (Returned _), (drop_sender _ s1). split; [done|].
    destruct (fut_drop (unbox (br_delivery_opaque b)) (pw s1)) as (_ & Hd2 & [= Hd3 Hd4]). simpl.
    rewrite Hd2, Hd3, Hd4, H3, H4. split_and!; [done|done|by apply drop_sender_owed|done|].
    eexists. split; [done|]. intros ->. apply andb_false_iff in Er as [Er|Er]; [done|].
    pose proof (fut_drop_clock (unbox (br_delivery_opaque b)) (pw s1)) as Hc.
    unfold can_retry, instant_since in *. destruct tmo; [|done]. lia.
Qed.

(** Serving an event completes channels: those of the values that are no longer
    owed, each with the result of the message that carried its pointer. *)
Lemma settles_by_sent ms s l s' l' : settles_by ms s l s' l' →
  ∃ gone new, l ≡ₚ gone ++ l' ∧ gone.*1 = msg_private <$> ms
    ∧ sent (pw s') = sent (pw s) ++ new ∧ new.*1 = unbox <$> gone.*2
    ∧ Forall2 (λ m (x : nat * OwnedDeliveryResult), owned_delivery_result (delivered m) = Done x.2) ms new
    ∧ opened (pw s') = opened (pw s) ∧ dropped (pw s') = dropped (pw s) ∧ owed s' l'.
Proof.
  intros (gone & Hp & Hm & Hr & Hu & Ho). simpl in Hr, Hu. injection Hu as Hu1 Hu2.
  apply fmap_app_inv in Hr as (a & new & Ha & Hn & ->).
  apply (inj (fmap done_entry)) in Ha as <-.
  assert (new.*1 = unbox <$> gone.*2
          ∧ Forall2 (λ m (x : nat * OwnedDeliveryResult), owned_delivery_result (delivered m) = Done x.2) ms new)
    as [H1 H2]; [|by exists gone, new].
  clear Hp Ho. revert gone new Hm Hn.
  induction ms as [|m ms IH]; intros [|[p d] gone] new Hm Hn; try done; simpl in *.
  - symmetry in Hn. by apply fmap_nil_inv in Hn as ->.
  - destruct new as [|[c r] new]; [done|]. unfold done_entry at 1 in Hn. injection Hn as Hc Hr Hn.
    injection Hm as Hm1 Hm2. destruct (IH gone new Hm2 Hn) as [H1 H2]. simpl in *.
    split; [by f_equal|by constructor].
Qed.

Lemma settles_sent s l s' l' : settles s l s' l' →
  ∃ ms gone new, l ≡ₚ gone ++ l' ∧ gone.*1 = msg_private <$> ms
    ∧ sent (pw s') = sent (pw s) ++ new ∧ new.*1 = unbox <$> gone.*2
    ∧ Forall2 (λ m (x : nat * OwnedDeliveryResult), owned_delivery_result (delivered m) = Done x.2) ms new
    ∧ opened (pw s') = opened (pw s) ∧ dropped (pw s') = dropped (pw s) ∧ owed s' l'.
Proof. intros (ms & (gone & new & Hs)%settles_by_sent). by exists ms, gone, new. Qed.

End attempt.

(** ** Where the senders are *)

Section invariant.
Context {W : Type} `{!ClientNative W} `{!ClientContext W} `{N : HeadersNative} `{!HeadersNativeSpec N}
  `{!MessageNative} `{!ProducerNative W} `{!Oneshot W OwnedDeliveryResult} `{!FutureSpec W}.
Context {K P : Type} `{!ToBytes K} `{!ToBytes P}.
Implicit Types (w : W) (sh : pworld W (Box nat)) (l : list (option nat * Box nat)).
Implicit Types (s : fsys W K P) (t : send_task K P).

(** A channel whose sender has neither been used nor dropped. *)
Definition chan_live (w : W) (c : nat) : Prop := c ∈ opened w ∧ (c ∉ dropped w) ∧ c ∉ (sent w).*1.

(** A future that has not sent holds its sender; one that waits has its sender
    with librdkafka, or has its result. *)
Definition task_ok (w : W) (l : list (option nat * Box nat)) (t : send_task K P) : Prop :=
  st_rx t ∈ opened w
  ∧ match st_state t with
    | Sending b | Delaying _ b =>
        br_delivery_opaque b = mkBox (st_rx t) ∧ chan_live w (st_rx t) ∧ mkBox (st_rx t) ∉ l.*2
    | Waiting => (st_rx t ∉ dropped w) ∧ (mkBox (st_rx t) ∈ l.*2 ∨ st_rx t ∈ (sent w).*1)
    | Returned _ => True
    end.

Record future_inv (s : fsys W K P) (l : list (option nat * Box nat)) : Prop := {
  fi_owed : owed (shared s) l;
  fi_senders : NoDup l.*2;
  fi_flying c : mkBox c ∈ l.*2 → chan_live (pw (shared s)) c;
  fi_tasks i t : tasks s !! i = Some t → task_ok (pw (shared s)) l t;
  fi_distinct i j t u : tasks s !! i = Some t → tasks s !! j = Some u → st_rx t = st_rx u → i = j;
}.

(** The initial states: nothing is owed and no future has been started. *)
Definition future_initial (s : fsys W K P) : Prop := owed (shared s) [] ∧ tasks s = ∅.

Lemma future_initial_inv s : future_initial s → future_inv s [].
Proof.
  intros [Ho Ht]. split; [done|constructor|by intros c []%elem_of_nil|..]; rewrite Ht;
    intros *; by rewrite lookup_empty.
Qed.

(** A step that touches one channel [c], that of the future [i]. *)
Lemma future_inv_touch s l sh l' i c (o : option (send_task K P)) :
  future_inv s l → owed sh l' → NoDup l'.*2 →
  sent (pw sh) = sent (pw (shared s)) → opened (pw (shared s)) ⊆ opened (pw sh) →
  (∀ c', c' ≠ c → (c' ∈ dropped (pw sh) ↔ c' ∈ dropped (pw (shared s))) ∧ (mkBox c' ∈ l'.*2 ↔ mkBox c' ∈ l.*2)) →
  (mkBox c ∈ l'.*2 → chan_live (pw sh) c) →
  (∀ j u, j ≠ i → tasks s !! j = Some u → st_rx u ≠ c) →
  (∀ t, o = Some t → st_rx t = c ∧ task_ok (pw sh) l' t) →
  future_inv {| shared := sh; tasks := partial_alter (λ _, o) i (tasks s) |} l'.
Proof.
  intros [H1 H2 H3 H4 H5] Ho Hnd Hs Hop Hother Hc Hrx Hi. split; simpl; [done|done|..].
  - intros c' Hin. destruct (decide (c' = c)) as [->|Hne]; [by apply Hc|].
    destruct (Hother c' Hne) as [Hd Hl]. destruct (H3 c') as (A & B & C); [by apply Hl|].
    split; [by apply Hop|]. rewrite Hd, Hs. done.
  - intros j u. destruct (decide (j = i)) as [->|Hne].
    + rewrite lookup_partial_alter_eq. intros Ht. by apply Hi.
    + rewrite lookup_partial_alter_ne by done. intros Hu. destruct (H4 _ _ Hu) as [A B].
      destruct (Hother _ (Hrx _ _ Hne Hu)) as [Hd Hl]. split; [by apply Hop|].
      unfold chan_live in *. destruct (st_state u); rewrite ?Hd, ?Hl, ?Hs; destruct_and?; split_and?; auto.
  - intros j k u v. destruct (decide (j = i)) as [->|Hj]; destruct (decide (k = i)) as [->|Hk]; [done|..];
      rewrite ?lookup_partial_alter_eq, ?lookup_partial_alter_ne by done; intros Hu Hv He.
    + destruct (Hrx _ _ Hk Hv). rewrite <- He. by apply Hi.
    + destruct (Hrx _ _ Hj Hu). rewrite He. by apply Hi.
    + by apply (H5 j k u v).
Qed.

(** A step that serves an event. *)
Lemma future_inv_settles s l sh l' : future_inv s l → settles (shared s) l sh l' →
  future_inv {| shared := sh; tasks := tasks s |} l'.
Proof.
  intros [H1 H2 H3 H4 H5] (ms & gone & new & Hp & _ & Hs & Hn & _ & Hop & Hd & Ho)%settles_sent.
  assert (l.*2 ≡ₚ gone.*2 ++ l'.*2) as Hp2 by (by rewrite Hp, fmap_app).
  assert (NoDup (gone.*2 ++ l'.*2)) as (Hg1 & Hg2 & Hg3)%NoDup_app by (by rewrite <- Hp2).
  assert (∀ c, c ∈ (sent (pw sh)).*1 ↔ c ∈ (sent (pw (shared s))).*1 ∨ mkBox c ∈ gone.*2) as Hsent.
  { intros c. rewrite Hs, fmap_app, elem_of_app, Hn, (list_elem_of_fmap unbox). split.
    - intros [?|([c'] & -> & ?)]; auto.
    - intros [?|?]; [by left|right]. by exists (mkBox c). }
  split; simpl; [done|done|..|done].
  - intros c Hc. destruct (H3 c) as (A & B & C); [rewrite Hp2; apply elem_of_app; by right|].
    split; [by rewrite Hop|]. rewrite Hd, Hsent. split; [done|]. intros [?|Hin]; [done|]. by apply (Hg2 _ Hin).
  - intros i t Ht. destruct (H4 _ _ Ht) as [A B]. split; [by rewrite Hop|].
    assert (mkBox (st_rx t) ∈ l.*2 ↔ mkBox (st_rx t) ∈ gone.*2 ∨ mkBox (st_rx t) ∈ l'.*2) as Hl
      by (by rewrite Hp2, elem_of_app).
    unfold chan_live in *. destruct (st_state t); rewrite ?Hop, ?Hd, ?Hsent; tauto.
Qed.

Lemma channel_run sh l : owed sh l →
  ∃ c sh', native oneshot_channel sh = Done (c, sh') ∧ owed sh' l ∧ sent (pw sh') = sent (pw sh)
    ∧ (c ∉ opened (pw sh)) ∧ opened (pw sh) ⊆ opened (pw sh') ∧ dropped (pw sh') = dropped (pw sh)
    ∧ chan_live (pw sh') c.
Proof.
  intros Ho. unfold native, on_world, call. destruct (oneshot_channel (pw sh)) as [c w'] eqn:E.
  apply fut_channel in E as (H1 & H2 & H3 & H4 & H5 & [= H6 H7]). do 2 eexists. split; [done|]. simpl.
  split_and!; [by apply owed_world|done|done|set_solver|done|]. unfold chan_live. simpl.
  rewrite H5, H6, H7. set_solver.
Qed.

(** The channel of a future that has just been created is not in use. *)
Lemma fresh_channel s l c : future_inv s l → c ∉ opened (pw (shared s)) →
  (mkBox c ∉ l.*2) ∧ ∀ j u, tasks s !! j = Some u → st_rx u ≠ c.
Proof.
  intros Hi Hc. split.
  - intros Hin. by destruct (fi_flying _ _ Hi c Hin).
  - intros j u Hu <-. by destruct (fi_tasks _ _ Hi j u Hu).
Qed.

Lemma spawn_inv s l i r tmo t sh : future_inv s l → send_start r tmo (shared s) = Done (t, sh) →
  future_inv {| shared := sh; tasks := <[i := t]> (tasks s) |} l.
Proof.
  intros Hi Hr. unfold send_start in Hr. apply comp_bind_Done in Hr as (x & s1 & [= <- <-] & Hr).
  destruct (channel_run _ _ (fi_owed _ _ Hi)) as (c & sh' & Hc & Ho & Hs & Hf & Hop & Hd & Hl).
  rewrite (comp_bind_run _ _ _ _ _ Hc) in Hr. injection Hr as <- <-.
  destruct (fresh_channel s l c Hi Hf) as [Hnl Hrx].
  apply (future_inv_touch s l sh' l i c); [done|done|apply Hi|done|done| |done| |].
  - intros c' _. by rewrite Hd.
  - intros j u _. apply Hrx.
  - intros t [= <-]. split; [done|]. split; [apply Hl|]. by split_and!.
Qed.

(** A poll of a future hands its sender to librdkafka or nothing. *)
Definition hands_over l l' (t : send_task K P) : Prop :=
  l' = l ∨ st_state t = Waiting ∧ ∃ p, l' = (p, mkBox (st_rx t)) :: l.

(** A future that holds its sender makes an attempt. *)
Lemma attempt_inv s l i t b st sh : future_inv s l → tasks s !! i = Some t →
  br_delivery_opaque b = mkBox (st_rx t) → chan_live (pw (shared s)) (st_rx t) → mkBox (st_rx t) ∉ l.*2 →
  send_attempt (st_start t) (st_timeout t) b (shared s) = Done (st, sh) →
  ∃ l', future_inv {| shared := sh; tasks := <[i := with_state st t]> (tasks s) |} l'
    ∧ hands_over l l' (with_state st t).
Proof.
  intros Hi Ht Hb Hl Hnl Hr.
  destruct (send_attempt_run (st_start t) (st_timeout t) b _ _ (fi_owed _ _ Hi)) as (st' & sh' & Hr' & Hs & Hop & Hst).
  rewrite Hr' in Hr. injection Hr as -> ->.
  assert (∀ j u, j ≠ i → tasks s !! j = Some u → st_rx u ≠ st_rx t) as Hrx.
  { intros j u Hj Hu He. by apply Hj, (fi_distinct _ _ Hi j i u t). }
  destruct st as [|until b'| |r]; [done|..].
  - destruct Hst as (-> & Ho & Hd & _). exists l. split; [|by left].
    apply (future_inv_touch s l sh l i (st_rx t)); [done|done|apply Hi|done|by rewrite Hop|by rewrite Hd|done|done|].
    intros t' [= <-]. split; [done|]. split; simpl; [rewrite Hop; apply Hl|]. split_and!; [done| |done].
    unfold chan_live. by rewrite Hop, Hd, Hs.
  - destruct Hst as (Hd & p & Ho). rewrite Hb in Ho. exists ((p, mkBox (st_rx t)) :: l).
    split; [|right; split; [done|by exists p]].
    apply (future_inv_touch s l sh _ i (st_rx t)); [done|done| |done|by rewrite Hop| | |done|].
    + simpl. constructor; [done|apply Hi].
    + intros c' Hc'. rewrite Hd. split; [done|]. simpl. rewrite elem_of_cons. split; [|by right].
      by intros [[= ->]|?].
    + intros _. unfold chan_live. by rewrite Hop, Hd, Hs.
    + intros t' [= <-]. split; [done|]. split; simpl; [rewrite Hop; apply Hl|]. rewrite Hd.
      split; [apply Hl|]. left. left.
  - destruct Hst as (Ho & Hd & _). rewrite Hb in Hd. simpl in Hd. exists l. split; [|by left].
    apply (future_inv_touch s l sh l i (st_rx t)); [done|done|apply Hi|done|by rewrite Hop| |done|done|].
    + intros c' Hc'. rewrite Hd. set_solver.
    + intros t' [= <-]. split; [done|]. split; [simpl; rewrite Hop; apply Hl|done].
Qed.

(** A sender that is not with librdkafka is dropped, with the future [i]. *)
Lemma drop_inv s l i c : future_inv s l → mkBox c ∉ l.*2 →
  (∀ j u, j ≠ i → tasks s !! j = Some u → st_rx u ≠ c) →
  future_inv {| shared := drop_sender c (shared s); tasks := delete i (tasks s) |} l.
Proof.
  intros Hi Hnl Hrx. destruct (fut_drop c (pw (shared s))) as (H1 & H2 & [= H3 H4]).
  apply (future_inv_touch s l (drop_sender c (shared s)) l i c _ Hi); simpl;
    [by apply drop_sender_owed, Hi|apply Hi|done|by rewrite H3| |done|done|done].
  intros c' Hc'. rewrite H4. set_solver.
Qed.

Lemma resume_rx t t' sh sh' : send_resume t sh = Done (t', sh') → st_rx t' = st_rx t.
Proof.
  intros Hr. unfold send_resume in Hr. apply comp_bind_Done in Hr as (y & s1 & [= <- <-] & Hr).
  assert (∀ b, (st ← send_attempt (st_start t) (st_timeout t) b; mret (with_state st t)) sh = Done (t', sh') →
    st_rx t' = st_rx t) as Hattempt by (by intros b (st & s1 & Ha & [= <- _])%comp_bind_Done).
  destruct (st_state t) as [b|until b| |r]; [by eapply Hattempt| | |done].
  - case_match; [by injection Hr as <- _|by eapply Hattempt].
  - by destruct (oneshot_poll _ _) as [[]|]; [injection Hr as <- _| |injection Hr as <- _].
Qed.

Lemma resume_inv s l i t t' sh : future_inv s l → tasks s !! i = Some t →
  send_resume t (shared s) = Done (t', sh) →
  ∃ l', future_inv {| shared := sh; tasks := <[i := t']> (tasks s) |} l' ∧ hands_over l l' t'.
Proof.
  intros Hi Ht Hr. unfold send_resume in Hr. apply comp_bind_Done in Hr as (x & s1 & [= <- <-] & Hr).
  pose proof (fi_tasks _ _ Hi i t Ht) as [Hop Hok].
  assert (∃ l', future_inv {| shared := shared s; tasks := <[i := t]> (tasks s) |} l' ∧ hands_over l l' t) as Hsame.
  { exists l. split; [|by left]. rewrite insert_id by done. by destruct s. }
  destruct (st_state t) as [b|until b| |r]; [|case_match; [by injection Hr as <- <-|]|case_match|done].
  - destruct Hok as (Hb & Hl & Hnl). apply comp_bind_Done in Hr as (st & s1 & Hr & [= <- <-]).
    by eapply attempt_inv.
  - destruct Hok as (Hb & Hl & Hnl). apply comp_bind_Done in Hr as (st & s1 & Hr & [= <- <-]).
    by eapply attempt_inv.
  - case_match; [|done]. injection Hr as <- <-. exists l. split; [|by left].
    apply (future_inv_touch s l (shared s) l i (st_rx t)); [done|apply Hi|apply Hi|done|done|done|apply Hi| |].
    + intros j u Hj Hu He. by apply Hj, (fi_distinct _ _ Hi j i u t).
    + intros t' [= <-]. by split.
  - by injection Hr as <- <-.
Qed.

Lemma cancel_inv s l i t sh : future_inv s l → tasks s !! i = Some t →
  send_cancel t (shared s) = Done (tt, sh) → future_inv {| shared := sh; tasks := delete i (tasks s) |} l.
Proof.
  intros Hi Ht Hr. pose proof (fi_tasks _ _ Hi i t Ht) as [Hop Hok].
  assert (∀ j u, j ≠ i → tasks s !! j = Some u → st_rx u ≠ st_rx t) as Hrx.
  { intros j u Hj Hu He. by apply Hj, (fi_distinct _ _ Hi j i u t). }
  assert (future_inv {| shared := shared s; tasks := delete i (tasks s) |} l) as Hsame.
  { by apply (future_inv_touch s l (shared s) l i (st_rx t)); [|apply Hi|apply Hi| | | |apply Hi| |]. }
  unfold send_cancel in Hr. destruct (st_state t) as [b|until b| |r];
    [|destruct Hok as (Hb & Hl & Hnl)|by injection Hr as <-..].
  - destruct Hok as (Hb & Hl & Hnl). rewrite Hb in Hr. injection Hr as <-. by apply drop_inv.
  - rewrite Hb in Hr. injection Hr as <-. by apply drop_inv.
Qed.

(** [send_result] hands the sender to librdkafka, or drops it. *)
Lemma send_result_run (r : FutureRecord K P) sh l : owed sh l →
  ∃ x sh' c, send_result r sh = Done (x, sh') ∧ sent (pw sh') = sent (pw sh) ∧ (c ∉ opened (pw sh))
    ∧ opened (pw sh) ⊆ opened (pw sh')
    ∧ match x with
      | Ok rx => rx = c ∧ dropped (pw sh') = dropped (pw sh) ∧ chan_live (pw sh') c
                 ∧ ∃ p, owed sh' ((p, mkBox c) :: l)
      | Err (e, r') => r' = r ∧ dropped (pw sh') = {[ c ]} ∪ dropped (pw sh) ∧ owed sh' l
      end.
Proof.
  intros Ho. unfold send_result.
  destruct (channel_run _ _ Ho) as (c & sh1 & Hc & Ho1 & Hs1 & Hf & Hop & Hd & Hl).
  rewrite (comp_bind_run _ _ _ _ _ Hc).
  destruct (send_channels (into_base_record r (mkBox c)) sh1 l Ho1) as (x & sh2 & H2 & Hs2 & Hop2 & Hd2 & Hx).
  rewrite (comp_bind_run _ _ _ _ _ H2). destruct x as [u|[e b]].
  - exists (Ok c), sh2, c. unfold chan_live. rewrite Hop2, Hd2, Hs2. split_and!; try done; by apply Hl.
  - destruct Hx as [-> Ho2]. destruct (fut_drop c (pw sh2)) as (H3 & H4 & [= H5 H6]).
    eexists (Err _), (drop_sender c sh2), c. split; [done|]. simpl. rewrite H4, H5, H6, Hop2, Hd2, Hs2, Hd.
    split_and!; [done..|by destruct r|done|by apply drop_sender_owed].
Qed.

Lemma result_inv s l (r : FutureRecord K P) x sh : future_inv s l → send_result r (shared s) = Done (x, sh) →
  ∃ l', future_inv {| shared := sh; tasks := tasks s |} l'.
Proof.
  intros Hi Hr. destruct (send_result_run r _ _ (fi_owed _ _ Hi)) as (x' & sh' & c & Hr' & Hs & Hf & Hop & Hx).
  rewrite Hr' in Hr. injection Hr as -> ->. destruct (fresh_channel s l c Hi Hf) as [Hnl Hrx].
  rewrite <- (delete_id (tasks s) (fresh (dom (tasks s)))) by (apply not_elem_of_dom, is_fresh).
  destruct x as [rx|[e r']].
  - destruct Hx as (-> & Hd & Hl & p & Ho). exists ((p, mkBox c) :: l).
    apply (future_inv_touch s l sh _ _ c); [done|done| |done|done| |done| |done].
    + simpl. constructor; [done|apply Hi].
    + intros c' Hc'. rewrite Hd. split; [done|]. simpl. rewrite elem_of_cons. split; [|by right].
      by intros [[= ->]|?].
    + intros j u _. apply Hrx.
  - destruct Hx as (-> & Hd & Ho). exists l.
    apply (future_inv_touch s l sh l _ c); [done|done|apply Hi|done|done| |done| |done].
    + intros c' Hc'. rewrite Hd. set_solver.
    + intros j u _. apply Hrx.
Qed.

Lemma fstep_inv s s' l : future_inv s l → fstep s s' → ∃ l', future_inv s' l'.
Proof.
  intros Hi Hstep. destruct Hstep as [s i r tmo t sh Hn Hr|s i t t' sh Ht Hr|s i t sh Ht Hr|s r x sh Hr|s q dl sh Hr].
  - exists l. by eapply spawn_inv.
  - destruct (resume_inv _ _ _ _ _ _ Hi Ht Hr) as (l' & Hi' & _). by exists l'.
  - exists l. by eapply cancel_inv.
  - by eapply result_inv.
  - destruct (producer_turn_settles q dl (shared s) l (fi_owed _ _ Hi)) as (sh' & l' & Hr' & Hs).
    rewrite Hr' in Hr. injection Hr as ->. exists l'. by eapply future_inv_settles.
Qed.

(** The states that the interleavings reach. *)
Definition freachable (s : fsys W K P) : Prop := ∃ s0, future_initial s0 ∧ rtc fstep s0 s.

Lemma freachable_inv s : freachable s → ∃ l, future_inv s l.
Proof.
  intros (s0 & H0 & Hst). assert (∃ l, future_inv s0 l) as Hi by (exists []; by apply future_initial_inv).
  clear H0. induction Hst as [|s0 s1 s2 Hs _ IH]; [done|]. destruct Hi as [l Hi].
  by apply IH, (fstep_inv s0 s1 l).
Qed.

End invariant.

(** ** The loop of [send] on its own *)

(** [sleep until] is what the rest of the program does while the future waits for
    [delay_for]; when it is resumed the time is over and librdkafka's debts are
    still accounted for. *)
Class SleepSpec (W : Type) `{!ClientNative W} `{!ClientContext W} `{N : HeadersNative} `{!HeadersNativeSpec N}
    `{!MessageNative} `{!ProducerNative W} `{!Oneshot W OwnedDeliveryResult} `{!FutureSpec W}
    (sleep : Z → pworld W (Box nat) → pworld W (Box nat)) : Prop := {
  sleep_clock until s : until ≤ clock (pw (sleep until s));
  sleep_owed until s l : owed s l → ∃ l', owed (sleep until s) l';
  produce_clock t p f pl pn k kn o ts h (w : W) e w' :
    rd_kafka_producev t p f pl pn k kn o ts h w = (e, w') → clock w ≤ clock w';
}.

Section send_loop.
Context {W : Type} `{!ClientNative W} `{!ClientContext W} `{N : HeadersNative} `{!HeadersNativeSpec N}
  `{!MessageNative} `{!ProducerNative W} `{!Oneshot W OwnedDeliveryResult} `{!FutureSpec W}.
Context {K P : Type} `{!ToBytes K} `{!ToBytes P}.
Context (sleep : Z → pworld W (Box nat) → pworld W (Box nat)).

(** The loop of [FutureProducer::send] up to its [break], or to the wait for the
    delivery; [None] is out of fuel. *)
Fixpoint send_loop (fuel : nat) (start_time : Z) (queue_timeout : Timeout) (base_record : BaseRecord K P (Box nat))
    : comp (pworld W (Box nat)) (option (send_state K P)) :=
  match fuel with
  | O => mret None
  | S fuel =>
      st ← send_attempt start_time queue_timeout base_record;
      match st with
      | Delaying until b => _ ← modify (sleep until); send_loop fuel start_time queue_timeout b
      | st => mret (Some st)
      end
  end.

Lemma send_clock `{!SleepSpec W sleep} (b : BaseRecord K P (Box nat)) s r s' :
  send b s = Done (r, s') → clock (pw s) ≤ clock (pw s').
Proof.
  unfold send. destruct (as_bytes (br_payload b)) as [pl pn]. destruct (as_bytes (br_key b)) as [k kn].
  destruct (CString_new (br_topic b)); [|by intros [= <- <-]].
  unfold mbind, comp_bind, leak, call, native, on_world.
  destruct (into_ptr (br_delivery_opaque b) (ph s)) as [o h]. simpl.
  destruct (rd_kafka_producev _ _ _ _ _ _ _ _ _ _ (pw s)) as [e w'] eqn:Ep. apply produce_clock in Ep.
  destruct (resp_is_error e); [|by intros [= <- <-]].
  intros Hr. change ((reclaim o ≫= λ d, mret (Err (MessageProduction (code_of e), with_delivery_opaque d b)))
    {| pw := w'; ph := h |} = Done (r, s')) in Hr.
  apply comp_bind_Done in Hr as (d & s1 & Hr & [= <- <-]). unfold reclaim in Hr.
  destruct (from_ptr o _) as [[d' h']|]; [|done]. by injection Hr as <- <-.
Qed.

Lemma send_attempt_clock `{!SleepSpec W sleep} start tmo (b : BaseRecord K P (Box nat)) s st s' :
  send_attempt start tmo b s = Done (st, s') → clock (pw s) ≤ clock (pw s').
Proof.
  unfold send_attempt. intros Hr. apply comp_bind_Done in Hr as (r & s1 & H1 & Hr). apply send_clock in H1.
  destruct r as [u|[e b']]; [by injection Hr as <- <-|].
  apply comp_bind_Done in Hr as (x & s2 & [= <- <-] & Hr). destruct (_ && _); [by injection Hr as <- <-|].
  apply comp_bind_Done in Hr as (x & s2 & [= <- <-] & Hr). injection Hr as <- <-. simpl.
  etrans; [exact H1|]. apply fut_drop_clock.
Qed.

(** How an attempt that is not repeated ends. *)
Definition send_outcome (start t : Z) (b : BaseRecord K P (Box nat)) (st : send_state K P)
    (s' : pworld W (Box nat)) : Prop :=
  match st with
  | Waiting => ∃ p l', owed s' ((p, br_delivery_opaque b) :: l')
  | Returned r => ∃ e, r = Err (e, rejected_message b)
      ∧ (e = MessageProduction Code.QueueFull → start + t ≤ clock (pw s'))
  | _ => False
  end.

(** Each delay takes a tenth of a second off the timeout. *)
Lemma send_loop_returns `{!SleepSpec W sleep} fuel start t (b : BaseRecord K P (Box nat)) s l :
  owed s l → start ≤ clock (pw s) → start + t - clock (pw s) ≤ Z.of_nat fuel * duration_from_millis 100 →
  ∃ st s', send_loop (S fuel) start (After t) b s = Done (Some st, s') ∧ send_outcome start t b st s'.
Proof.
  revert s l b. induction fuel as [|fuel IH]; intros s l b Ho Hst0 Hf; cbn [send_loop];
    destruct (send_attempt_run start (After t) b s l Ho) as (st & s1 & H1 & _ & _ & Hst);
    rewrite (comp_bind_run _ _ _ _ _ H1); apply send_attempt_clock in H1;
    (destruct st as [|until b'| |r]; [done| | |]); try (by destruct Hst as (_ & p & ?); do 2 eexists; split;
      [done|]; exists p, l);
    try (destruct Hst as (_ & _ & e & -> & Hq); do 2 eexists; split; [done|]; exists e; split; [done|];
      intros He%Hq; unfold can_retry, instant_since in He; lia);
    destruct Hst as (-> & Ho1 & _ & -> & Hc); unfold can_retry, instant_since in Hc; [lia|].
  unfold mbind, comp_bind, modify. destruct (sleep_owed (clock (pw s1) + duration_from_millis 100) s1 l Ho1) as [l' Ho'].
  pose proof (sleep_clock (clock (pw s1) + duration_from_millis 100) s1).
  assert (0 ≤ duration_from_millis 100) by done. apply (IH _ l'); [done|lia|lia].
Qed.

End send_loop.

(** ** Properties *)

Section properties.
Context {W : Type} `{!ClientNative W} `{!ClientContext W} `{N : HeadersNative} `{!HeadersNativeSpec N}
  `{!MessageNative} `{!ProducerNative W} `{!Oneshot W OwnedDeliveryResult} `{!FutureSpec W}.
Context {K P : Type} `{!ToBytes K} `{!ToBytes P}.
Implicit Types (s : fsys W K P) (t : send_task K P) (sh : pworld W (Box nat)).

(** The address at which a future's sender is with librdkafka. *)
Definition leaked_at (sh : pworld W (Box nat)) (a c : nat) : Prop := (ph sh : gmap nat nat) !! a = Some c.

Lemma owed_leaked sh l p c : owed sh l → (p, mkBox c) ∈ l → ∃ a, p = Some a ∧ leaked_at sh a c.
Proof. intros [[_ Hb] _] Hin. destruct (Hb _ _ Hin) as (a & -> & Ha). by exists a. Qed.

(** No two senders are at one address. *)
Lemma owed_pointers sh (l : list (option nat * Box nat)) : owed sh l → NoDup l.*1.
Proof. by intros [[? _] _]. Qed.

(** What a waiting future sees when it is polled. *)
Lemma waiting_resume t sh : st_state t = Waiting → st_rx t ∉ dropped (pw sh) →
  send_resume t sh = Done (match value_of (st_rx t) (sent (pw sh)) with
                           | Some r => with_state (Returned r) t
                           | None => t
                           end, sh).
Proof.
  intros Ht Hd. unfold send_resume, mbind, comp_bind, get. rewrite Ht, fut_receive.
  destruct (value_of _ _); [done|]. by rewrite decide_False.
Qed.

Lemma flying_pointer (l : list (option nat * Box nat)) c : mkBox c ∈ l.*2 → ∃ p : option nat, (p, mkBox c) ∈ l.
Proof. intros ([p d] & Hd & Hin)%list_elem_of_fmap. simpl in Hd. subst d. by exists p. Qed.

(** The entry of the log of sends for a value that was reported. *)
Lemma settled_entry ms (gone : list (option nat * Box nat)) (new : list (nat * OwnedDeliveryResult)) a c :
  gone.*1 = msg_private <$> ms → new.*1 = unbox <$> gone.*2 →
  Forall2 (λ m x, owned_delivery_result (delivered m) = Done x.2) ms new → (Some a, mkBox c) ∈ gone →
  ∃ k m r, new !! k = Some (c, r) ∧ m ∈ ms ∧ msg_private m = Some a ∧ owned_delivery_result (delivered m) = Done r.
Proof.
  intros Hms Hn Hf [k Hk]%list_elem_of_lookup_1.
  assert ((msg_private <$> ms) !! k = Some (Some a)) as H1 by (by rewrite <- Hms, list_lookup_fmap, Hk).
  rewrite list_lookup_fmap in H1. destruct (ms !! k) as [m|] eqn:Em; [|done]. injection H1 as H1.
  destruct (Forall2_lookup_l _ _ _ _ _ Hf Em) as ([c' r] & Hk' & Hr).
  assert (new.*1 !! k = Some c') as H2 by (by rewrite list_lookup_fmap, Hk').
  rewrite Hn, !list_lookup_fmap, Hk in H2. injection H2 as <-. exists k, m, r. by split_and!; [|eapply list_elem_of_lookup_2|..].
Qed.

(** C23: however sends, cancellations and the polling thread
    interleave, polling the future of a send never panics; in particular a future
    that waits for its delivery never finds its channel canceled: its sender is
    with librdkafka and it stays pending, or its result is there and it returns
    that result. *)
Theorem future_never_canceled s i t :
  freachable s → tasks s !! i = Some t → (∀ r, st_state t ≠ Returned r) →
  ∃ t' sh, send_resume t (shared s) = Done (t', sh)
    ∧ (st_state t = Waiting →
         (t' = t ∧ ∃ a, leaked_at (shared s) a (st_rx t))
         ∨ ∃ r, value_of (st_rx t) (sent (pw (shared s))) = Some r ∧ t' = with_state (Returned r) t).
Proof.
  intros [l Hi]%freachable_inv Ht Hnr. destruct (fi_tasks _ _ Hi i t Ht) as [Hop Hok].
  destruct (st_state t) as [b|until b| |r] eqn:Est; [| | |by destruct (Hnr r)].
  - destruct (send_attempt_run (st_start t) (st_timeout t) b _ _ (fi_owed _ _ Hi)) as (st & sh & Hr & _).
    exists (with_state st t), sh. split; [|done]. unfold send_resume, mbind, comp_bind, get. by rewrite Est, Hr.
  - unfold send_resume, mbind, comp_bind, get. rewrite Est. destruct (_ <? _); [by do 2 eexists|].
    destruct (send_attempt_run (st_start t) (st_timeout t) b _ _ (fi_owed _ _ Hi)) as (st & sh & -> & _).
    by do 2 eexists.
  - destruct Hok as [Hd Hw]. rewrite (waiting_resume t _ Est Hd). do 2 eexists. split; [done|]. intros _.
    destruct (value_of _ _) as [r|] eqn:Ev; [right; by exists r|]. left. split; [done|].
    apply value_of_None in Ev. destruct Hw as [(p & Hin)%flying_pointer|]; [|done].
    destruct (owed_leaked _ _ _ _ (fi_owed _ _ Hi) Hin) as (a & _ & Ha). by exists a.
Qed.

(** The result of a delivery that was reported. *)
Lemma owned_delivery_result_spec m r : owned_delivery_result (delivered m) = Done r →
  if resp_is_error (msg_err m)
  then ∃ om, detach m = Done om ∧ r = Err (MessageProduction (code_of (msg_err m)), om)
  else r = Ok {| d_partition := msg_partition m; d_offset := msg_offset m; d_timestamp := borrowed_timestamp m |}.
Proof.
  unfold delivered. destruct (resp_is_error (msg_err m)); simpl; [|by intros [= <-]].
  destruct (detach m) as [om|]; [|done]. intros [= <-]. by exists om.
Qed.

(** C7: a send completes with the result of its own message. Whatever event the polling
    thread takes from librdkafka while a send waits without a result: if the event
    reports the delivery of a message whose opaque pointer is the address at which the
    send's sender is leaked, the send returns that message's result, which is an error
    with librdkafka's code and a copy of the message if the delivery failed, and else
    the message's partition, offset and timestamp; and if it reports no such message,
    the send is still pending, with its sender leaked at that address. *)
Theorem future_own_result s i t queue deadline sh :
  freachable s → tasks s !! i = Some t → st_state t = Waiting →
  value_of (st_rx t) (sent (pw (shared s))) = None →
  producer_turn queue deadline (shared s) = Done (tt, sh) →
  ∃ a, leaked_at (shared s) a (st_rx t)
    ∧ ((leaked_at sh a (st_rx t) ∧ send_resume t sh = Done (t, sh)
        ∧ ∀ m, m ∈ turn_reports queue deadline (pw (shared s)) → msg_private m ≠ Some a)
       ∨ ∃ m r, m ∈ turn_reports queue deadline (pw (shared s)) ∧ msg_private m = Some a
           ∧ send_resume t sh = Done (with_state (Returned r) t, sh)
           ∧ if resp_is_error (msg_err m)
             then ∃ om, detach m = Done om ∧ r = Err (MessageProduction (code_of (msg_err m)), om)
             else r = Ok {| d_partition := msg_partition m; d_offset := msg_offset m;
                            d_timestamp := borrowed_timestamp m |}).
Proof.
  intros [l Hi]%freachable_inv Ht Est Hv Hrun. destruct (fi_tasks _ _ Hi i t Ht) as [Hop Hok].
  rewrite Est in Hok. destruct Hok as [Hd Hw]. pose proof Hv as Hns. apply value_of_None in Hns.
  destruct Hw as [Hin|]; [|done]. destruct (flying_pointer _ _ Hin) as [p Hp].
  destruct (owed_leaked _ _ _ _ (fi_owed _ _ Hi) Hp) as (a & -> & Ha). exists a. split; [done|].
  destruct (producer_turn_settles_by queue deadline _ l (fi_owed _ _ Hi)) as (r & w' & sh' & l' & Hr & Hrun' & Hs).
  apply reported_turn in Hr as Hr. rewrite Hr in Hs. rewrite Hrun' in Hrun. injection Hrun as ->.
  apply settles_by_sent in Hs as (gone & new & Hpm & Hms & Hse & Hn & Hf & _ & Hd' & Ho).
  assert (NoDup (gone.*2 ++ l'.*2)) as (Hg & Hdis & _)%NoDup_app.
  { rewrite <- fmap_app, <- Hpm. apply Hi. }
  rewrite waiting_resume by (done || by rewrite Hd'). rewrite Hse, (value_of_app _ _ _ Hv).
  pose proof Hp as Hp'. rewrite Hpm in Hp'. apply elem_of_app in Hp' as [Hp'|Hp'].
  - right. destruct (settled_entry _ gone new a (st_rx t) Hms Hn Hf Hp') as (k & m & x & Hk & Hm & Ha' & Hx).
    exists m, x. rewrite (value_of_lookup k _ x new); [|rewrite Hn; apply (NoDup_fmap_2_strong unbox); [|done];
      by intros [] [] _ _ [= ->]|done].
    split; [done|]. split; [done|]. split; [done|]. by apply owned_delivery_result_spec.
  - left. destruct (owed_leaked _ _ _ _ Ho Hp') as (a' & [= <-] & Ha'). split; [done|]. split.
    + rewrite (proj2 (value_of_None (st_rx t) new)); [done|]. rewrite Hn.
      intros ([c] & Hc & Hc')%list_elem_of_fmap. simpl in Hc. subst c. apply (Hdis _ Hc').
      apply list_elem_of_fmap. by exists (Some a, mkBox (st_rx t)).
    + intros m Hm Hma. assert (Some a ∈ gone.*1) as Hga.
      { rewrite Hms. apply list_elem_of_fmap. by exists m. }
      pose proof (owed_pointers _ _ (fi_owed _ _ Hi)) as Hnd. rewrite Hpm, fmap_app in Hnd.
      apply NoDup_app in Hnd as (_ & Hnd & _). apply (Hnd _ Hga), list_elem_of_fmap.
      by exists (Some a, mkBox (st_rx t)).
Qed.

(** C24: with a finite queue timeout the retry loop of a send ends, one
    attempt per tenth of a second of the timeout and two more being enough: either
    librdkafka has accepted the record and owns its sender, or the error comes back
    with the record as an owned message; and an error that the queue is full is
    returned only once the whole timeout has passed. *)
Theorem send_loop_terminates (sleep : Z → pworld W (Box nat) → pworld W (Box nat)) `{!SleepSpec W sleep}
    (t : Z) (b : BaseRecord K P (Box nat)) sh l :
  owed sh l → 0 ≤ t →
  ∃ st sh', send_loop sleep (Z.to_nat (t / duration_from_millis 100) + 2) (clock (pw sh)) (After t) b sh
            = Done (Some st, sh')
    ∧ send_outcome (clock (pw sh)) t b st sh'.
Proof.
  intros Ho Ht. assert (0 ≤ t / duration_from_millis 100) as Hq by (apply Z.div_pos; done).
  replace (_ + 2)%nat with (S (S (Z.to_nat (t / duration_from_millis 100)))) by lia.
  apply (send_loop_returns _ _ _ _ _ _ l Ho); [done|].
  change (duration_from_millis 100) with 100000000 in *.
  pose proof (Z.div_mod t 100000000). pose proof (Z.mod_pos_bound t 100000000). lia.
Qed.

(** Sending without retries returns at once: a future whose sender
    librdkafka owns and that is pending, or the error with the very record that was
    given. *)
Theorem send_result_spec (r : FutureRecord K P) sh l :
  owed sh l →
  ∃ x sh', send_result r sh = Done (x, sh')
    ∧ match x with
      | Ok rx => delivery_future_poll rx sh' = None ∧ ∃ p, owed sh' ((p, mkBox rx) :: l)
      | Err (_, r') => r' = r ∧ owed sh' l
      end.
Proof.
  intros (x & sh' & c & Hr & _ & _ & _ & Hx)%(send_result_run r). exists x, sh'. split; [done|].
  destruct x as [rx|[e r']]; [|tauto]. destruct Hx as (-> & Hd & (_ & Hnd & Hns) & Ho). split; [|done].
  unfold delivery_future_poll. rewrite fut_receive, (proj2 (value_of_None _ _) Hns). by rewrite decide_False.
Qed.

End properties.

(** ** A simulated future producer

    The simulated producer with channels beside it. *)

Record fsim := {
  f_net : psim;
  f_sent : list (nat * OwnedDeliveryResult);
  f_opened : gset nat;
  f_dropped : gset nat;
}.

Definition with_net (n : psim) (s : fsim) : fsim :=
  {| f_net := n; f_sent := f_sent s; f_opened := f_opened s; f_dropped := f_dropped s |}.

Definition on_net {A} (f : psim → A * psim) (s : fsim) : A * fsim :=
  let '(a, n) := f (f_net s) in (a, with_net n s).

#[export] Instance fsim_native : ClientNative fsim := {
  clock s := ps_now (f_net s);
  rd_kafka_queue_poll q ms := on_net (psim_poll ms);
  rd_kafka_oauthbearer_set_token t l p := on_net (rd_kafka_oauthbearer_set_token t l p);
  rd_kafka_oauthbearer_set_token_failure _ s := s;
  rd_kafka_rebalance_protocol _ := None;
  rd_kafka_topic_new t := on_net (rd_kafka_topic_new t);
  rd_kafka_metadata f t ms := on_net (rd_kafka_metadata f t ms);
  rd_kafka_query_watermark_offsets t p lh ms := on_net (rd_kafka_query_watermark_offsets t p lh ms);
  rd_kafka_clusterid ms := on_net (rd_kafka_clusterid ms);
  rd_kafka_list_groups g ms := on_net (rd_kafka_list_groups g ms);
  rd_kafka_fatal_error := on_net rd_kafka_fatal_error;
  rd_kafka_queue_new := on_net rd_kafka_queue_new;
  rd_kafka_queue_get_consumer := on_net rd_kafka_queue_get_consumer;
  rd_kafka_queue_get_main := on_net rd_kafka_queue_get_main;
}.

Definition fsim_wrapped : ClientContext fsim := {|
  ENABLE_REFRESH_OAUTH_TOKEN := false;
  log _ _ _ s := s;
  stats_raw _ s := s;
  error _ _ s := s;
  generate_oauth_token _ s := (Err "none", s);
|}.

#[export] Instance fsim_context : ClientContext fsim := future_context fsim_wrapped.

#[export] Instance fsim_producer : ProducerNative fsim := {
  rd_kafka_producev t p f pl pn k kn o ts h := on_net (rd_kafka_producev t p f pl pn k kn o ts h);
  rd_kafka_flush ms := on_net (rd_kafka_flush ms);
  rd_kafka_purge f := on_net (rd_kafka_purge f);
  rd_kafka_outq_len s := rd_kafka_outq_len (f_net s);
  rd_kafka_init_transactions ms := on_net (rd_kafka_init_transactions ms);
  rd_kafka_begin_transaction := on_net rd_kafka_begin_transaction;
  rd_kafka_send_offsets_to_transaction l g ms := on_net (rd_kafka_send_offsets_to_transaction l g ms);
  rd_kafka_commit_transaction ms := on_net (rd_kafka_commit_transaction ms);
  rd_kafka_abort_transaction ms := on_net (rd_kafka_abort_transaction ms);
}.

#[export] Instance fsim_oneshot : Oneshot fsim OwnedDeliveryResult := {
  oneshot_channel s :=
    let c := fresh (f_opened s ∪ f_dropped s ∪ list_to_set (f_sent s).*1) in
    (c, {| f_net := f_net s; f_sent := f_sent s; f_opened := {[ c ]} ∪ f_opened s; f_dropped := f_dropped s |});
  oneshot_send c r s :=
    {| f_net := f_net s; f_sent := f_sent s ++ [(c, r)]; f_opened := f_opened s; f_dropped := f_dropped s |};
  oneshot_drop c s :=
    {| f_net := f_net s; f_sent := f_sent s; f_opened := f_opened s; f_dropped := {[ c ]} ∪ f_dropped s |};
  oneshot_poll c s :=
    match value_of c (f_sent s) with
    | Some r => Some (Ok r)
    | None => if decide (c ∈ f_dropped s) then Some (Err tt) else None
    end;
}.

#[export, refine] Instance fsim_spec : FutureSpec fsim := {|
  owes s := msg_private <$> ps_out (f_net s);
  sent := f_sent;
  opened := f_opened;
  dropped := f_dropped;
|}.
Proof.
  - intros t p f pl pn k kn o ts h w e w'. simpl. unfold on_net. simpl.
    destruct (String.eqb t "full"); intros [= <- <-]; simpl; [done|].
    split; [|done]. rewrite fmap_app. simpl. by rewrite Permutation_app_comm.
  - intros q ms w o w'. simpl. unfold on_net, psim_poll. destruct (ps_out (f_net w)) eqn:E; intros [= <- <-]; simpl;
      rewrite ?app_nil_r; split_and!; try done; intros ev _; apply Forall_forall; done.
  - intros ev w w'. unfold event_effect, handle_log_event. repeat case_match; by intros [= <-].
  - done.
  - intros ms w e w'. simpl. unfold on_net. simpl. by intros [= <- <-].
  - intros w c w'. simpl. intros [= <- <-].
    pose proof (is_fresh (f_opened w ∪ f_dropped w ∪ list_to_set (f_sent w).*1)) as Hf. simpl.
    rewrite !not_elem_of_union, not_elem_of_list_to_set in Hf. destruct Hf as [[? ?] ?]. by split_and!.
  - done.
  - done.
  - done.
  - done.
Defined.

Definition fsim_at (now : Z) : pworld fsim (Box nat) :=
  @Build_pworld fsim (Box nat) IntoOpaque_Box
    {| f_net := {| ps_now := now; ps_out := []; ps_reports := [] |}; f_sent := [];
       f_opened := ∅; f_dropped := ∅ |} (∅ : gmap nat nat).

(** While a future sleeps only time passes. *)
Definition fsim_sleep (until : Z) (s : pworld fsim (Box nat)) : pworld fsim (Box nat) :=
  {| pw := with_net {| ps_now := Z.max until (ps_now (f_net (pw s))); ps_out := ps_out (f_net (pw s));
                       ps_reports := ps_reports (f_net (pw s)) |} (pw s);
     ph := ph s |}.

#[export] Instance fsim_sleep_spec : SleepSpec fsim fsim_sleep.
Proof.
  split.
  - intros u s. simpl. lia.
  - intros u s l Ho. exists l. by apply (owed_world s l).
  - intros t p f pl pn k kn o ts h w e w'. simpl. unfold on_net. simpl.
    destruct (String.eqb t "full"); by intros [= <- <-].
Qed.

Lemma fsim_owed now : owed (fsim_at now) [].
Proof. split; [|done]. split; [constructor|]. intros p d []%elem_of_nil. Qed.

Definition fsim_record (t : string) : FutureRecord string string := future_payload "v" (future_to t).

Definition full_record : BaseRecord string string (Box nat) :=
  into_base_record (fsim_record "full") (mkBox 0%nat).

Lemma send_loop_terminates_witness :
  ∃ st sh', send_loop fsim_sleep (Z.to_nat (duration_from_millis 250 / duration_from_millis 100) + 2)
              (clock (pw (fsim_at 0))) (After (duration_from_millis 250)) full_record (fsim_at 0)
            = Done (Some st, sh')
    ∧ send_outcome (clock (pw (fsim_at 0))) (duration_from_millis 250) full_record st sh'.
Proof.
  apply (send_loop_terminates fsim_sleep (duration_from_millis 250) full_record (fsim_at 0) []);
    [apply fsim_owed|done].
Defined.

Lemma send_result_spec_witness :
  ∃ x sh', send_result (fsim_record "topic") (fsim_at 0) = Done (x, sh')
    ∧ match x with
      | Ok rx => delivery_future_poll rx sh' = None ∧ ∃ p, owed sh' [(p, mkBox rx)]
      | Err (_, r') => r' = fsim_record "topic" ∧ owed sh' []
      end.
Proof. apply (send_result_spec (fsim_record "topic") (fsim_at 0) [] (fsim_owed 0)). Defined.

(** A send of one record: started, accepted, and after the next event. *)
Definition fsim_opened (out : list RDKafkaMessage) (h : gmap nat nat) : pworld fsim (Box nat) :=
  @Build_pworld fsim (Box nat) IntoOpaque_Box
    {| f_net := {| ps_now := 0; ps_out := out; ps_reports := [] |}; f_sent := [];
       f_opened := {[ 0%nat ]}; f_dropped := ∅ |} h.

Definition task_of (st : send_state string string) : send_task string string :=
  {| st_start := 0; st_timeout := After 5; st_rx := 0; st_state := st |}.

Definition started_task : send_task string string :=
  task_of (Sending (into_base_record (fsim_record "topic") (mkBox 0%nat))).

Definition idle_system : fsys fsim string string := {| shared := fsim_at 0; tasks := ∅ |}.
Definition started_system : fsys fsim string string :=
  {| shared := fsim_opened [] ∅; tasks := <[0%nat := started_task]> ∅ |}.
Definition waiting_system : fsys fsim string string :=
  {| shared := fsim_opened [psim_message (Some 0%nat)] {[ 0%nat := 0%nat ]};
     tasks := <[0%nat := task_of Waiting]> (tasks started_system) |}.

Definition served_world : pworld fsim (Box nat) :=
  match producer_turn 0 (At 1000) (shared waiting_system) with
  | Done (_, sh) => sh
  | Panic _ => shared waiting_system
  end.

Lemma waiting_reachable : freachable waiting_system.
Proof.
  exists idle_system. split; [split; [apply fsim_owed|done]|]. eapply rtc_l; [|eapply rtc_l; [|apply rtc_refl]].
  - apply (fstep_spawn idle_system 0 (fsim_record "topic") (After 5) started_task (fsim_opened [] ∅)); [done|].
    vm_compute. reflexivity.
  - apply (fstep_resume started_system 0 started_task (task_of Waiting)); [done|]. vm_compute. reflexivity.
Qed.

Lemma future_never_canceled_witness :
  ∃ t' sh, send_resume (task_of Waiting) (shared waiting_system) = Done (t', sh)
    ∧ (st_state (task_of Waiting) = Waiting →
         (t' = task_of Waiting ∧ ∃ a, leaked_at (shared waiting_system) a 0)
         ∨ ∃ r, value_of 0 (sent (pw (shared waiting_system))) = Some r
             ∧ t' = with_state (Returned r) (task_of Waiting)).
Proof.
  apply (future_never_canceled waiting_system 0 (task_of Waiting));
    [apply waiting_reachable|reflexivity|discriminate].
Defined.

Lemma future_own_result_witness :
  ∃ a, leaked_at (shared waiting_system) a 0
    ∧ ((leaked_at served_world a 0 ∧ send_resume (task_of Waiting) served_world = Done (task_of Waiting, served_world)
        ∧ ∀ m, m ∈ turn_reports 0 (At 1000) (pw (shared waiting_system)) → msg_private m ≠ Some a)
       ∨ ∃ m r, m ∈ turn_reports 0 (At 1000) (pw (shared waiting_system)) ∧ msg_private m = Some a
           ∧ send_resume (task_of Waiting) served_world
             = Done (with_state (Returned r) (task_of Waiting), served_world)
           ∧ if resp_is_error (msg_err m)
             then ∃ om, detach m = Done om ∧ r = Err (MessageProduction (code_of (msg_err m)), om)
             else r = Ok {| d_partition := msg_partition m; d_offset := msg_offset m;
                            d_timestamp := borrowed_timestamp m |}).
Proof.
  apply (future_own_result waiting_system 0 (task_of Waiting) 0 (At 1000) served_world);
    [apply waiting_reachable|reflexivity|reflexivity|reflexivity|vm_compute; reflexivity].
Defined.
