(* ===== verification/ThreadedProducer.v ===== *)
(** * The threaded producer

    [ThreadedProducer] of [src/producer/base_producer.rs]: clones of a handle that
    share a base producer, and a thread that polls it until the last handle is
    dropped. The two reference counts, the stop flag, the thread and the drop of
    each handle are one state; a step is one atomic action of the thread or of the
    code of [clone] and [drop], so that concurrent drops interleave.

    The steps of the thread abstract from what a poll does: a poll with the
    thread's timeout of 100 ms returns by [BaseProducer.producer_poll_exactly_once],
    unless a callback of the context panics, which ends the thread. *)

From stdpp Require Import gmap prelude.
From S2P Require Import Prelude.

(** Where the drop of a handle is: it has not begun; [Arc::into_inner] gave it the
    join handle; it has set the stop flag and waits for the thread; its body is
    over and its fields are about to be dropped. *)
Inductive handle_phase : Set := Live | Taken | Joining | Released.

(** Where the polling thread is: in [poll], before the test of the flag, after the
    loop, ended, or ended by a panic. *)
Inductive thread_phase : Set := Polling | Testing | Leaving | Finished | Panicked.

#[export] Instance handle_phase_eq_dec : EqDecision handle_phase.
Proof. solve_decision. Defined.
#[export] Instance thread_phase_eq_dec : EqDecision thread_phase.
Proof. solve_decision. Defined.

Record threaded := {
  handles : gmap nat handle_phase;
  handle_rc : nat;
  producer_rc : nat;
  should_stop : bool;
  thread : thread_phase;
  producer_drops : nat;
}.

(** The state after [ThreadedProducer::from_config_and_context]: one handle; the
    thread holds the second reference to the base producer. *)
Definition threaded_new : threaded :=
  {| handles := {[ 0 := Live ]}; handle_rc := 1; producer_rc := 2; should_stop := false;
     thread := Polling; producer_drops := 0 |}.

Definition set_phase (i : nat) (p : handle_phase) (s : threaded) : threaded :=
  {| handles := <[i := p]> (handles s); handle_rc := handle_rc s; producer_rc := producer_rc s;
     should_stop := should_stop s; thread := thread s; producer_drops := producer_drops s |}.

Definition set_thread (p : thread_phase) (s : threaded) : threaded :=
  {| handles := handles s; handle_rc := handle_rc s; producer_rc := producer_rc s;
     should_stop := should_stop s; thread := p; producer_drops := producer_drops s |}.

(** One reference to the base producer is dropped; the last one drops it. *)
Definition drop_producer_ref (s : threaded) : threaded :=
  {| handles := handles s; handle_rc := handle_rc s; producer_rc := pred (producer_rc s);
     should_stop := should_stop s; thread := thread s;
     producer_drops := producer_drops s + (if decide (producer_rc s = 1) then 1 else 0) |}.

(** [ThreadedProducer::clone]: every field is cloned. *)
Definition threaded_clone (j : nat) (s : threaded) : threaded :=
  {| handles := <[j := Live]> (handles s); handle_rc := S (handle_rc s); producer_rc := S (producer_rc s);
     should_stop := should_stop s; thread := thread s; producer_drops := producer_drops s |}.

(** [self.handle.take().and_then(Arc::into_inner)]: the count goes down, and the
    join handle is given to the one drop that takes it to zero. *)
Definition drop_take (i : nat) (s : threaded) : threaded :=
  set_phase i (if decide (handle_rc s = 1) then Taken else Released)
    {| handles := handles s; handle_rc := pred (handle_rc s); producer_rc := producer_rc s;
       should_stop := should_stop s; thread := thread s; producer_drops := producer_drops s |}.

(** [self.should_stop.store(true)]. *)
Definition drop_store (i : nat) (s : threaded) : threaded :=
  set_phase i Joining
    {| handles := handles s; handle_rc := handle_rc s; producer_rc := producer_rc s;
       should_stop := true; thread := thread s; producer_drops := producer_drops s |}.

(** The fields of a handle whose [drop] has returned are dropped. *)
Definition drop_fields (i : nat) (s : threaded) : threaded :=
  let s' := drop_producer_ref s in
  {| handles := delete i (handles s'); handle_rc := handle_rc s'; producer_rc := producer_rc s';
     should_stop := should_stop s'; thread := thread s'; producer_drops := producer_drops s' |}.

(** [thread.join()] returns when the thread has ended, by a panic or not. *)
Definition thread_ended (s : threaded) : bool :=
  match thread s with Finished | Panicked => true | _ => false end.

(** The steps of the thread: the loop, and its end, which drops its reference. *)
Inductive thread_step : threaded → threaded → Prop :=
| thread_polled s : thread s = Polling → thread_step s (set_thread Testing s)
| thread_tested s : thread s = Testing →
    thread_step s (set_thread (if should_stop s then Leaving else Polling) s)
| thread_left s : thread s = Leaving → thread_step s (drop_producer_ref (set_thread Finished s))
| thread_panicked s : thread s = Polling → thread_step s (drop_producer_ref (set_thread Panicked s)).

Inductive threaded_step : threaded → threaded → Prop :=
| step_thread s s' : thread_step s s' → threaded_step s s'
| step_clone s i j : handles s !! i = Some Live → handles s !! j = None →
    threaded_step s (threaded_clone j s)
| step_take s i : handles s !! i = Some Live → threaded_step s (drop_take i s)
| step_store s i : handles s !! i = Some Taken → threaded_step s (drop_store i s)
| step_join s i : handles s !! i = Some Joining → thread_ended s = true →
    threaded_step s (set_phase i Released s)
| step_fields s i : handles s !! i = Some Released → threaded_step s (drop_fields i s).

Definition threaded_reachable (s : threaded) : Prop := rtc threaded_step threaded_new s.

(** ** The invariant *)

Definition live_handles (m : gmap nat handle_phase) : gmap nat handle_phase := filter (λ x, x.2 = Live) m.

Definition waits (p : handle_phase) : Prop := p = Taken ∨ p = Joining.

Record threaded_inv (s : threaded) : Prop := {
  ti_handle_rc : handle_rc s = size (live_handles (handles s));
  ti_producer_rc : producer_rc s = size (handles s) + (if thread_ended s then 0 else 1);
  ti_drops : producer_drops s = if decide (producer_rc s = 0) then 1 else 0;
  ti_waits i p : handles s !! i = Some p → waits p → handle_rc s = 0;
  ti_one i j p q : handles s !! i = Some p → handles s !! j = Some q → waits p → waits q → i = j;
  ti_joining i : handles s !! i = Some Joining → should_stop s = true;
  ti_stop : should_stop s = true → handle_rc s = 0;
  ti_thread : thread s = Leaving ∨ thread s = Finished → should_stop s = true;
  ti_last : handle_rc s = 0 → thread_ended s = true ∨ ∃ i p, handles s !! i = Some p ∧ waits p;
}.

Lemma live_insert_live m i : m !! i = None → size (live_handles (<[i := Live]> m)) = S (size (live_handles m)).
Proof.
  intros Hi. unfold live_handles. rewrite map_filter_insert_True by done.
  apply map_size_insert_None, map_lookup_filter_None. by left.
Qed.

Lemma live_insert_other m i p : p ≠ Live → m !! i ≠ Some Live →
  live_handles (<[i := p]> m) = live_handles m.
Proof.
  intros Hp Hi. unfold live_handles. rewrite map_filter_insert_False by done.
  apply map_filter_delete_not. intros q Hq Hl. simpl in Hl. by subst q.
Qed.

Lemma live_retire m i p : p ≠ Live → m !! i = Some Live →
  size (live_handles m) = S (size (live_handles (<[i := p]> m))).
Proof.
  intros Hp Hi. unfold live_handles. rewrite map_filter_insert_False by done. rewrite map_filter_delete.
  assert (filter (λ x : nat * handle_phase, x.2 = Live) m !! i = Some Live) as H by (by apply map_lookup_filter_Some).
  rewrite map_size_delete_Some by (by eexists). destruct (size _) eqn:E; [|done].
  apply map_size_empty_inv in E. by rewrite E in H.
Qed.

Lemma live_delete m i : m !! i = Some Released → live_handles (delete i m) = live_handles m.
Proof.
  intros Hi. unfold live_handles. apply map_filter_delete_not. intros q Hq Hl. simpl in Hl. congruence.
Qed.

(** ** Preservation *)

Ltac phases :=
  unfold waits in *; repeat match goal with
  | H : <[_ := _]> _ !! _ = Some _ |- _ => apply lookup_insert_Some in H as [[? ?]|[? ?]]
  | H : delete _ _ !! _ = Some _ |- _ => apply lookup_delete_Some in H as [? ?]
  end; simplify_eq; try intuition congruence.

Lemma handles_pos (m : gmap nat handle_phase) i p : m !! i = Some p → 0 < size m.
Proof. intros Hi. destruct (size m) eqn:E; [|lia]. apply map_size_empty_inv in E. by rewrite E in Hi. Qed.

Lemma live_pos s i : threaded_inv s → handles s !! i = Some Live → 0 < handle_rc s.
Proof. intros H Hi. rewrite (ti_handle_rc _ H), (live_retire _ i Released); [lia|done|done]. Qed.

(** The drop of the last reference is the drop of the producer. *)
Lemma drops_count rc drops : drops = (if decide (rc = 0) then 1 else 0) → 0 < rc →
  drops + (if decide (rc = 1) then 1 else 0) = if decide (pred rc = 0) then 1 else 0.
Proof. intros ->. repeat case_decide; lia. Qed.

Lemma clone_inv s i j : threaded_inv s → handles s !! i = Some Live → handles s !! j = None →
  threaded_inv (threaded_clone j s).
Proof.
  intros Hinv Hi Hj. pose proof (live_pos s i Hinv Hi) as Hpos. pose proof (handles_pos _ _ _ Hi) as Hsz.
  destruct Hinv as [H1 H2 H3 H4 H5 H6 H7 H8 H9]. split; simpl; [| | | | | | |done|lia].
  - by rewrite live_insert_live, H1.
  - rewrite map_size_insert_None by done. unfold thread_ended in *. simpl. lia.
  - rewrite H3. by rewrite !decide_False by lia.
  - intros k p Hk Hp. phases. assert (handle_rc s = 0) by eauto. lia.
  - intros k k' p q Hk Hk' Hp Hq. phases. eauto.
  - intros k Hk. phases. eauto.
  - intros Hs. apply H7 in Hs. lia.
Qed.

Lemma thread_step_inv s s' : threaded_inv s → thread_step s s' → threaded_inv s'.
Proof.
  intros [H1 H2 H3 H4 H5 H6 H7 H8 H9] Hst. unfold thread_ended in *.
  destruct Hst as [s Ht|s Ht|s Ht|s Ht]; rewrite Ht in *; split; simpl; try done; unfold thread_ended; simpl;
    try (by left); try (by intros [?|?]); try (apply drops_count; [done|lia]); try lia.
  - by destruct (should_stop s).
  - by destruct (should_stop s); intros [?|?].
  - intros Hrc. destruct (H9 Hrc) as [|]; [done|by right].
  - intros _. apply H8. by left.
Qed.

Lemma take_inv s i : threaded_inv s → handles s !! i = Some Live → threaded_inv (drop_take i s).
Proof.
  intros Hinv Hi. pose proof (live_pos s i Hinv Hi) as Hpos.
  destruct Hinv as [H1 H2 H3 H4 H5 H6 H7 H8 H9].
  assert (∀ p, p ≠ Live → handle_rc s = S (size (live_handles (<[i := p]> (handles s))))) as Hlive.
  { intros p Hp. by rewrite H1, (live_retire _ i p). }
  split; simpl.
  - pose proof (Hlive Taken) as Ht. pose proof (Hlive Released) as Hr'. destruct (decide (handle_rc s = 1));
      [specialize (Ht ltac:(done))|specialize (Hr' ltac:(done))]; lia.
  - rewrite map_size_insert_Some by (by eexists). done.
  - done.
  - intros k p Hk Hp. case_decide; phases; [lia|..]; assert (handle_rc s = 0) by eauto; lia.
  - intros k k' p q Hk Hk' Hp Hq. case_decide; phases; eauto; assert (handle_rc s = 0) by eauto; lia.
  - intros k Hk. case_decide; phases; eauto.
  - intros Hs. apply H7 in Hs. lia.
  - done.
  - intros Hrc. right. exists i, Taken. rewrite lookup_insert_eq, decide_True by lia. split; [done|by left].
Qed.

Lemma store_inv s i : threaded_inv s → handles s !! i = Some Taken → threaded_inv (drop_store i s).
Proof.
  intros [H1 H2 H3 H4 H5 H6 H7 H8 H9] Hi. split; simpl; [| |done| | |done| |done|].
  - by rewrite live_insert_other by congruence.
  - rewrite map_size_insert_Some by (by eexists). done.
  - intros k p Hk Hp. phases; eauto.
  - intros k k' p q Hk Hk' Hp Hq. phases; eauto.
  - intros _. apply (H4 i Taken Hi). by left.
  - intros _. right. exists i, Joining. rewrite lookup_insert_eq. split; [done|by right].
Qed.

Lemma join_inv s i : threaded_inv s → handles s !! i = Some Joining → thread_ended s = true →
  threaded_inv (set_phase i Released s).
Proof.
  intros [H1 H2 H3 H4 H5 H6 H7 H8 H9] Hi Hend. split; simpl; [| |done| | | |done|done|by left].
  - by rewrite live_insert_other by congruence.
  - rewrite map_size_insert_Some by (by eexists). done.
  - intros k p Hk Hp. phases; eauto.
  - intros k k' p q Hk Hk' Hp Hq. phases; eauto.
  - intros k Hk. phases; eauto.
Qed.

Lemma fields_inv s i : threaded_inv s → handles s !! i = Some Released → threaded_inv (drop_fields i s).
Proof.
  intros [H1 H2 H3 H4 H5 H6 H7 H8 H9] Hi. pose proof (handles_pos _ _ _ Hi) as Hsz. split; simpl; [| | | | | |done|done|].
  - by rewrite live_delete.
  - rewrite map_size_delete_Some by (by eexists). unfold thread_ended in *. simpl. lia.
  - apply drops_count; [done|]. destruct (thread_ended s); lia.
  - intros k p Hk Hp. phases; eauto.
  - intros k k' p q Hk Hk' Hp Hq. phases; eauto.
  - intros k Hk. phases; eauto.
  - intros Hrc. destruct (H9 Hrc) as [|(k & p & Hk & Hp)]; [by left|right]. exists k, p. split; [|done].
    rewrite lookup_delete_ne; [done|]. intros ->. rewrite Hi in Hk. injection Hk as <-. by destruct Hp.
Qed.

Lemma threaded_new_inv : threaded_inv threaded_new.
Proof.
  split; simpl; try done; try (by intros [?|?]).
  - intros i p [<- <-]%lookup_singleton_Some [?|?]; done.
  - intros i j p q [<- <-]%lookup_singleton_Some [<- <-]%lookup_singleton_Some; done.
  - intros i [_ ?]%lookup_singleton_Some; done.
Qed.

Lemma threaded_step_inv s s' : threaded_inv s → threaded_step s s' → threaded_inv s'.
Proof.
  intros Hi Hst. destruct Hst; eauto using thread_step_inv, clone_inv, take_inv, store_inv, join_inv, fields_inv.
Qed.

Lemma threaded_reachable_inv s : threaded_reachable s → threaded_inv s.
Proof.
  unfold threaded_reachable. generalize threaded_new_inv. intros Hi Hr.
  induction Hr as [|s1 s2 s3 Hst _ IH]; [done|]. eauto using threaded_step_inv.
Qed.

(** ** Properties *)

(** While a handle is alive the producer is polled: in every
    interleaving of clones, drops and the thread, as long as one handle has not
    begun to be dropped, the stop flag is not set, the base producer has not been
    dropped, and the thread is in its loop, unless a callback panicked. *)
Theorem threaded_live s i :
  threaded_reachable s → handles s !! i = Some Live →
  should_stop s = false ∧ producer_drops s = 0
  ∧ (thread s = Polling ∨ thread s = Testing ∨ thread s = Panicked).
Proof.
  intros Hinv%threaded_reachable_inv Hi. pose proof (live_pos s i Hinv Hi) as Hpos.
  pose proof (handles_pos _ _ _ Hi) as Hsz. destruct Hinv as [_ H2 H3 _ _ _ H7 H8 _].
  assert (should_stop s = false) as Hs by (destruct (should_stop s); [specialize (H7 eq_refl); lia|done]).
  split_and!; [done|by rewrite H3, decide_False by lia|].
  destruct (thread s); auto; rewrite Hs in H8; by discriminate H8; auto.
Qed.

(** C13: dropping every handle stops the thread and drops the base
    producer, once: at most one drop waits for the thread; when the drops of all
    handles have returned, the thread has ended; the base producer has been
    dropped exactly once then, and never before. *)
Theorem threaded_drop s :
  threaded_reachable s →
  (∀ i j p q, handles s !! i = Some p → handles s !! j = Some q → waits p → waits q → i = j)
  ∧ ((∀ i p, handles s !! i = Some p → p = Released) → thread_ended s = true)
  ∧ producer_drops s = if decide (handles s = ∅) then 1 else 0.
Proof.
  intros [H1 H2 H3 H4 H5 _ _ _ H9]%threaded_reachable_inv.
  assert ((∀ i p, handles s !! i = Some p → p = Released) → thread_ended s = true) as Hend.
  { intros Hrel. assert (handle_rc s = 0) as Hrc.
    { rewrite H1. apply map_size_empty_iff, map_empty. intros i. apply map_lookup_filter_None. right.
      intros p Hp Hl. apply Hrel in Hp. simpl in Hl. congruence. }
    destruct (H9 Hrc) as [|(i & p & Hi & Hp)]; [done|]. apply Hrel in Hi as ->. by destruct Hp. }
  split_and!; [done|done|]. rewrite H3, H2. destruct (decide (handles s = ∅)) as [He|Hne].
  - rewrite He, Hend, map_size_empty; [done|]. intros i p. by rewrite He, lookup_empty.
  - apply map_size_non_empty_iff in Hne. by rewrite decide_False by lia.
Qed.

(** The steps the thread still takes once the stop flag is set. *)
Definition thread_steps_left (s : threaded) : nat :=
  match thread s with Polling => 3 | Testing => 2 | Leaving => 1 | Finished | Panicked => 0 end.

(** The drop that waits for the thread is never stuck: once it
    waits, every step of the thread brings it closer to its end, the thread can
    take a step until it has ended, and then the wait is over; three steps are
    enough. *)
Theorem threaded_join s i :
  threaded_reachable s → handles s !! i = Some Joining →
  (∀ s', thread_step s s' → thread_steps_left s' < thread_steps_left s)
  ∧ ((∃ s', thread_step s s') ∨ threaded_step s (set_phase i Released s))
  ∧ thread_steps_left s ≤ 3.
Proof.
  intros Hinv%threaded_reachable_inv Hi. pose proof (ti_joining _ Hinv i Hi) as Hs. unfold thread_steps_left.
  split_and!.
  - intros s' Hst. destruct Hst as [s Ht|s Ht|s Ht|s Ht]; rewrite Ht; simpl; rewrite ?Hs; lia.
  - destruct (thread s) eqn:Ht; [left; eexists..|right|right].
    + by apply thread_polled.
    + by apply thread_tested.
    + by apply thread_left.
    + apply step_join; [done|]. unfold thread_ended. by rewrite Ht.
    + apply step_join; [done|]. unfold thread_ended. by rewrite Ht.
  - destruct (thread s); lia.
Qed.

(** ** Witnesses *)

Definition joining_state : threaded := drop_store 0 (drop_take 0 threaded_new).

Lemma joining_reachable : threaded_reachable joining_state.
Proof.
  eapply rtc_l; [by apply (step_take _ 0)|]. eapply rtc_l; [by apply (step_store _ 0)|apply rtc_refl].
Qed.

Lemma threaded_live_witness :
  should_stop threaded_new = false ∧ producer_drops threaded_new = 0
  ∧ (thread threaded_new = Polling ∨ thread threaded_new = Testing ∨ thread threaded_new = Panicked).
Proof. apply (threaded_live threaded_new 0); [apply rtc_refl|reflexivity]. Defined.

Lemma threaded_drop_witness :
  (∀ i j p q, handles joining_state !! i = Some p → handles joining_state !! j = Some q →
     waits p → waits q → i = j)
  ∧ ((∀ i p, handles joining_state !! i = Some p → p = Released) → thread_ended joining_state = true)
  ∧ producer_drops joining_state = if decide (handles joining_state = ∅) then 1 else 0.
Proof. apply (threaded_drop joining_state joining_reachable). Defined.

Lemma threaded_join_witness :
  (∀ s', thread_step joining_state s' → thread_steps_left s' < thread_steps_left joining_state)
  ∧ ((∃ s', thread_step joining_state s') ∨ threaded_step joining_state (set_phase 0 Released joining_state))
  ∧ thread_steps_left joining_state ≤ 3.
Proof. apply (threaded_join joining_state 0 joining_reachable). reflexivity. Defined.
