(* ===== verification/Traits.v ===== *)
(** * The public traits

    [trait Consumer] of [src/consumer/mod.rs] and [trait Producer] of
    [src/producer/mod.rs] as classes, with the implementations of the crate as
    instances: the base types implement the methods, [StreamConsumer],
    [ThreadedProducer] and [FutureProducer] forward them to the value they wrap.
    The creation of all of them from a configuration, [FromClientConfig] and
    [FromClientConfigAndContext]. What the [Producer] trait promises of [flush] and
    [commit_transaction] is a second class, [ProducerLaws], that the base producer
    fulfils and forwarding keeps. *)

From stdpp Require Import strings gmap prelude.
From S2P Require Import Prelude ErrorCodes KafkaErrors Util TopicPartitionList Config Message ClusterInfo Client.
From S2P Require Import BaseConsumer StreamConsumer BaseProducer.

Local Open Scope Z_scope.

(** librdkafka's group metadata, a null pointer without a group. *)
Class GroupMetadataNative (W : Type) := {
  rd_kafka_consumer_group_metadata : W → option nat * W;
}.

(** ** [trait Consumer] *)

Module Consumer.

Class Consumer (W X : Type) := {
  client : X → nat;
  group_metadata : X → comp W (option nat);
  subscribe : X → list string → comp W (KafkaResult unit);
  unsubscribe : X → comp W unit;
  assign : X → tpl → comp W (KafkaResult unit);
  unassign : X → comp W (KafkaResult unit);
  incremental_assign : X → tpl → comp W (KafkaResult unit);
  incremental_unassign : X → tpl → comp W (KafkaResult unit);
  seek : X → string → Z → Offset → Timeout → comp W (KafkaResult unit);
  seek_partitions : X → tpl → Timeout → comp W (KafkaResult tpl);
  commit : X → tpl → CommitMode → comp W (KafkaResult unit);
  commit_consumer_state : X → CommitMode → comp W (KafkaResult unit);
  commit_message : X → RDKafkaMessage → CommitMode → comp W (KafkaResult unit);
  store_offset : X → string → Z → Z → comp W (KafkaResult unit);
  store_offset_from_message : X → RDKafkaMessage → comp W (KafkaResult unit);
  store_offsets : X → tpl → comp W (KafkaResult unit);
  subscription : X → comp W (KafkaResult tpl);
  assignment : X → comp W (KafkaResult tpl);
  assignment_lost : X → W → bool;
  committed : X → Timeout → comp W (KafkaResult tpl);
  committed_offsets : X → tpl → Timeout → comp W (KafkaResult tpl);
  offsets_for_timestamp : X → Z → Timeout → comp W (KafkaResult tpl);
  offsets_for_times : X → tpl → Timeout → comp W (KafkaResult tpl);
  position : X → comp W (KafkaResult tpl);
  fetch_metadata : X → option string → Timeout → comp W (KafkaResult Metadata.RDKafkaMetadata);
  fetch_watermarks : X → string → Z → Timeout → comp W (KafkaResult (Z * Z));
  fetch_group_list : X → option string → Timeout → comp W (KafkaResult Groups.RDKafkaGroupList);
  pause : X → tpl → comp W (KafkaResult unit);
  resume : X → tpl → comp W (KafkaResult unit);
  rebalance_protocol : X → W → outcome RebalanceProtocol;
}.

End Consumer.
Import Consumer (Consumer).

(** [struct StreamConsumer], as the base consumer that it wraps. *)
Record StreamConsumer := { sc_base : BaseConsumer }.

Section consumers.
Context {W : Type} `{!ClientNative W} `{!ClientContext W} `{!ConsumerContext W} `{!ConsumerNative W}
  `{!GroupMetadataNative W} `{T : TplNative} (oc : bool).

(** [impl Consumer for BaseConsumer]. *)
#[export] Instance base_consumer : Consumer W BaseConsumer := {
  client := bc_client;
  group_metadata _ := call rd_kafka_consumer_group_metadata;
  subscribe _ := subscribe;
  unsubscribe _ := unsubscribe;
  assign _ := assign;
  unassign _ := unassign;
  incremental_assign _ := incremental_assign;
  incremental_unassign _ := incremental_unassign;
  seek _ := seek oc;
  seek_partitions _ := seek_partitions;
  commit _ := commit;
  commit_consumer_state _ := commit_consumer_state;
  commit_message _ := commit_message;
  store_offset _ := store_offset;
  store_offset_from_message _ := store_offset_from_message;
  store_offsets _ := store_offsets;
  subscription _ := subscription;
  assignment _ := assignment;
  assignment_lost _ := assignment_lost;
  committed _ := committed;
  committed_offsets _ := committed_offsets;
  offsets_for_timestamp _ := offsets_for_timestamp oc;
  offsets_for_times _ := offsets_for_times;
  position _ := position;
  fetch_metadata _ := fetch_metadata;
  fetch_watermarks _ := fetch_watermarks;
  fetch_group_list _ := fetch_group_list;
  pause _ := pause;
  resume _ := resume;
  rebalance_protocol _ := rebalance_protocol;
}.

(** [impl Consumer for StreamConsumer]: every method is the base consumer's. *)
#[export] Instance stream_consumer : Consumer W StreamConsumer := {
  client x := Consumer.client (sc_base x);
  group_metadata x := Consumer.group_metadata (sc_base x);
  subscribe x := Consumer.subscribe (sc_base x);
  unsubscribe x := Consumer.unsubscribe (sc_base x);
  assign x := Consumer.assign (sc_base x);
  unassign x := Consumer.unassign (sc_base x);
  incremental_assign x := Consumer.incremental_assign (sc_base x);
  incremental_unassign x := Consumer.incremental_unassign (sc_base x);
  seek x := Consumer.seek (sc_base x);
  seek_partitions x := Consumer.seek_partitions (sc_base x);
  commit x := Consumer.commit (sc_base x);
  commit_consumer_state x := Consumer.commit_consumer_state (sc_base x);
  commit_message x := Consumer.commit_message (sc_base x);
  store_offset x := Consumer.store_offset (sc_base x);
  store_offset_from_message x := Consumer.store_offset_from_message (sc_base x);
  store_offsets x := Consumer.store_offsets (sc_base x);
  subscription x := Consumer.subscription (sc_base x);
  assignment x := Consumer.assignment (sc_base x);
  assignment_lost x := Consumer.assignment_lost (sc_base x);
  committed x := Consumer.committed (sc_base x);
  committed_offsets x := Consumer.committed_offsets (sc_base x);
  offsets_for_timestamp x := Consumer.offsets_for_timestamp (sc_base x);
  offsets_for_times x := Consumer.offsets_for_times (sc_base x);
  position x := Consumer.position (sc_base x);
  fetch_metadata x := Consumer.fetch_metadata (sc_base x);
  fetch_watermarks x := Consumer.fetch_watermarks (sc_base x);
  fetch_group_list x := Consumer.fetch_group_list (sc_base x);
  pause x := Consumer.pause (sc_base x);
  resume x := Consumer.resume (sc_base x);
  rebalance_protocol x := Consumer.rebalance_protocol (sc_base x);
}.

End consumers.

(** [impl ConsumerContext for DefaultConsumerContext]: the provided methods. *)
Definition DefaultConsumerContext {W} `{!ClientNative W} `{!ConsumerNative W} : ConsumerContext W := {|
  rebalance := default_rebalance (λ _ w, w) (λ _ w, w);
  commit_callback _ _ w := w;
  main_queue_min_poll_interval := default_min_poll_interval;
|}.

(** ** [trait Producer] *)

Module Producer.

Class Producer (S X : Type) := {
  client : X → nat;
  in_flight_count : X → S → Z;
  flush : X → nat → Timeout → comp S (option (KafkaResult unit));
  purge : X → PurgeConfig → comp S unit;
  init_transactions : X → Timeout → comp S (KafkaResult unit);
  begin_transaction : X → comp S (KafkaResult unit);
  send_offsets_to_transaction : X → tpl → nat → Timeout → comp S (KafkaResult unit);
  commit_transaction : X → nat → Timeout → comp S (option (KafkaResult unit));
  abort_transaction : X → Timeout → comp S (KafkaResult unit);
}.

End Producer.
Import Producer (Producer).

(** [struct ThreadedProducer] and [struct FutureProducer], as what they wrap. *)
Record ThreadedProducer := { tp_producer : BaseProducer }.
Record FutureProducer := { fp_producer : ThreadedProducer }.

Section producers.
Context {W D : Type} `{!ClientNative W} `{!ClientContext W} `{N : HeadersNative} `{!ProducerNative W}
  `{!IntoOpaque D} `{!ProducerContext W D}.

(** [impl Producer for BaseProducer]. *)
#[export] Instance base_producer : Producer (pworld W D) BaseProducer := {
  client := bp_client;
  in_flight_count _ := in_flight_count;
  flush x fuel := flush fuel (bp_queue x);
  purge _ := purge;
  init_transactions _ := init_transactions;
  begin_transaction _ := begin_transaction;
  send_offsets_to_transaction _ := send_offsets_to_transaction;
  commit_transaction x fuel := commit_transaction fuel (bp_queue x);
  abort_transaction _ := abort_transaction;
}.

(** [impl Producer for ThreadedProducer]. *)
#[export] Instance threaded_producer : Producer (pworld W D) ThreadedProducer := {
  client x := Producer.client (tp_producer x);
  in_flight_count x := Producer.in_flight_count (tp_producer x);
  flush x := Producer.flush (tp_producer x);
  purge x := Producer.purge (tp_producer x);
  init_transactions x := Producer.init_transactions (tp_producer x);
  begin_transaction x := Producer.begin_transaction (tp_producer x);
  send_offsets_to_transaction x := Producer.send_offsets_to_transaction (tp_producer x);
  commit_transaction x := Producer.commit_transaction (tp_producer x);
  abort_transaction x := Producer.abort_transaction (tp_producer x);
}.

(** [impl Producer for FutureProducer]. *)
#[export] Instance future_producer : Producer (pworld W D) FutureProducer := {
  client x := Producer.client (fp_producer x);
  in_flight_count x := Producer.in_flight_count (fp_producer x);
  flush x := Producer.flush (fp_producer x);
  purge x := Producer.purge (fp_producer x);
  init_transactions x := Producer.init_transactions (fp_producer x);
  begin_transaction x := Producer.begin_transaction (fp_producer x);
  send_offsets_to_transaction x := Producer.send_offsets_to_transaction (fp_producer x);
  commit_transaction x := Producer.commit_transaction (fp_producer x);
  abort_transaction x := Producer.abort_transaction (fp_producer x);
}.

(** [ThreadedProducer::send] and [poll], [FutureProducer::poll]. *)
Definition threaded_send {K P} `{!ToBytes K} `{!ToBytes P} (x : ThreadedProducer) (record : BaseRecord K P D) :
    comp (pworld W D) (result (KafkaError * BaseRecord K P D) unit) := send record.
Definition threaded_poll (x : ThreadedProducer) (fuel : nat) (timeout : Timeout) : comp (pworld W D) (option unit) :=
  producer_poll fuel (bp_queue (tp_producer x)) timeout.
Definition future_poll (x : FutureProducer) (fuel : nat) (timeout : Timeout) : comp (pworld W D) (option unit) :=
  threaded_poll (fp_producer x) fuel timeout.

End producers.

(** [impl ProducerContext for DefaultProducerContext]: deliveries are ignored. *)
Definition DefaultProducerContext {W} `{N : HeadersNative} : ProducerContext W unit := {| delivery _ _ := mret tt |}.

(** ** Creation from a configuration *)

(** The traits; a context is the number of the value that librdkafka gets back,
    and the entries are those of the configuration, in the order of its iterator. *)
Class FromClientConfigAndContext (W X : Type) := {
  from_config_and_context : ClientConfig → list (string * string) → nat → comp W (KafkaResult X);
}.
Class FromClientConfig (W X : Type) := {
  from_config : ClientConfig → list (string * string) → comp W (KafkaResult X);
}.

Section creation.
Context {W : Type} `{!ClientNative W} `{!ConsumerNative W} `{C : ConfNative} `{!ClientNew W} `{!ProducerNew}.
Context (default_context : nat).

#[export] Instance base_consumer_config : FromClientConfigAndContext W BaseConsumer := {
  from_config_and_context config entries context :=
    native_config ←? lift (create_native_config entries);
    base_consumer_new config native_config context;
}.

#[export] Instance stream_consumer_config : FromClientConfigAndContext W StreamConsumer := {
  from_config_and_context config entries context :=
    b ←? stream_consumer_new config entries context;
    mret (Ok {| sc_base := b.1 |});
}.

#[export] Instance base_producer_config : FromClientConfigAndContext W BaseProducer := {
  from_config_and_context config entries context := base_producer_new config entries context false;
}.

#[export] Instance threaded_producer_config : FromClientConfigAndContext W ThreadedProducer := {
  from_config_and_context config entries context :=
    p ←? from_config_and_context config entries context; mret (Ok {| tp_producer := p |});
}.

(** The number of the [FutureProducerContext] that wraps a context. *)
Context (wrap_context : nat → nat).

#[export] Instance future_producer_config : FromClientConfigAndContext W FutureProducer := {
  from_config_and_context config entries context :=
    p ←? from_config_and_context config entries (wrap_context context); mret (Ok {| fp_producer := p |});
}.

(** [FromClientConfig], for each of them: with the default context. *)
#[export] Instance with_default_context {X} `{!FromClientConfigAndContext W X} : FromClientConfig W X := {
  from_config config entries := from_config_and_context config entries default_context;
}.

(** [ClientConfig::create] and [ClientConfig::create_with_context]. *)
Definition create {X} `{!FromClientConfig W X} (config : ClientConfig) (entries : list (string * string))
    : comp W (KafkaResult X) := from_config config entries.
Definition create_with_context {X} `{!FromClientConfigAndContext W X} (config : ClientConfig)
    (entries : list (string * string)) (context : nat) : comp W (KafkaResult X) :=
  from_config_and_context config entries context.

End creation.

(** ** What a producer promises *)

(** librdkafka: a flush that succeeds leaves nothing to be reported, and the
    transaction calls report nothing themselves. *)
Class TransactionSpec (W D : Type) `{!ClientNative W} `{!ClientContext W} `{N : HeadersNative}
    `{!ProducerNative W} `{!ProducerContext W D} `{!ProducerSpec W D} : Prop := {
  flush_empty ms w w' : rd_kafka_flush ms w = (RD_KAFKA_RESP_ERR_NO_ERROR, w') → inflight D w' = [];
  commit_spec ms w p w' : rd_kafka_commit_transaction ms w = (p, w') →
    inflight D w' ≡ₚ inflight D w ∧ reports D w' = reports D w ∧ untouched D w' = untouched D w;
}.

(** The promise of the trait: [flush] and [commit_transaction] settle what they
    serve, each report once, and when they succeed nothing is left outstanding. *)
Class ProducerLaws (W D X : Type) `{!ClientNative W} `{!ClientContext W} `{N : HeadersNative} `{!ProducerNative W}
    `{!IntoOpaque D} `{!ProducerContext W D} `{!OpaqueSpec D} `{!ProducerSpec W D}
    `{!Producer (pworld W D) X} : Prop := {
  flush_complete x fuel t (s : pworld W D) l r s' :
    owed s l → Producer.flush x fuel t s = Done (Some r, s') →
    ∃ l', settles s l s' l' ∧ (r = Ok tt → l' = []);
  commit_complete x fuel t (s : pworld W D) l r s' :
    owed s l → Producer.commit_transaction x fuel t s = Done (Some r, s') →
    ∃ l', settles s l s' l' ∧ (r = Ok tt → l' = []);
}.

Section laws.
Context {W D : Type} `{!ClientNative W} `{!ClientContext W} `{N : HeadersNative} `{!ProducerNative W}
  `{!IntoOpaque D} `{!ProducerContext W D} `{!OpaqueSpec D} `{!ProducerSpec W D} `{!TransactionSpec W D}.
Implicit Types (s : pworld W D) (l : list (option nat * D)).

(** A flush succeeds in a world without outstanding messages. *)
Lemma flush_loop_empty fuel q dl s s' : flush_loop fuel q dl s = Done (Some (Ok tt), s') → inflight D (pw s') = [].
Proof.
  revert s. induction fuel as [|fuel IH]; intros s Hf; [done|]. cbn [flush_loop] in Hf.
  apply comp_bind_Done in Hf as (ret & s1 & Hn & Hf).
  destruct (decide (ret = RD_KAFKA_RESP_ERR_NO_ERROR)) as [->|Hne].
  { injection Hf as <-. unfold native, on_world, call in Hn. destruct (rd_kafka_flush 0 (pw s)) as [e w'] eqn:Ef.
    injection Hn as -> <-. by apply flush_empty in Ef. }
  destruct (decide (ret = RD_KAFKA_RESP_ERR__TIMED_OUT)) as [->|Hne']; [|by destruct ret].
  apply comp_bind_Done in Hf as (x & s2 & [= <- <-] & Hf). destruct (elapsed _ _); [done|].
  apply comp_bind_Done in Hf as (x & s2 & [= <- <-] & Hf). apply comp_bind_Done in Hf as ([[]|] & s3 & _ & Hf); [|done].
  by apply (IH s3).
Qed.

Lemma base_flush_complete fuel q t s l r s' : owed s l → flush fuel q t s = Done (Some r, s') →
  ∃ l', settles s l s' l' ∧ (r = Ok tt → l' = []).
Proof.
  intros Ho Hf. unfold flush in Hf. apply comp_bind_Done in Hf as (x & s1 & [= <- <-] & Hf).
  apply comp_bind_Done in Hf as (dl & s1 & Hd & Hf). unfold lift in Hd.
  destruct (deadline_of_timeout _ _); [|done]. injection Hd as -> ->.
  destruct (flush_loop_settles _ _ _ _ _ _ _ Ho Hf) as [l' Hs]. exists l'. split; [done|]. intros ->.
  apply flush_loop_empty in Hf. destruct Hs as (ms & gone & _ & _ & _ & _ & _ & Hl').
  rewrite Hf in Hl'. apply Permutation_nil_r, fmap_nil_inv in Hl'. done.
Qed.

#[export] Instance base_producer_laws : ProducerLaws W D BaseProducer.
Proof.
  split; [intros x fuel t s l r s'; apply base_flush_complete|].
  intros x fuel t s l r s' Ho Hc. simpl in Hc. unfold commit_transaction in Hc.
  apply comp_bind_Done in Hc as ([[[]|e]|] & s1 & Hf & Hc);
    [|by injection Hc as <- <-; destruct (base_flush_complete _ _ _ _ _ _ _ Ho Hf) as (l' & ? & _); exists l'|done].
  destruct (base_flush_complete _ _ _ _ _ _ _ Ho Hf) as (l' & Hs & Hl'). rewrite (Hl' eq_refl) in Hs.
  apply comp_bind_Done in Hc as (p & s2 & Hn & [= <- <-]). unfold native, on_world, call in Hn.
  destruct (rd_kafka_commit_transaction (as_millis t) (pw s1)) as [p' w'] eqn:Ec. injection Hn as -> <-.
  apply commit_spec in Ec as (H1 & H2 & H3). exists []. split; [|done]. eapply settles_trans; [done|].
  apply settles_same; [by eapply settles_owed|done..].
Qed.

(** Forwarding keeps the promise. *)
#[export] Instance threaded_producer_laws : ProducerLaws W D ThreadedProducer.
Proof. split; intros x; [apply (flush_complete (tp_producer x))|apply (commit_complete (tp_producer x))]. Qed.

#[export] Instance future_producer_laws : ProducerLaws W D FutureProducer.
Proof. split; intros x; [apply (flush_complete (fp_producer x))|apply (commit_complete (fp_producer x))]. Qed.

(** C15: a transaction that a [FutureProducer] commits is
    complete. When [commit_transaction] succeeds, every value that librdkafka still
    owed a report for has been delivered back exactly once, with the result of the
    message that carried it, before the call returns, and nothing is outstanding;
    when it fails, what has been reported is likewise settled exactly once. *)
Theorem future_commit_complete (x : FutureProducer) fuel t s l r s' :
  owed s l → Producer.commit_transaction x fuel t s = Done (Some r, s') →
  ∃ l', settles s l s' l' ∧ (r = Ok tt → l' = []).
Proof. apply (commit_complete x). Qed.

End laws.

#[export] Instance psim_transactions : TransactionSpec psim (Box string).
Proof.
  split.
  - intros ms w w'. simpl. intros [= Hd <-]. case_decide as Hw; [|done]. by rewrite Hw.
  - intros ms w p w'. simpl. by intros [= <- <-].
Qed.

Definition psim_future : FutureProducer := {| fp_producer := {| tp_producer := {| bp_client := 0; bp_queue := 0 |} |} |}.

Definition psim_committed : pworld psim (Box string) :=
  match Producer.commit_transaction psim_future 9 (After 7) psim_sent with Done (_, s) => s | Panic _ => psim_sent end.

Lemma future_commit_complete_witness :
  ∃ l', settles psim_sent [(Some 7%nat, mkBox "opaque")] psim_committed l'
    ∧ ((Ok tt : KafkaResult unit) = Ok tt → l' = []).
Proof.
  apply (future_commit_complete psim_future 9 (After 7) psim_sent [(Some 7%nat, mkBox "opaque")] (Ok tt) psim_committed);
    [apply psim_sent_owed|vm_compute; reflexivity].
Defined.
