(* ===== verification/Acknowledged.v ===== *)
(** * Acknowledged sends

    What a successful [FutureProducer::send] means for the data. The cluster and
    librdkafka promise ([AckSpec]) that a message reported without an error has
    been acknowledged, with the topic, payload and key that it was produced with;
    the crate promises that a send returns the report of its own message. The
    invariant of this file carries the content of a record from [send] through
    librdkafka and the channel to the result, along all interleavings of [fstep];
    [send_acknowledged] is what clients of the producer rely on. *)

From stdpp Require Import strings gmap prelude.
From S2P Require Import Prelude ErrorCodes KafkaErrors Util Message Client BaseProducer FutureProducer.

Local Open Scope Z_scope.

(** Topic, payload and key. *)
Abbreviation content := (string * option bytes * option bytes)%type.

Definition base_content `{N : HeadersNative} {K P D} `{!ToBytes K} `{!ToBytes P}
    (b : BaseRecord K P D) : content := (br_topic b, to_bytes <$> br_payload b, to_bytes <$> br_key b).

Definition record_content `{N : HeadersNative} {K P} `{!ToBytes K} `{!ToBytes P}
    (r : FutureRecord K P) : content := (fr_topic r, to_bytes <$> fr_payload r, to_bytes <$> fr_key r).

(** The messages of a delivery report. *)
Definition dr_messages (o : option RDKafkaEvent) : list RDKafkaMessage :=
  match o with
  | Some ev => if event_type ev =? RD_KAFKA_EVENT_DR then event_messages ev else []
  | None => []
  end.

(** [entrusted w]: the content of the messages that librdkafka has accepted and
    not reported yet, by opaque pointer. [acked w]: the messages that the cluster
    has acknowledged, which it keeps. An accepted message is entrusted; a report
    takes its messages out, and a message reported without an error has been
    acknowledged; nothing else changes what is entrusted. *)
Class AckSpec (W : Type) `{!ClientNative W} `{!ClientContext W} `{N : HeadersNative} `{!MessageNative}
    `{!ProducerNative W} `{!Oneshot W OwnedDeliveryResult} := {
  entrusted : W → gmap nat content;
  acked : W → list content;
  ack_producev t p f pl pn k kn o ts h w e w' :
    rd_kafka_producev t p f pl pn k kn o ts h w = (e, w') →
    acked w ⊆ acked w'
    ∧ entrusted w' = match o with
                     | Some a => if resp_is_error e then entrusted w else <[a := (t, pl, k)]> (entrusted w)
                     | None => entrusted w
                     end;
  ack_poll q ms w o w' : rd_kafka_queue_poll q ms w = (o, w') →
    acked w ⊆ acked w'
    ∧ (∀ a, Some a ∉ msg_private <$> dr_messages o → entrusted w' !! a = entrusted w !! a)
    ∧ (∀ m a x, m ∈ dr_messages o → msg_private m = Some a → msg_err m = RD_KAFKA_RESP_ERR_NO_ERROR →
         entrusted w !! a = Some x → x ∈ acked w');
  ack_effect ev w w' : event_effect ev w = Done (tt, w') →
    entrusted w' = entrusted w ∧ acked w ⊆ acked w';
  ack_error e r w : entrusted (error e r w) = entrusted w ∧ acked w ⊆ acked (error e r w);
  ack_channel w c w' : oneshot_channel w = (c, w') → entrusted w' = entrusted w ∧ acked w ⊆ acked w';
  ack_send c r w : entrusted (oneshot_send c r w) = entrusted w ∧ acked w ⊆ acked (oneshot_send c r w);
  ack_drop c w : entrusted (oneshot_drop c w) = entrusted w ∧ acked w ⊆ acked (oneshot_drop c w);
}.

(** ** The worlds between two states *)

Section quiet.
Context {W : Type} `{!ClientNative W} `{!ClientContext W} `{N : HeadersNative} `{!MessageNative}
  `{!ProducerNative W} `{!Oneshot W OwnedDeliveryResult} `{!AckSpec W}.

(** Nothing is entrusted or taken back, and no acknowledgement is lost. *)
Definition quiet (w w' : W) : Prop := entrusted w' = entrusted w ∧ acked w ⊆ acked w'.

#[export] Instance quiet_preorder : PreOrder quiet.
Proof. split; [by intros w|]. intros w1 w2 w3 [H1 H2] [H3 H4]. split; [congruence|by etransitivity]. Qed.

Lemma reported_dr ev : reported (if bool_decide (event_type ev ∈ consumed_types) then Poll.EventConsumed
    else Poll.Event ev) = dr_messages (Some ev).
Proof.
  rewrite consumed_eqb. simpl. destruct (Z.eqb_spec (event_type ev) RD_KAFKA_EVENT_DR) as [Ht|Hne].
  - rewrite Ht. simpl. by rewrite Ht.
  - destruct (_ || _); [done|]. simpl. by rewrite (proj2 (Z.eqb_neq _ _) Hne).
Qed.

(** Serving an event is quiet once it has been taken from the queue. *)
Lemma poll_event_quiet q t w r w' : poll_event q t w = Done (r, w') →
  ∃ o w1, rd_kafka_queue_poll q (as_millis t) w = (o, w1) ∧ reported r = dr_messages o ∧ quiet w1 w'.
Proof.
  rewrite poll_event_effect. destruct (rd_kafka_queue_poll q (as_millis t) w) as [[ev|] w1].
  - destruct (event_effect ev w1) as [[[] w2]|] eqn:E; [|done]. intros [= <- <-].
    eexists _, _. split; [done|]. split; [apply reported_dr|]. by apply ack_effect in E.
  - intros [= <- <-]. by eexists _, _.
Qed.

Lemma deliver_all_quiet msgs (s s' : pworld W (Box nat)) :
  deliver_all msgs s = Done (tt, s') → quiet (pw s) (pw s').
Proof.
  revert s. induction msgs as [|m msgs IH]; intros s; cbn [deliver_all]; [by intros [= <-]|].
  intros (r & s1 & Hr & Hrun)%comp_bind_Done. unfold lift in Hr. rewrite from_dr_event_run in Hr.
  injection Hr as <- <-. apply comp_bind_Done in Hrun as (d & s2 & Hd & Hrun).
  unfold reclaim in Hd. destruct (from_ptr _ _) as [[d' h]|]; [|done]. injection Hd as <- <-.
  apply comp_bind_Done in Hrun as (u & s3 & Hu & Hrun). apply IH in Hrun. etransitivity; [|exact Hrun].
  unfold on_world in Hu. simpl in Hu. unfold mbind, comp_bind, lift in Hu.
  destruct (owned_delivery_result (delivered m)); [|done]. injection Hu as <- <-. apply ack_send.
Qed.

Lemma turn_quiet q dl (s s' : pworld W (Box nat)) r w :
  poll_event q (timeout_of_deadline (clock (pw s)) dl) (pw s) = Done (r, w) →
  producer_turn q dl s = Done (tt, s') → quiet w (pw s').
Proof.
  intros Hp. unfold producer_turn, mbind, comp_bind, get, on_world. rewrite Hp.
  destruct r as [| |ev]; [by intros [= <-]..|]. case_match; [|case_match].
  - apply deliver_all_quiet.
  - intros [= <-]. apply ack_error.
  - by intros [= <-].
Qed.

End quiet.

(** ** Sending entrusts the record *)

Section entrust.
Context {W : Type} `{!ClientNative W} `{!ClientContext W} `{N : HeadersNative} `{!HeadersNativeSpec N}
  `{!MessageNative} `{!ProducerNative W} `{!Oneshot W OwnedDeliveryResult} `{!FutureSpec W} `{!AckSpec W}.
Context {K P : Type} `{!ToBytes K} `{!ToBytes P}.
Implicit Types (s sh : pworld W (Box nat)) (b : BaseRecord K P (Box nat)).

(** Where the sender of an accepted record is, and what is entrusted with it. *)
Lemma send_entrusts b s r s' l : owed s l → send b s = Done (r, s') →
  acked (pw s) ⊆ acked (pw s')
  ∧ match r with
    | Ok _ => ∃ a, owed s' ((Some a, br_delivery_opaque b) :: l)
        ∧ entrusted (pw s') = <[a := base_content b]> (entrusted (pw s))
    | Err (_, b') => b' = b ∧ entrusted (pw s') = entrusted (pw s)
    end.
Proof.
  intros Ho Hr. pose proof (send_native b s l r s' Ho Hr) as Hn.
  assert (∀ p e, produce_call b p (pw s) = (e, pw s') →
    acked (pw s) ⊆ acked (pw s')
    ∧ entrusted (pw s') = match p with
        | Some a => if resp_is_error e then entrusted (pw s) else <[a := base_content b]> (entrusted (pw s))
        | None => entrusted (pw s) end) as Hcall.
  { intros p e Hc. unfold produce_call, base_content, as_bytes in *. by destruct (br_payload b), (br_key b); apply ack_producev in Hc. }
  destruct (send_run b s l Ho) as (r' & s1 & Hr' & _ & _ & Hx). rewrite Hr in Hr'. injection Hr' as <- <-.
  destruct r as [u|[e b']].
  - destruct Hn as (p & e & Ho' & He & [Hc1 Hc2]%Hcall). split; [done|].
    destruct (proj2 (proj1 Ho') p (br_delivery_opaque b)) as (a & -> & _); [left|].
    exists a. by rewrite He in Hc2.
  - destruct Hx as (-> & _). destruct Hn as [->|(p & e' & He & [Hc1 Hc2]%Hcall)]; [done|].
    split; [done|]. split; [done|]. rewrite He in Hc2. by destruct p.
Qed.

(** What one attempt does to what is entrusted. *)
Lemma attempt_entrusts start tmo b s st s' l : owed s l → send_attempt start tmo b s = Done (st, s') →
  acked (pw s) ⊆ acked (pw s') ∧ sent (pw s') = sent (pw s) ∧ opened (pw s') = opened (pw s)
  ∧ match st with
    | Sending _ => False
    | Waiting => ∃ a, owed s' ((Some a, br_delivery_opaque b) :: l)
        ∧ entrusted (pw s') = <[a := base_content b]> (entrusted (pw s))
    | Delaying _ b' => b' = b ∧ owed s' l ∧ entrusted (pw s') = entrusted (pw s)
    | Returned r => (∃ e, r = Err e) ∧ owed s' l ∧ entrusted (pw s') = entrusted (pw s)
    end.
Proof.
  intros Ho Hr. destruct (send_attempt_run start tmo b s l Ho) as (st' & s1 & Hr' & Hs & Hop & Hst).
  rewrite Hr in Hr'. injection Hr' as <- <-. unfold send_attempt in Hr.
  apply comp_bind_Done in Hr as (r & s1 & Hsend & Hr).
  destruct (send_entrusts b s r s1 l Ho Hsend) as [Ha Hx]. destruct r as [u|[e b']].
  - injection Hr as <- <-. destruct Hx as (a & Ho' & He). split_and!; [done..|]. by exists a.
  - destruct Hx as [-> He]. apply comp_bind_Done in Hr as (x & s2 & [= <- <-] & Hr).
    destruct (_ && _); [injection Hr as <- <-|].
    + destruct Hst as (_ & Ho' & _). by split_and!.
    + apply comp_bind_Done in Hr as ([] & s2 & [= <-] & [= <- <-]). simpl in *.
      destruct (ack_drop (unbox (br_delivery_opaque b)) (pw s1)) as [Hd1 Hd2].
      destruct Hst as (Ho' & _ & e' & -> & _). split; [by etransitivity|]. split; [done|].
      split; [done|]. split; [by eexists|]. split; [done|congruence].
Qed.

(** What librdkafka holds is determined by the state. *)
Lemma owed_unique s l l' : owed s l → owed s l' → l ≡ₚ l'.
Proof.
  assert (∀ k k' : list (option nat * Box nat), owed s k → owed s k' → ∀ x, x ∈ k → x ∈ k') as Hsub.
  { intros k k' [[_ Hk] Hp] [[_ Hk'] Hp'] [p d] Hin.
    assert (p ∈ k'.*1) as ([p' d'] & Hpp & Hin')%list_elem_of_fmap.
    { rewrite Hp', <- Hp. apply list_elem_of_fmap. by exists (p, d). }
    simpl in Hpp. subst p'. destruct (Hk _ _ Hin) as (a & -> & Ha), (Hk' _ _ Hin') as (a' & [= <-] & Ha').
    rewrite Ha in Ha'. injection Ha' as Hd. destruct d, d'. simpl in Hd. by subst. }
  intros Hl Hl'. apply NoDup_Permutation.
  - apply (NoDup_fmap_1 fst), Hl.
  - apply (NoDup_fmap_1 fst), Hl'.
  - intros x. split; by eapply Hsub.
Qed.

End entrust.

(** ** From the record to the result *)

Section acknowledged.
Context {W : Type} `{!ClientNative W} `{!ClientContext W} `{N : HeadersNative} `{!HeadersNativeSpec N}
  `{!MessageNative} `{!ProducerNative W} `{!Oneshot W OwnedDeliveryResult} `{!FutureSpec W} `{!AckSpec W}.
Context {K P : Type} `{!ToBytes K} `{!ToBytes P}.
Implicit Types (w : W) (sh : pworld W (Box nat)) (l : list (option nat * Box nat)) (g : gmap nat content).
Implicit Types (s : fsys W K P) (t : send_task K P).

(** What the task of a channel for the content [x] may be. *)
Definition state_content (w : W) (x : content) (st : send_state K P) : Prop :=
  match st with
  | Sending b | Delaying _ b => base_content b = x
  | Returned (Ok _) => x ∈ acked w
  | _ => True
  end.

(** [g]: the content that each channel was opened for. The content is entrusted
    while the sender is with librdkafka, and acknowledged once a success is on the
    channel or with the task. *)
Record ack_inv (s : fsys W K P) (l : list (option nat * Box nat)) (g : gmap nat content) : Prop := {
  ak_future : future_inv s l;
  ak_opened : dom g ⊆ opened (pw (shared s));
  ak_entrusted a c : (Some a, mkBox c) ∈ l →
    ∃ x, g !! c = Some x ∧ entrusted (pw (shared s)) !! a = Some x;
  ak_sent c x d : g !! c = Some x → (c, Ok d : OwnedDeliveryResult) ∈ sent (pw (shared s)) → x ∈ acked (pw (shared s));
  ak_tasks i t : tasks s !! i = Some t →
    ∃ x, g !! st_rx t = Some x ∧ state_content (pw (shared s)) x (st_state t);
}.

Lemma state_content_mono w w' x st : acked w ⊆ acked w' → state_content w x st → state_content w' x st.
Proof. intros Ha. destruct st as [| | |[]]; simpl; auto. Qed.

Lemma ack_initial s : future_initial s → ack_inv s [] ∅.
Proof.
  intros Hi. pose proof (future_initial_inv s Hi) as Hf. destruct Hi as [_ Ht]. split; [done|set_solver|..].
  - intros a c []%elem_of_nil.
  - done.
  - intros i t. by rewrite Ht, lookup_empty.
Qed.

(** A quiet step that opens no channel and sends nothing. *)
Lemma ack_inv_step s l g sh ts l' :
  ack_inv s l g → future_inv {| shared := sh; tasks := ts |} l' →
  opened (pw (shared s)) ⊆ opened (pw sh) → sent (pw sh) = sent (pw (shared s)) →
  acked (pw (shared s)) ⊆ acked (pw sh) →
  (∀ a c, (Some a, mkBox c) ∈ l' → ∃ x, g !! c = Some x ∧ entrusted (pw sh) !! a = Some x) →
  (∀ i t, ts !! i = Some t → tasks s !! i = Some t
     ∨ ∃ x, g !! st_rx t = Some x ∧ state_content (pw sh) x (st_state t)) →
  ack_inv {| shared := sh; tasks := ts |} l' g.
Proof.
  intros [H1 H2 H3 H4 H5] Hf Hop Hs Ha He Ht. split; simpl; [done|by etransitivity|done|..].
  - intros c x d Hg. rewrite Hs. intros Hin. by eapply Ha, H4.
  - intros i t [Hi|?]%Ht; [|done]. destruct (H5 _ _ Hi) as (x & Hx & Hst). exists x. split; [done|].
    by eapply state_content_mono.
Qed.

(** A new channel may be given any content. *)
Lemma ack_inv_channel s l g c x : ack_inv s l g → g !! c = None → c ∈ opened (pw (shared s)) →
  c ∉ (sent (pw (shared s))).*1 → ack_inv s l (<[c := x]> g).
Proof.
  intros [H1 H2 H3 H4 H5] Hc Hop Hs.
  assert (∀ c' y, g !! c' = Some y → <[c := x]> g !! c' = Some y) as Hkeep.
  { intros c' y Hy. rewrite lookup_insert_ne; [done|congruence]. }
  split; [done|set_solver|..].
  - intros a c' Hin. destruct (H3 a c' Hin) as (y & Hy & He). exists y. auto.
  - intros c' y d. destruct (decide (c' = c)) as [->|Hne].
    + intros _ Hin. destruct Hs. apply list_elem_of_fmap. by exists (c, Ok d).
    + rewrite lookup_insert_ne by done. apply H4.
  - intros i t Ht. destruct (H5 i t Ht) as (y & Hy & Hst). exists y. auto.
Qed.

(** The pointers of accepted records stay apart. *)
Lemma entrusted_cons sh l g a c x (en : gmap nat content) : owed sh ((Some a, mkBox c) :: l) → g !! c = Some x →
  (∀ a' c', (Some a', mkBox c') ∈ l → ∃ y, g !! c' = Some y ∧ en !! a' = Some y) →
  ∀ a' c', (Some a', mkBox c') ∈ (Some a, mkBox c) :: l →
    ∃ y, g !! c' = Some y ∧ <[a := x]> en !! a' = Some y.
Proof.
  intros [[Hnd _] _] Hc Hl a' c' [[= -> ->]|Hin]%elem_of_cons.
  - exists x. by rewrite lookup_insert_eq.
  - rewrite lookup_insert_ne; [by apply Hl|]. intros ->. simpl in Hnd. apply NoDup_cons in Hnd as [Hn _].
    apply Hn, list_elem_of_fmap. by exists (Some a', mkBox c').
Qed.

(** A future that holds its record makes an attempt. *)
Lemma ack_attempt s l g i t b st sh : ack_inv s l g → tasks s !! i = Some t →
  br_delivery_opaque b = mkBox (st_rx t) → g !! st_rx t = Some (base_content b) →
  send_attempt (st_start t) (st_timeout t) b (shared s) = Done (st, sh) →
  ∀ l0, future_inv {| shared := sh; tasks := <[i := with_state st t]> (tasks s) |} l0 →
  ∃ l', ack_inv {| shared := sh; tasks := <[i := with_state st t]> (tasks s) |} l' g.
Proof.
  intros Hi Ht Hb Hg Hr l0 Hf. exists l0. pose proof (ak_future _ _ _ Hi) as Hfi.
  destruct (attempt_entrusts _ _ _ _ _ _ l (fi_owed _ _ Hfi) Hr) as (Ha & Hs & Hop & Hst).
  assert (∀ x st', g !! st_rx t = Some x → state_content (pw sh) x st' →
    ∀ j u, <[i := with_state st' t]> (tasks s) !! j = Some u → tasks s !! j = Some u
      ∨ ∃ y, g !! st_rx u = Some y ∧ state_content (pw sh) y (st_state u)) as Htasks.
  { intros x st' Hx Hst' j u. destruct (decide (j = i)) as [->|Hne].
    - rewrite lookup_insert_eq. intros [= <-]. right. by exists x.
    - rewrite lookup_insert_ne by done. by left. }
  pose proof (fi_owed _ _ Hf) as Ho'. simpl in Ho'.
  assert (owed sh l → entrusted (pw sh) = entrusted (pw (shared s)) → ∀ a c, (Some a, mkBox c) ∈ l0 →
    ∃ x, g !! c = Some x ∧ entrusted (pw sh) !! a = Some x) as Hsame.
  { intros Ho He a c. rewrite (owed_unique _ _ _ Ho' Ho), He. apply Hi. }
  apply (ack_inv_step s l g); [done|done|by rewrite Hop|done|done|..].
  - destruct st as [|until b'| |r]; [done|..].
    + destruct Hst as (_ & Ho & He). by apply Hsame.
    + destruct Hst as (a & Ho & He). intros a' c'. rewrite (owed_unique _ _ _ Ho' Ho), He, Hb.
      rewrite Hb in Ho. by apply (entrusted_cons sh); [| |apply Hi].
    + destruct Hst as (_ & Ho & He). by apply Hsame.
  - apply (Htasks (base_content b)); [done|]. destruct st as [|until b'| |r]; [done|..].
    + by destruct Hst as (-> & _).
    + done.
    + by destruct Hst as ((e & ->) & _).
Qed.

Lemma ack_resume s l g i t t' sh : ack_inv s l g → tasks s !! i = Some t →
  send_resume t (shared s) = Done (t', sh) →
  ∃ l', ack_inv {| shared := sh; tasks := <[i := t']> (tasks s) |} l' g.
Proof.
  intros Hi Ht Hr. pose proof (ak_future _ _ _ Hi) as Hfi.
  destruct (resume_inv s l i t t' sh Hfi Ht Hr) as (l0 & Hf & _).
  destruct (ak_tasks _ _ _ Hi i t Ht) as (x & Hx & Hst). destruct (fi_tasks _ _ Hfi i t Ht) as [_ Hok].
  unfold send_resume in Hr. apply comp_bind_Done in Hr as (y & s1 & [= <- <-] & Hr).
  assert (∃ l', ack_inv {| shared := shared s; tasks := <[i := t]> (tasks s) |} l' g) as Hsame.
  { exists l. rewrite insert_id by done. by destruct s. }
  destruct (st_state t) as [b|until b| |r] eqn:Est; 
    [|case_match; [by injection Hr as <- <-|]| |done].
  - apply comp_bind_Done in Hr as (st & s1 & Hr & [= <- <-]). simpl in Hst. rewrite <- Hst in Hx.
    eapply ack_attempt; [done|done|apply Hok|done|done|done].
  - apply comp_bind_Done in Hr as (st & s1 & Hr & [= <- <-]). simpl in Hst. rewrite <- Hst in Hx.
    eapply ack_attempt; [done|done|apply Hok|done|done|done].
  - destruct (oneshot_poll (st_rx t) (pw (shared s))) as [[r|]|] eqn:Ev; [|done|by injection Hr as <- <-].
    injection Hr as <- <-. exists l0. apply (ack_inv_step s l g); [done|done|done|done|done|..].
    + intros a' c'. rewrite (owed_unique _ _ _ (fi_owed _ _ Hf) (fi_owed _ _ Hfi)). apply Hi.
    + intros j u. destruct (decide (j = i)) as [->|Hne]; [|rewrite lookup_insert_ne by done; by left].
      rewrite lookup_insert_eq. intros [= <-]. right. exists x. split; [done|]. simpl. destruct r as [d|e]; [|done].
      apply (ak_sent _ _ _ Hi (st_rx t) x d); [done|]. apply value_of_elem. rewrite fut_receive in Ev.
      destruct (value_of _ _) as [o|]; [by injection Ev as ->|]. by case_decide.
Qed.

(** The world in which a channel has been opened. *)
Lemma channel_quiet sh c sh' : native oneshot_channel sh = Done (c, sh') → quiet (pw sh) (pw sh').
Proof.
  unfold native, on_world, call. destruct (oneshot_channel (pw sh)) as [c' w] eqn:E. intros [= <- <-].
  by apply ack_channel in E.
Qed.

(** A channel that has just been opened, with nothing sent on it. *)
Lemma ack_open s l g sh c x : ack_inv s l g → native oneshot_channel (shared s) = Done (c, sh) →
  g !! c = None ∧ owed sh l ∧ ack_inv {| shared := sh; tasks := tasks s |} l (<[c := x]> g).
Proof.
  intros Hi Hc. pose proof (ak_future _ _ _ Hi) as Hfi.
  destruct (channel_run _ _ (fi_owed _ _ Hfi)) as (c' & sh' & Hc' & Ho & Hs & Hf & Hop & Hd & Hl).
  rewrite Hc in Hc'. injection Hc' as <- <-. destruct (channel_quiet _ _ _ Hc) as [He Ha].
  assert (g !! c = None) as Hg. { apply not_elem_of_dom. intros Hin. by apply (ak_opened _ _ _ Hi) in Hin. }
  split; [done|]. split; [done|]. destruct (fresh_channel s l c Hfi Hf) as [Hnl Hrx].
  apply ack_inv_channel; [|done|apply Hl|apply Hl]. apply (ack_inv_step s l g); [done| |done|done|done|..].
  - rewrite <- (delete_id (tasks s) (fresh (dom (tasks s)))) by (apply not_elem_of_dom, is_fresh).
    apply (future_inv_touch s l sh l _ c); [done|done|apply Hfi|done|done| |done| |done].
    + intros c' _. by rewrite Hd.
    + intros j u _. apply Hrx.
  - intros a c'. rewrite He. apply Hi.
  - by left.
Qed.

Lemma ack_spawn s l g i (r : FutureRecord K P) tmo t sh : ack_inv s l g → tasks s !! i = None →
  send_start r tmo (shared s) = Done (t, sh) →
  g !! st_rx t = None
  ∧ ack_inv {| shared := sh; tasks := <[i := t]> (tasks s) |} l (<[st_rx t := record_content r]> g).
Proof.
  intros Hi Hn Hr. pose proof (spawn_inv s l i r tmo t sh (ak_future _ _ _ Hi) Hr) as Hf.
  unfold send_start in Hr. apply comp_bind_Done in Hr as (x & s1 & [= <- <-] & Hr).
  apply comp_bind_Done in Hr as (c & sh' & Hc & [= <- <-]). simpl in *.
  destruct (ack_open s l g sh' c (record_content r) Hi Hc) as (Hg & Ho & Hi'). split; [done|].
  apply (ack_inv_step _ l _ sh' _ l Hi'); [done|done|done|done|apply Hi'|].
  intros j u. simpl. destruct (decide (j = i)) as [->|Hne].
  - rewrite lookup_insert_eq. intros [= <-]. right. exists (record_content r). simpl.
    rewrite lookup_insert_eq. split; [done|]. by destruct r.
  - rewrite lookup_insert_ne by done. by left.
Qed.

Lemma ack_cancel s l g i t sh : ack_inv s l g → tasks s !! i = Some t →
  send_cancel t (shared s) = Done (tt, sh) →
  ack_inv {| shared := sh; tasks := delete i (tasks s) |} l g.
Proof.
  intros Hi Ht Hr. pose proof (cancel_inv s l i t sh (ak_future _ _ _ Hi) Ht Hr) as Hf.
  assert (quiet (pw (shared s)) (pw sh) ∧ sent (pw sh) = sent (pw (shared s))
    ∧ opened (pw (shared s)) ⊆ opened (pw sh)) as ([He Ha] & Hs & Hop).
  { unfold send_cancel in Hr. destruct (st_state t) as [b|until b| |r]; [injection Hr as <-..|by injection Hr as <-|by injection Hr as <-];
      simpl; destruct (fut_drop (unbox (br_delivery_opaque b)) (pw (shared s))) as (_ & -> & [= -> _]);
      split; [apply ack_drop|done|apply ack_drop|done]. }
  apply (ack_inv_step s l g); [done|done|done|done|done|..].
  - intros a c. rewrite He. apply Hi.
  - intros j u [_ Hu]%lookup_delete_Some. by left.
Qed.

Lemma ack_result s l g (r : FutureRecord K P) x sh : ack_inv s l g →
  send_result r (shared s) = Done (x, sh) →
  ∃ l' c, g !! c = None ∧ (∀ rx, x = Ok rx → rx = c)
    ∧ ack_inv {| shared := sh; tasks := tasks s |} l' (<[c := record_content r]> g).
Proof.
  intros Hi Hr. destruct (result_inv s l r x sh (ak_future _ _ _ Hi) Hr) as [l0 Hf]. exists l0.
  unfold send_result in Hr. apply comp_bind_Done in Hr as (c & sh1 & Hc & Hr). exists c.
  destruct (ack_open s l g sh1 c (record_content r) Hi Hc) as (Hg & Ho & Hi'). split; [done|].
  apply comp_bind_Done in Hr as (y & sh2 & Hsend & Hr).
  destruct (send_channels (into_base_record r (mkBox c)) _ _ Ho) as (y' & sh2' & Hs' & Hse & Hop & Hd & Hx).
  rewrite Hsend in Hs'. injection Hs' as <- <-.
  destruct (send_entrusts _ _ _ _ _ Ho Hsend) as [Ha Hy]. pose proof (fi_owed _ _ Hf) as Ho'. simpl in Ho'.
  destruct y as [u|[e b]].
  - injection Hr as <- <-. split; [by intros rx [= <-]|]. destruct Hy as (a & Ho2 & He). simpl in Ho2.
    apply (ack_inv_step _ l _ sh2 _ l0 Hi'); [done|by rewrite Hop|done|done| |by left].
    intros a' c'. rewrite (owed_unique _ _ _ Ho' Ho2), He. replace (base_content _) with (record_content r) by by destruct r.
    apply (entrusted_cons sh2); [done|by rewrite lookup_insert_eq|apply Hi'].
  - destruct Hy as [-> He]. apply comp_bind_Done in Hr as ([] & sh3 & [= <-] & [= <- <-]). split; [done|]. simpl in *.
    destruct (fut_drop c (pw sh2)) as (_ & Hd2 & [= Hd3 _]). destruct (ack_drop c (pw sh2)) as [Hd4 Hd5].
    apply (ack_inv_step _ l _ _ _ l0 Hi'); simpl; [done|by rewrite Hd3, Hop|congruence|by etransitivity| |by left].
    intros a' c'. rewrite Hd4, He. destruct Hx as [_ Ho2]. apply (drop_sender_owed c) in Ho2.
    rewrite (owed_unique _ _ _ Ho' Ho2). apply Hi'.
Qed.

(** A successful result is that of a message without an error. *)
Lemma success_no_error m d : owned_delivery_result (delivered m) = Done (Ok d) →
  msg_err m = RD_KAFKA_RESP_ERR_NO_ERROR.
Proof.
  unfold delivered. destruct (resp_is_error (msg_err m)) eqn:E; [|by intros _; apply resp_is_error_false].
  unfold owned_delivery_result, mbind, outcome_bind. by destruct (detach m).
Qed.

(** The successes among the new results are of messages that were entrusted. *)
Lemma new_success ms (gone : list (option nat * Box nat)) (new : list (nat * OwnedDeliveryResult)) c d :
  gone.*1 = msg_private <$> ms → new.*1 = unbox <$> gone.*2 →
  Forall2 (λ m (x : nat * OwnedDeliveryResult), owned_delivery_result (delivered m) = Done x.2) ms new →
  (c, Ok d : OwnedDeliveryResult) ∈ new →
  ∃ m, m ∈ ms ∧ (msg_private m, mkBox c) ∈ gone ∧ msg_err m = RD_KAFKA_RESP_ERR_NO_ERROR.
Proof.
  intros Hms Hn Hf [k Hk]%list_elem_of_lookup. destruct (Forall2_lookup_r _ _ _ _ _ Hf Hk) as (m & Hm & Hr).
  exists m. split; [by eapply list_elem_of_lookup_2|]. split; [|by eapply success_no_error].
  assert (new.*1 !! k = Some c) as H1 by (by rewrite list_lookup_fmap, Hk).
  rewrite Hn, !list_lookup_fmap in H1. destruct (gone !! k) as [[p [c']]|] eqn:Eg; [|done]. injection H1 as ->.
  assert (gone.*1 !! k = Some (msg_private m)) as H2 by (by rewrite Hms, list_lookup_fmap, Hm).
  rewrite list_lookup_fmap, Eg in H2. injection H2 as ->. by eapply list_elem_of_lookup_2.
Qed.

Lemma ack_serve s l g q dl sh : ack_inv s l g → producer_turn q dl (shared s) = Done (tt, sh) →
  ∃ l', settles (shared s) l sh l' ∧ ack_inv {| shared := sh; tasks := tasks s |} l' g.
Proof.
  intros Hi Hr. pose proof (ak_future _ _ _ Hi) as Hfi.
  destruct (producer_turn_settles_by q dl _ l (fi_owed _ _ Hfi)) as (r & w & sh' & l' & Hp & Hr' & Hs).
  rewrite Hr in Hr'. injection Hr' as <-. exists l'. split; [by eexists|]. pose proof (turn_quiet _ _ _ _ _ _ Hp Hr) as [Hq1 Hq2].
  destruct (poll_event_quiet _ _ _ _ _ Hp) as (o & w1 & Ho & Hrep & [Hq3 Hq4]).
  apply ack_poll in Ho as (Hk1 & Hk2 & Hk3). rewrite <- Hrep in Hk2, Hk3.
  assert (future_inv {| shared := sh; tasks := tasks s |} l') as Hf
    by (apply (future_inv_settles s l); [done|by eexists]).
  destruct (settles_by_sent _ _ _ _ _ Hs) as (gone & new & Hpm & Hms & Hse & Hn & Hres & Hop & _ & _).
  assert (NoDup (gone.*1 ++ l'.*1)) as (_ & Hdis & _)%NoDup_app.
  { rewrite <- fmap_app, <- Hpm. apply (fi_owed _ _ Hfi). }
  assert (acked (pw (shared s)) ⊆ acked (pw sh)) as Ha by (by do 2 (etransitivity; [eassumption|])).
  split; simpl; [done|rewrite Hop; apply Hi|..].
  - intros a c Hin. destruct (ak_entrusted _ _ _ Hi a c) as (x & Hx & He).
    { rewrite Hpm. apply elem_of_app. by right. }
    exists x. split; [done|]. rewrite Hq1, Hq3, Hk2; [done|]. rewrite <- Hms. intros Hg. apply (Hdis _ Hg).
    apply list_elem_of_fmap. by exists (Some a, mkBox c).
  - intros c x d Hg. rewrite Hse. intros [Hin|Hin]%elem_of_app; [by apply Ha, (ak_sent _ _ _ Hi c x d)|].
    destruct (new_success _ _ _ _ _ Hms Hn Hres Hin) as (m & Hm & Hgo & Herr).
    assert ((msg_private m, mkBox c) ∈ l) as Hl by (rewrite Hpm; apply elem_of_app; by left).
    destruct (proj2 (proj1 (fi_owed _ _ Hfi)) _ _ Hl) as (a & Hpa & _). rewrite Hpa in Hl.
    destruct (ak_entrusted _ _ _ Hi a c Hl) as (y & Hy & He). assert (y = x) as -> by congruence.
    apply Hq2, Hq4. by apply (Hk3 m a).
  - intros i t Ht. destruct (ak_tasks _ _ _ Hi i t Ht) as (x & Hx & Hst). exists x. split; [done|].
    by eapply state_content_mono.
Qed.

(** No step loses an acknowledgement. *)
Lemma turn_acked q dl sh sh' l : owed sh l → producer_turn q dl sh = Done (tt, sh') →
  acked (pw sh) ⊆ acked (pw sh').
Proof.
  intros Ho Hr. destruct (producer_turn_settles_by q dl _ l Ho) as (r & w & sh1 & l' & Hp & _).
  destruct (turn_quiet _ _ _ _ _ _ Hp Hr) as [_ H1].
  destruct (poll_event_quiet _ _ _ _ _ Hp) as (o & w1 & (H2 & _)%ack_poll & _ & [_ H3]).
  by do 2 (etransitivity; [eassumption|]).
Qed.

Lemma resume_acked t t' sh sh' l : owed sh l → send_resume t sh = Done (t', sh') → acked (pw sh) ⊆ acked (pw sh').
Proof.
  intros Ho Hr. unfold send_resume in Hr. apply comp_bind_Done in Hr as (y & s1 & [= <- <-] & Hr).
  assert (∀ b, (st ← send_attempt (st_start t) (st_timeout t) b; mret (with_state st t)) sh = Done (t', sh') →
    acked (pw sh) ⊆ acked (pw sh')) as Hattempt.
  { intros b (st & s1 & Ha & [= _ <-])%comp_bind_Done. by apply (attempt_entrusts _ _ _ _ _ _ _ Ho) in Ha as [? _]. }
  destruct (st_state t) as [b|until b| |r]; [by eapply Hattempt| | |done].
  - case_match; [by injection Hr as _ <-|by eapply Hattempt].
  - by destruct (oneshot_poll _ _) as [[]|]; [injection Hr as _ <-| |injection Hr as _ <-].
Qed.

Lemma spawn_acked (r : FutureRecord K P) tmo t sh sh' :
  send_start r tmo sh = Done (t, sh') → acked (pw sh) ⊆ acked (pw sh').
Proof.
  intros Hr. unfold send_start in Hr. apply comp_bind_Done in Hr as (x & s1 & [= <- <-] & Hr).
  apply comp_bind_Done in Hr as (c & s2 & Hc & [= _ <-]). by eapply channel_quiet.
Qed.

Lemma cancel_acked t sh sh' : send_cancel t sh = Done (tt, sh') → acked (pw sh) ⊆ acked (pw sh').
Proof. unfold send_cancel. destruct (st_state t); intros [= <-]; [apply ack_drop..|done|done]. Qed.

Lemma result_acked (r : FutureRecord K P) x sh sh' l : owed sh l → send_result r sh = Done (x, sh') →
  acked (pw sh) ⊆ acked (pw sh').
Proof.
  intros Ho Hr. unfold send_result in Hr. apply comp_bind_Done in Hr as (c & sh1 & Hc & Hr).
  destruct (channel_run _ _ Ho) as (c' & sh1' & Hc' & Ho1 & _). rewrite Hc in Hc'. injection Hc' as <- <-.
  apply channel_quiet in Hc as [_ H1]. apply comp_bind_Done in Hr as (y & sh2 & Hs & Hr).
  destruct (send_entrusts _ _ _ _ _ Ho1 Hs) as [H2 _]. destruct y as [u|[e b]].
  - injection Hr as _ <-. by etransitivity.
  - apply comp_bind_Done in Hr as ([] & sh3 & [= <-] & [= _ <-]). simpl.
    do 2 (etransitivity; [eassumption|]). apply ack_drop.
Qed.

(** The states that the interleavings reach, with what each task was asked to send. *)
Inductive traced : fsys W K P → gmap nat (FutureRecord K P) → Prop :=
| traced_initial s : future_initial s → traced s ∅
| traced_spawn s asked i r timeout t sh : traced s asked → tasks s !! i = None →
    send_start r timeout (shared s) = Done (t, sh) →
    traced {| shared := sh; tasks := <[i := t]> (tasks s) |} (<[i := r]> asked)
| traced_step s asked s' : traced s asked → fstep s s' →
    (∀ i t, tasks s' !! i = Some t → ∃ t0, tasks s !! i = Some t0 ∧ st_rx t = st_rx t0) → traced s' asked.

Lemma traced_inv s asked : traced s asked →
  ∃ l g, ack_inv s l g ∧ ∀ i t r, tasks s !! i = Some t → asked !! i = Some r → g !! st_rx t = Some (record_content r).
Proof.
  induction 1 as [s Hs|s asked i r tmo t sh _ (l & g & Hi & Hg) Hn Hr|s asked s' _ (l & g & Hi & Hg) Hst Hk].
  - exists [], ∅. split; [by apply ack_initial|]. intros i t r. destruct Hs as [_ ->]. by rewrite lookup_empty.
  - destruct (ack_spawn _ _ _ _ _ _ _ _ Hi Hn Hr) as [Hnew Hi']. exists l, (<[st_rx t := record_content r]> g).
    split; [done|]. intros j u r'. simpl. destruct (decide (j = i)) as [->|Hne].
    + rewrite !lookup_insert_eq. intros [= <-] [= <-]. by rewrite lookup_insert_eq.
    + rewrite !lookup_insert_ne by done. intros Hu Hr'. rewrite lookup_insert_ne; [by apply (Hg j)|].
      intros He. rewrite He in Hnew. rewrite (Hg j u r' Hu Hr') in Hnew. done.
  - assert (∃ l' g', ack_inv s' l' g' ∧ g ⊆ g') as (l' & g' & Hi' & Hsub).
    { destruct Hst as [s i r tmo t sh Hn Hr|s i t t' sh Ht Hr|s i t sh Ht Hr|s r x sh Hr|s q dl sh Hr].
      - destruct (Hk i t) as (t0 & Ht0 & _); [apply lookup_insert_eq|congruence].
      - destruct (ack_resume _ _ _ _ _ _ _ Hi Ht Hr) as [l' ?]. by exists l', g.
      - exists l, g. split; [by eapply ack_cancel|done].
      - destruct (ack_result _ _ _ _ _ _ Hi Hr) as (l' & c & Hc & _ & ?). exists l', (<[c := record_content r]> g).
        split; [done|]. by apply insert_subseteq.
      - destruct (ack_serve _ _ _ _ _ _ Hi Hr) as (l' & _ & ?). by exists l', g. }
    exists l', g'. split; [done|]. intros i t r Ht Hr. destruct (Hk i t Ht) as (t0 & Ht0 & ->).
    eapply lookup_weaken; [by apply (Hg i t0)|done].
Qed.

(** A returned delivery is of the record that was asked for. *)
Lemma traced_returned s asked i t r d :
  traced s asked → tasks s !! i = Some t → asked !! i = Some r → st_state t = Returned (Ok d) →
  record_content r ∈ acked (pw (shared s)).
Proof.
  intros (l & g & Hi & Hg)%traced_inv Ht Hr Hst. destruct (ak_tasks _ _ _ Hi i t Ht) as (x & Hx & Hx').
  rewrite Hst in Hx'. rewrite (Hg i t r Ht Hr) in Hx. by injection Hx as <-.
Qed.

Lemma traced_owed s asked : traced s asked → ∃ l, owed (shared s) l.
Proof. intros (l & g & Hi & _)%traced_inv. exists l. apply Hi. Qed.

(** C8: a send that succeeds has been acknowledged with its own data.
    However sends, cancellations and the polling thread interleave, when the
    future of [send] has returned a delivery, the cluster has acknowledged a
    message with the topic, the payload and the key of the record that was given
    to that [send]. *)
Theorem send_acknowledged s asked i t r d :
  traced s asked → tasks s !! i = Some t → asked !! i = Some r → st_state t = Returned (Ok d) →
  record_content r ∈ acked (pw (shared s)).
Proof. apply traced_returned. Qed.

End acknowledged.

(** ** A simulated cluster

    The simulated producer, with a cluster that acknowledges every message that
    is reported without an error. *)

Record ksim := { k_net : fsim; k_entrusted : gmap nat content; k_acked : list content }.

Definition with_fsim (n : fsim) (s : ksim) : ksim :=
  {| k_net := n; k_entrusted := k_entrusted s; k_acked := k_acked s |}.

Definition on_fsim {A} (f : fsim → A * fsim) (s : ksim) : A * ksim :=
  let '(a, n) := f (k_net s) in (a, with_fsim n s).

(** Reported messages leave librdkafka, those without an error acknowledged. *)
Definition settle (ms : list RDKafkaMessage) (s : ksim) : ksim := {|
  k_net := k_net s;
  k_entrusted := foldr (λ m en, match msg_private m with Some a => delete a en | None => en end) (k_entrusted s) ms;
  k_acked := omap (λ m, a ← msg_private m;
                        if resp_is_error (msg_err m) then None else k_entrusted s !! a) ms ++ k_acked s;
|}.

Definition ksim_poll (q : nat) (ms : Z) (s : ksim) : option RDKafkaEvent * ksim :=
  let '(o, s') := on_fsim (rd_kafka_queue_poll q ms) s in (o, settle (dr_messages o) s').

Definition ksim_producev t p f pl pn k kn (o : option nat) ts h (s : ksim) : RDKafkaRespErr * ksim :=
  let '(e, s') := on_fsim (rd_kafka_producev t p f pl pn k kn o ts h) s in
  (e, match o with
      | Some a => if resp_is_error e then s'
                  else {| k_net := k_net s'; k_entrusted := <[a := (t, pl, k)]> (k_entrusted s');
                          k_acked := k_acked s' |}
      | None => s'
      end).

#[export] Instance ksim_native : ClientNative ksim := {
  clock s := clock (k_net s);
  rd_kafka_queue_poll := ksim_poll;
  rd_kafka_oauthbearer_set_token t l p := on_fsim (rd_kafka_oauthbearer_set_token t l p);
  rd_kafka_oauthbearer_set_token_failure _ s := s;
  rd_kafka_rebalance_protocol _ := None;
  rd_kafka_topic_new t := on_fsim (rd_kafka_topic_new t);
  rd_kafka_metadata f t ms := on_fsim (rd_kafka_metadata f t ms);
  rd_kafka_query_watermark_offsets t p lh ms := on_fsim (rd_kafka_query_watermark_offsets t p lh ms);
  rd_kafka_clusterid ms := on_fsim (rd_kafka_clusterid ms);
  rd_kafka_list_groups g ms := on_fsim (rd_kafka_list_groups g ms);
  rd_kafka_fatal_error := on_fsim rd_kafka_fatal_error;
  rd_kafka_queue_new := on_fsim rd_kafka_queue_new;
  rd_kafka_queue_get_consumer := on_fsim rd_kafka_queue_get_consumer;
  rd_kafka_queue_get_main := on_fsim rd_kafka_queue_get_main;
}.

#[export] Instance ksim_context : ClientContext ksim := {
  ENABLE_REFRESH_OAUTH_TOKEN := false;
  log _ _ _ s := s;
  stats_raw _ s := s;
  error _ _ s := s;
  generate_oauth_token _ s := (Err "none", s);
}.

#[export] Instance ksim_producer : ProducerNative ksim := {
  rd_kafka_producev := ksim_producev;
  rd_kafka_flush ms := on_fsim (rd_kafka_flush ms);
  rd_kafka_purge f := on_fsim (rd_kafka_purge f);
  rd_kafka_outq_len s := rd_kafka_outq_len (k_net s);
  rd_kafka_init_transactions ms := on_fsim (rd_kafka_init_transactions ms);
  rd_kafka_begin_transaction := on_fsim rd_kafka_begin_transaction;
  rd_kafka_send_offsets_to_transaction l g ms := on_fsim (rd_kafka_send_offsets_to_transaction l g ms);
  rd_kafka_commit_transaction ms := on_fsim (rd_kafka_commit_transaction ms);
  rd_kafka_abort_transaction ms := on_fsim (rd_kafka_abort_transaction ms);
}.

#[export] Instance ksim_oneshot : Oneshot ksim OwnedDeliveryResult := {
  oneshot_channel := on_fsim oneshot_channel;
  oneshot_send c r s := with_fsim (oneshot_send c r (k_net s)) s;
  oneshot_drop c s := with_fsim (oneshot_drop c (k_net s)) s;
  oneshot_poll c s := oneshot_poll c (k_net s);
}.

Lemma settle_other s ms a : Some a ∉ msg_private <$> ms → k_entrusted (settle ms s) !! a = k_entrusted s !! a.
Proof.
  simpl. induction ms as [|m ms IH]; [done|]. rewrite fmap_cons, not_elem_of_cons. simpl. intros [Hne Hin].
  rewrite <- IH by done. destruct (msg_private m); [|done]. apply lookup_delete_ne. congruence.
Qed.

Lemma settle_reported s ms m a x : m ∈ ms → msg_private m = Some a →
  msg_err m = RD_KAFKA_RESP_ERR_NO_ERROR → k_entrusted s !! a = Some x → x ∈ k_acked (settle ms s).
Proof.
  intros Hm Ha He Hx. simpl. apply elem_of_app. left. apply list_elem_of_omap. exists m. split; [done|].
  by rewrite Ha, He.
Qed.

#[export, refine] Instance ksim_spec : FutureSpec ksim := {|
  owes s := owes (k_net s);
  sent s := sent (k_net s);
  opened s := opened (k_net s);
  dropped s := dropped (k_net s);
|}.
Proof.
  - intros t p f pl pn k kn o ts h w e w' Hr. change (ksim_producev t p f pl pn k kn o ts h w = (e, w')) in Hr.
    revert Hr. unfold ksim_producev, on_fsim.
    destruct (rd_kafka_producev _ _ _ _ _ _ _ _ _ _ (k_net w)) as [e0 n] eqn:E.
    intros [= <- <-]. apply fut_producev in E. destruct o; [destruct (resp_is_error e0)|]; exact E.
  - intros q ms w o w' Hr. change (ksim_poll q ms w = (o, w')) in Hr. revert Hr. unfold ksim_poll, on_fsim.
    destruct (rd_kafka_queue_poll q ms (k_net w)) as [o0 n] eqn:E. intros [= <- <-]. by apply fut_poll in E.
  - intros ev w w'. unfold event_effect, handle_log_event. repeat case_match; by intros [= <-].
  - done.
  - intros ms w e w' Hr. change (on_fsim (rd_kafka_flush ms) w = (e, w')) in Hr. revert Hr. unfold on_fsim.
    destruct (rd_kafka_flush ms (k_net w)) as [e0 n] eqn:E. intros [= <- <-]. by apply fut_flush in E.
  - intros w c w' Hr. change (on_fsim oneshot_channel w = (c, w')) in Hr. revert Hr. unfold on_fsim.
    destruct (oneshot_channel (k_net w)) as [c0 n] eqn:E.
    intros [= <- <-]. by apply fut_channel in E.
  - intros c r w. apply (fut_send c r (k_net w)).
  - intros c w. apply (fut_drop c (k_net w)).
  - intros c w. apply (fut_drop_clock c (k_net w)).
  - intros c w. apply (fut_receive c (k_net w)).
Defined.

#[export, refine] Instance ksim_ack : AckSpec ksim := {|
  entrusted := k_entrusted;
  acked := k_acked;
|}.
Proof.
  - intros t p f pl pn k kn o ts h w e w' Hr. change (ksim_producev t p f pl pn k kn o ts h w = (e, w')) in Hr.
    revert Hr. unfold ksim_producev, on_fsim.
    destruct (rd_kafka_producev _ _ _ _ _ _ _ _ _ _ (k_net w)) as [e0 n]. intros [= <- <-].
    destruct o; [destruct (resp_is_error e0)|]; by split.
  - intros q ms w o w' Hr. change (ksim_poll q ms w = (o, w')) in Hr. revert Hr. unfold ksim_poll, on_fsim.
    destruct (rd_kafka_queue_poll q ms (k_net w)) as [o0 n]. intros [= <- <-]. split_and!.
    + simpl. by apply list_subseteq_app_r.
    + intros a. apply (settle_other (with_fsim n w)).
    + intros m a x. apply (settle_reported (with_fsim n w)).
  - intros ev w w'. unfold event_effect, handle_log_event. repeat case_match; by intros [= <-].
  - done.
  - intros w c w' Hr. change (on_fsim oneshot_channel w = (c, w')) in Hr. revert Hr. unfold on_fsim.
    destruct (oneshot_channel (k_net w)). by intros [= <- <-].
  - done.
  - done.
Defined.

Definition ksim_at (now : Z) : pworld ksim (Box nat) :=
  @Build_pworld ksim (Box nat) IntoOpaque_Box
    {| k_net := pw (fsim_at now); k_entrusted := ∅; k_acked := [] |} (∅ : gmap nat nat).

Definition ksim_idle : fsys ksim string string := {| shared := ksim_at 0; tasks := ∅ |}.

(** The state after a step of the code, when it does not panic. *)
Definition after {A} (m : comp (pworld ksim (Box nat)) A) (sh : pworld ksim (Box nat)) : pworld ksim (Box nat) :=
  match m sh with Done (_, sh') => sh' | Panic _ => sh end.

Definition k_started : pworld ksim (Box nat) := after (send_start (fsim_record "topic") (After 5)) (ksim_at 0).
Definition k_waiting : pworld ksim (Box nat) := after (send_resume started_task) k_started.
Definition k_served : pworld ksim (Box nat) := after (producer_turn 0 (At 1000)) k_waiting.
Definition k_delivery : Delivery := {| d_partition := 0; d_offset := 0; d_timestamp := Ts.CreateTime 1000 |}.
Definition k_system : fsys ksim string string :=
  {| shared := k_served; tasks := {[ 0%nat := task_of (Returned (Ok k_delivery)) ]} |}.

Lemma k_system_traced : traced k_system {[ 0%nat := fsim_record "topic" ]}.
Proof.
  assert (traced ksim_idle ∅) as H0.
  { apply traced_initial. split; [|done]. split; [|done]. split; [constructor|]. intros p d []%elem_of_nil. }
  assert (traced {| shared := k_started; tasks := {[ 0%nat := started_task ]} |}
    {[ 0%nat := fsim_record "topic" ]}) as H1.
  { apply (traced_spawn ksim_idle ∅ 0 (fsim_record "topic") (After 5) started_task k_started H0); done. }
  assert (∀ sh sh' st st', traced {| shared := sh; tasks := {[ 0%nat := task_of st ]} |} {[ 0%nat := fsim_record "topic" ]} →
    send_resume (task_of st) sh = Done (task_of st', sh') →
    traced {| shared := sh'; tasks := {[ 0%nat := task_of st' ]} |} {[ 0%nat := fsim_record "topic" ]}) as Hresume.
  { intros sh sh' st st' Ht Hr. eapply traced_step; [exact Ht| |].
    - pose proof (fstep_resume {| shared := sh; tasks := {[ 0%nat := task_of st ]} |} 0 (task_of st) (task_of st') sh'
        (lookup_singleton_eq _ _) Hr) as Hs. simpl in Hs. by rewrite insert_singleton_eq in Hs.
    - simpl. intros i t [<- <-]%lookup_singleton_Some. exists (task_of st). by rewrite lookup_singleton_eq. }
  assert (traced {| shared := k_served; tasks := {[ 0%nat := task_of Waiting ]} |}
    {[ 0%nat := fsim_record "topic" ]}) as H2.
  { eapply traced_step; [apply (Hresume k_started k_waiting _ Waiting H1); vm_compute; reflexivity| |].
    - assert (producer_turn 0 (At 1000) k_waiting = Done (tt, k_served)) as Hr by (vm_compute; reflexivity).
      exact (fstep_poll {| shared := k_waiting; tasks := {[ 0%nat := task_of Waiting ]} |} 0 (At 1000) k_served Hr).
    - intros i t Ht. by exists t. }
  apply (Hresume k_served k_served Waiting _ H2). vm_compute. reflexivity.
Qed.

Lemma send_acknowledged_witness : record_content (fsim_record "topic") ∈ acked (pw (shared k_system)).
Proof.
  apply (send_acknowledged k_system {[ 0%nat := fsim_record "topic" ]} 0
    (task_of (Returned (Ok k_delivery))) (fsim_record "topic") k_delivery);
    [apply k_system_traced|reflexivity|reflexivity|reflexivity].
Defined.
