(* ===== verification/Offsets.v ===== *)
(** * The offsets of a consumer

    What librdkafka does with the offsets of a consumer group, as far as the programs
    of examples/ that consume depend on it: the positions that are read next, the
    offsets that are stored for the next commit, the commits on their way and what is
    committed. [OffsetsSpec] and [CommitSpec] state librdkafka's documentation;
    [GroupContext] is what a consumer context promises; [poll_queue_moves] is the
    consequence for the poll of the crate. [frontier_inv] is the invariant that the
    programs share: up to where a partition has been handled. *)

From stdpp Require Import strings gmap prelude.
From S2P Require Import Prelude ErrorCodes KafkaErrors Util TopicPartitionList Config Message ClusterInfo Client.
From S2P Require Import BaseConsumer.

Local Open Scope Z_scope.

(** [Result::expect]. *)
Definition expect_ok {W A} (message : string) (r : KafkaResult A) : comp W A :=
  lift (match r with Ok a => Done a | Err _ => Panic message end).

(** ** Offsets *)

(** A topic, as librdkafka's handle for it, and a partition. *)
Abbreviation tpart := (nat * Z)%type.

(** The next offset that is delivered, the offset that the next commit writes, the
    commits that were asked for and not answered, and the offset at which the group
    continues. [origin] records where the group came to read a partition from by no
    commit of its own: what was committed before the program, or the highest offset
    to which the reset policy ([auto.offset.reset]) has sent it. *)
Record offsets := {
  fetch_position : gmap tpart Z;
  stored : gmap tpart Z;
  committing : list (tpart * Z);
  committed_at : gmap tpart Z;
  origin : gmap tpart Z;
}.

Definition set_stored (v : gmap tpart Z) (os : offsets) : offsets :=
  {| fetch_position := fetch_position os; stored := v; committing := committing os;
     committed_at := committed_at os; origin := origin os |}.
Definition set_committing (v : list (tpart * Z)) (os : offsets) : offsets :=
  {| fetch_position := fetch_position os; stored := stored os; committing := v;
     committed_at := committed_at os; origin := origin os |}.
Definition set_committed (p : tpart) (o : Z) (os : offsets) : offsets :=
  {| fetch_position := fetch_position os; stored := stored os; committing := committing os;
     committed_at := <[p := o]> (committed_at os); origin := origin os |}.
Definition set_fetch (v : gmap tpart Z) (os : offsets) : offsets :=
  {| fetch_position := v; stored := stored os; committing := committing os;
     committed_at := committed_at os; origin := origin os |}.
Definition set_origin (v : gmap tpart Z) (os : offsets) : offsets :=
  {| fetch_position := fetch_position os; stored := stored os; committing := committing os;
     committed_at := committed_at os; origin := v |}.

(** A consumer that has just started, in a group that has committed [c]. *)
Definition offsets_at (c g : gmap tpart Z) : offsets :=
  {| fetch_position := ∅; stored := ∅; committing := []; committed_at := c; origin := g |}.

(** Whether a delivered message is stored at once; librdkafka's default is to. *)
Definition auto_offset_store (c : ClientConfig) : bool :=
  bool_decide (config_get c "enable.auto.offset.store" ≠ Some "false").

Definition message_part (m : RDKafkaMessage) : tpart := (msg_rkt m, msg_partition m).

(** The message of an event, when it carries no error. *)
Definition fetched (o : option RDKafkaEvent) : option RDKafkaMessage :=
  match o with
  | Some ev =>
      if event_type ev =? RD_KAFKA_EVENT_FETCH then
        match event_messages ev with
        | m :: _ => if resp_is_error (msg_err m) then None else Some m
        | [] => None
        end
      else None
  | None => None
  end.

Section offsets.
Context `{N : HeadersNative} `{!MessageNative}.
Context (plog : tpart → Z → option (option bytes * option bytes)).

(** What the group does on its own: stored offsets are committed; a commit that was
    asked for is done or fails; a partition is assigned, and read from the committed
    offset; a partition whose committed offset is missing or out of range is read from
    where the reset policy says, which is any offset here; a partition is revoked. *)
Inductive group_step : offsets → offsets → Prop :=
| group_commit os p o : stored os !! p = Some o → group_step os (set_committed p o os)
| group_committed os l1 l2 p o : committing os = l1 ++ (p, o) :: l2 →
    group_step os (set_committed p o (set_committing (l1 ++ l2) os))
| group_uncommitted os l1 l2 p o : committing os = l1 ++ (p, o) :: l2 →
    group_step os (set_committing (l1 ++ l2) os)
| group_assign os p c : committed_at os !! p = Some c →
    group_step os (set_fetch (<[p := c]> (fetch_position os)) (set_stored (delete p (stored os)) os))
| group_reset os p o :
    group_step os (set_fetch (<[p := o]> (fetch_position os))
                     (set_origin (<[p := Z.max o (default o (origin os !! p))]> (origin os)) os))
| group_revoke os p :
    group_step os (set_fetch (delete p (fetch_position os)) (set_stored (delete p (stored os)) os)).

(** A delivery: the next message of an assigned partition, with the data of the
    partition's log. *)
Definition delivers (auto : bool) (os : offsets) (m : RDKafkaMessage) (os' : offsets) : Prop :=
  let p := message_part m in
  ∃ o, fetch_position os !! p = Some o ∧ o ≤ msg_offset m
    ∧ (∀ o', o ≤ o' < msg_offset m → plog p o' = None)
    ∧ plog p (msg_offset m) = Some (payload m, message_key m)
    ∧ os' = set_fetch (<[p := msg_offset m + 1]> (fetch_position os))
              (if auto then set_stored (<[p := msg_offset m + 1]> (stored os)) os else os).

End offsets.

(** What librdkafka documents of a consumer created with [conf], whose partitions
    hold [plog] and which is the only member of its group: a poll delivers the message of the event it answers with; serving
    other events and the assignment calls only move what the group moves;
    [rd_kafka_offset_store] stores the offset after the given one, or fails. *)
Class OffsetsSpec (W : Type) `{!ClientNative W} `{!ClientContext W} `{!ConsumerNative W}
    `{N : HeadersNative} `{!MessageNative} (conf : ClientConfig)
    (plog : tpart → Z → option (option bytes * option bytes)) := {
  offsets_of : W → offsets;
  off_poll q ms w o w' : rd_kafka_queue_poll q ms w = (o, w') →
    ∃ os, rtc group_step (offsets_of w) os
      ∧ match fetched o with
        | Some m => delivers plog (auto_offset_store conf) os m (offsets_of w')
        | None => offsets_of w' = os
        end;
  off_effect ev w w' : event_effect ev w = Done (tt, w') →
    rtc group_step (offsets_of w) (offsets_of w');
  off_assign l w e w' : rd_kafka_assign l w = (e, w') →
    rtc group_step (offsets_of w) (offsets_of w');
  off_incremental_assign l w e w' : rd_kafka_incremental_assign l w = (e, w') →
    rtc group_step (offsets_of w) (offsets_of w');
  off_incremental_unassign l w e w' : rd_kafka_incremental_unassign l w = (e, w') →
    rtc group_step (offsets_of w) (offsets_of w');
  off_store rkt p o w e w' : rd_kafka_offset_store rkt p o w = (e, w') →
    offsets_of w' = if resp_is_error e then offsets_of w
                    else set_stored (<[(rkt, p) := o + 1]> (stored (offsets_of w))) (offsets_of w);
}.

(** [rd_kafka_commit_message] that does not wait: a commit of the offset after the
    message's is on its way, or the call fails. *)
Class CommitSpec (W : Type) `{O : OffsetsSpec W} := {
  com_message m w e w' : rd_kafka_commit_message m (commit_mode_discr Async) w = (e, w') →
    offsets_of w' = if resp_is_error e then offsets_of w
                    else set_committing (committing (offsets_of w) ++ [(message_part m, msg_offset m + 1)]) (offsets_of w);
}.

(** What a consumer context promises to the programs: its callbacks move offsets as
    the group does. *)
Class GroupContext (W : Type) `{O : OffsetsSpec W} `{!ConsumerContext W} := {
  gc_rebalance e l w l' w' : rebalance e l w = Done (l', w') →
    rtc group_step (offsets_of w) (offsets_of w');
  gc_commit_callback r l w : rtc group_step (offsets_of w) (offsets_of (commit_callback r l w));
}.

(** ** Polling *)

Section moves.
Context {Wc : Type} `{!ClientNative Wc} `{!ClientContext Wc} `{!ConsumerNative Wc} `{T : TplNative}
  `{N : HeadersNative} `{!MessageNative}.
Context (conf : ClientConfig) (plog : tpart → Z → option (option bytes * option bytes)).
Context `{!OffsetsSpec Wc conf plog}.

Abbreviation moves := (rtc group_step).

Lemma call_moves {A} (f : Wc → A * Wc) w w' : (_ ← call f; mret tt) w = Done (tt, w') →
  (∀ a, f w = (a, w') → moves (offsets_of w) (offsets_of w')) → moves (offsets_of w) (offsets_of w').
Proof.
  intros (a & w1 & Ha & [= <-])%comp_bind_Done Hf. unfold call in Ha. destruct (f w) as [a' w2] eqn:E.
  injection Ha as -> ->. by eapply Hf.
Qed.

(** The provided [rebalance], with callbacks that only log. *)
Lemma default_rebalance_moves e l w l' w' :
  default_rebalance (λ _ w, w) (λ _ w, w) e l w = Done (l', w') → moves (offsets_of w) (offsets_of w').
Proof.
  unfold default_rebalance. intros Hr.
  apply comp_bind_Done in Hr as ([] & w1 & [= <-] & Hr). apply comp_bind_Done in Hr as (x & w1 & [= <- <-] & Hr).
  apply comp_bind_Done in Hr as (pr & w1 & Hp & Hr). apply comp_bind_Done in Hr as ([] & w2 & Hc & Hr).
  apply comp_bind_Done in Hr as ([] & w3 & [= <-] & [= _ <-]).
  unfold lift in Hp. destruct (rebalance_protocol w); [|done]. injection Hp as -> ->.
  destruct e, pr; (apply (call_moves _ _ _ Hc); intros a Ha;
    first [exact (off_assign _ _ _ _ Ha)|exact (off_incremental_assign _ _ _ _ Ha)
          |exact (off_incremental_unassign _ _ _ _ Ha)]).
Qed.

Context `{!ConsumerContext Wc} `{!GroupContext Wc}.

(** What the answer of a poll says of the offsets. *)
Definition polled_moves (w : Wc) (m : option RDKafkaMessage) (w' : Wc) : Prop :=
  match m with
  | Some m => ∃ os os', moves (offsets_of w) os ∧ delivers plog (auto_offset_store conf) os m os'
      ∧ moves os' (offsets_of w')
  | None => moves (offsets_of w) (offsets_of w')
  end.

(** The message of an answer. *)
Definition answer_message (r : EventPollResult (KafkaResult RDKafkaMessage)) : option RDKafkaMessage :=
  match r with Poll.Event (Ok m) => Some m | _ => None end.

Lemma polled_moves_l w m w1 w' : moves (offsets_of w) (offsets_of w1) → polled_moves w1 m w' → polled_moves w m w'.
Proof.
  intros Hm. destruct m as [m|]; simpl; [|by etransitivity]. intros (os & os' & H1 & H2 & H3).
  exists os, os'. split; [by etransitivity|done].
Qed.

Lemma polled_moves_r w m w1 w' : polled_moves w m w1 → moves (offsets_of w1) (offsets_of w') → polled_moves w m w'.
Proof.
  intros Hp Hm. destruct m as [m|]; simpl in *; [|by etransitivity]. destruct Hp as (os & os' & H1 & H2 & H3).
  exists os, os'. split; [done|]. split; [done|]. by etransitivity.
Qed.

(** The event that [poll_event] gives, and the offsets. *)
Lemma poll_event_moves q t w r w' : poll_event q t w = Done (r, w') →
  match r with
  | Poll.Event ev => polled_moves w (fetched (Some ev)) w'
  | _ => polled_moves w None w'
  end.
Proof.
  rewrite poll_event_effect. destruct (rd_kafka_queue_poll q (as_millis t) w) as [[ev|] w1] eqn:E;
    apply off_poll in E as (os & Hos & Ho).
  - destruct (event_effect ev w1) as [[[] w2]|] eqn:Ee; [|done]. intros [= <- <-]. apply off_effect in Ee.
    assert (polled_moves w (fetched (Some ev)) w2) as Hp.
    { destruct (fetched (Some ev)) as [m|]; simpl; [by exists os, (offsets_of w1)|].
      rewrite <- Ho in Hos. by etransitivity. }
    case_bool_decide as Hc; [|done].
    assert (fetched (Some ev) = None) as Hf; [|by rewrite Hf in Hp]. unfold fetched.
    destruct (Z.eqb_spec (event_type ev) RD_KAFKA_EVENT_FETCH) as [Ht|]; [|done].
    rewrite Ht in Hc. by apply (bool_decide_eq_true_2 _) in Hc.
  - intros [= <- <-]. simpl. by rewrite Ho.
Qed.

Lemma handle_rebalance_moves ev w w' : handle_rebalance_event ev w = Done (tt, w') →
  moves (offsets_of w) (offsets_of w').
Proof.
  unfold handle_rebalance_event. intros Hr.
  assert (w' = w ∨ ∃ l l', rebalance (event_error ev) l w = Done (l', w')) as [->|(l & l' & Hl)].
  { destruct (event_error ev); try (injection Hr as <-; by left).
    all: apply comp_bind_Done in Hr as (l & w1 & Hl & Hr); apply comp_bind_Done in Hr as (l' & w2 & Hl' & [= <-]);
      unfold lift in Hl; destruct (expect _ _); [|done]; injection Hl as -> ->; right; by exists l, l'. }
  - done.
  - by eapply gc_rebalance.
Qed.

Lemma poll_turn_moves q now t0 t w r w' : poll_turn q now t0 t w = Done (r, w') →
  polled_moves w (match r with inl a => answer_message a | inr _ => None end) w'.
Proof.
  intros Hr. unfold poll_turn in Hr. apply comp_bind_Done in Hr as (e & w1 & He & Hr).
  apply poll_event_moves in He. destruct e as [| |ev]; simpl in He.
  - apply comp_bind_Done in Hr as (x & w2 & [= <- <-] & [= <- <-]). by destruct (is_zero _).
  - apply comp_bind_Done in Hr as (x & w2 & [= <- <-] & [= <- <-]). by destruct (is_zero _).
  - destruct (event_type ev =? RD_KAFKA_EVENT_FETCH).
    { injection Hr as <- <-. unfold handle_fetch_event, from_client.
      destruct (event_messages ev) as [|m ms]; [done|]. by destruct (resp_is_error (msg_err m)). }
    eapply polled_moves_l; [exact He|].
    destruct (event_type ev =? RD_KAFKA_EVENT_ERROR).
    { apply comp_bind_Done in Hr as (x & w2 & Hx & [= <- <-]). unfold lift in Hx.
      destruct (handle_error_event ev); [|done]. injection Hx as -> <-. destruct x; apply rtc_refl. }
    destruct (event_type ev =? RD_KAFKA_EVENT_REBALANCE).
    { apply comp_bind_Done in Hr as ([] & w2 & Hx & [= <- <-]). apply handle_rebalance_moves in Hx.
      by case_bool_decide. }
    destruct (event_type ev =? RD_KAFKA_EVENT_OFFSET_COMMIT); [|injection Hr as <- <-; apply rtc_refl].
    apply comp_bind_Done in Hr as ([] & w2 & Hx & [= <- <-]). unfold handle_offset_commit_event in Hx.
    destruct (event_topic_partition_list ev); injection Hx as <-; case_bool_decide;
      first [apply gc_commit_callback|apply rtc_refl].
Qed.

Lemma poll_loop_moves fuel q now t0 t w r w' : poll_loop fuel q now t0 t w = Done (Some r, w') →
  polled_moves w (answer_message r) w'.
Proof.
  revert t w. induction fuel as [|fuel IH]; intros t w Hr; [done|]. cbn [poll_loop] in Hr.
  apply comp_bind_Done in Hr as (a & w1 & Ha & Hr). apply poll_turn_moves in Ha.
  destruct a as [a|t2]; [by injection Hr as <- <-|]. apply IH in Hr. by eapply polled_moves_l.
Qed.

(** A poll that answers with a message has delivered that one and no other. *)
Lemma poll_queue_moves fuel q t w r w' : poll_queue fuel q t w = Done (Some r, w') →
  polled_moves w (answer_message r) w'.
Proof. apply poll_loop_moves. Qed.

End moves.

(** ** The frontier *)

Section frontier.
Context `{N : HeadersNative} `{!MessageNative}.
Context (plog : tpart → Z → option (option bytes * option bytes)).

Abbreviation moves := (rtc group_step).

(** What the program has done with the message of the log at an offset. *)
Implicit Type handled : tpart → Z → option bytes * option bytes → Prop.

(** [f]: up to where a partition that the group has come to read has been handled. *)
Implicit Type f : gmap tpart Z.

Definition below f (p : tpart) (o : Z) : Prop := ∃ z, f !! p = Some z ∧ o ≤ z.

(** The frontier only moves on. *)
Definition grows f f' : Prop := ∀ p o, below f p o → below f' p o.

(** From the origin of a partition up to the frontier everything has been handled;
    nothing beyond is stored, asked to be committed, or committed. *)
Record frontier_inv f handled (os : offsets) : Prop := {
  fr_origin p b : origin os !! p = Some b → below f p b;
  fr_known p z : f !! p = Some z → is_Some (origin os !! p);
  fr_done p b z o x : origin os !! p = Some b → f !! p = Some z → b ≤ o < z → plog p o = Some x → handled p o x;
  fr_stored p o : stored os !! p = Some o → below f p o;
  fr_committing p o : (p, o) ∈ committing os → below f p o;
  fr_committed p o : committed_at os !! p = Some o → below f p o;
}.

(** Only the message in progress has been delivered beyond the frontier. *)
Definition position_ok f (cur : option RDKafkaMessage) (os : offsets) : Prop :=
  ∀ p o, fetch_position os !! p = Some o →
    below f p o ∨ ∃ m, cur = Some m ∧ p = message_part m ∧ o ≤ msg_offset m + 1.

(** The message in progress, and nothing between it and the frontier. *)
Definition current_ok f (m : RDKafkaMessage) : Prop :=
  plog (message_part m) (msg_offset m) = Some (payload m, message_key m)
  ∧ ∃ z, f !! message_part m = Some z ∧ ∀ o, z ≤ o < msg_offset m → plog (message_part m) o = None.

Lemma below_le f p o o' : o' ≤ o → below f p o → below f p o'.
Proof. intros Ho (z & Hz & Hle). exists z. split; [done|lia]. Qed.

Lemma grows_insert f p z : (∀ o, f !! p = Some o → o ≤ z) → grows f (<[p := z]> f).
Proof.
  intros Hz p' o (y & Hy & Hle). destruct (decide (p = p')) as [<-|Hne].
  - exists z. rewrite lookup_insert_eq. specialize (Hz y Hy). split; [done|lia].
  - exists y. by rewrite lookup_insert_ne.
Qed.

Lemma grows_position f f' cur os : grows f f' → position_ok f cur os → position_ok f' cur os.
Proof. intros Hg Hp p o [?|?]%Hp; [left; by apply Hg|by right]. Qed.

Lemma grows_current f f' m : grows f f' → current_ok f m → current_ok f' m.
Proof.
  intros Hg [Hm (z & Hz & Hgap)]. split; [done|].
  destruct (Hg (message_part m) z) as (z' & Hz' & Hle); [by exists z|]. exists z'. split; [done|].
  intros o Ho. apply Hgap. lia.
Qed.

Lemma frontier_mono f h h' os : (∀ p o x, plog p o = Some x → h p o x → h' p o x) → frontier_inv f h os → frontier_inv f h' os.
Proof. intros Hh []. split; eauto. Qed.

(** A start of the program. *)
Lemma frontier_restart f h os : frontier_inv f h os → frontier_inv f h (offsets_at (committed_at os) (origin os)).
Proof. intros []. split; simpl; eauto; [|by intros p o ?%elem_of_nil]. intros p o. by rewrite lookup_empty. Qed.

Lemma position_restart f c g : position_ok f None (offsets_at c g).
Proof. intros p o. simpl. by rewrite lookup_empty. Qed.

(** The first start, in a group that has committed [c]. *)
Lemma frontier_initial h c : frontier_inv c h (offsets_at c c).
Proof.
  split; simpl; [by intros p b ?; exists b|by intros p z ->| | |by intros p o ?%elem_of_nil|by intros p o ?; exists o].
  - intros p b z o x -> [= ->]. lia.
  - intros p o. by rewrite lookup_empty.
Qed.

Lemma frontier_store f h os p o : frontier_inv f h os → below f p o →
  frontier_inv f h (set_stored (<[p := o]> (stored os)) os).
Proof.
  intros [] Ho. split; simpl; eauto. intros p' o' [[<- <-]|[_ ?]]%lookup_insert_Some; eauto.
Qed.

Lemma frontier_commit f h os p o : frontier_inv f h os → below f p o →
  frontier_inv f h (set_committing (committing os ++ [(p, o)]) os).
Proof.
  intros [] Ho. split; simpl; eauto. intros p' o' [?|[= -> ->]%list_elem_of_singleton]%elem_of_app; eauto.
Qed.

Lemma committing_rest (l l1 l2 : list (tpart * Z)) x y : l = l1 ++ x :: l2 → y = x ∨ y ∈ l1 ++ l2 → y ∈ l.
Proof. intros ->. rewrite !elem_of_app, elem_of_cons. tauto. Qed.

(** Where the reset policy sends the group is the origin, if it is not behind: the
    frontier moves there. *)
Lemma group_reset_frontier f h os p o : frontier_inv f h os →
  ∃ f', grows f f' ∧ below f' p o
    ∧ frontier_inv f' h (set_fetch (<[p := o]> (fetch_position os))
        (set_origin (<[p := Z.max o (default o (origin os !! p))]> (origin os)) os)).
Proof.
  intros [H1 H2 H3 H4 H5 H6]. exists (<[p := Z.max o (default o (f !! p))]> f).
  assert (grows f (<[p := Z.max o (default o (f !! p))]> f)) as Hg.
  { apply grows_insert. intros y ->. simpl. lia. }
  split; [done|]. split; [exists (Z.max o (default o (f !! p))); rewrite lookup_insert_eq; split; [done|lia]|].
  split; simpl; eauto.
  - intros p' b [[<- <-]|[Hne Hb]]%lookup_insert_Some; [|by apply Hg, H1].
    exists (Z.max o (default o (f !! p))). rewrite lookup_insert_eq. split; [done|].
    destruct (origin os !! p) as [b|] eqn:Eb; simpl; [|lia]. destruct (H1 p b Eb) as (z & -> & Hle). simpl. lia.
  - intros p' z [[<- _]|[Hne Hz]]%lookup_insert_Some; [by rewrite lookup_insert_eq|].
    rewrite lookup_insert_ne by done. by eapply H2.
  - intros p' b z o' x Hb Hz. destruct (decide (p = p')) as [<-|Hne].
    + rewrite lookup_insert_eq in Hb, Hz. injection Hb as <-. injection Hz as <-. intros Ho Hx.
      destruct (f !! p) as [z|] eqn:Ez; simpl in Ho; [|lia]. destruct (H2 p z Ez) as [b Eb]. rewrite Eb in Ho. simpl in Ho.
      apply (H3 p b z o' x); [done..|lia|done].
    + rewrite lookup_insert_ne in Hb, Hz by done. by apply (H3 p' b z).
Qed.

(** A step of the group, with whatever is in progress. *)
Lemma group_step_frontier f h os os' : group_step os os' → frontier_inv f h os →
  ∃ f', grows f f' ∧ frontier_inv f' h os' ∧ ∀ cur, position_ok f cur os → position_ok f' cur os'.
Proof.
  intros Hs Hf. pose proof Hf as [H1 H2 H3 H4 H5 H6].
  destruct Hs as [os p o Ho|os l1 l2 p o Ho|os l1 l2 p o Ho|os p c Hc|os p o|os p].
  - exists f. split; [by intros ?|]. split; [|done]. split; simpl; try done.
    intros p' o' [[<- <-]|[_ ?]]%lookup_insert_Some; [by apply H4|by apply H6].
  - exists f. split; [by intros ?|]. split; [|done]. split; simpl; try done.
    + intros p' o' Hin. apply H5, (committing_rest _ _ _ _ _ Ho). by right.
    + intros p' o' [[<- <-]|[_ ?]]%lookup_insert_Some; [apply H5, (committing_rest _ _ _ _ _ Ho); by left|by apply H6].
  - exists f. split; [by intros ?|]. split; [|done]. split; simpl; try done.
    intros p' o' Hin. apply H5, (committing_rest _ _ _ _ _ Ho). by right.
  - exists f. split; [by intros ?|]. split.
    + split; simpl; try done. intros p' o' [_ ?]%lookup_delete_Some. by apply H4.
    + intros cur Hp p' o'. simpl. intros [[<- <-]|[_ ?]]%lookup_insert_Some; [left; by apply H6|by apply Hp].
  - destruct (group_reset_frontier f h os p o Hf) as (f' & Hg & Ho & Hf'). exists f'. split; [done|]. split; [done|].
    intros cur Hp p' o'. simpl. intros [[<- <-]|[_ ?]]%lookup_insert_Some; [by left|].
    by apply (grows_position _ _ _ _ Hg Hp).
  - exists f. split; [by intros ?|]. split.
    + split; simpl; try done. intros p' o' [_ ?]%lookup_delete_Some. by apply H4.
    + intros cur Hp p' o'. simpl. intros [_ ?]%lookup_delete_Some. by apply Hp.
Qed.

Lemma moves_frontier f h os os' : moves os os' → frontier_inv f h os →
  ∃ f', grows f f' ∧ frontier_inv f' h os' ∧ ∀ cur, position_ok f cur os → position_ok f' cur os'.
Proof.
  intros Hm. revert f. induction Hm as [os|os1 os2 os3 Hs _ IH]; intros f Hf; [exists f; by split; [intros ?|]|].
  destruct (group_step_frontier _ _ _ _ Hs Hf) as (f1 & Hg1 & Hf1 & Hp1).
  destruct (IH f1 Hf1) as (f2 & Hg2 & Hf2 & Hp2). exists f2.
  split; [by intros p o ?%Hg1%Hg2|]. split; [done|]. intros cur Hp. by apply Hp2, Hp1.
Qed.

(** A delivery with nothing in progress, by a consumer that does not store. *)
Lemma delivers_inv f h os m os' : delivers plog false os m os' →
  frontier_inv f h os → position_ok f None os →
  frontier_inv f h os' ∧ position_ok f (Some m) os' ∧ current_ok f m.
Proof.
  intros (o & Ho & Hle & Hgap & Hm & ->) [H1 H2 H3 H4 H5 H6] Hp.
  destruct (Hp _ _ Ho) as [(z & Hz & Hf)|(? & ? & _)]; [|done]. split; [by split|]. split.
  - intros p' o'. simpl. intros [[<- <-]|[_ Hin]]%lookup_insert_Some; [right; by exists m|].
    destruct (Hp _ _ Hin) as [?|(? & ? & _)]; [by left|done].
  - split; [done|]. exists z. split; [done|]. intros o' Ho'. apply Hgap. lia.
Qed.

(** The message in progress has been handled: the frontier moves behind it. *)
Definition advance f (m : RDKafkaMessage) : gmap tpart Z :=
  <[message_part m := Z.max (default (msg_offset m + 1) (f !! message_part m)) (msg_offset m + 1)]> f.

Lemma advance_grows f m : grows f (advance f m).
Proof. apply grows_insert. intros o ->. simpl. lia. Qed.

Lemma advance_message f m : below (advance f m) (message_part m) (msg_offset m + 1).
Proof. unfold below, advance. rewrite lookup_insert_eq. eexists. split; [done|lia]. Qed.

Lemma advance_inv f h os m : frontier_inv f h os → position_ok f (Some m) os → current_ok f m →
  h (message_part m) (msg_offset m) (payload m, message_key m) →
  frontier_inv (advance f m) h os ∧ position_ok (advance f m) None os.
Proof.
  intros [H1 H2 H3 H4 H5 H6] Hp [Hm (z & Hz & Hgap)] Hh. pose proof (advance_grows f m) as Hg.
  split; [split; eauto|].
  - intros p y. unfold advance. intros [[<- _]|[_ ?]]%lookup_insert_Some; eauto.
  - intros p b y o x Hb. unfold advance. rewrite Hz. simpl. intros [[<- <-]|[_ ?]]%lookup_insert_Some Ho Hx; [|by eapply H3].
    destruct (decide (o < z)) as [|Hge]; [apply (H3 (message_part m) b z); [done..|lia|done]|].
    destruct (decide (o = msg_offset m)) as [->|Hne].
    + rewrite Hm in Hx. by injection Hx as <-.
    + by rewrite Hgap in Hx by lia.
  - intros p o Ho. left. destruct (Hp _ _ Ho) as [?|(m' & [= <-] & -> & ?)]; [by apply Hg|].
    eapply below_le; [done|apply advance_message].
Qed.

(** A delivery of a message that is handled by being delivered. *)
Lemma delivers_handled auto f h h' os m os' : delivers plog auto os m os' →
  frontier_inv f h os → position_ok f None os → (∀ p o x, plog p o = Some x → h p o x → h' p o x) →
  h' (message_part m) (msg_offset m) (payload m, message_key m) →
  frontier_inv (advance f m) h' os' ∧ position_ok (advance f m) None os'.
Proof.
  intros (o & Ho & Hle & Hgap & Hm & ->) Hf Hp Hh Hnew.
  destruct (delivers_inv f h os m (set_fetch (<[message_part m := msg_offset m + 1]> (fetch_position os)) os))
    as (Hf1 & Hp1 & Hc); [by exists o|done..|].
  destruct (advance_inv _ _ _ _ (frontier_mono _ _ _ _ Hh Hf1) Hp1 Hc Hnew) as [Hf2 Hp2].
  destruct auto; [|done]. split; [|done].
  by apply (frontier_store _ _ _ (message_part m) (msg_offset m + 1) Hf2), advance_message.
Qed.

(** What the frontier says of what is committed. *)
Lemma frontier_committed f h os p c : frontier_inv f h os → committed_at os !! p = Some c →
  ∃ b, origin os !! p = Some b ∧ ∀ o x, b ≤ o < c → plog p o = Some x → h p o x.
Proof.
  intros Hf (z & Hz & Hle)%(fr_committed _ _ _ Hf). destruct (fr_known _ _ _ Hf _ _ Hz) as [b Hb].
  exists b. split; [done|]. intros o x Ho. apply (fr_done _ _ _ Hf p b z); [done..|lia].
Qed.

End frontier.

(** ** A simulated input

    One partition with two messages, whose consumer is assigned it by its first
    poll; the world is the state of the offsets. *)

Record csim (auto : bool) := mk_csim { cs_offsets : offsets }.
Arguments mk_csim {auto} _.
Arguments cs_offsets {auto} _.

Definition csim_part : tpart := (0%nat, 0).
Definition csim_log (p : tpart) (o : Z) : option (option bytes * option bytes) :=
  if decide (p = csim_part) then if (0 <=? o) && (o <? 2) then Some (Some (str_bytes "v"), None) else None
  else None.

Lemma csim_log_part o : csim_log csim_part o
  = if (0 <=? o) && (o <? 2) then Some (Some (str_bytes "v"), None) else None.
Proof. done. Qed.

Definition csim_message (o : Z) : RDKafkaMessage :=
  {| msg_err := RD_KAFKA_RESP_ERR_NO_ERROR; msg_rkt := 0; msg_partition := 0; msg_payload := Some (str_bytes "v");
     msg_len := 1; msg_key := None; msg_key_len := 0; msg_offset := o; msg_private := None |}.

(** The partition is read from what is committed, and else from its beginning. *)
Definition csim_assign (os : offsets) : offsets :=
  match committed_at os !! csim_part with
  | Some c => set_fetch (<[csim_part := c]> (fetch_position os)) (set_stored (delete csim_part (stored os)) os)
  | None => set_fetch (<[csim_part := 0]> (fetch_position os))
              (set_origin (<[csim_part := Z.max 0 (default 0 (origin os !! csim_part))]> (origin os)) os)
  end.

Section csim.
Context {auto : bool}.

Definition csim_poll (s : csim auto) : option RDKafkaEvent * csim auto :=
  let os := cs_offsets s in
  match fetch_position os !! csim_part with
  | None => (None, mk_csim (csim_assign os))
  | Some o =>
      if o <? 2 then
        (Some (sim_event RD_KAFKA_EVENT_FETCH RD_KAFKA_RESP_ERR_NO_ERROR [csim_message (Z.max 0 o)]),
         mk_csim (set_fetch (<[csim_part := Z.max 0 o + 1]> (fetch_position os))
           (if auto then set_stored (<[csim_part := Z.max 0 o + 1]> (stored os)) os else os)))
      else (None, s)
  end.

Definition csim_store (rkt : nat) (p o : Z) (s : csim auto) : RDKafkaRespErr * csim auto :=
  let os := cs_offsets s in
  (RD_KAFKA_RESP_ERR_NO_ERROR, mk_csim (set_stored (<[(rkt, p) := o + 1]> (stored os)) os)).

Definition csim_commit (m : RDKafkaMessage) (mode : Z) (s : csim auto) : RDKafkaRespErr * csim auto :=
  let os := cs_offsets s in
  (RD_KAFKA_RESP_ERR_NO_ERROR, mk_csim (set_committing (committing os ++ [(message_part m, msg_offset m + 1)]) os)).

#[export] Instance csim_native : ClientNative (csim auto) := {
  clock _ := 0;
  rd_kafka_queue_poll _ _ := csim_poll;
  rd_kafka_oauthbearer_set_token _ _ _ s := (RD_KAFKA_RESP_ERR_NO_ERROR, [], s);
  rd_kafka_oauthbearer_set_token_failure _ s := s;
  rd_kafka_rebalance_protocol _ := None;
  rd_kafka_topic_new _ s := (None, s);
  rd_kafka_metadata _ _ _ s := (RD_KAFKA_RESP_ERR_NO_ERROR, None, s);
  rd_kafka_query_watermark_offsets _ _ lh _ s := (RD_KAFKA_RESP_ERR_NO_ERROR, lh, s);
  rd_kafka_clusterid _ s := (None, s);
  rd_kafka_list_groups _ _ s := (RD_KAFKA_RESP_ERR_NO_ERROR, None, s);
  rd_kafka_fatal_error s := (RD_KAFKA_RESP_ERR_NO_ERROR, [], s);
  rd_kafka_queue_new s := (None, s);
  rd_kafka_queue_get_consumer s := (None, s);
  rd_kafka_queue_get_main s := (None, s);
}.

#[export] Instance csim_context : ClientContext (csim auto) := {
  ENABLE_REFRESH_OAUTH_TOKEN := false;
  log _ _ _ s := s;
  stats_raw _ s := s;
  error _ _ s := s;
  generate_oauth_token _ s := (Err "none", s);
}.

#[export] Instance csim_consumer : ConsumerNative (csim auto) := {
  rd_kafka_err2str _ := "error";
  rd_kafka_subscribe _ s := (RD_KAFKA_RESP_ERR_NO_ERROR, s);
  rd_kafka_unsubscribe s := (RD_KAFKA_RESP_ERR_NO_ERROR, s);
  rd_kafka_assign _ s := (RD_KAFKA_RESP_ERR_NO_ERROR, s);
  rd_kafka_incremental_assign _ s := (None, s);
  rd_kafka_incremental_unassign _ s := (None, s);
  rd_kafka_seek _ _ _ _ s := (RD_KAFKA_RESP_ERR_NO_ERROR, s);
  rd_kafka_seek_partitions l _ s := (None, l, s);
  rd_kafka_commit _ _ s := (RD_KAFKA_RESP_ERR_NO_ERROR, s);
  rd_kafka_commit_message := csim_commit;
  rd_kafka_offset_store := csim_store;
  rd_kafka_offsets_store _ s := (RD_KAFKA_RESP_ERR_NO_ERROR, s);
  rd_kafka_subscription s := (RD_KAFKA_RESP_ERR_NO_ERROR, None, s);
  rd_kafka_assignment s := (RD_KAFKA_RESP_ERR_NO_ERROR, None, s);
  rd_kafka_assignment_lost _ := 0;
  rd_kafka_committed l _ s := (RD_KAFKA_RESP_ERR_NO_ERROR, l, s);
  rd_kafka_offsets_for_times l _ s := (RD_KAFKA_RESP_ERR_NO_ERROR, l, s);
  rd_kafka_position l s := (RD_KAFKA_RESP_ERR_NO_ERROR, l, s);
  rd_kafka_pause_partitions _ s := (RD_KAFKA_RESP_ERR_NO_ERROR, s);
  rd_kafka_resume_partitions _ s := (RD_KAFKA_RESP_ERR_NO_ERROR, s);
  rd_kafka_consumer_close_queue _ s := (None, s);
  rd_kafka_consumer_closed _ := 1;
  rd_kafka_queue_get_partition _ _ s := (None, s);
  rd_kafka_queue_forward _ _ s := s;
  rd_kafka_queue_cb_event_enable _ _ s := s;
  rd_kafka_poll_set_consumer s := s;
}.

End csim.

#[export, refine] Instance csim_spec conf : OffsetsSpec (csim (auto_offset_store conf)) conf csim_log := {|
  offsets_of := cs_offsets;
|}.
Proof.
  - intros q ms w o w' Hp. change (csim_poll w = (o, w')) in Hp. revert Hp. unfold csim_poll.
    destruct (fetch_position (cs_offsets w) !! csim_part) as [x|] eqn:E; [destruct (Z.ltb_spec x 2)|];
      intros [= <- <-].
    + exists (cs_offsets w). split; [done|]. exists x. split; [done|]. split; [simpl; lia|].
      change (message_part _) with csim_part. rewrite csim_log_part. split.
      * intros o' Ho. rewrite csim_log_part. case_match eqn:Eb; [|done]. simpl in Ho. lia.
      * split; [|done]. case_match eqn:Eb; [done|]. simpl in Eb. lia.
    + by exists (cs_offsets w).
    + exists (csim_assign (cs_offsets w)). split; [|done]. apply rtc_once. unfold csim_assign.
      destruct (committed_at (cs_offsets w) !! csim_part) as [c|] eqn:Ec; [by apply group_assign|apply group_reset].
  - intros ev w w'. unfold event_effect, handle_log_event. repeat case_match; by intros [= <-].
  - by intros l w e w' [= _ <-].
  - by intros l w e w' [= _ <-].
  - by intros l w e w' [= _ <-].
  - intros rkt p o w e w' Hs. change (csim_store rkt p o w = (e, w')) in Hs. by injection Hs as <- <-.
Defined.

#[export] Instance csim_commit_spec conf : CommitSpec (csim (auto_offset_store conf)) (O := csim_spec conf).
Proof. split. intros m w e w' Hs. change (csim_commit m 1 w = (e, w')) in Hs. by injection Hs as <- <-. Qed.

(** The state after a computation. *)
Definition run {W A} (m : comp W A) (w : W) : W := match m w with Done (_, w') => w' | Panic _ => w end.
