(* ===== verification/AtLeastOnce.v ===== *)
(** * At-least-once delivery

    [examples/at_least_once.rs]: the program that the crate gives for
    at-least-once delivery. It composes a [StreamConsumer] and a [FutureProducer]:
    a message is received, copied to every output topic, and only when all copies
    are acknowledged its offset is stored, to be committed in the background. The
    program is the step relation [astep] over the future producer's interleavings,
    the consumer's poll loop, what librdkafka does to the consumer's offsets in the
    background, and crashes at any point. The offsets of the consumer are
    librdkafka's ([OffsetsSpec]); whether they follow what was merely delivered is
    decided by the configuration that the program writes. *)

From stdpp Require Import strings gmap prelude.
From S2P Require Import Prelude ErrorCodes KafkaErrors Util TopicPartitionList Config Message ClusterInfo Client.
From S2P Require Import BaseConsumer BaseProducer FutureProducer Traits Acknowledged Offsets.

Local Open Scope Z_scope.

(** ** The consumer's configuration and context *)

(** The configuration of [create_consumer]. *)
Definition consumer_config (global : RDKafkaLogLevel) (brokers group_id : string) : ClientConfig :=
  set_log_level Level.Debug
    (config_set "enable.auto.offset.store" "false"
    (config_set "auto.commit.interval.ms" "5000"
    (config_set "enable.auto.commit" "true"
    (config_set "session.timeout.ms" "6000"
    (config_set "enable.partition.eof" "false"
    (config_set "bootstrap.servers" brokers
    (config_set "group.id" group_id
    (config_new global)))))))).

(** The configuration of [create_producer]. *)
Definition producer_config (global : RDKafkaLogLevel) (brokers : string) : ClientConfig :=
  config_set "queue.buffering.max.ms" "0" (config_set "bootstrap.servers" brokers (config_new global)).

(** [create_consumer] and [create_producer]. *)
Section create.
Context {W : Type} `{!ClientNative W} `{!ClientContext W} `{!ConsumerContext W} `{!ConsumerNative W}
  `{!GroupMetadataNative W} `{T : TplNative} `{C : ConfNative} `{!ClientNew W} `{!ProducerNew}.
Context (oc : bool) (default_context : nat) (wrap_context : nat → nat).

Definition create_consumer (global : RDKafkaLogLevel) (brokers group_id topic : string)
    (entries : list (string * string)) (context : nat) : comp W StreamConsumer :=
  r ← create_with_context (consumer_config global brokers group_id) entries context;
  consumer ← expect_ok "Consumer creation failed" r;
  r ← Consumer.subscribe (Consumer := stream_consumer oc) consumer [topic];
  _ ← expect_ok "Can't subscribe to specified topic" r;
  mret consumer.

Definition create_producer (global : RDKafkaLogLevel) (brokers : string) (entries : list (string * string))
    : comp W FutureProducer :=
  r ← create (FromClientConfig0 := with_default_context default_context
        (FromClientConfigAndContext0 := future_producer_config wrap_context))
      (producer_config global brokers) entries;
  expect_ok "Producer creation failed" r.

End create.

(** [LoggingConsumerContext]: the provided methods, and a callback that logs. *)
#[export] Instance LoggingConsumerContext {W} `{!ClientNative W} `{!ConsumerNative W} : ConsumerContext W := {
  rebalance := default_rebalance (λ _ w, w) (λ _ w, w);
  commit_callback _ _ w := w;
  main_queue_min_poll_interval := default_min_poll_interval;
}.

#[export] Instance logging_group {W} `{O : OffsetsSpec W} : GroupContext W.
Proof. split; [intros e l w l' w'; apply default_rebalance_moves|by intros]. Qed.

(** [futures::future::try_join_all] polled, given the results of the futures that
    have completed: it succeeds only when all of them have succeeded. *)
Class TryJoinAll := {
  try_join_all {E A : Type} : list (option (result E A)) → option (result E (list A));
  join_all_ok {E A : Type} (rs : list (option (result E A))) vs :
    try_join_all rs = Some (Ok vs) → rs = (λ v, Some (Ok v)) <$> vs;
}.

(** ** The program *)

Section main.
Context {Wp : Type} `{!ClientNative Wp} `{!ClientContext Wp} `{N : HeadersNative} `{!HeadersNativeSpec N}
  `{!MessageNative} `{!ProducerNative Wp} `{!Oneshot Wp OwnedDeliveryResult} `{!FutureSpec Wp} `{!AckSpec Wp}.
Context {Wc : Type} `{!ClientNative Wc} `{!ClientContext Wc} `{!ConsumerNative Wc} `{T : TplNative}.
Context `{J : TryJoinAll}.
Context (output_topics : list string) (queue : nat).

(** The closure that builds the record for an output topic. *)
Definition copy_record (m : RDKafkaMessage) (output_topic : string) : FutureRecord bytes bytes :=
  let record := future_to output_topic in
  let record := match payload m with Some p => future_payload p record | None => record end in
  match message_key m with Some k => future_key k record | None => record end.

(** Where the loop of [main] is: at [recv]; in the [try_join_all] of a message,
    with the topics whose futures have not been polled and the tasks of the others;
    after the panic of [expect]. *)
Inductive location :=
| Receiving
| Joining (m : RDKafkaMessage) (todo : list string) (ids : list nat)
| Panicked.

Record app := { producer : fsys Wp bytes bytes; consumer : Wc; loc : location }.

(** The result of a future that has completed. *)
Definition output (s : fsys Wp bytes bytes) (i : nat) : option OwnedDeliveryResult :=
  t ← tasks s !! i; match st_state t with Returned r => Some r | _ => None end.

(** What [main] does with what [recv] gives. *)
Definition received (r : EventPollResult (KafkaResult RDKafkaMessage)) : location :=
  match r with
  | Poll.Event (Ok m) => Joining m output_topics []
  | _ => Receiving
  end.

Context (conf : ClientConfig) (plog : tpart → Z → option (option bytes * option bytes)).
Context `{!OffsetsSpec Wc conf plog}.

Inductive astep : app → app → Prop :=
| astep_recv s fuel r w : loc s = Receiving → poll_queue fuel queue (After 0) (consumer s) = Done (Some r, w) →
    astep s {| producer := producer s; consumer := w; loc := received r |}
| astep_send s m t todo ids i task sh : loc s = Joining m (t :: todo) ids → tasks (producer s) !! i = None →
    send_start (copy_record m t) (After (duration_from_secs 1)) (shared (producer s)) = Done (task, sh) →
    astep s {| producer := {| shared := sh; tasks := <[i := task]> (tasks (producer s)) |};
               consumer := consumer s; loc := Joining m todo (ids ++ [i]) |}
| astep_resume s i t t' sh : tasks (producer s) !! i = Some t →
    send_resume t (shared (producer s)) = Done (t', sh) →
    astep s {| producer := {| shared := sh; tasks := <[i := t']> (tasks (producer s)) |};
               consumer := consumer s; loc := loc s |}
| astep_poll s q deadline sh : producer_turn q deadline (shared (producer s)) = Done (tt, sh) →
    astep s {| producer := {| shared := sh; tasks := tasks (producer s) |};
               consumer := consumer s; loc := loc s |}
| astep_joined s m ids ds r w : loc s = Joining m [] ids →
    try_join_all (output (producer s) <$> ids) = Some (Ok ds) →
    store_offset_from_message m (consumer s) = Done (r, w) →
    astep s {| producer := producer s; consumer := w; loc := Receiving |}
| astep_failed s m todo ids e : loc s = Joining m todo ids →
    try_join_all (output (producer s) <$> ids) = Some (Err e) →
    astep s {| producer := producer s; consumer := consumer s; loc := Panicked |}
| astep_forget s i t sh : (∀ m todo ids, loc s = Joining m todo ids → i ∉ ids) →
    tasks (producer s) !! i = Some t → send_cancel t (shared (producer s)) = Done (tt, sh) →
    astep s {| producer := {| shared := sh; tasks := delete i (tasks (producer s)) |};
               consumer := consumer s; loc := loc s |}
| astep_background s w : rtc group_step (offsets_of (consumer s)) (offsets_of w) →
    astep s {| producer := producer s; consumer := w; loc := loc s |}
| astep_restart s p w : future_initial p → acked (pw (shared (producer s))) ⊆ acked (pw (shared p)) →
    offsets_of w = offsets_at (committed_at (offsets_of (consumer s))) (origin (offsets_of (consumer s))) →
    astep s {| producer := p; consumer := w; loc := Receiving |}.

(** The first start of the program, in a group that may have committed offsets. *)
Definition app_initial (s : app) : Prop :=
  future_initial (producer s) ∧ loc s = Receiving
  ∧ ∃ c, offsets_of (consumer s) = offsets_at c c.

Definition app_reachable (s : app) : Prop := ∃ s0, app_initial s0 ∧ rtc astep s0 s.

(** ** Lemmas *)

Abbreviation moves := (rtc group_step).

Lemma copy_record_content m t : record_content (copy_record m t) = (t, payload m, message_key m).
Proof. unfold copy_record, record_content. by destruct (payload m), (message_key m). Qed.

(** ** The invariant *)

(** A message is on every output topic. *)
Definition copied (acks : list content) (p : tpart) (o : Z) (x : option bytes * option bytes) : Prop :=
  ∀ t, t ∈ output_topics → (t, x.1, x.2) ∈ acks.

(** The tasks of a join are the sends of the copies. *)
Definition joining_ok (s : fsys Wp bytes bytes) (asked : gmap nat (FutureRecord bytes bytes))
    (m : RDKafkaMessage) (todo : list string) (ids : list nat) : Prop :=
  ∃ begun, output_topics = begun ++ todo
    ∧ Forall2 (λ i t, is_Some (tasks s !! i) ∧ asked !! i = Some (copy_record m t)) ids begun.

(** Where the loop is and the offsets agree with the frontier [f]. *)
Definition loc_ok (f : gmap tpart Z) (asked : gmap nat (FutureRecord bytes bytes)) (pr : fsys Wp bytes bytes)
    (l : location) (os : offsets) : Prop :=
  match l with
  | Receiving => position_ok f None os
  | Joining m todo ids => position_ok f (Some m) os ∧ current_ok plog f m ∧ joining_ok pr asked m todo ids
  | Panicked => True
  end.

Definition inv_at (pr : fsys Wp bytes bytes) (l : location) (os : offsets) : Prop :=
  ∃ f asked, traced pr asked ∧ frontier_inv plog f (copied (acked (pw (shared pr)))) os ∧ loc_ok f asked pr l os.

Definition app_inv (s : app) : Prop := inv_at (producer s) (loc s) (offsets_of (consumer s)).

Lemma frontier_acks f acks acks' os : acks ⊆ acks' →
  frontier_inv plog f (copied acks) os → frontier_inv plog f (copied acks') os.
Proof. intros Ha. apply frontier_mono. intros p o x _ Hc t Ht. by apply Ha, Hc. Qed.

(** When the join succeeds every copy has been acknowledged. *)
Lemma joined_copied s asked m ids ds : traced s asked → joining_ok s asked m [] ids →
  try_join_all (output s <$> ids) = Some (Ok ds) →
  ∀ t, t ∈ output_topics → (t, payload m, message_key m) ∈ acked (pw (shared s)).
Proof.
  intros Ht (begun & Hout & Hf) Hj%join_all_ok t [k Hk]%list_elem_of_lookup. rewrite app_nil_r in Hout. subst begun.
  destruct (Forall2_lookup_r _ _ _ _ _ Hf Hk) as (i & Hi & [task Htask] & Ha).
  assert ((output s <$> ids) !! k = Some (output s i)) as Ho by (by rewrite list_lookup_fmap, Hi).
  rewrite Hj, list_lookup_fmap in Ho. destruct (ds !! k) as [d|]; [|done]. injection Ho as Ho.
  unfold output in Ho. rewrite Htask in Ho. simpl in Ho. destruct (st_state task) as [| | |r] eqn:Est; try done.
  injection Ho as <-. rewrite <- copy_record_content. by eapply traced_returned.
Qed.

(** A step of the producer that keeps the tasks of a join. *)
Lemma app_inv_producer s p' asked' f asked : traced p' asked' →
  acked (pw (shared (producer s))) ⊆ acked (pw (shared p')) →
  frontier_inv plog f (copied (acked (pw (shared (producer s))))) (offsets_of (consumer s)) →
  loc_ok f asked (producer s) (loc s) (offsets_of (consumer s)) →
  (∀ m todo ids i, loc s = Joining m todo ids → i ∈ ids →
     is_Some (tasks (producer s) !! i) → is_Some (tasks p' !! i) ∧ asked' !! i = asked !! i) →
  app_inv {| producer := p'; consumer := consumer s; loc := loc s |}.
Proof.
  intros Ht Ha Hf Hl Hk. exists f, asked'. split; [done|]. split; [by eapply frontier_acks|]. simpl.
  destruct (loc s) as [|m todo ids|]; [done| |done]. destruct Hl as (Hp & Hc & begun & Hb & Hids).
  split; [done|]. split; [done|]. exists begun. split; [done|].
  apply Forall2_same_length_lookup_2; [by eapply Forall2_length|]. intros k i t Hi Hbt.
  destruct (Forall2_lookup_lr _ _ _ _ _ _ Hids Hi Hbt) as [H1 H2].
  destruct (Hk m todo ids i eq_refl (list_elem_of_lookup_2 _ _ _ Hi) H1) as [? ->]. done.
Qed.

(** The group moves on. *)
Lemma inv_moves pr l os os' : moves os os' → inv_at pr l os → inv_at pr l os'.
Proof.
  intros Hm (f & asked & Ht & Hf & Hl). destruct (moves_frontier _ _ _ _ _ Hm Hf) as (f' & Hg & Hf' & Hp').
  exists f', asked. split; [done|]. split; [done|]. destruct l as [|m todo ids|]; [by apply Hp'| |done].
  destruct Hl as (Hp & Hc & Hj). split; [by apply Hp'|]. split; [by eapply grows_current|done].
Qed.

(** A message is received. *)
Lemma inv_delivers pr m os os' : delivers plog false os m os' →
  inv_at pr Receiving os → inv_at pr (Joining m output_topics []) os'.
Proof.
  intros Hd (f & asked & Ht & Hf & Hl). destruct (delivers_inv _ _ _ _ _ _ Hd Hf Hl) as (Hf' & Hp' & Hc).
  exists f, asked. split; [done|]. split; [done|]. split; [done|]. split; [done|]. exists []. split; [done|constructor].
Qed.

Lemma app_initial_inv s : app_initial s → app_inv s.
Proof.
  intros (Hf & Hl & c & Ho). exists c, ∅. split; [by apply traced_initial|]. rewrite Ho, Hl.
  split; [apply frontier_initial|apply position_restart].
Qed.

Context (Hconf : auto_offset_store conf = false).

Lemma recv_inv s fuel r w : app_inv s → loc s = Receiving →
  poll_queue fuel queue (After 0) (consumer s) = Done (Some r, w) →
  app_inv {| producer := producer s; consumer := w; loc := received r |}.
Proof.
  unfold app_inv. intros Hi Hr Hp%(poll_queue_moves conf plog). rewrite Hr in Hi.
  destruct r as [| |[m|e]]; simpl in *; [by eapply inv_moves..| |by eapply inv_moves].
  destruct Hp as (os & os' & H1 & H2 & H3). rewrite Hconf in H2.
  eapply inv_moves, inv_delivers, inv_moves, Hi; [exact H3|exact H2|exact H1].
Qed.

Lemma app_store_inv s m ids ds r w : app_inv s → loc s = Joining m [] ids →
  try_join_all (output (producer s) <$> ids) = Some (Ok ds) →
  store_offset_from_message m (consumer s) = Done (r, w) →
  app_inv {| producer := producer s; consumer := w; loc := Receiving |}.
Proof.
  intros (f & asked & Ht & Hf & Hl) Hloc Hj Hst. rewrite Hloc in Hl. simpl in Hl. destruct Hl as (Hp & Hc & Hjo).
  destruct (advance_inv _ _ _ _ _ Hf Hp Hc (joined_copied _ _ _ _ _ Ht Hjo Hj)) as [Hf' Hp'].
  apply comp_bind_Done in Hst as (e & w1 & He & [= _ <-]). unfold call in He.
  destruct (rd_kafka_offset_store _ _ _ _) as [e' w2] eqn:E. injection He as -> ->.
  apply off_store in E. exists (advance f m), asked. split; [done|]. simpl. rewrite E.
  destruct (resp_is_error e); [by split|]. split; [|done]. by apply frontier_store; [|apply advance_message].
Qed.

Lemma send_inv s m t todo ids i task sh : app_inv s → loc s = Joining m (t :: todo) ids →
  tasks (producer s) !! i = None →
  send_start (copy_record m t) (After (duration_from_secs 1)) (shared (producer s)) = Done (task, sh) →
  app_inv {| producer := {| shared := sh; tasks := <[i := task]> (tasks (producer s)) |};
             consumer := consumer s; loc := Joining m todo (ids ++ [i]) |}.
Proof.
  intros (f & asked & Ht & Hf & Hl) Hloc Hi Hs. rewrite Hloc in Hl. destruct Hl as (Hp & Hc & begun & Hb & Hids).
  exists f, (<[i := copy_record m t]> asked). split; [by eapply traced_spawn|].
  split; [eapply frontier_acks; [by eapply spawn_acked|done]|]. simpl. split; [done|]. split; [done|].
  exists (begun ++ [t]). split; [by rewrite Hb, <- app_assoc|]. apply Forall2_app.
  - eapply Forall2_impl; [exact Hids|]. intros k u [[x Hx] Ha].
    assert (i ≠ k) by (intros ->; congruence). simpl. rewrite !lookup_insert_ne by done. by split.
  - constructor; [|constructor]. simpl. rewrite !lookup_insert_eq. by split.
Qed.

Lemma app_step_inv s s' : app_inv s → astep s s' → app_inv s'.
Proof.
  intros Hi Hs. destruct Hs as [s fuel r w Hl Hp|s m t todo ids i task sh Hl Hn Hr|s i t t' sh Ht Hr|s q dl sh Hr
    |s m ids ds r w Hl Hj Hr|s m todo ids e Hl Hj|s i t sh Hk Ht Hr|s w Hm|s p w Hf Ha Ho].
  - by eapply recv_inv.
  - by eapply send_inv.
  - destruct Hi as (f & asked & Htr & Hf & Hl). destruct (traced_owed _ _ Htr) as [l Ho].
    assert (st_rx t' = st_rx t) as Hrx by (by eapply resume_rx).
    eapply (app_inv_producer s {| shared := sh; tasks := <[i := t']> (tasks (producer s)) |} asked f asked);
      [|by apply (resume_acked _ _ _ _ _ Ho Hr)|done..|].
    + eapply traced_step; [done|by eapply fstep_resume|]. intros j u.
      simpl. intros [[<- <-]|[_ ?]]%lookup_insert_Some; eauto.
    + intros m todo ids j _ _ Hj. split; [|done]. simpl. apply lookup_insert_is_Some. destruct (decide (i = j)); auto.
  - destruct Hi as (f & asked & Htr & Hf & Hl). destruct (traced_owed _ _ Htr) as [l Ho].
    eapply (app_inv_producer s {| shared := sh; tasks := tasks (producer s) |} asked f asked);
      [|by apply (turn_acked _ _ _ _ _ Ho Hr)|done..|done].
    eapply traced_step; [done|by eapply fstep_poll|]. intros j u Hu. by exists u.
  - by eapply app_store_inv.
  - destruct Hi as (f & asked & Htr & Hf & _). by exists f, asked.
  - destruct Hi as (f & asked & Htr & Hf & Hl).
    eapply (app_inv_producer s {| shared := sh; tasks := delete i (tasks (producer s)) |} asked f asked);
      [|by apply (cancel_acked _ _ _ Hr)|done..|].
    + eapply traced_step; [done|by eapply fstep_cancel|]. intros j u. simpl. intros [_ Hu]%lookup_delete_Some. by exists u.
    + intros m todo ids j Hloc Hj Hs. split; [|done]. simpl. rewrite lookup_delete_ne; [done|].
      intros ->. by apply (Hk m todo ids).
  - by eapply inv_moves.
  - destruct Hi as (f & asked & Htr & Hfr & _). exists f, ∅. split; [by apply traced_initial|]. simpl.
    rewrite Ho. split; [|apply position_restart]. by eapply frontier_restart, frontier_acks.
Qed.

Lemma app_reachable_inv s : app_reachable s → app_inv s.
Proof.
  intros (s0 & Hinv%app_initial_inv & Hs). induction Hs as [|x y z Hstep _ IH]; [done|]. by apply IH, (app_step_inv x).
Qed.

End main.
Arguments app Wp {N} Wc.

(** The program stores offsets itself. *)
Lemma consumer_config_store global brokers group_id :
  auto_offset_store (consumer_config global brokers group_id) = false.
Proof. done. Qed.

(** ** The property *)

Section at_least_once.
Context {Wp : Type} `{!ClientNative Wp} `{!ClientContext Wp} `{N : HeadersNative} `{!HeadersNativeSpec N}
  `{!MessageNative} `{!ProducerNative Wp} `{!Oneshot Wp OwnedDeliveryResult} `{!FutureSpec Wp} `{!AckSpec Wp}.
Context {Wc : Type} `{!ClientNative Wc} `{!ClientContext Wc} `{!ConsumerNative Wc} `{T : TplNative}.
Context `{J : TryJoinAll} (global : RDKafkaLogLevel) (brokers group_id : string).
Context (plog : tpart → Z → option (option bytes * option bytes)).
Context `{!OffsetsSpec Wc (consumer_config global brokers group_id) plog}.

(** C1: messages are not lost. However receiving, sending, delivery reports,
    commits, rebalances, resets and crashes interleave, every message of the input
    below a committed offset, from where the group's reading of the partition
    originates, has been acknowledged by the cluster on every output topic with its
    payload and its key. The origin is what the group had committed before the
    program first ran, or the highest offset to which the reset policy has sent it
    since, because there was no committed offset or it was out of range: the program
    leaves [auto.offset.reset] at its default, so that messages that arrive before the
    first commit can be skipped. *)
Theorem at_least_once output_topics queue (s : app Wp Wc) p committed_offset :
  app_reachable output_topics queue _ plog s →
  committed_at (offsets_of (consumer s)) !! p = Some committed_offset →
  ∃ b, origin (offsets_of (consumer s)) !! p = Some b
    ∧ ∀ o x t, b ≤ o < committed_offset → plog p o = Some x → t ∈ output_topics →
        (t, x.1, x.2) ∈ acked (pw (shared (producer s))).
Proof.
  intros (f & asked & _ & Hf & _)%(app_reachable_inv _ _ _ _ (consumer_config_store _ _ _)) Hc.
  destruct (frontier_committed _ _ _ _ _ _ Hf Hc) as (b & Hb & Hd). exists b. split; [done|].
  intros o x t Ho Hx. by apply (Hd o x).
Qed.

End at_least_once.

(** ** A simulated run *)

Fixpoint join_reference {E A} (rs : list (option (result E A))) : option (result E (list A)) :=
  match rs with
  | [] => Some (Ok [])
  | Some (Err e) :: _ => Some (Err e)
  | Some (Ok v) :: rs => match join_reference rs with Some (Ok vs) => Some (Ok (v :: vs)) | r => r end
  | None :: rs => match join_reference rs with Some (Err e) => Some (Err e) | _ => None end
  end.

#[export, refine] Instance reference_join : TryJoinAll := {| try_join_all E A := join_reference |}.
Proof.
  intros E A rs. induction rs as [|[[v|e]|] rs IH]; intros vs; simpl; [by intros [= <-]| |done|].
  - destruct (join_reference rs) as [[vs'|e]|]; try done. intros [= <-]. rewrite fmap_cons. f_equal. by apply IH.
  - by destruct (join_reference rs) as [[]|].
Defined.

Abbreviation csim_config := (consumer_config Level.Info "localhost" "group").

#[export] Instance copy_spec : OffsetsSpec (csim false) csim_config csim_log := csim_spec csim_config.

(** One message received, copied to one topic, stored and committed. *)
Definition c_fresh : csim false := mk_csim (offsets_at ∅ ∅).
Definition c_assigned : csim false := run (poll_queue 3 0 (After 0)) c_fresh.
Definition c_received : csim false := run (poll_queue 3 0 (After 0)) c_assigned.
Definition c_stored : csim false := run (store_offset_from_message (csim_message 0)) c_received.
Definition c_committed : csim false := mk_csim (set_committed csim_part 1 (cs_offsets c_stored)).

Definition p_task (st : send_state bytes bytes) : send_task bytes bytes :=
  {| st_start := 0; st_timeout := After (duration_from_secs 1); st_rx := 0; st_state := st |}.
Definition p_record : FutureRecord bytes bytes := copy_record (csim_message 0) "out".
Definition p_spawned : send_task bytes bytes := p_task (Sending (into_base_record p_record (mkBox 0%nat))).
Definition p_idle : fsys ksim bytes bytes := {| shared := ksim_at 0; tasks := ∅ |}.
Definition p_started : pworld ksim (Box nat) := run (send_start p_record (After (duration_from_secs 1))) (ksim_at 0).
Definition p_waiting : pworld ksim (Box nat) := run (send_resume p_spawned) p_started.
Definition p_served : pworld ksim (Box nat) := run (producer_turn 0 (At 1000)) p_waiting.
Definition p_with (sh : pworld ksim (Box nat)) (st : send_state bytes bytes) : fsys ksim bytes bytes :=
  {| shared := sh; tasks := {[ 0%nat := p_task st ]} |}.

Definition a_final : app ksim (csim false) :=
  {| producer := p_with p_served (Returned (Ok k_delivery)); consumer := c_committed; loc := Receiving |}.

Definition a_interrupted : app ksim (csim false) :=
  {| producer := p_idle; consumer := c_received; loc := Joining (csim_message 0) ["out"] [] |}.

Abbreviation c_step := (astep ["out"] 0 csim_config csim_log).

Lemma c_recv c c' r : poll_queue 3 0 (After 0) c = Done (Some r, c') →
  c_step {| producer := p_idle; consumer := c; loc := Receiving |}
         {| producer := p_idle; consumer := c'; loc := received ["out"] r |}.
Proof. intros Hr. by eapply (astep_recv _ _ _ _ {| producer := p_idle; consumer := c; loc := Receiving |}). Qed.

Lemma p_resume sh sh' (c : csim false) l st st' : send_resume (p_task st) sh = Done (p_task st', sh') →
  c_step {| producer := p_with sh st; consumer := c; loc := l |}
         {| producer := p_with sh' st'; consumer := c; loc := l |}.
Proof.
  intros Hr. pose proof (astep_resume ["out"] 0 csim_config csim_log
    {| producer := p_with sh st; consumer := c; loc := l |} 0 _ _ _ (lookup_singleton_eq _ _) Hr) as Hs.
  simpl in Hs. by rewrite insert_singleton_eq in Hs.
Qed.

Lemma p_poll sh sh' (c : csim false) l st : producer_turn 0 (At 1000) sh = Done (tt, sh') →
  c_step {| producer := p_with sh st; consumer := c; loc := l |}
         {| producer := p_with sh' st; consumer := c; loc := l |}.
Proof.
  intros Hr. exact (astep_poll ["out"] 0 csim_config csim_log
    {| producer := p_with sh st; consumer := c; loc := l |} 0 (At 1000) sh' Hr).
Qed.

Lemma p_idle_initial : future_initial p_idle.
Proof. split; [|done]. split; [|done]. split; [constructor|]. intros p d []%elem_of_nil. Qed.

(** The program has started and received the first message. *)
Lemma a_interrupted_reachable : app_reachable ["out"] 0 csim_config csim_log a_interrupted.
Proof.
  exists {| producer := p_idle; consumer := c_fresh; loc := Receiving |}. split.
  { split; [exact p_idle_initial|]. split; [done|]. by exists ∅. }
  eapply rtc_l; [apply (c_recv c_fresh c_assigned Poll.None); vm_compute; reflexivity|].
  apply rtc_once. apply (c_recv c_assigned c_received (Poll.Event (Ok (csim_message 0)))); vm_compute; reflexivity.
Qed.

Lemma a_final_reachable : app_reachable ["out"] 0 csim_config csim_log a_final.
Proof.
  set (m := csim_message 0). destruct a_interrupted_reachable as (s0 & Hs0 & Hrtc). exists s0. split; [done|].
  etransitivity; [exact Hrtc|].
  assert (send_start p_record (After (duration_from_secs 1)) (ksim_at 0) = Done (p_spawned, p_started)) as Hstart
    by (vm_compute; reflexivity).
  eapply rtc_l; [exact (astep_send ["out"] 0 csim_config csim_log
    {| producer := p_idle; consumer := c_received; loc := Joining m ["out"] [] |} m "out" [] [] 0 p_spawned p_started
    eq_refl eq_refl Hstart)|].
  eapply rtc_l; [apply (p_resume p_started p_waiting _ _ _ Waiting); vm_compute; reflexivity|].
  eapply rtc_l; [apply (p_poll p_waiting p_served); vm_compute; reflexivity|].
  eapply rtc_l; [apply (p_resume p_served p_served _ _ _ (Returned (Ok k_delivery))); vm_compute; reflexivity|].
  assert (store_offset_from_message m c_received = Done (Ok tt, c_stored)) as Hstore by (vm_compute; reflexivity).
  eapply rtc_l; [exact (astep_joined ["out"] 0 csim_config csim_log
    {| producer := p_with p_served (Returned (Ok k_delivery)); consumer := c_received; loc := Joining m [] [0%nat] |}
    m [0%nat] [k_delivery] (Ok tt) c_stored eq_refl eq_refl Hstore)|].
  apply rtc_once. apply (astep_background ["out"] 0 csim_config csim_log
    {| producer := p_with p_served (Returned (Ok k_delivery)); consumer := c_stored; loc := Receiving |} c_committed).
  apply rtc_once. exact (group_commit (cs_offsets c_stored) csim_part 1 eq_refl).
Qed.

Lemma at_least_once_witness : ("out", Some (str_bytes "v"), None) ∈ acked (pw (shared (producer a_final))).
Proof.
  destruct (at_least_once Level.Info "localhost" "group" csim_log ["out"] 0 a_final csim_part 1
    a_final_reachable eq_refl) as (b & Hb & Hd).
  assert (Some 0 = Some b) as [= <-] by exact Hb.
  apply (Hd 0 (Some (str_bytes "v"), None) "out"); [lia|reflexivity|left].
Defined.

(** What the origin leaves out. The message at 0 is received, and the program is killed
    before its copy is sent; nothing is committed, so that the group is reset, and with
    the default policy to the end of the partition, which is 1 at that time. The message
    has been delivered, is on no output topic, and will not be delivered again. *)
Definition c_reset : csim false :=
  mk_csim (set_fetch {[ csim_part := 1 ]} (set_origin {[ csim_part := 1 ]} (offsets_at ∅ {[ csim_part := 0 ]}))).
Definition a_skipped : app ksim (csim false) := {| producer := p_idle; consumer := c_reset; loc := Receiving |}.


Theorem at_least_once_reset_skips :
  app_reachable ["out"] 0 csim_config csim_log a_interrupted
  ∧ rtc c_step a_interrupted a_skipped
  ∧ (∃ m todo ids, loc a_interrupted = Joining m todo ids ∧ msg_offset m = 0 ∧ is_Some (csim_log (message_part m) 0))
  ∧ fetch_position (offsets_of (consumer a_skipped)) !! csim_part = Some 1
  ∧ acked (pw (shared (producer a_skipped))) = [].
Proof.
  split; [exact a_interrupted_reachable|]. split; [|split; [by exists (csim_message 0), ["out"], []|done]].
  eapply rtc_l.
  { exact (astep_restart ["out"] 0 csim_config csim_log a_interrupted p_idle
      (mk_csim (offsets_at ∅ {[ csim_part := 0 ]})) p_idle_initial (reflexivity _) eq_refl). }
  apply rtc_once. apply (astep_background ["out"] 0 csim_config csim_log
    {| producer := p_idle; consumer := mk_csim (offsets_at ∅ {[ csim_part := 0 ]}); loc := Receiving |} c_reset).
  apply rtc_once. exact (group_reset (offsets_at ∅ {[ csim_part := 0 ]}) csim_part 1).
Qed.
