(* ===== verification/Admin.v ===== *)
(** * Admin requests and responses

    [src/admin.rs] without the client: the options and the specifications of a
    request and their conversion to native objects, with the error buffer that
    the conversion shares ([comp ErrBuf]); and the decoding of the events that
    answer a request. The objects of librdkafka and the calls that build them are
    a parameter ([AdminNative]). The client itself is in [AdminClient]. *)

From stdpp Require Import strings gmap prelude.
From S2P Require Import Prelude ErrorCodes KafkaErrors Util TopicPartitionList.

Local Open Scope Z_scope.

(** ** Native enumerations and objects *)

Inductive RDKafkaResourceType : Set :=
| RD_KAFKA_RESOURCE_UNKNOWN
| RD_KAFKA_RESOURCE_ANY
| RD_KAFKA_RESOURCE_TOPIC
| RD_KAFKA_RESOURCE_GROUP
| RD_KAFKA_RESOURCE_BROKER
| RD_KAFKA_RESOURCE_TRANSACTIONAL_ID
| RD_KAFKA_RESOURCE__CNT.

Inductive RDKafkaConfigSource : Set :=
| RD_KAFKA_CONFIG_SOURCE_UNKNOWN_CONFIG
| RD_KAFKA_CONFIG_SOURCE_DYNAMIC_TOPIC_CONFIG
| RD_KAFKA_CONFIG_SOURCE_DYNAMIC_BROKER_CONFIG
| RD_KAFKA_CONFIG_SOURCE_DYNAMIC_DEFAULT_BROKER_CONFIG
| RD_KAFKA_CONFIG_SOURCE_STATIC_BROKER_CONFIG
| RD_KAFKA_CONFIG_SOURCE_DEFAULT_CONFIG
| RD_KAFKA_CONFIG_SOURCE_GROUP_CONFIG
| RD_KAFKA_CONFIG_SOURCE__CNT.

(** Their derived [Debug]. *)
Definition resource_type_debug (t : RDKafkaResourceType) : string :=
  match t with
  | RD_KAFKA_RESOURCE_UNKNOWN => "RD_KAFKA_RESOURCE_UNKNOWN"
  | RD_KAFKA_RESOURCE_ANY => "RD_KAFKA_RESOURCE_ANY"
  | RD_KAFKA_RESOURCE_TOPIC => "RD_KAFKA_RESOURCE_TOPIC"
  | RD_KAFKA_RESOURCE_GROUP => "RD_KAFKA_RESOURCE_GROUP"
  | RD_KAFKA_RESOURCE_BROKER => "RD_KAFKA_RESOURCE_BROKER"
  | RD_KAFKA_RESOURCE_TRANSACTIONAL_ID => "RD_KAFKA_RESOURCE_TRANSACTIONAL_ID"
  | RD_KAFKA_RESOURCE__CNT => "RD_KAFKA_RESOURCE__CNT"
  end.

Definition config_source_debug (s : RDKafkaConfigSource) : string :=
  match s with
  | RD_KAFKA_CONFIG_SOURCE_UNKNOWN_CONFIG => "RD_KAFKA_CONFIG_SOURCE_UNKNOWN_CONFIG"
  | RD_KAFKA_CONFIG_SOURCE_DYNAMIC_TOPIC_CONFIG => "RD_KAFKA_CONFIG_SOURCE_DYNAMIC_TOPIC_CONFIG"
  | RD_KAFKA_CONFIG_SOURCE_DYNAMIC_BROKER_CONFIG => "RD_KAFKA_CONFIG_SOURCE_DYNAMIC_BROKER_CONFIG"
  | RD_KAFKA_CONFIG_SOURCE_DYNAMIC_DEFAULT_BROKER_CONFIG => "RD_KAFKA_CONFIG_SOURCE_DYNAMIC_DEFAULT_BROKER_CONFIG"
  | RD_KAFKA_CONFIG_SOURCE_STATIC_BROKER_CONFIG => "RD_KAFKA_CONFIG_SOURCE_STATIC_BROKER_CONFIG"
  | RD_KAFKA_CONFIG_SOURCE_DEFAULT_CONFIG => "RD_KAFKA_CONFIG_SOURCE_DEFAULT_CONFIG"
  | RD_KAFKA_CONFIG_SOURCE_GROUP_CONFIG => "RD_KAFKA_CONFIG_SOURCE_GROUP_CONFIG"
  | RD_KAFKA_CONFIG_SOURCE__CNT => "RD_KAFKA_CONFIG_SOURCE__CNT"
  end.

(** The building calls: objects are values that a setter replaces. A call that is
    given the error buffer may leave a message in it. A call may abort the
    process (an assertion of librdkafka), which is [Panic]. *)
Class AdminNative := {
  admin_err2str : RDKafkaRespErr → string;
  RDKafkaNewTopic : Type;
  rd_kafka_NewTopic_new : string → Z → Z → option RDKafkaNewTopic * option bytes;
  rd_kafka_NewTopic_set_replica_assignment :
    RDKafkaNewTopic → Z → list Z → outcome (RDKafkaRespErr * option bytes * RDKafkaNewTopic);
  rd_kafka_NewTopic_set_config : RDKafkaNewTopic → string → string → RDKafkaRespErr * RDKafkaNewTopic;
  RDKafkaNewPartitions : Type;
  rd_kafka_NewPartitions_new : string → Z → option RDKafkaNewPartitions * option bytes;
  rd_kafka_NewPartitions_set_replica_assignment :
    RDKafkaNewPartitions → Z → list Z → outcome (RDKafkaRespErr * option bytes * RDKafkaNewPartitions);
  RDKafkaConfigRequest : Type;
  rd_kafka_ConfigResource_new : RDKafkaResourceType → string → option RDKafkaConfigRequest;
  rd_kafka_ConfigResource_set_config :
    RDKafkaConfigRequest → string → string → RDKafkaRespErr * RDKafkaConfigRequest;
  RDKafkaAdminOptions : Type;
  rd_kafka_AdminOptions_new : option RDKafkaAdminOptions;
  rd_kafka_AdminOptions_set_request_timeout :
    RDKafkaAdminOptions → Z → RDKafkaRespErr * option bytes * RDKafkaAdminOptions;
  rd_kafka_AdminOptions_set_operation_timeout :
    RDKafkaAdminOptions → Z → RDKafkaRespErr * option bytes * RDKafkaAdminOptions;
  rd_kafka_AdminOptions_set_validate_only :
    RDKafkaAdminOptions → Z → RDKafkaRespErr * option bytes * RDKafkaAdminOptions;
  rd_kafka_AdminOptions_set_broker :
    RDKafkaAdminOptions → Z → RDKafkaRespErr * option bytes * RDKafkaAdminOptions;
  rd_kafka_AdminOptions_set_opaque : RDKafkaAdminOptions → option nat → RDKafkaAdminOptions;
}.

(** What a response shows of a resource: its type and name, the error of the
    resource, and its entries. *)
Record RDKafkaConfigEntry := {
  ce_name : string;
  ce_value : option string;
  ce_source : RDKafkaConfigSource;
  ce_is_read_only : Z;
  ce_is_default : Z;
  ce_is_sensitive : Z;
}.

Record RDKafkaConfigResource := {
  cr_type : RDKafkaResourceType;
  cr_name : string;
  cr_error : RDKafkaRespErr;
  cr_configs : list RDKafkaConfigEntry;
}.

(** The event that answers a request: the result has the type of the request it
    answers; the accessor of another type gives a null pointer. *)
Inductive admin_result :=
| CreateTopicsResult (topics : list (string * RDKafkaRespErr))
| DeleteTopicsResult (topics : list (string * RDKafkaRespErr))
| DeleteGroupsResult (groups : list (string * option rd_kafka_error_t))
| CreatePartitionsResult (topics : list (string * RDKafkaRespErr))
| DeleteRecordsResult (offsets : tpl)
| DescribeConfigsResult (resources : list RDKafkaConfigResource)
| AlterConfigsResult (resources : list RDKafkaConfigResource).

Record NativeEvent := {
  ne_type : Z;
  ne_error : RDKafkaRespErr;
  ne_opaque : option nat;
  ne_result : admin_result;
}.

(** [NativeEvent::check_error]. *)
Definition check_error (event : NativeEvent) : KafkaResult unit :=
  if resp_is_error (ne_error event) then Err (AdminOp (code_of (ne_error event))) else Ok tt.

(** ** Options and specifications *)

Record AdminOptions := {
  ao_request_timeout : option Timeout;
  ao_operation_timeout : option Timeout;
  ao_validate_only : bool;
  ao_broker_id : option Z;
}.

(** [AdminOptions::new] and the setters. *)
Definition options_new : AdminOptions :=
  {| ao_request_timeout := None; ao_operation_timeout := None; ao_validate_only := false; ao_broker_id := None |}.
Definition request_timeout (t : option Timeout) (o : AdminOptions) : AdminOptions :=
  {| ao_request_timeout := t; ao_operation_timeout := ao_operation_timeout o;
     ao_validate_only := ao_validate_only o; ao_broker_id := ao_broker_id o |}.
Definition operation_timeout (t : option Timeout) (o : AdminOptions) : AdminOptions :=
  {| ao_request_timeout := ao_request_timeout o; ao_operation_timeout := t;
     ao_validate_only := ao_validate_only o; ao_broker_id := ao_broker_id o |}.
Definition validate_only (v : bool) (o : AdminOptions) : AdminOptions :=
  {| ao_request_timeout := ao_request_timeout o; ao_operation_timeout := ao_operation_timeout o;
     ao_validate_only := v; ao_broker_id := ao_broker_id o |}.
Definition broker_id (b : option Z) (o : AdminOptions) : AdminOptions :=
  {| ao_request_timeout := ao_request_timeout o; ao_operation_timeout := ao_operation_timeout o;
     ao_validate_only := ao_validate_only o; ao_broker_id := b |}.

(** [enum TopicReplication] and [struct NewTopic]. *)
Inductive TopicReplication :=
| Fixed (n : Z)
| Variable_ (partitions : list (list Z)).

Record NewTopic := {
  nt_name : string;
  nt_num_partitions : Z;
  nt_replication : TopicReplication;
  nt_config : list (string * string);
}.

Definition new_topic (name : string) (num_partitions : Z) (replication : TopicReplication) : NewTopic :=
  {| nt_name := name; nt_num_partitions := num_partitions; nt_replication := replication; nt_config := [] |}.
Definition new_topic_set (key value : string) (t : NewTopic) : NewTopic :=
  {| nt_name := nt_name t; nt_num_partitions := nt_num_partitions t; nt_replication := nt_replication t;
     nt_config := nt_config t ++ [(key, value)] |}.

(** [struct NewPartitions]. *)
Record NewPartitions := {
  np_topic_name : string;
  np_new_partition_count : nat;
  np_assignment : option (list (list Z));
}.

Definition new_partitions (topic_name : string) (new_partition_count : nat) : NewPartitions :=
  {| np_topic_name := topic_name; np_new_partition_count := new_partition_count; np_assignment := None |}.
Definition new_partitions_assign (a : list (list Z)) (p : NewPartitions) : NewPartitions :=
  {| np_topic_name := np_topic_name p; np_new_partition_count := np_new_partition_count p;
     np_assignment := Some a |}.

(** [enum ResourceSpecifier] (and [OwnedResourceSpecifier]) and [struct AlterConfig]. *)
Module Spec.
Inductive ResourceSpecifier :=
| Topic (name : string)
| Group (name : string)
| Broker (id : Z).
End Spec.
Abbreviation ResourceSpecifier := Spec.ResourceSpecifier.
Abbreviation OwnedResourceSpecifier := Spec.ResourceSpecifier.

Record AlterConfig := { ac_specifier : ResourceSpecifier; ac_entries : gmap string string }.

Definition alter_config_new (s : ResourceSpecifier) : AlterConfig :=
  {| ac_specifier := s; ac_entries := ∅ |}.
Definition alter_config_set (key value : string) (c : AlterConfig) : AlterConfig :=
  {| ac_specifier := ac_specifier c; ac_entries := <[key := value]> (ac_entries c) |}.

(** ** Conversion to native objects *)

Section to_native.
Context `{N : AdminNative}.

(** The buffer after a call. *)
Definition written (msg : option bytes) (err_buf : ErrBuf) : ErrBuf :=
  match msg with Some m => errbuf_write m err_buf | None => err_buf end.

(** [CString::new(s)?]. *)
Definition cstring (s : string) : comp ErrBuf (KafkaResult string) :=
  mret (map_err Nul (CString_new s)).

(** [check_rdkafka_invalid_arg]. *)
Definition check_rdkafka_invalid_arg (res : RDKafkaRespErr) : comp ErrBuf (KafkaResult unit) :=
  match code_of res with
  | Code.NoError => mret (Ok tt)
  | Code.InvalidArgument =>
      err_buf ← get;
      n ← lift (errbuf_len err_buf);
      msg ← (if decide (n = 0%nat) then mret "invalid argument" else lift (errbuf_to_string err_buf));
      mret (Err (AdminOpCreation msg))
  | res => mret (Err (AdminOpCreation
      ("setting admin options returned unexpected error code " ++ error_code_display admin_err2str res)))
  end.

(** A setter that is given the error buffer, and the check of its result. *)
Definition checked {A} (call : RDKafkaRespErr * option bytes * A) : comp ErrBuf (KafkaResult A) :=
  let '(res, msg, a) := call in
  _ ← modify (written msg);
  _ ←? check_rdkafka_invalid_arg res;
  mret (Ok a).

(** The part of [AdminOptions::to_native] before the channel is created. *)
Definition set_options (o : AdminOptions) : comp ErrBuf (KafkaResult RDKafkaAdminOptions) :=
  native_opts ← lift (expect "called `Option::unwrap()` on a `None` value" rd_kafka_AdminOptions_new);
  native_opts ←?
    match ao_request_timeout o with
    | Some timeout => checked (rd_kafka_AdminOptions_set_request_timeout native_opts (as_millis timeout))
    | None => mret (Ok native_opts)
    end;
  native_opts ←?
    match ao_operation_timeout o with
    | Some timeout => checked (rd_kafka_AdminOptions_set_operation_timeout native_opts (as_millis timeout))
    | None => mret (Ok native_opts)
    end;
  native_opts ←?
    (if ao_validate_only o then checked (rd_kafka_AdminOptions_set_validate_only native_opts 1)
     else mret (Ok native_opts));
  match ao_broker_id o with
  | Some broker_id => checked (rd_kafka_AdminOptions_set_broker native_opts broker_id)
  | None => mret (Ok native_opts)
  end.

(** The loops over a replica assignment, from the partition [i] on. *)
Fixpoint set_assignment {A} (set : A → Z → list Z → outcome (RDKafkaRespErr * option bytes * A))
    (i : nat) (assignment : list (list Z)) (a : A) : comp ErrBuf (KafkaResult A) :=
  match assignment with
  | [] => mret (Ok a)
  | broker_ids :: assignment =>
      res ← lift (set a (as_i32 (Z.of_nat i)) broker_ids);
      a ←? checked res;
      set_assignment set (S i) assignment a
  end.

(** The loops over configuration entries; the calls are not given the buffer. *)
Fixpoint set_config_entries {A} (set : A → string → string → RDKafkaRespErr * A)
    (entries : list (string * string)) (a : A) : comp ErrBuf (KafkaResult A) :=
  match entries with
  | [] => mret (Ok a)
  | (key, val) :: entries =>
      key_c ←? cstring key;
      val_c ←? cstring val;
      let '(res, a) := set a key_c val_c in
      _ ←? check_rdkafka_invalid_arg res;
      set_config_entries set entries a
  end.

Definition format_nat (n : nat) : string := format_int (Z.of_nat n).

(** [NewTopic::to_native]. *)
Definition new_topic_to_native (t : NewTopic) : comp ErrBuf (KafkaResult RDKafkaNewTopic) :=
  name ←? cstring (nt_name t);
  repl ←?
    match nt_replication t with
    | Fixed n => mret (Ok n)
    | Variable_ partitions =>
        if decide (as_i32 (Z.of_nat (length partitions)) ≠ nt_num_partitions t) then
          mret (Err (AdminOpCreation
            ("replication configuration for topic '" ++ nt_name t ++ "' assigns "
             ++ format_nat (length partitions)
             ++ " partition(s), which does not match the specified number of partitions ("
             ++ format_int (nt_num_partitions t) ++ ")")))
        else mret (Ok (-1))
    end;
  let '(topic, msg) := rd_kafka_NewTopic_new name (nt_num_partitions t) repl in
  _ ← modify (written msg);
  match topic with
  | None => err_buf ← get; m ← lift (errbuf_to_string err_buf); mret (Err (AdminOpCreation m))
  | Some topic =>
      topic ←?
        match nt_replication t with
        | Variable_ assignment => set_assignment rd_kafka_NewTopic_set_replica_assignment 0 assignment topic
        | Fixed _ => mret (Ok topic)
        end;
      set_config_entries rd_kafka_NewTopic_set_config (nt_config t) topic
  end.

(** [NewPartitions::to_native]. *)
Definition new_partitions_to_native (p : NewPartitions) : comp ErrBuf (KafkaResult RDKafkaNewPartitions) :=
  name ←? cstring (np_topic_name p);
  _ ←?
    match np_assignment p with
    | Some assignment =>
        if decide (np_new_partition_count p < length assignment)%nat then
          mret (Err (AdminOpCreation
            ("partition assignment for topic '" ++ np_topic_name p ++ "' assigns "
             ++ format_nat (length assignment)
             ++ " partition(s), which is more than the requested total number of partitions ("
             ++ format_nat (np_new_partition_count p) ++ ")")))
        else mret (Ok tt)
    | None => mret (Ok tt)
    end;
  let '(partitions, msg) := rd_kafka_NewPartitions_new name (Z.of_nat (np_new_partition_count p)) in
  _ ← modify (written msg);
  match partitions with
  | None => err_buf ← get; m ← lift (errbuf_to_string err_buf); mret (Err (AdminOpCreation m))
  | Some partitions =>
      match np_assignment p with
      | Some assignment => set_assignment rd_kafka_NewPartitions_set_replica_assignment 0 assignment partitions
      | None => mret (Ok partitions)
      end
  end.

(** The name and the type of a resource, as [describe_configs_inner] and
    [AlterConfig::to_native] compute them. *)
Definition resource_name (s : ResourceSpecifier) : comp ErrBuf (KafkaResult (string * RDKafkaResourceType)) :=
  match s with
  | Spec.Topic name => c ←? cstring name; mret (Ok (c, RD_KAFKA_RESOURCE_TOPIC))
  | Spec.Group name => c ←? cstring name; mret (Ok (c, RD_KAFKA_RESOURCE_GROUP))
  | Spec.Broker id => c ←? cstring (format_int id); mret (Ok (c, RD_KAFKA_RESOURCE_BROKER))
  end.

Definition resource_to_native (s : ResourceSpecifier) : comp ErrBuf (KafkaResult RDKafkaConfigRequest) :=
  nt ←? resource_name s;
  config ← lift (expect "called `Option::unwrap()` on a `None` value"
                   (rd_kafka_ConfigResource_new nt.2 nt.1));
  mret (Ok config).

(** [AlterConfig::to_native]; [entries] are those of the map, in the order in
    which its iterator yields them. *)
Definition alter_config_to_native (c : AlterConfig) (entries : list (string * string))
    : comp ErrBuf (KafkaResult RDKafkaConfigRequest) :=
  config ←? resource_to_native (ac_specifier c);
  set_config_entries rd_kafka_ConfigResource_set_config entries config.

(** The loops that convert every specification of a request, up to the first that
    fails. *)
Fixpoint all_to_native {A B} (f : A → comp ErrBuf (KafkaResult B)) (l : list A)
    : comp ErrBuf (KafkaResult (list B)) :=
  match l with
  | [] => mret (Ok [])
  | a :: l => b ←? f a; bs ←? all_to_native f l; mret (Ok (b :: bs))
  end.

End to_native.

(** ** Responses *)

Definition TopicResult : Type := result (string * RDKafkaErrorCode) string.
Definition GroupResult : Type := result (string * RDKafkaErrorCode) string.

(** [build_topic_results] and [build_group_results]. *)
Fixpoint build_topic_results (topics : list (string * RDKafkaRespErr)) : list TopicResult :=
  match topics with
  | [] => []
  | (name, err) :: topics =>
      let name := cstr_to_owned name in
      (if resp_is_error err then Err (name, code_of err) else Ok name) :: build_topic_results topics
  end.

Fixpoint build_group_results (groups : list (string * option rd_kafka_error_t)) : list GroupResult :=
  match groups with
  | [] => []
  | (name, error) :: groups =>
      let name := cstr_to_owned name in
      let err := match error with Some e => err_code e | None => RD_KAFKA_RESP_ERR_NO_ERROR end in
      (if resp_is_error err then Err (name, code_of err) else Ok name) :: build_group_results groups
  end.

(** [enum ConfigSource], [struct ConfigEntry] and [struct ConfigResource]. *)
Module Source.
Inductive ConfigSource : Set :=
| Unknown
| DynamicTopic
| DynamicBroker
| DynamicDefaultBroker
| StaticBroker
| Default.
End Source.
Abbreviation ConfigSource := Source.ConfigSource.

Record ConfigEntry := {
  entry_name : string;
  entry_value : option string;
  entry_source : ConfigSource;
  is_read_only : bool;
  is_default : bool;
  is_sensitive : bool;
}.

Record ConfigResource := { specifier : OwnedResourceSpecifier; entries : list ConfigEntry }.

(** [ConfigResource::entry_map] and [ConfigResource::get]: a later entry of the
    same name replaces the earlier one in the map; the search finds the first. *)
Definition entry_map (r : ConfigResource) : gmap string ConfigEntry :=
  insert_all ∅ (map (λ e, (entry_name e, e)) (entries r)).

Definition resource_get (name : string) (r : ConfigResource) : option ConfigEntry :=
  List.find (λ e, String.eqb (entry_name e) name) (entries r).

(** [extract_config_specifier] and [extract_config_source]. *)
Definition extract_config_specifier (resource : RDKafkaConfigResource) : KafkaResult OwnedResourceSpecifier :=
  match cr_type resource with
  | RD_KAFKA_RESOURCE_TOPIC => Ok (Spec.Topic (cstr_to_owned (cr_name resource)))
  | RD_KAFKA_RESOURCE_GROUP => Ok (Spec.Group (cstr_to_owned (cr_name resource)))
  | RD_KAFKA_RESOURCE_BROKER =>
      let name := to_string_lossy (cr_name resource) in
      match parse_i32 name with
      | Some id => Ok (Spec.Broker id)
      | None => Err (AdminOpCreation ("bogus broker ID in kafka response: " ++ name))
      end
  | typ => Err (AdminOpCreation ("bogus resource type in kafka response: " ++ resource_type_debug typ))
  end.

Definition extract_config_source (config_source : RDKafkaConfigSource) : KafkaResult ConfigSource :=
  match config_source with
  | RD_KAFKA_CONFIG_SOURCE_UNKNOWN_CONFIG => Ok Source.Unknown
  | RD_KAFKA_CONFIG_SOURCE_DYNAMIC_TOPIC_CONFIG => Ok Source.DynamicTopic
  | RD_KAFKA_CONFIG_SOURCE_DYNAMIC_BROKER_CONFIG => Ok Source.DynamicBroker
  | RD_KAFKA_CONFIG_SOURCE_DYNAMIC_DEFAULT_BROKER_CONFIG => Ok Source.DynamicDefaultBroker
  | RD_KAFKA_CONFIG_SOURCE_STATIC_BROKER_CONFIG => Ok Source.StaticBroker
  | RD_KAFKA_CONFIG_SOURCE_DEFAULT_CONFIG => Ok Source.Default
  | _ => Err (AdminOpCreation
           ("bogus config source type in kafka response: " ++ config_source_debug config_source))
  end.

(** An entry and a resource of [DescribeConfigsFuture::poll]. *)
Definition extract_entry (entry : RDKafkaConfigEntry) : KafkaResult ConfigEntry :=
  source ← extract_config_source (ce_source entry);
  Ok {| entry_name := cstr_to_owned (ce_name entry);
        entry_value := option_map cstr_to_owned (ce_value entry);
        entry_source := source;
        is_read_only := negb (ce_is_read_only entry =? 0);
        is_default := negb (ce_is_default entry =? 0);
        is_sensitive := negb (ce_is_sensitive entry =? 0) |}.

Definition ConfigResourceResult : Type := result RDKafkaErrorCode ConfigResource.
Definition AlterConfigsResult_ : Type :=
  result (OwnedResourceSpecifier * RDKafkaErrorCode) OwnedResourceSpecifier.

Definition extract_resource (resource : RDKafkaConfigResource) : KafkaResult ConfigResourceResult :=
  specifier ← extract_config_specifier resource;
  entries_out ← mapM extract_entry (cr_configs resource);
  Ok (Ok {| specifier := specifier; entries := entries_out |}).

Definition wrong_type (request : string) (event : NativeEvent) : KafkaError :=
  AdminOpCreation (request ++ " request received response of incorrect type (" ++ format_int (ne_type event) ++ ")").

(** What each of the futures makes of the event it receives. *)
Definition create_topics_response (event : NativeEvent) : KafkaResult (list TopicResult) :=
  _ ← check_error event;
  match ne_result event with
  | CreateTopicsResult topics => Ok (build_topic_results topics)
  | _ => Err (wrong_type "create topics" event)
  end.

Definition delete_topics_response (event : NativeEvent) : KafkaResult (list TopicResult) :=
  _ ← check_error event;
  match ne_result event with
  | DeleteTopicsResult topics => Ok (build_topic_results topics)
  | _ => Err (wrong_type "delete topics" event)
  end.

Definition delete_groups_response (event : NativeEvent) : KafkaResult (list GroupResult) :=
  _ ← check_error event;
  match ne_result event with
  | DeleteGroupsResult groups => Ok (build_group_results groups)
  | _ => Err (wrong_type "delete groups" event)
  end.

Definition create_partitions_response (event : NativeEvent) : KafkaResult (list TopicResult) :=
  _ ← check_error event;
  match ne_result event with
  | CreatePartitionsResult topics => Ok (build_topic_results topics)
  | _ => Err (wrong_type "create partitions" event)
  end.

Definition delete_records_response `{TplNative} (event : NativeEvent) : KafkaResult tpl :=
  _ ← check_error event;
  match ne_result event with
  | DeleteRecordsResult offsets => Ok (rd_kafka_topic_partition_list_copy offsets)
  | _ => Err (wrong_type "delete records" event)
  end.

Definition describe_configs_response (event : NativeEvent) : KafkaResult (list ConfigResourceResult) :=
  _ ← check_error event;
  match ne_result event with
  | DescribeConfigsResult resources => mapM extract_resource resources
  | _ => Err (wrong_type "describe configs" event)
  end.

Definition alter_configs_response (event : NativeEvent) : KafkaResult (list AlterConfigsResult_) :=
  _ ← check_error event;
  match ne_result event with
  | AlterConfigsResult resources =>
      mapM (λ resource, specifier ← extract_config_specifier resource; Ok (Ok specifier)) resources
  | _ => Err (wrong_type "alter configs" event)
  end.

(** ** Lemmas *)

(** A buffer that can be read: it holds a NUL. *)
Definition readable_buf (e : ErrBuf) : Prop := is_Some (zero_position (buf e)).

Lemma zero_position_has_nul l r : is_Some (zero_position (l ++ Byte.x00 :: r)).
Proof.
  induction l as [|b l IH]; cbn [app zero_position]; [by eexists|].
  case_bool_decide; [by eexists|]. destruct IH as [i ->]. by eexists.
Qed.

Lemma readable_new : readable_buf errbuf_new.
Proof. by exists 0%nat. Qed.

Lemma readable_written msg e : readable_buf e → readable_buf (written msg e).
Proof. intros He. destruct msg as [m|]; [|done]. apply zero_position_has_nul. Qed.

Lemma zero_position_take_succ l i : zero_position l = Some i → zero_position (take (i + 1) l) = Some i.
Proof.
  revert i. induction l as [|b l IH]; intros i; [done|]. cbn [zero_position].
  destruct (bool_decide (b = Byte.x00)) eqn:Eb.
  - intros [= <-]. simpl. by rewrite Eb.
  - destruct (zero_position l) as [j|] eqn:Ej; [|done]. intros [= <-]. simpl. rewrite Eb. by rewrite (IH j eq_refl).
Qed.

Lemma errbuf_to_string_total e : readable_buf e → ∃ s, errbuf_to_string e = Done s.
Proof.
  intros [i Hi]. unfold errbuf_to_string, filled. rewrite Hi. simpl. unfold cstr_from_bytes_with_nul.
  rewrite (zero_position_take_succ _ _ Hi). apply zero_position_lt in Hi. rewrite length_take.
  rewrite decide_True by lia. by eexists.
Qed.

(** The length of a readable buffer counts the NUL. *)
Lemma errbuf_len_pos e : readable_buf e → ∃ n, errbuf_len e = Done (S n).
Proof.
  intros [i Hi]. unfold errbuf_len, filled. rewrite Hi. simpl. apply zero_position_lt in Hi. rewrite length_take.
  exists i. f_equal. lia.
Qed.

Section conversion_lemmas.
Context `{N : AdminNative}.

(** A computation over the buffer that returns, and keeps it readable. *)
Definition safe {A} (m : comp ErrBuf A) : Prop := ∀ e, readable_buf e → ∃ a e', m e = Done (a, e') ∧ readable_buf e'.

Lemma safe_ret {A} (a : A) : safe (mret a).
Proof. intros e He. by exists a, e. Qed.

Lemma safe_bind {A B} (m : comp ErrBuf A) (k : A → comp ErrBuf B) : safe m → (∀ a, safe (k a)) → safe (m ≫= k).
Proof.
  intros Hm Hk e He. destruct (Hm e He) as (a & e1 & H1 & He1). destruct (Hk a e1 He1) as (b & e2 & H2 & He2).
  exists b, e2. split; [|done]. by rewrite (comp_bind_run _ _ _ _ _ H1).
Qed.

Lemma safe_try {E A B} (m : comp ErrBuf (result E A)) (k : A → comp ErrBuf (result E B)) :
  safe m → (∀ a, safe (k a)) → safe (try_bind m k).
Proof. intros Hm Hk. apply safe_bind; [done|]. intros [a|e]; [apply Hk|apply safe_ret]. Qed.

Lemma safe_lift {A} (o : outcome A) a : o = Done a → safe (lift o).
Proof. intros -> e He. by exists a, e. Qed.

Lemma safe_written msg : safe (modify (written msg)).
Proof. intros e He. exists tt, (written msg e). split; [done|by apply readable_written]. Qed.

Lemma safe_to_string : safe (err_buf ← get; m ← lift (errbuf_to_string err_buf); mret m).
Proof.
  intros e He. destruct (errbuf_to_string_total e He) as [s Hs]. exists s, e. split; [|done].
  unfold mbind, comp_bind, get, lift. by rewrite Hs.
Qed.

Lemma safe_check res : safe (check_rdkafka_invalid_arg res).
Proof.
  unfold check_rdkafka_invalid_arg. destruct (decide (code_of res = Code.InvalidArgument)) as [->|Hne].
  - intros e He. destruct (errbuf_len_pos e He) as [n Hn]. destruct (errbuf_to_string_total e He) as [s Hs].
    exists (Err (AdminOpCreation s)), e. split; [|done]. unfold mbind, comp_bind, get, lift. rewrite Hn. simpl.
    by rewrite Hs.
  - destruct (code_of res); try apply safe_ret. done.
Qed.

Lemma safe_checked {A} (call : RDKafkaRespErr * option bytes * A) : safe (checked call).
Proof.
  destruct call as [[res msg] a]. apply safe_bind; [apply safe_written|]. intros _.
  apply safe_try; [apply safe_check|]. intros _. apply safe_ret.
Qed.

Lemma safe_cstring s : safe (cstring s).
Proof. apply safe_ret. Qed.

Lemma safe_config {A} (set : A → string → string → RDKafkaRespErr * A) entries a :
  safe (set_config_entries set entries a).
Proof.
  revert a. induction entries as [|[k v] entries IH]; intros a; [apply safe_ret|]. cbn [set_config_entries].
  apply safe_try; [apply safe_cstring|]. intros k'. apply safe_try; [apply safe_cstring|]. intros v'.
  destruct (set a k' v') as [res a']. apply safe_try; [apply safe_check|]. intros _. apply IH.
Qed.

(** A call whose result is used when it succeeds. *)
Lemma safe_checked_then {A B} (call : RDKafkaRespErr * option bytes * A) (k : A → comp ErrBuf (KafkaResult B)) :
  safe (k call.2) → safe (try_bind (checked call) k).
Proof.
  destruct call as [[res msg] a]. simpl. intros Hk e He.
  destruct (safe_written msg e He) as (u & e1 & H1 & He1).
  destruct (safe_check res e1 He1) as (r & e2 & H2 & He2).
  unfold try_bind at 1, checked. rewrite (comp_bind_run (A := KafkaResult A) _ _ e (match r with Ok _ => Ok a | Err x => Err x end) e2).
  - destruct r as [u'|x]; [by apply Hk|by do 2 eexists].
  - rewrite (comp_bind_run _ _ _ _ _ H1). destruct r as [u'|x].
    + by rewrite (try_bind_ok _ _ _ _ _ H2).
    + by rewrite (try_bind_err _ _ _ _ _ H2).
Qed.

(** Setting an assignment does not abort when [ok] holds of the object, is kept
    by the calls, and allows the partitions of the assignment. *)
Lemma safe_assignment {A} (set : A → Z → list Z → outcome (RDKafkaRespErr * option bytes * A)) (ok : A → Prop)
    (total : Z) i assignment a :
  (∀ a j ids, ok a → 0 ≤ j < total → ∃ r, set a j ids = Done r ∧ ok r.2) →
  Z.of_nat (i + length assignment) ≤ total → Z.of_nat (i + length assignment) ≤ i32_max → ok a →
  safe (set_assignment set i assignment a).
Proof.
  intros Hset. revert i a. induction assignment as [|ids assignment IH]; intros i a Ht Hm Ha; [apply safe_ret|].
  cbn [set_assignment length] in *.
  assert (as_i32 (Z.of_nat i) = Z.of_nat i) as -> by (apply as_i32_id; unfold in_i32, i32_min, i32_max in *; lia).
  destruct (Hset a (Z.of_nat i) ids Ha) as (r & Hr & Ha'); [lia|].
  assert (safe (try_bind (checked r) (set_assignment set (S i) assignment))) as Hs.
  { apply safe_checked_then, IH; [lia|lia|done]. }
  intros e He. rewrite (comp_bind_run _ _ e r e); [by apply Hs|]. unfold lift. by rewrite Hr.
Qed.

Lemma safe_object {A B} (o : option A) (k : A → comp ErrBuf (KafkaResult B)) : (∀ a, o = Some a → safe (k a)) →
  safe (match o with
        | None => err_buf ← get; m ← lift (errbuf_to_string err_buf); mret (Err (AdminOpCreation m))
        | Some a => k a
        end).
Proof.
  intros Hk. destruct o as [a|]; [by apply Hk|]. intros e He. destruct (errbuf_to_string_total e He) as [s Hs].
  exists (Err (AdminOpCreation s)), e. split; [|done]. unfold mbind, comp_bind, get, lift. by rewrite Hs.
Qed.

End conversion_lemmas.

(** What librdkafka promises about new topics and new partitions: an object is
    for a number of partitions, which is asserted of the index that a replica
    assignment is set for; an index below it does not abort. *)
Class AdminSpec (N : AdminNative) := {
  np_total : RDKafkaNewPartitions → Z;
  np_new_spec name n p : (rd_kafka_NewPartitions_new name n).1 = Some p → np_total p = n;
  np_set_spec p i ids : 0 ≤ i < np_total p →
    ∃ r, rd_kafka_NewPartitions_set_replica_assignment p i ids = Done r ∧ np_total r.2 = np_total p;
  nt_total : RDKafkaNewTopic → Z;
  nt_new_spec name n repl t : (rd_kafka_NewTopic_new name n repl).1 = Some t → nt_total t = n;
  nt_set_spec t i ids : 0 ≤ i < nt_total t →
    ∃ r, rd_kafka_NewTopic_set_replica_assignment t i ids = Done r ∧ nt_total r.2 = nt_total t;
}.

(** ** Properties *)

Section properties.
Context `{N : AdminNative} `{!AdminSpec N}.

Lemma safe_new_partitions (p : NewPartitions) :
  (∀ a, np_assignment p = Some a → Z.of_nat (length a) ≤ i32_max) → safe (new_partitions_to_native p).
Proof.
  intros Hp. unfold new_partitions_to_native. apply safe_try; [apply safe_cstring|]. intros name.
  destruct (np_assignment p) as [a|] eqn:Ea.
  - specialize (Hp a eq_refl). destruct (decide _) as [|Hle]; [apply safe_ret|].
    apply safe_try; [apply safe_ret|]. intros _.
    destruct (rd_kafka_NewPartitions_new _ _) as [q msg] eqn:Eq. apply safe_bind; [apply safe_written|].
    intros _. apply safe_object. intros q' ->.
    apply (safe_assignment _ (λ q, np_total q = Z.of_nat (np_new_partition_count p))
             (Z.of_nat (np_new_partition_count p))); [|simpl; lia|simpl; lia|].
    + intros q j ids Hq Hj. rewrite <- Hq in Hj. destruct (np_set_spec q j ids Hj) as (r & Hr & Hr').
      exists r. split; [done|]. by rewrite Hr'.
    + eapply np_new_spec. by rewrite Eq.
  - apply safe_try; [apply safe_ret|]. intros _. destruct (rd_kafka_NewPartitions_new _ _) as [q msg].
    apply safe_bind; [apply safe_written|]. intros _. apply (safe_object q (λ q, mret (Ok q))).
    intros q' _. apply safe_ret.
Qed.

Lemma safe_new_topic (t : NewTopic) :
  (∀ a, nt_replication t = Variable_ a → Z.of_nat (length a) ≤ i32_max) → safe (new_topic_to_native t).
Proof.
  intros Ht. unfold new_topic_to_native. apply safe_try; [apply safe_cstring|]. intros name.
  destruct (nt_replication t) as [n|a] eqn:Er.
  - apply safe_try; [apply safe_ret|]. intros repl. destruct (rd_kafka_NewTopic_new _ _ _) as [q msg].
    apply safe_bind; [apply safe_written|]. intros _. apply safe_object. intros q' _.
    apply safe_try; [apply safe_ret|]. intros q2. apply safe_config.
  - specialize (Ht a eq_refl). destruct (decide _) as [|Heq]; [apply safe_ret|]. apply dec_stable in Heq.
    rewrite as_i32_id in Heq by (unfold in_i32, i32_min, i32_max in *; lia).
    apply safe_try; [apply safe_ret|]. intros repl.
    destruct (rd_kafka_NewTopic_new _ _ _) as [q msg] eqn:Eq. apply safe_bind; [apply safe_written|]. intros _.
    apply safe_object. intros q' ->. apply safe_try; [|intros q2; apply safe_config].
    apply (safe_assignment _ (λ q, nt_total q = nt_num_partitions t) (nt_num_partitions t)); [|simpl; lia|simpl; lia|].
    + intros x j ids Hx Hj. rewrite <- Hx in Hj. destruct (nt_set_spec x j ids Hj) as (r & Hr & Hr').
      exists r. split; [done|]. by rewrite Hr'.
    + eapply nt_new_spec. by rewrite Eq.
Qed.

(** Building a request never crashes the process: for every
    specification of new partitions and of a new topic (with at most [i32::MAX]
    assigned partitions), the conversion returns a result, whatever the lengths of
    the replica assignment and the partition count; librdkafka's assertion on the
    partition index is never reached with an index out of range. *)
Theorem admin_no_abort (p : NewPartitions) (t : NewTopic) e :
  readable_buf e →
  (∀ a, np_assignment p = Some a → Z.of_nat (length a) ≤ i32_max) →
  (∀ a, nt_replication t = Variable_ a → Z.of_nat (length a) ≤ i32_max) →
  (∃ r e', new_partitions_to_native p e = Done (r, e')) ∧ (∃ r e', new_topic_to_native t e = Done (r, e')).
Proof.
  intros He Hp Ht. destruct (safe_new_partitions p Hp e He) as (r & e1 & H1 & _).
  destruct (safe_new_topic t Ht e He) as (r' & e2 & H2 & _). split; by do 2 eexists.
Qed.

End properties.

(** The fallback text for an invalid argument is dead code: when
    librdkafka left a message it is reported, cut to the buffer; when it left none
    the error has an empty text, because the buffer's length counts the
    terminating NUL and is never zero. *)
Theorem check_invalid_arg_message `{N : AdminNative} msg :
  zero_position msg = None →
  check_rdkafka_invalid_arg RD_KAFKA_RESP_ERR__INVALID_ARG (errbuf_write msg errbuf_new)
  = Done (Err (AdminOpCreation (to_string_lossy (str_of_bytes (take 511 msg)))), errbuf_write msg errbuf_new)
  ∧ check_rdkafka_invalid_arg RD_KAFKA_RESP_ERR__INVALID_ARG errbuf_new
    = Done (Err (AdminOpCreation ""), errbuf_new).
Proof.
  intros Hm. unfold check_rdkafka_invalid_arg. change (code_of _) with Code.InvalidArgument. cbv iota.
  unfold mbind, comp_bind, get, lift. split.
  - destruct (errbuf_len_pos (errbuf_write msg errbuf_new)) as [n Hn]; [apply zero_position_has_nul|].
    rewrite Hn, decide_False by done. by rewrite errbuf_to_string_write.
  - vm_compute. done.
Qed.

(** The name and type under which a resource is requested
    identify it in the response: decoding them gives the specifier back, for names
    that are C strings and for broker ids that are [i32]s. *)
Theorem specifier_roundtrip `{N : AdminNative} s e name typ e' error configs :
  match s with
  | Spec.Topic n | Spec.Group n => is_str n = true
  | Spec.Broker id => in_i32 id
  end →
  resource_name s e = Done (Ok (name, typ), e') →
  extract_config_specifier {| cr_type := typ; cr_name := name; cr_error := error; cr_configs := configs |} = Ok s.
Proof.
  destruct s as [n|n|id]; intros Hs; unfold resource_name, try_bind, cstring, CString_new.
  - destruct (nul_position n); [done|]. intros [= -> <- _]. unfold extract_config_specifier. simpl.
    unfold cstr_to_owned. by rewrite to_string_lossy_id.
  - destruct (nul_position n); [done|]. intros [= -> <- _]. unfold extract_config_specifier. simpl.
    unfold cstr_to_owned. by rewrite to_string_lossy_id.
  - destruct (format_int_ascii id) as [H1 H2]. rewrite H2. intros [= <- <- _].
    unfold extract_config_specifier. simpl. rewrite to_string_lossy_id by done. unfold parse_i32.
    rewrite parse_format_int. simpl. by rewrite bool_decide_eq_true_2.
Qed.

(** Two listings of resources that differ at most in the errors of the resources. *)
Definition same_but_errors (r1 r2 : RDKafkaConfigResource) : Prop :=
  cr_type r1 = cr_type r2 ∧ cr_name r1 = cr_name r2 ∧ cr_configs r1 = cr_configs r2.

Lemma mapM_result_Forall2 {A B E} (f g : A → result E B) l k :
  Forall2 (λ x y, f x = g y) l k → mapM f l = mapM g k.
Proof. induction 1 as [|x y l k Hxy _ IH]; [done|]. simpl. rewrite Hxy. destruct (g y); simpl; [by rewrite IH|done]. Qed.

Lemma result_bind_err {A B E} (m : result E A) (k : A → result E B) e : m = Err e → (m ≫= k) = Err e.
Proof. by intros ->. Qed.

Lemma mapM_result_Ok {A B E} (f : A → result E B) (Q : B → Prop) l out :
  (∀ x y, f x = Ok y → Q y) → mapM f l = Ok out → Forall Q out.
Proof.
  intros Hf. revert out. induction l as [|x l IH]; intros out; [by intros [= <-]|]. simpl.
  destruct (f x) as [y|] eqn:Ey; [|done]. simpl. destruct (mapM f l) as [ys|]; [|done]. simpl.
  intros [= <-]. constructor; [by apply (Hf x)|by apply IH].
Qed.

Lemma mapM_result_Err {A B E} (f : A → result E B) l x : x ∈ l → (∃ e, f x = Err e) → ∃ e, mapM f l = Err e.
Proof.
  intros Hin [e He]. induction Hin as [x l|x y l Hin IH]; simpl.
  - rewrite He. by eexists.
  - destruct (f y); [|by eexists]. simpl. destruct (IH He) as [e' ->]. by eexists.
Qed.

Lemma extract_specifier_errors r1 r2 : same_but_errors r1 r2 →
  extract_config_specifier r1 = extract_config_specifier r2.
Proof. intros (H1 & H2 & _). unfold extract_config_specifier. by rewrite H1, H2. Qed.

(** C39: the error of an individual resource is never looked at: the
    responses to describing and altering configurations do not depend on it, and
    no result of theirs is an error, although the result types have one for each
    resource. *)
Theorem config_errors_ignored ev1 ev2 rs1 rs2 :
  ne_type ev1 = ne_type ev2 → ne_error ev1 = ne_error ev2 → Forall2 same_but_errors rs1 rs2 →
  (ne_result ev1 = DescribeConfigsResult rs1 → ne_result ev2 = DescribeConfigsResult rs2 →
   describe_configs_response ev1 = describe_configs_response ev2
   ∧ ∀ out, describe_configs_response ev1 = Ok out → Forall (λ r, is_Ok r = true) out)
  ∧ (ne_result ev1 = AlterConfigsResult rs1 → ne_result ev2 = AlterConfigsResult rs2 →
     alter_configs_response ev1 = alter_configs_response ev2
     ∧ ∀ out, alter_configs_response ev1 = Ok out → Forall (λ r, is_Ok r = true) out).
Proof.
  intros Ht He Hf. unfold describe_configs_response, alter_configs_response, check_error.
  split; intros -> ->; rewrite He; (destruct (resp_is_error _); [done|]); simpl.
  - split.
    + apply mapM_result_Forall2. eapply Forall2_impl; [exact Hf|]. intros r1 r2 Hr. unfold extract_resource.
      rewrite (extract_specifier_errors r1 r2 Hr). by destruct Hr as (_ & _ & ->).
    + intros out. apply mapM_result_Ok. intros r x. unfold extract_resource.
      destruct (extract_config_specifier r); [|done]. simpl. destruct (mapM _ _); [|done]. by intros [= <-].
  - split.
    + apply mapM_result_Forall2. eapply Forall2_impl; [exact Hf|]. intros r1 r2 Hr.
      by rewrite (extract_specifier_errors r1 r2 Hr).
    + intros out. apply mapM_result_Ok. intros r x. destruct (extract_config_specifier r); [|done].
      by intros [= <-].
Qed.

(** One entry whose value comes from a group configuration, a
    source that librdkafka defines, makes the whole description an error, also for
    the other resources. *)
Theorem group_config_rejected ev rs r entry :
  ne_error ev = RD_KAFKA_RESP_ERR_NO_ERROR → ne_result ev = DescribeConfigsResult rs →
  r ∈ rs → entry ∈ cr_configs r → ce_source entry = RD_KAFKA_CONFIG_SOURCE_GROUP_CONFIG →
  ∃ e, describe_configs_response ev = Err e.
Proof.
  intros He Hr Hin Hent Hsrc. unfold describe_configs_response, check_error. rewrite He, Hr. simpl.
  apply (mapM_result_Err _ _ r Hin). unfold extract_resource.
  destruct (extract_config_specifier r) as [sp|]; [|by eexists].
  destruct (mapM_result_Err extract_entry (cr_configs r) entry Hent) as [e Hm].
  { unfold extract_entry. rewrite Hsrc. by eexists. }
  exists e. exact (result_bind_err _ _ _ Hm).
Qed.

(** ** A reference for the building calls *)

#[export] Instance reference_admin : AdminNative := {
  admin_err2str _ := "error";
  RDKafkaNewTopic := Z;
  rd_kafka_NewTopic_new _ n _ := if n <? 1 then (None, Some (str_bytes "num_partitions out of range")) else (Some n, None);
  rd_kafka_NewTopic_set_replica_assignment n i _ :=
    if i <? n then Done (RD_KAFKA_RESP_ERR_NO_ERROR, None, n) else Panic "assertion";
  rd_kafka_NewTopic_set_config n _ _ := (RD_KAFKA_RESP_ERR_NO_ERROR, n);
  RDKafkaNewPartitions := Z;
  rd_kafka_NewPartitions_new _ n := (Some n, None);
  rd_kafka_NewPartitions_set_replica_assignment n i _ :=
    if i <? n then Done (RD_KAFKA_RESP_ERR_NO_ERROR, None, n) else Panic "assertion";
  RDKafkaConfigRequest := RDKafkaResourceType * string;
  rd_kafka_ConfigResource_new t n := Some (t, n);
  rd_kafka_ConfigResource_set_config c _ _ := (RD_KAFKA_RESP_ERR_NO_ERROR, c);
  RDKafkaAdminOptions := option nat;
  rd_kafka_AdminOptions_new := Some None;
  rd_kafka_AdminOptions_set_request_timeout o ms :=
    if ms <? -1 then (RD_KAFKA_RESP_ERR__INVALID_ARG, Some (str_bytes "timeout out of range"), o)
    else (RD_KAFKA_RESP_ERR_NO_ERROR, None, o);
  rd_kafka_AdminOptions_set_operation_timeout o _ := (RD_KAFKA_RESP_ERR_NO_ERROR, None, o);
  rd_kafka_AdminOptions_set_validate_only o _ := (RD_KAFKA_RESP_ERR_NO_ERROR, None, o);
  rd_kafka_AdminOptions_set_broker o _ := (RD_KAFKA_RESP_ERR_NO_ERROR, None, o);
  rd_kafka_AdminOptions_set_opaque _ p := p;
}.

#[export, refine] Instance reference_admin_spec : AdminSpec reference_admin := {|
  np_total n := n;
  nt_total n := n;
|}.
Proof.
  - intros name n p. simpl. by intros [= ->].
  - intros p i ids [_ Hi]. simpl. rewrite (proj2 (Z.ltb_lt _ _) Hi). by eexists.
  - intros name n repl t. simpl. destruct (n <? 1); [done|]. by intros [= ->].
  - intros p i ids [_ Hi]. simpl. rewrite (proj2 (Z.ltb_lt _ _) Hi). by eexists.
Defined.

Definition sample_partitions : NewPartitions := new_partitions_assign [[1]; [2]; [3]] (new_partitions "t" 2).
Definition sample_topic : NewTopic := new_topic_set "k" "v" (new_topic "t" 2 (Variable_ [[1]; [2]])).

Lemma admin_no_abort_witness :
  (∃ r e', new_partitions_to_native sample_partitions errbuf_new = Done (r, e'))
  ∧ (∃ r e', new_topic_to_native sample_topic errbuf_new = Done (r, e')).
Proof.
  apply (admin_no_abort sample_partitions sample_topic errbuf_new).
  - apply readable_new.
  - intros a [= <-]. vm_compute. discriminate.
  - intros a [= <-]. vm_compute. discriminate.
Defined.

Lemma check_invalid_arg_message_witness :
  check_rdkafka_invalid_arg RD_KAFKA_RESP_ERR__INVALID_ARG (errbuf_write (str_bytes "bad") errbuf_new)
  = Done (Err (AdminOpCreation (to_string_lossy (str_of_bytes (take 511 (str_bytes "bad"))))),
          errbuf_write (str_bytes "bad") errbuf_new)
  ∧ check_rdkafka_invalid_arg RD_KAFKA_RESP_ERR__INVALID_ARG errbuf_new
    = Done (Err (AdminOpCreation ""), errbuf_new).
Proof. apply (check_invalid_arg_message (str_bytes "bad")). reflexivity. Defined.

Lemma specifier_roundtrip_witness :
  extract_config_specifier {| cr_type := RD_KAFKA_RESOURCE_BROKER; cr_name := "-7";
    cr_error := RD_KAFKA_RESP_ERR_NO_ERROR; cr_configs := [] |} = Ok (Spec.Broker (-7)).
Proof.
  apply (specifier_roundtrip (Spec.Broker (-7)) errbuf_new "-7" RD_KAFKA_RESOURCE_BROKER errbuf_new);
    [split; vm_compute; discriminate|reflexivity].
Defined.

Definition sample_resource (e : RDKafkaRespErr) (src : RDKafkaConfigSource) : RDKafkaConfigResource :=
  {| cr_type := RD_KAFKA_RESOURCE_TOPIC; cr_name := "t"; cr_error := e;
     cr_configs := [{| ce_name := "k"; ce_value := None; ce_source := src; ce_is_read_only := 0;
                       ce_is_default := 1; ce_is_sensitive := 0 |}] |}.

Definition sample_event (r : RDKafkaConfigResource) : NativeEvent :=
  {| ne_type := 104; ne_error := RD_KAFKA_RESP_ERR_NO_ERROR; ne_opaque := None;
     ne_result := DescribeConfigsResult [r] |}.

Lemma config_errors_ignored_witness :
  let r e := sample_resource e RD_KAFKA_CONFIG_SOURCE_DEFAULT_CONFIG in
  describe_configs_response (sample_event (r RD_KAFKA_RESP_ERR_NO_ERROR))
  = describe_configs_response (sample_event (r RD_KAFKA_RESP_ERR_TOPIC_AUTHORIZATION_FAILED)).
Proof.
  intros r.
  assert (Forall2 same_but_errors [r RD_KAFKA_RESP_ERR_NO_ERROR] [r RD_KAFKA_RESP_ERR_TOPIC_AUTHORIZATION_FAILED])
    as Hf by (repeat constructor).
  destruct (config_errors_ignored (sample_event (r RD_KAFKA_RESP_ERR_NO_ERROR))
    (sample_event (r RD_KAFKA_RESP_ERR_TOPIC_AUTHORIZATION_FAILED)) _ _ eq_refl eq_refl Hf) as [H _].
  destruct (H eq_refl eq_refl) as [H1 _]. exact H1.
Defined.

Lemma group_config_rejected_witness :
  let r := sample_resource RD_KAFKA_RESP_ERR_NO_ERROR RD_KAFKA_CONFIG_SOURCE_GROUP_CONFIG in
  ∃ e, describe_configs_response (sample_event r) = Err e.
Proof.
  intros r. eapply (group_config_rejected (sample_event r) [r] r);
    [reflexivity|reflexivity|left|left|reflexivity].
Defined.
