(* ===== verification/AdminClient.v ===== *)
(** * The admin client

    [AdminClient] of [src/admin.rs]: the requests, the futures that wait for their
    answers, the thread that polls the queue, and the drop of the client. A request
    leaks the sender of its channel into the options of the native call; the thread
    takes it back from the event that answers the call and sends the event on.
    The step relation [astep] interleaves requests, the thread and the drop. *)

From stdpp Require Import strings gmap prelude.
From S2P Require Import Prelude ErrorCodes KafkaErrors Util TopicPartitionList Config Message Client.
From S2P Require Import BaseProducer FutureProducer Admin.

Local Open Scope Z_scope.

(** ** Requests *)

(** The calls that send requests, and the objects that only they use. *)
Class AdminCalls (W : Type) `{N : AdminNative} := {
  RDKafkaDeleteTopic : Type;
  rd_kafka_DeleteTopic_new : string → option RDKafkaDeleteTopic;
  RDKafkaDeleteGroup : Type;
  rd_kafka_DeleteGroup_new : string → option RDKafkaDeleteGroup;
  RDKafkaDeleteRecords : Type;
  rd_kafka_DeleteRecords_new : tpl → option RDKafkaDeleteRecords;
  rd_kafka_CreateTopics : list RDKafkaNewTopic → RDKafkaAdminOptions → nat → W → W;
  rd_kafka_DeleteTopics : list RDKafkaDeleteTopic → RDKafkaAdminOptions → nat → W → W;
  rd_kafka_DeleteGroups : list RDKafkaDeleteGroup → RDKafkaAdminOptions → nat → W → W;
  rd_kafka_CreatePartitions : list RDKafkaNewPartitions → RDKafkaAdminOptions → nat → W → W;
  rd_kafka_DeleteRecords : RDKafkaDeleteRecords → RDKafkaAdminOptions → nat → W → W;
  rd_kafka_DescribeConfigs : list RDKafkaConfigRequest → RDKafkaAdminOptions → nat → W → W;
  rd_kafka_AlterConfigs : list RDKafkaConfigRequest → RDKafkaAdminOptions → nat → W → W;
  admin_queue_poll : nat → Z → W → option NativeEvent * W;
}.

Section requests.
Context {W : Type} `{N : AdminNative} `{!AdminCalls W} `{!Oneshot W NativeEvent}.

Abbreviation world := (pworld W (Box nat)).

(** A conversion, on the request's own error buffer. *)
Definition on_buf {A} (m : comp ErrBuf (KafkaResult A)) (err_buf : ErrBuf) : comp world (KafkaResult (A * ErrBuf)) :=
  x ← lift (m err_buf);
  mret (match x.1 with Ok a => Ok (a, x.2) | Err e => Err e end).

(** [AdminOptions::to_native]: the options with the leaked sender, and the receiver. *)
Definition options_to_native (opts : AdminOptions) (err_buf : ErrBuf)
    : comp world (KafkaResult (RDKafkaAdminOptions * nat)) :=
  x ←? on_buf (set_options opts) err_buf;
  rx ← native oneshot_channel;
  tx ← leak (mkBox rx);
  mret (Ok (rd_kafka_AdminOptions_set_opaque x.1 tx, rx)).

(** An object that is named by a C string, in a loop of a delete request. *)
Definition named_object {A} (new : string → option A) (name : string) : comp ErrBuf (KafkaResult A) :=
  c ←? cstring name;
  o ← lift (expect "called `Option::unwrap()` on a `None` value" (new c));
  mret (Ok o).

Definition create_topics_inner (queue : nat) (topics : list NewTopic) (opts : AdminOptions)
    : comp world (KafkaResult nat) :=
  x ←? on_buf (all_to_native new_topic_to_native topics) errbuf_new;
  o ←? options_to_native opts x.2;
  _ ← on_world (modify (rd_kafka_CreateTopics x.1 o.1 queue));
  mret (Ok o.2).

Definition delete_topics_inner (queue : nat) (topic_names : list string) (opts : AdminOptions)
    : comp world (KafkaResult nat) :=
  x ←? on_buf (all_to_native (named_object rd_kafka_DeleteTopic_new) topic_names) errbuf_new;
  o ←? options_to_native opts x.2;
  _ ← on_world (modify (rd_kafka_DeleteTopics x.1 o.1 queue));
  mret (Ok o.2).

Definition delete_groups_inner (queue : nat) (group_names : list string) (opts : AdminOptions)
    : comp world (KafkaResult nat) :=
  x ←? on_buf (all_to_native (named_object rd_kafka_DeleteGroup_new) group_names) errbuf_new;
  o ←? options_to_native opts x.2;
  _ ← on_world (modify (rd_kafka_DeleteGroups x.1 o.1 queue));
  mret (Ok o.2).

Definition create_partitions_inner (queue : nat) (partitions : list NewPartitions) (opts : AdminOptions)
    : comp world (KafkaResult nat) :=
  x ←? on_buf (all_to_native new_partitions_to_native partitions) errbuf_new;
  o ←? options_to_native opts x.2;
  _ ← on_world (modify (rd_kafka_CreatePartitions x.1 o.1 queue));
  mret (Ok o.2).

(** The request object of [delete_records_inner]; the buffer has not been given to
    the call whose failure it reports. *)
Definition delete_records_object (offsets : tpl) : comp ErrBuf (KafkaResult RDKafkaDeleteRecords) :=
  match rd_kafka_DeleteRecords_new offsets with
  | None => err_buf ← get; m ← lift (errbuf_to_string err_buf); mret (Err (AdminOpCreation m))
  | Some delete_records => mret (Ok delete_records)
  end.

Definition delete_records_inner (queue : nat) (offsets : tpl) (opts : AdminOptions)
    : comp world (KafkaResult nat) :=
  x ←? on_buf (delete_records_object offsets) errbuf_new;
  o ←? options_to_native opts x.2;
  _ ← on_world (modify (rd_kafka_DeleteRecords x.1 o.1 queue));
  mret (Ok o.2).

Definition describe_configs_inner (queue : nat) (configs : list ResourceSpecifier) (opts : AdminOptions)
    : comp world (KafkaResult nat) :=
  x ←? on_buf (all_to_native resource_to_native configs) errbuf_new;
  o ←? options_to_native opts x.2;
  _ ← on_world (modify (rd_kafka_DescribeConfigs x.1 o.1 queue));
  mret (Ok o.2).

(** Each configuration comes with its entries in the order of its map's iterator. *)
Definition alter_configs_inner (queue : nat) (configs : list (AlterConfig * list (string * string)))
    (opts : AdminOptions) : comp world (KafkaResult nat) :=
  x ←? on_buf (all_to_native (λ c, alter_config_to_native c.1 c.2) configs) errbuf_new;
  o ←? options_to_native opts x.2;
  _ ← on_world (modify (rd_kafka_AlterConfigs x.1 o.1 queue));
  mret (Ok o.2).

(** ** Futures *)

(** What an admin call returns: a future over a receiver, or one that is ready
    with the error of the request ([Either]); and its poll, [None] while pending. *)
Definition admin_future_poll {A} (response : NativeEvent → KafkaResult A) (f : KafkaResult nat) (s : world)
    : option (KafkaResult A) :=
  match f with
  | Err err => Some (Err err)
  | Ok rx =>
      match oneshot_poll rx (pw s) with
      | None => None
      | Some (Err _) => Some (Err Canceled)
      | Some (Ok event) => Some (response event)
      end
  end.

Definition create_topics_poll := admin_future_poll create_topics_response.
Definition delete_topics_poll := admin_future_poll delete_topics_response.
Definition delete_groups_poll := admin_future_poll delete_groups_response.
Definition create_partitions_poll := admin_future_poll create_partitions_response.
Definition delete_records_poll `{TplNative} := admin_future_poll delete_records_response.
Definition describe_configs_poll := admin_future_poll describe_configs_response.
Definition alter_configs_poll := admin_future_poll alter_configs_response.

(** ** The polling thread *)

(** One turn of the loop of [start_poll_thread]: whether the loop is left. *)
Definition admin_turn (queue : nat) (should_stop : bool) : comp world bool :=
  event ← native (admin_queue_poll queue (as_millis (After (duration_from_millis 100))));
  match event with
  | None => mret should_stop
  | Some event =>
      tx ← reclaim (ne_opaque event);
      _ ← on_world (modify (oneshot_send (unbox tx) event));
      mret false
  end.

(** ** Interleavings *)

(** The requests that a user can make. *)
Inductive admin_request :=
| CreateTopics (topics : list NewTopic)
| DeleteTopics (topic_names : list string)
| DeleteGroups (group_names : list string)
| CreatePartitions (partitions : list NewPartitions)
| DeleteRecords (offsets : tpl)
| DescribeConfigs (configs : list ResourceSpecifier)
| AlterConfigs (configs : list (AlterConfig * list (string * string))).

Definition request_inner (queue : nat) (r : admin_request) (opts : AdminOptions) : comp world (KafkaResult nat) :=
  match r with
  | CreateTopics topics => create_topics_inner queue topics opts
  | DeleteTopics names => delete_topics_inner queue names opts
  | DeleteGroups names => delete_groups_inner queue names opts
  | CreatePartitions partitions => create_partitions_inner queue partitions opts
  | DeleteRecords offsets => delete_records_inner queue offsets opts
  | DescribeConfigs configs => describe_configs_inner queue configs opts
  | AlterConfigs configs => alter_configs_inner queue configs opts
  end.

(** The shared world, the stop flag, and whether the thread is in its loop. *)
Record asys := { admin_world : world; stop_requested : bool; running : bool }.

(** A client that is being dropped makes no more requests. *)
Inductive astep (queue : nat) : asys → asys → Prop :=
| astep_request s r opts f w : stop_requested s = false →
    request_inner queue r opts (admin_world s) = Done (f, w) →
    astep queue s {| admin_world := w; stop_requested := false; running := running s |}
| astep_thread s leave w : running s = true →
    admin_turn queue (stop_requested s) (admin_world s) = Done (leave, w) →
    astep queue s {| admin_world := w; stop_requested := stop_requested s; running := negb leave |}
| astep_drop s :
    astep queue s {| admin_world := admin_world s; stop_requested := true; running := running s |}.

End requests.
Arguments asys W : clear implicits.

(** ** Creation *)

Section admin_new.
Context {W : Type} `{!ClientNative W} `{C : ConfNative} `{!ClientNew W}.

(** [FromClientConfigAndContext for AdminClient], up to the start of the thread:
    the client and the queue. *)
Definition admin_client_new (config : ClientConfig) (entries : list (string * string)) (context : nat)
    : comp W (KafkaResult (nat * nat)) :=
  native_config ←? lift (create_native_config entries);
  client ←? client_new config native_config RD_KAFKA_PRODUCER context;
  queue ← new_native_queue;
  mret (Ok (client, queue)).

End admin_new.

(** ** What librdkafka and the channels promise *)

(** [outstanding]: the opaque pointers of the requests that have not been answered;
    [events]: what has been sent on the channels; [channels] and [abandoned]: the
    channels, and those whose sender was dropped; [opaque_of]: the pointer that
    was set in options. *)
Class AdminLogs (W : Type) `{N : AdminNative} := {
  outstanding : W → list (option nat);
  events : W → list (nat * NativeEvent);
  channels : W → gset nat;
  abandoned : W → gset nat;
  opaque_of : RDKafkaAdminOptions → option nat;
}.

Section logs.
Context {W : Type} `{N : AdminNative} `{!AdminLogs W}.

(** Nothing but the outstanding requests may have changed. *)
Definition same_channels (w w' : W) : Prop :=
  events w' = events w ∧ channels w' = channels w ∧ abandoned w' = abandoned w.

(** A request with the given options has been sent. *)
Definition issued (o : RDKafkaAdminOptions) (w w' : W) : Prop :=
  outstanding w' ≡ₚ opaque_of o :: outstanding w ∧ same_channels w w'.

End logs.

(** A call leaves one request outstanding, an event answers one; the constructors
    of request objects give an object, for a resource with a name; channels are as
    for the future producer. *)
Class AdminClientSpec (W : Type) `{N : AdminNative} `{!AdminCalls W} `{!Oneshot W NativeEvent} `{!AdminLogs W}
    : Prop := {
  options_new_spec : is_Some rd_kafka_AdminOptions_new;
  set_opaque_spec o p : opaque_of (rd_kafka_AdminOptions_set_opaque o p) = p;
  delete_topic_spec t : is_Some (rd_kafka_DeleteTopic_new t);
  delete_group_spec g : is_Some (rd_kafka_DeleteGroup_new g);
  resource_spec t n : n ≠ "" → is_Some (rd_kafka_ConfigResource_new t n);
  create_topics_spec l o q w : issued o w (rd_kafka_CreateTopics l o q w);
  delete_topics_spec l o q w : issued o w (rd_kafka_DeleteTopics l o q w);
  delete_groups_spec l o q w : issued o w (rd_kafka_DeleteGroups l o q w);
  create_partitions_spec l o q w : issued o w (rd_kafka_CreatePartitions l o q w);
  delete_records_spec l o q w : issued o w (rd_kafka_DeleteRecords l o q w);
  describe_configs_spec l o q w : issued o w (rd_kafka_DescribeConfigs l o q w);
  alter_configs_spec l o q w : issued o w (rd_kafka_AlterConfigs l o q w);
  admin_poll_spec q ms w o w' : admin_queue_poll q ms w = (o, w') →
    outstanding w ≡ₚ match o with Some ev => [ne_opaque ev] | None => [] end ++ outstanding w'
    ∧ same_channels w w';
  admin_channel_spec w c w' : oneshot_channel w = (c, w') →
    (c ∉ channels w) ∧ outstanding w' ≡ₚ outstanding w ∧ events w' = events w
    ∧ channels w' = {[ c ]} ∪ channels w ∧ abandoned w' = abandoned w;
  admin_send_spec c ev w :
    outstanding (oneshot_send c ev w) ≡ₚ outstanding w ∧ events (oneshot_send c ev w) = events w ++ [(c, ev)]
    ∧ channels (oneshot_send c ev w) = channels w ∧ abandoned (oneshot_send c ev w) = abandoned w;
  admin_receive_spec c w :
    oneshot_poll c w
    = match value_of c (events w) with
      | Some ev => Some (Ok ev)
      | None => if decide (c ∈ abandoned w) then Some (Err tt) else None
      end;
}.

(** ** Ownership of senders *)

Section ownership.
Context {W : Type} `{N : AdminNative} `{!AdminSpec N} `{!AdminCalls W} `{!Oneshot W NativeEvent}
  `{!AdminLogs W} `{!AdminClientSpec W}.
Implicit Types (s : pworld W (Box nat)) (l : list (option nat * Box nat)).

(** [admin_owed s l]: the senders of [l] are with the outstanding requests. *)
Definition admin_owed (s : pworld W (Box nat)) (l : list (option nat * Box nat)) : Prop :=
  opaque_inv (ph s) l ∧ l.*1 ≡ₚ outstanding (pw s).

Definition short_assignment (o : option (list (list Z))) : Prop :=
  ∀ a, o = Some a → Z.of_nat (length a) ≤ i32_max.

(** A request whose resources have names and whose assignments are not absurdly
    long. *)
Definition request_ok (r : admin_request) : Prop :=
  match r with
  | CreateTopics topics =>
      Forall (λ t, short_assignment (match nt_replication t with Variable_ a => Some a | Fixed _ => None end)) topics
  | CreatePartitions partitions => Forall (λ p, short_assignment (np_assignment p)) partitions
  | DescribeConfigs configs =>
      Forall (λ sp, match sp with Spec.Topic n | Spec.Group n => n ≠ "" | Spec.Broker _ => True end) configs
  | AlterConfigs configs =>
      Forall (λ c, match ac_specifier c.1 with Spec.Topic n | Spec.Group n => n ≠ "" | Spec.Broker _ => True end)
        configs
  | _ => True
  end.

Lemma safe_unwrap {A} (o : option A) msg : is_Some o → safe (lift (expect msg o)).
Proof. intros [a ->]. by apply (safe_lift _ a). Qed.

Lemma safe_all {A B} (f : A → comp ErrBuf (KafkaResult B)) la : Forall (λ a, safe (f a)) la → safe (all_to_native f la).
Proof.
  induction 1 as [|a la Ha _ IH]; [apply safe_ret|]. cbn [all_to_native]. apply safe_try; [done|]. intros b.
  apply safe_try; [done|]. intros bs. apply safe_ret.
Qed.

Lemma safe_named {A} (new : string → option A) name : (∀ n, is_Some (new n)) → safe (named_object new name).
Proof.
  intros Hn. apply safe_try; [apply safe_cstring|]. intros c. apply safe_bind; [by apply safe_unwrap|].
  intros o. apply safe_ret.
Qed.

Lemma format_int_nonempty z : format_int z ≠ "".
Proof.
  unfold format_int, DecimalString.NilZero.string_of_int, DecimalString.NilZero.string_of_uint.
  destruct (Z.to_int z) as [d|d]; [|done]. by destruct d.
Qed.

Lemma safe_resource (r : ResourceSpecifier) :
  match r with Spec.Topic n | Spec.Group n => n ≠ "" | Spec.Broker _ => True end → safe (resource_to_native r).
Proof.
  intros Hr. assert (∀ n t, n ≠ "" → safe (try_bind (c ←? cstring n; mret (Ok (c, t))) (λ nt,
    config ← lift (expect "called `Option::unwrap()` on a `None` value" (rd_kafka_ConfigResource_new nt.2 nt.1));
    mret (Ok config)))) as Hs.
  { intros n t Hn e He. unfold try_bind at 1 2, cstring, CString_new.
    destruct (nul_position n); [by do 2 eexists|]. destruct (resource_spec t n Hn) as [c Hc].
    exists (Ok c), e. split; [|done]. unfold mbind, comp_bind, lift. simpl. by rewrite Hc. }
  destruct r as [n|n|id]; apply Hs; [done|done|apply format_int_nonempty].
Qed.

Lemma safe_set_options (o : AdminOptions) : safe (set_options o).
Proof.
  unfold set_options. apply safe_bind; [apply safe_unwrap, options_new_spec|]. intros n1.
  apply safe_try; [destruct (ao_request_timeout o); [apply safe_checked|apply safe_ret]|]. intros n2.
  apply safe_try; [destruct (ao_operation_timeout o); [apply safe_checked|apply safe_ret]|]. intros n3.
  apply safe_try; [destruct (ao_validate_only o); [apply safe_checked|apply safe_ret]|]. intros n4.
  destruct (ao_broker_id o); [apply safe_checked|apply safe_ret].
Qed.

Lemma on_buf_run {A} (m : comp ErrBuf (KafkaResult A)) e s : safe m → readable_buf e →
  ∃ x, on_buf m e s = Done (x, s) ∧ ∀ y, x = Ok y → readable_buf y.2.
Proof.
  intros Hm He. destruct (Hm e He) as (r & e' & Hr & He'). unfold on_buf, mbind, comp_bind, lift. rewrite Hr.
  eexists. split; [done|]. intros y. simpl. destruct r; [|done]. by intros [= <-].
Qed.

(** What a request does to the world: nothing when it fails; otherwise its sender
    is with librdkafka, on a new channel. *)
Definition request_post (s : pworld W (Box nat)) (l : list (option nat * Box nat)) (x : KafkaResult nat)
    (s' : pworld W (Box nat)) : Prop :=
  match x with
  | Err _ => s' = s
  | Ok rx => (∃ p, admin_owed s' ((p, mkBox rx) :: l)) ∧ (rx ∉ channels (pw s))
             ∧ events (pw s') = events (pw s) ∧ channels (pw s') = {[ rx ]} ∪ channels (pw s)
             ∧ abandoned (pw s') = abandoned (pw s)
  end.

(** The common shape of the requests. *)
Definition submit {A} (opts : AdminOptions) (m : comp ErrBuf (KafkaResult A))
    (send_request : A → RDKafkaAdminOptions → W → W) : comp (pworld W (Box nat)) (KafkaResult nat) :=
  x ←? on_buf m errbuf_new;
  o ←? options_to_native opts x.2;
  _ ← on_world (modify (send_request x.1 o.1));
  mret (Ok o.2).

Lemma on_buf_done {A} (m : comp ErrBuf (KafkaResult A)) e s x s' : on_buf m e s = Done (x, s') → s' = s.
Proof. unfold on_buf, mbind, comp_bind, lift. destruct (m e) as [[r e']|]; [|done]. by intros [= _ <-]. Qed.

Lemma options_done opts e s l x s' : opaque_inv (ph s) l → options_to_native opts e s = Done (x, s') →
  match x with
  | Err _ => s' = s
  | Ok (o, rx) => opaque_inv (ph s') ((opaque_of o, mkBox rx) :: l) ∧ (rx ∉ channels (pw s))
      ∧ outstanding (pw s') ≡ₚ outstanding (pw s) ∧ events (pw s') = events (pw s)
      ∧ channels (pw s') = {[ rx ]} ∪ channels (pw s) ∧ abandoned (pw s') = abandoned (pw s)
  end.
Proof.
  intros Ho Hr. unfold options_to_native, try_bind in Hr. apply comp_bind_Done in Hr as (y & s1 & H1 & Hr).
  apply on_buf_done in H1 as ->. destruct y as [y|err]; [|by injection Hr as <- <-].
  apply comp_bind_Done in Hr as (rx & s1 & H1 & Hr). unfold native, on_world, call in H1.
  destruct (oneshot_channel (pw s)) as [c w'] eqn:Ec. injection H1 as <- <-.
  apply comp_bind_Done in Hr as (tx & s2 & H2 & Hr). unfold leak, call in H2.
  destruct (into_ptr (mkBox c) (ph {| pw := w'; ph := ph s |})) as [p h] eqn:Ei.
  injection H2 as <- <-. injection Hr as <- <-. simpl. apply admin_channel_spec in Ec.
  destruct Ec as (E1 & E2 & E3 & E4 & E5). rewrite set_opaque_spec. split_and!; [|done..].
  exact (opaque_into _ _ _ _ _ Ho Ei).
Qed.

Lemma submit_done {A} opts (m : comp ErrBuf (KafkaResult A)) send_request s l x s' :
  (∀ a o w, issued o w (send_request a o w)) → admin_owed s l → submit opts m send_request s = Done (x, s') →
  request_post s l x s'.
Proof.
  intros Hc [Ho Hl] Hr. unfold submit, try_bind in Hr. apply comp_bind_Done in Hr as (y & s1 & H1 & Hr).
  apply on_buf_done in H1 as ->. destruct y as [y|err]; [|by injection Hr as <- <-].
  apply comp_bind_Done in Hr as (z & s1 & H1 & Hr). apply (options_done _ _ _ _ _ _ Ho) in H1.
  destruct z as [[o rx]|err]; [|by injection Hr as <- <-].
  apply comp_bind_Done in Hr as (u & s2 & H2 & Hr). injection H2 as _ <-. injection Hr as <- <-.
  destruct H1 as (E1 & E2 & E3 & E4 & E5 & E6). destruct (Hc y.1 o (pw s1)) as (F1 & F2 & F3 & F4).
  simpl. rewrite F2, F3, F4. split_and!; [|done..]. exists (opaque_of o). split; [done|]. simpl.
  by rewrite F1, E3, Hl.
Qed.

Lemma submit_total {A} opts (m : comp ErrBuf (KafkaResult A)) send_request s :
  safe m → ∃ x s', submit opts m send_request s = Done (x, s').
Proof.
  intros Hm. unfold submit. destruct (on_buf_run m errbuf_new s Hm readable_new) as (x & Hx & Hb).
  destruct x as [y|err]; [|rewrite (try_bind_err _ _ _ _ _ Hx); by do 2 eexists].
  rewrite (try_bind_ok _ _ _ _ _ Hx). specialize (Hb y eq_refl).
  unfold options_to_native. destruct (on_buf_run (set_options opts) y.2 s (safe_set_options opts) Hb) as (z & Hz & _).
  unfold try_bind at 1, mbind at 1, comp_bind at 1. destruct z as [z|err].
  - rewrite (try_bind_ok _ _ _ _ _ Hz). unfold mbind, comp_bind, native, on_world, call, leak.
    destruct (oneshot_channel (pw s)) as [c w']. by do 2 eexists.
  - rewrite (try_bind_err _ _ _ _ _ Hz). by do 2 eexists.
Qed.

Lemma request_done q r opts s l x s' : admin_owed s l → request_inner q r opts s = Done (x, s') →
  request_post s l x s'.
Proof.
  intros Ho. destruct r as [topics|names|names|parts|offsets|configs|configs]; intros Hr.
  - eapply (submit_done opts _ (λ a o, rd_kafka_CreateTopics a o q)); [|exact Ho|exact Hr].
    intros a o w. apply create_topics_spec.
  - eapply (submit_done opts _ (λ a o, rd_kafka_DeleteTopics a o q)); [|exact Ho|exact Hr].
    intros a o w. apply delete_topics_spec.
  - eapply (submit_done opts _ (λ a o, rd_kafka_DeleteGroups a o q)); [|exact Ho|exact Hr].
    intros a o w. apply delete_groups_spec.
  - eapply (submit_done opts _ (λ a o, rd_kafka_CreatePartitions a o q)); [|exact Ho|exact Hr].
    intros a o w. apply create_partitions_spec.
  - eapply (submit_done opts _ (λ a o, rd_kafka_DeleteRecords a o q)); [|exact Ho|exact Hr].
    intros a o w. apply delete_records_spec.
  - eapply (submit_done opts _ (λ a o, rd_kafka_DescribeConfigs a o q)); [|exact Ho|exact Hr].
    intros a o w. apply describe_configs_spec.
  - eapply (submit_done opts _ (λ a o, rd_kafka_AlterConfigs a o q)); [|exact Ho|exact Hr].
    intros a o w. apply alter_configs_spec.
Qed.

Lemma request_total q r opts s : request_ok r → ∃ x s', request_inner q r opts s = Done (x, s').
Proof.
  intros Hok. destruct r as [topics|names|names|parts|offsets|configs|configs]; simpl in Hok.
  - apply (submit_total opts (all_to_native new_topic_to_native topics)
      (λ a o, rd_kafka_CreateTopics a o q)), safe_all.
    eapply Forall_impl; [exact Hok|]. intros t Ht. apply safe_new_topic. intros a Ha. apply Ht. by rewrite Ha.
  - apply (submit_total opts (all_to_native _ names)
      (λ a o, rd_kafka_DeleteTopics a o q)), safe_all, Forall_true. intros n. apply safe_named, delete_topic_spec.
  - apply (submit_total opts (all_to_native _ names)
      (λ a o, rd_kafka_DeleteGroups a o q)), safe_all, Forall_true. intros n. apply safe_named, delete_group_spec.
  - apply (submit_total opts (all_to_native new_partitions_to_native parts)
      (λ a o, rd_kafka_CreatePartitions a o q)), safe_all.
    eapply Forall_impl; [exact Hok|]. intros p Hp. by apply safe_new_partitions.
  - apply (submit_total opts (delete_records_object offsets)
      (λ a o, rd_kafka_DeleteRecords a o q)). unfold delete_records_object.
    apply (safe_object (rd_kafka_DeleteRecords_new offsets) (λ d, mret (Ok d))). intros d _. apply safe_ret.
  - apply (submit_total opts (all_to_native resource_to_native configs)
      (λ a o, rd_kafka_DescribeConfigs a o q)), safe_all.
    eapply Forall_impl; [exact Hok|]. apply safe_resource.
  - apply (submit_total opts (all_to_native _ configs)
      (λ a o, rd_kafka_AlterConfigs a o q)), safe_all. eapply Forall_impl; [exact Hok|].
    intros c Hc. apply safe_try; [by apply safe_resource|]. intros cfg. apply safe_config.
Qed.

End ownership.

(** ** Where the senders are *)

Section invariant.
Context {W : Type} `{N : AdminNative} `{!AdminSpec N} `{!AdminCalls W} `{!Oneshot W NativeEvent}
  `{!AdminLogs W} `{!AdminClientSpec W}.
Context (queue : nat).
Implicit Types (s : asys W) (l : list (option nat * Box nat)).

(** Every channel belongs to a request that is outstanding or has been answered,
    not both, and answered once. *)
Record admin_inv (s : asys W) (l : list (option nat * Box nat)) : Prop := {
  ai_owed : admin_owed (admin_world s) l;
  ai_senders : NoDup l.*2;
  ai_abandoned : abandoned (pw (admin_world s)) = ∅;
  ai_where c : c ∈ channels (pw (admin_world s)) ↔ mkBox c ∈ l.*2 ∨ c ∈ (events (pw (admin_world s))).*1;
  ai_once c : mkBox c ∈ l.*2 → c ∉ (events (pw (admin_world s))).*1;
  ai_events : NoDup (events (pw (admin_world s))).*1;
}.

(** A new client. *)
Definition admin_initial (s : asys W) : Prop :=
  admin_owed (admin_world s) [] ∧ channels (pw (admin_world s)) = ∅ ∧ abandoned (pw (admin_world s)) = ∅
  ∧ events (pw (admin_world s)) = [] ∧ stop_requested s = false ∧ running s = true.

Lemma admin_initial_inv s : admin_initial s → admin_inv s [].
Proof.
  intros (H1 & H2 & H3 & H4 & _). split; [done|constructor|done| |by intros c []%elem_of_nil|rewrite H4; constructor].
  intros c. rewrite H2, H4. split; [by intros []%elem_of_empty|]. by intros [[]%elem_of_nil|[]%elem_of_nil].
Qed.

Lemma request_inv s l r opts f w stop run : admin_inv s l →
  request_inner queue r opts (admin_world s) = Done (f, w) →
  ∃ l', admin_inv {| admin_world := w; stop_requested := stop; running := run |} l'.
Proof.
  intros [H1 H2 H3 H4 H5 H6] Hr. pose proof (request_done _ _ _ _ _ _ _ H1 Hr) as Hp.
  destruct f as [rx|err]; [|simpl in Hp; subst w; exists l; by split].
  destruct Hp as ((p & Ho) & Hf & He & Hc & Ha).
  assert ((mkBox rx ∉ l.*2) ∧ rx ∉ (events (pw (admin_world s))).*1) as [Hn1 Hn2].
  { rewrite H4 in Hf. tauto. }
  exists ((p, mkBox rx) :: l). split; simpl; [done| |by rewrite Ha| | |by rewrite He].
  - by constructor.
  - intros c. rewrite Hc, He, elem_of_union, elem_of_singleton, elem_of_cons, H4. split.
    + intros [->|[?|?]]; auto.
    + intros [[[= ->]|?]|?]; auto.
  - intros c [[= ->]|Hin]%elem_of_cons; rewrite He; [done|by apply H5].
Qed.

(** What a turn of the thread does. *)
Lemma admin_turn_run s l stop : admin_inv s l →
  ∃ leave w, admin_turn queue stop (admin_world s) = Done (leave, w)
    ∧ channels (pw w) = channels (pw (admin_world s)) ∧ abandoned (pw w) = abandoned (pw (admin_world s))
    ∧ ((leave = stop ∧ events (pw w) = events (pw (admin_world s)) ∧ admin_owed w l)
       ∨ ∃ ev c l', leave = false ∧ l ≡ₚ (ne_opaque ev, mkBox c) :: l' ∧ admin_owed w l'
           ∧ events (pw w) = events (pw (admin_world s)) ++ [(c, ev)]).
Proof.
  intros [[Ho Hl] _ _ _ _ _]. unfold admin_turn, mbind at 1, comp_bind at 1, native, on_world at 1, call.
  destruct (admin_queue_poll _ _ _) as [[ev|] w1] eqn:Ep; apply admin_poll_spec in Ep as (E1 & E2 & E3 & E4).
  - rewrite E1 in Hl. symmetry in Hl. apply (Permutation_map_inv fst) in Hl as (l3 & He & Hp).
    destruct l3 as [|[p [c]] l']; [done|]. simpl in He. injection He as Hpe Hl'. subst p.
    apply (opaque_perm _ _ _ Hp) in Ho. unfold mbind at 1, comp_bind at 1.
    destruct (reclaim_run {| pw := w1; ph := ph (admin_world s) |} _ _ _ Ho) as (h' & -> & Hi').
    destruct (admin_send_spec c ev w1) as (F1 & F2 & F3 & F4). do 2 eexists. split; [reflexivity|]. simpl.
    rewrite F3, F4. split; [done|]. split; [done|]. right. exists ev, c, l'.
    split; [done|]. split; [done|]. split; [|by rewrite F2, E2]. split; [done|]. simpl. by rewrite F1, Hl'.
  - do 2 eexists. split; [reflexivity|]. simpl. split; [done|]. split; [done|]. left. split; [done|]. split; [done|].
    split; [done|]. simpl. by rewrite Hl, E1.
Qed.

Lemma thread_inv s l leave w stop run : admin_inv s l →
  admin_turn queue (stop_requested s) (admin_world s) = Done (leave, w) →
  ∃ l', admin_inv {| admin_world := w; stop_requested := stop; running := run |} l'.
Proof.
  intros Hi Hr. destruct (admin_turn_run s l (stop_requested s) Hi) as (x & w' & Hr' & Hc & Ha & Hcase).
  rewrite Hr' in Hr. injection Hr as -> ->. destruct Hi as [H1 H2 H3 H4 H5 H6].
  destruct Hcase as [(_ & He & Ho)|(ev & c & l' & _ & Hp & Ho & He)].
  - exists l. split; simpl; [done|done|by rewrite Ha|by rewrite Hc, He|by rewrite He|by rewrite He].
  - assert (l.*2 ≡ₚ mkBox c :: l'.*2) as Hp2 by (by rewrite Hp).
    assert (NoDup (mkBox c :: l'.*2)) as [Hcn Hnd]%NoDup_cons by (by rewrite <- Hp2).
    assert (c ∉ (events (pw (admin_world s))).*1) as Hce by (apply H5; rewrite Hp2; left).
    exists l'. split; simpl; [done|done|by rewrite Ha| | |].
    + intros c'. rewrite Hc, He, fmap_app, elem_of_app, H4, Hp2, elem_of_cons. simpl.
      rewrite list_elem_of_singleton. split; [intros [[[= ->]|?]|?]; auto|intros [?|[?| ->]]; auto].
    + intros c' Hin. rewrite He, fmap_app, elem_of_app. simpl. rewrite list_elem_of_singleton.
      intros [Hin'| ->]; [|done]. apply (H5 c'); [rewrite Hp2; by right|done].
    + rewrite He, fmap_app. apply NoDup_app. split_and!; [done| |apply NoDup_singleton].
      intros x Hx ->%list_elem_of_singleton. done.
Qed.

Definition areachable (s : asys W) : Prop := ∃ s0, admin_initial s0 ∧ rtc (astep queue) s0 s.

Lemma astep_inv s s' l : admin_inv s l → astep queue s s' → ∃ l', admin_inv s' l'.
Proof.
  intros Hi Hst. destruct Hst as [s r opts f w Hs Hr|s leave w Hrun Hr|s].
  - by eapply request_inv.
  - by eapply thread_inv.
  - exists l. by destruct Hi.
Qed.

Lemma areachable_inv s : areachable s → ∃ l, admin_inv s l.
Proof.
  intros (s0 & H0 & Hst). assert (∃ l, admin_inv s0 l) as Hi by (exists []; by apply admin_initial_inv).
  clear H0. induction Hst as [|s0 s1 s2 Hs _ IH]; [done|]. destruct Hi as [l Hi].
  by apply IH, (astep_inv s0 s1 l).
Qed.

End invariant.

(** ** Properties *)

Section properties.
Context {W : Type} `{N : AdminNative} `{!AdminSpec N} `{!AdminCalls W} `{!Oneshot W NativeEvent}
  `{!AdminLogs W} `{!AdminClientSpec W}.
Context (queue : nat).
Implicit Types (s : asys W).

(** The address at which a request's sender is with librdkafka. *)
Definition sender_at (w : pworld W (Box nat)) (a rx : nat) : Prop := (ph w : gmap nat nat) !! a = Some rx.

Lemma admin_owed_sender w l c : admin_owed w l → mkBox c ∈ l.*2 → ∃ a, (Some a, mkBox c) ∈ l ∧ sender_at w a c.
Proof.
  intros [[_ Hb] _] ([p d] & Hd & Hin)%list_elem_of_fmap. simpl in Hd. subst d.
  destruct (Hb _ _ Hin) as (a & -> & Ha). by exists a.
Qed.

Lemma admin_poll_value {A} (response : NativeEvent → KafkaResult A) rx w : abandoned (pw w) = ∅ →
  admin_future_poll response (Ok rx) w = response <$> value_of rx (events (pw w)).
Proof.
  intros Ha. unfold admin_future_poll. rewrite admin_receive_spec, Ha. destruct (value_of _ _); [done|].
  rewrite decide_False; [done|]. by intros []%elem_of_empty.
Qed.

(** C31: an admin request with named resources never panics. When it
    fails before it is sent, the world is unchanged: no channel is open and no
    sender is leaked. When it is sent, its channel is new, its sender is with
    librdkafka under the request's opaque pointer, and its future is pending. *)
Theorem admin_request_ownership s r opts :
  areachable queue s → request_ok r →
  ∃ f w, request_inner queue r opts (admin_world s) = Done (f, w)
    ∧ match f with
      | Err _ => w = admin_world s
      | Ok rx => (∃ a, sender_at w a rx ∧ Some a ∈ outstanding (pw w)) ∧ (rx ∉ channels (pw (admin_world s)))
          ∧ ∀ A (response : NativeEvent → KafkaResult A), admin_future_poll response f w = None
      end.
Proof.
  intros [l Hi]%areachable_inv Hok. destruct (request_total queue r opts (admin_world s) Hok) as (f & w & Hr).
  exists f, w. split; [done|]. pose proof (request_done _ _ _ _ _ _ _ (ai_owed _ _ Hi) Hr) as Hp.
  destruct f as [rx|err]; [|done]. destruct Hp as ((p & Ho) & Hf & He & Hc & Ha). split_and!; [|done|].
  - destruct (admin_owed_sender w _ rx Ho) as (a & Hin & Ha'); [left|]. exists a. split; [done|].
    rewrite <- (proj2 Ho). apply list_elem_of_fmap. by exists (Some a, mkBox rx).
  - intros A response. rewrite admin_poll_value by (by rewrite Ha, (ai_abandoned _ _ Hi)). rewrite He.
    rewrite (proj2 (value_of_None _ _)); [done|]. intros Hin. apply Hf, (ai_where _ _ Hi). by right.
Qed.

(** The sender of a pending future is with librdkafka, in the heap. *)
Lemma pending_sender {A} (response : NativeEvent → KafkaResult A) s l rx :
  admin_inv s l → rx ∈ channels (pw (admin_world s)) →
  admin_future_poll response (Ok rx) (admin_world s) = None →
  value_of rx (events (pw (admin_world s))) = None
  ∧ ∃ a, (Some a, mkBox rx) ∈ l ∧ sender_at (admin_world s) a rx.
Proof.
  intros Hi Hrx Hpend. rewrite admin_poll_value in Hpend by apply Hi.
  assert (value_of rx (events (pw (admin_world s))) = None) as Hv by (by destruct (value_of _ _)).
  split; [done|]. apply value_of_None in Hv.
  apply (admin_owed_sender _ _ _ (ai_owed _ _ Hi)). apply (ai_where _ _ Hi) in Hrx. tauto.
Qed.

(** A client that has been dropped, and whose thread has ended, does nothing. *)
Lemma dropped_world s s' : stop_requested s = true → running s = false → rtc (astep queue) s s' →
  admin_world s' = admin_world s.
Proof.
  intros Hs Hrun Hst. revert Hs Hrun. induction Hst as [|s0 s1 s2 H01 _ IH]; [done|].
  intros Hs Hrun. destruct H01 as [s0 r opts f w Hs' Hr|s0 leave w Hrun' Hr|s0]; [congruence..|]. by apply IH.
Qed.

(** C12: the future of a request is never canceled while the client
    runs, and completes with the answer to its own request. Whatever the thread
    serves in a turn while the future is pending, the future is afterwards still
    pending with its sender at the same address, or it completes with the decoded
    event whose opaque pointer is that address. *)
Theorem admin_own_answer s rx leave w {A} (response : NativeEvent → KafkaResult A) :
  areachable queue s → rx ∈ channels (pw (admin_world s)) →
  admin_future_poll response (Ok rx) (admin_world s) = None →
  admin_turn queue (stop_requested s) (admin_world s) = Done (leave, w) →
  ∃ a, sender_at (admin_world s) a rx
    ∧ ((sender_at w a rx ∧ admin_future_poll response (Ok rx) w = None)
       ∨ ∃ ev, ne_opaque ev = Some a ∧ admin_future_poll response (Ok rx) w = Some (response ev)).
Proof.
  intros [l Hi]%areachable_inv Hrx Hpend Hr.
  destruct (pending_sender response s l rx Hi Hrx Hpend) as (Hv & a & Hal & Ha). exists a. split; [done|].
  destruct (admin_turn_run queue s l (stop_requested s) Hi) as (x & w' & Hr' & Hc & Hab & Hcase).
  rewrite Hr' in Hr. injection Hr as -> ->. rewrite admin_poll_value by (rewrite Hab; apply Hi).
  destruct Hcase as [(_ & He & Ho)|(ev & c & l' & _ & Hp & Ho & He)].
  - left. rewrite He, Hv. split; [|done]. destruct (proj1 Ho) as [_ Hb]. by destruct (Hb _ _ Hal) as (a' & [= <-] & ?).
  - rewrite He, (value_of_app _ _ _ Hv), value_of_cons. simpl. rewrite Hp in Hal.
    apply elem_of_cons in Hal as [[= Hop <-]|Hal].
    + right. exists ev. by rewrite decide_True.
    + left. rewrite decide_False.
      * split; [|done]. destruct (proj1 Ho) as [_ Hb]. by destruct (Hb _ _ Hal) as (a' & [= <-] & ?).
      * intros ->. pose proof (ai_senders _ _ Hi) as Hnd. rewrite Hp in Hnd. apply NoDup_cons in Hnd as [Hnd _].
        apply Hnd, list_elem_of_fmap. by exists (Some a, mkBox rx).
Qed.

(** C40: a client that is dropped loses its outstanding requests: once
    the thread has left its loop, a future that is still pending stays pending
    forever, whatever follows. It does not complete, and it is not canceled either,
    because its sender stays in the heap: it is leaked and not dropped. *)
Theorem admin_drop_pending s s' rx {A} (response : NativeEvent → KafkaResult A) :
  areachable queue s → stop_requested s = true → running s = false →
  rx ∈ channels (pw (admin_world s)) → admin_future_poll response (Ok rx) (admin_world s) = None →
  rtc (astep queue) s s' →
  admin_future_poll response (Ok rx) (admin_world s') = None ∧ ∃ a, sender_at (admin_world s') a rx.
Proof.
  intros [l Hi]%areachable_inv Hs Hrun Hrx Hp ->%dropped_world; [|done..]. split; [done|].
  destruct (pending_sender response s l rx Hi Hrx Hp) as (_ & a & _ & Ha). by exists a.
Qed.

End properties.

(** ** A simulated admin client

    Every request is answered by the next poll of the queue, in order, unless the
    network is down. *)

Record asim := {
  a_pending : list NativeEvent;
  a_down : bool;
  a_events : list (nat * NativeEvent);
  a_channels : gset nat;
}.

Definition answer (r : admin_result) (o : option nat) (s : asim) : asim :=
  {| a_pending := a_pending s ++ [{| ne_type := 100; ne_error := RD_KAFKA_RESP_ERR_NO_ERROR; ne_opaque := o;
                                     ne_result := r |}];
     a_down := a_down s; a_events := a_events s; a_channels := a_channels s |}.

#[export] Instance asim_calls : AdminCalls asim := {
  RDKafkaDeleteTopic := string;
  rd_kafka_DeleteTopic_new t := Some t;
  RDKafkaDeleteGroup := string;
  rd_kafka_DeleteGroup_new g := Some g;
  RDKafkaDeleteRecords := tpl;
  rd_kafka_DeleteRecords_new l := Some l;
  rd_kafka_CreateTopics _ o _ := answer (CreateTopicsResult [("t", RD_KAFKA_RESP_ERR_NO_ERROR)]) o;
  rd_kafka_DeleteTopics l o _ := answer (DeleteTopicsResult ((λ t, (t, RD_KAFKA_RESP_ERR_NO_ERROR)) <$> l)) o;
  rd_kafka_DeleteGroups l o _ := answer (DeleteGroupsResult ((λ t, (t, None)) <$> l)) o;
  rd_kafka_CreatePartitions _ o _ := answer (CreatePartitionsResult []) o;
  rd_kafka_DeleteRecords l o _ := answer (DeleteRecordsResult l) o;
  rd_kafka_DescribeConfigs _ o _ := answer (DescribeConfigsResult []) o;
  rd_kafka_AlterConfigs _ o _ := answer (AlterConfigsResult []) o;
  admin_queue_poll _ _ s :=
    match a_pending s with
    | [] => (None, s)
    | ev :: rest =>
        if a_down s then (None, s)
        else (Some ev, {| a_pending := rest; a_down := a_down s; a_events := a_events s; a_channels := a_channels s |})
    end;
}.

#[export] Instance asim_oneshot : Oneshot asim NativeEvent := {
  oneshot_channel s :=
    let c := fresh (a_channels s) in
    (c, {| a_pending := a_pending s; a_down := a_down s; a_events := a_events s; a_channels := {[ c ]} ∪ a_channels s |});
  oneshot_send c ev s :=
    {| a_pending := a_pending s; a_down := a_down s; a_events := a_events s ++ [(c, ev)]; a_channels := a_channels s |};
  oneshot_drop _ s := s;
  oneshot_poll c s := match value_of c (a_events s) with Some ev => Some (Ok ev) | None => None end;
}.

#[export] Instance asim_logs : AdminLogs asim := {
  outstanding s := ne_opaque <$> a_pending s;
  events := a_events;
  channels := a_channels;
  abandoned _ := ∅;
  opaque_of (o : RDKafkaAdminOptions) := o;
}.

Lemma answer_issued r (o : RDKafkaAdminOptions) s : issued o s (answer r o s).
Proof. split; [|done]. simpl. rewrite fmap_app. simpl. by rewrite Permutation_app_comm. Qed.

#[export] Instance asim_spec : AdminClientSpec asim.
Proof.
  split; try (by intros; eexists); try (intros; apply answer_issued); try done.
  - intros q ms w o w'. simpl. destruct (a_pending w) as [|ev rest] eqn:E; [by intros [= <- <-]; rewrite E|].
    destruct (a_down w); intros [= <- <-]; [by rewrite E|done].
  - intros w c w' [= <- <-]. split_and!; try done. apply is_fresh.
Qed.

Definition asim_client (down : bool) : asys asim :=
  {| admin_world := @Build_pworld asim (Box nat) IntoOpaque_Box
       {| a_pending := []; a_down := down; a_events := []; a_channels := ∅ |} (∅ : gmap nat nat);
     stop_requested := false; running := true |}.

Definition asim_requested (down stop run : bool) : asys asim :=
  {| admin_world := @Build_pworld asim (Box nat) IntoOpaque_Box
       (answer (DeleteTopicsResult [("t", RD_KAFKA_RESP_ERR_NO_ERROR)]) (Some 0%nat)
          {| a_pending := []; a_down := down; a_events := []; a_channels := {[ 0%nat ]} |})
       ({[ 0%nat := 0%nat ]} : gmap nat nat);
     stop_requested := stop; running := run |}.

Lemma asim_initial down : admin_initial (asim_client down).
Proof. split; [|done]. split; [|done]. split; [constructor|]. by intros p d []%elem_of_nil. Qed.

Lemma asim_client_reachable down : areachable 0 (asim_client down).
Proof. exists (asim_client down). split; [apply asim_initial|apply rtc_refl]. Qed.

Lemma asim_requested_reachable down : areachable 0 (asim_requested down false true).
Proof.
  exists (asim_client down). split; [apply asim_initial|]. eapply rtc_l; [|apply rtc_refl].
  apply (astep_request 0 (asim_client down) (DeleteTopics ["t"]) options_new (Ok 0%nat)); [done|].
  destruct down; vm_compute; reflexivity.
Qed.

Lemma admin_request_ownership_witness :
  ∃ f w, request_inner 0 (DeleteTopics ["t"]) options_new (admin_world (asim_client false)) = Done (f, w)
    ∧ match f with
      | Err _ => w = admin_world (asim_client false)
      | Ok rx => (∃ a, sender_at w a rx ∧ Some a ∈ outstanding (pw w))
          ∧ (rx ∉ channels (pw (admin_world (asim_client false))))
          ∧ ∀ A (response : NativeEvent → KafkaResult A), admin_future_poll response f w = None
      end.
Proof.
  apply (admin_request_ownership 0 (asim_client false) (DeleteTopics ["t"]) options_new);
    [apply asim_client_reachable|exact I].
Defined.

Definition asim_answered : pworld asim (Box nat) :=
  match admin_turn 0 false (admin_world (asim_requested false false true)) with
  | Done (_, w) => w
  | Panic _ => admin_world (asim_client false)
  end.

Lemma admin_own_answer_witness :
  ∃ a, sender_at (admin_world (asim_requested false false true)) a 0
    ∧ ((sender_at asim_answered a 0 ∧ delete_topics_poll (Ok 0%nat) asim_answered = None)
       ∨ ∃ ev, ne_opaque ev = Some a ∧ delete_topics_poll (Ok 0%nat) asim_answered = Some (delete_topics_response ev)).
Proof.
  apply (admin_own_answer 0 (asim_requested false false true) 0 false asim_answered delete_topics_response);
    [apply asim_requested_reachable|vm_compute; reflexivity|reflexivity|vm_compute; reflexivity].
Defined.

(** The state of the next witness is reached: a request is sent while the network
    is down, the client is dropped, and the thread leaves its loop. *)
Lemma asim_dropped_reachable : areachable 0 (asim_requested true true false).
Proof.
  destruct (asim_requested_reachable true) as (s0 & H0 & Hst). exists s0. split; [done|].
  eapply rtc_r; [eapply rtc_r; [exact Hst|apply astep_drop]|].
  apply (astep_thread 0 (asim_requested true true true) true); [done|]. vm_compute. reflexivity.
Qed.

Lemma admin_drop_pending_witness :
  delete_topics_poll (Ok 0%nat) (admin_world (asim_requested true true false)) = None
  ∧ ∃ a, sender_at (admin_world (asim_requested true true false)) a 0.
Proof.
  apply (admin_drop_pending 0 (asim_requested true true false) (asim_requested true true false) 0 delete_topics_response);
    [apply asim_dropped_reachable|reflexivity|reflexivity|set_solver|reflexivity|apply rtc_refl].
Defined.
