(* ===== verification/Mocking.v ===== *)
(** * The mock cluster

    [src/mocking.rs]: the wrappers over the mock broker of librdkafka, with the
    keys of its protocol requests ([rdkafka-sys/src/types.rs]), and the ownership
    of the native cluster: one that was created is destroyed with its wrapper, one
    that was obtained from a client is not. The calls to librdkafka are a
    parameter ([MockNative]). *)

From stdpp Require Import strings gmap prelude.
From S2P Require Import Prelude ErrorCodes KafkaErrors Util Config Client.

Local Open Scope Z_scope.

(** ** Request keys *)

Module Api.
Inductive RDKafkaApiKey : Set :=
| Produce
| Fetch
| ListOffsets
| Metadata
| LeaderAndIsr
| StopReplica
| UpdateMetadata
| ControlledShutdown
| OffsetCommit
| OffsetFetch
| FindCoordinator
| JoinGroup
| Heartbeat
| LeaveGroup
| SyncGroup
| DescribeGroups
| ListGroups
| SaslHandshake
| ApiVersion
| CreateTopics
| DeleteTopics
| DeleteRecords
| InitProducerId
| OffsetForLeaderEpoch
| AddPartitionsToTxn
| AddOffsetsToTxn
| EndTxn
| WriteTxnMarkers
| TxnOffsetCommit
| DescribeAcls
| CreateAcls
| DeleteAcls
| DescribeConfigs
| AlterConfigs
| AlterReplicaLogDirs
| DescribeLogDirs
| SaslAuthenticate
| CreatePartitions
| CreateDelegationToken
| RenewDelegationToken
| ExpireDelegationToken
| DescribeDelegationToken
| DeleteGroups
| ElectLeaders
| IncrementalAlterConfigs
| AlterPartitionReassignments
| ListPartitionReassignments
| OffsetDelete
| DescribeClientQuotas
| AlterClientQuotas
| DescribeUserScramCredentials
| AlterUserScramCredentials
| Vote
| BeginQuorumEpoch
| EndQuorumEpoch
| DescribeQuorum
| AlterIsr
| UpdateFeatures
| Envelope.
End Api.
Abbreviation RDKafkaApiKey := Api.RDKafkaApiKey.

(** [IntoPrimitive for RDKafkaApiKey]. *)
Definition api_key_into (k : RDKafkaApiKey) : Z :=
  match k with
  | Api.Produce => 0
  | Api.Fetch => 1
  | Api.ListOffsets => 2
  | Api.Metadata => 3
  | Api.LeaderAndIsr => 4
  | Api.StopReplica => 5
  | Api.UpdateMetadata => 6
  | Api.ControlledShutdown => 7
  | Api.OffsetCommit => 8
  | Api.OffsetFetch => 9
  | Api.FindCoordinator => 10
  | Api.JoinGroup => 11
  | Api.Heartbeat => 12
  | Api.LeaveGroup => 13
  | Api.SyncGroup => 14
  | Api.DescribeGroups => 15
  | Api.ListGroups => 16
  | Api.SaslHandshake => 17
  | Api.ApiVersion => 18
  | Api.CreateTopics => 19
  | Api.DeleteTopics => 20
  | Api.DeleteRecords => 21
  | Api.InitProducerId => 22
  | Api.OffsetForLeaderEpoch => 23
  | Api.AddPartitionsToTxn => 24
  | Api.AddOffsetsToTxn => 25
  | Api.EndTxn => 26
  | Api.WriteTxnMarkers => 27
  | Api.TxnOffsetCommit => 28
  | Api.DescribeAcls => 29
  | Api.CreateAcls => 30
  | Api.DeleteAcls => 31
  | Api.DescribeConfigs => 32
  | Api.AlterConfigs => 33
  | Api.AlterReplicaLogDirs => 34
  | Api.DescribeLogDirs => 35
  | Api.SaslAuthenticate => 36
  | Api.CreatePartitions => 37
  | Api.CreateDelegationToken => 38
  | Api.RenewDelegationToken => 39
  | Api.ExpireDelegationToken => 40
  | Api.DescribeDelegationToken => 41
  | Api.DeleteGroups => 42
  | Api.ElectLeaders => 43
  | Api.IncrementalAlterConfigs => 44
  | Api.AlterPartitionReassignments => 45
  | Api.ListPartitionReassignments => 46
  | Api.OffsetDelete => 47
  | Api.DescribeClientQuotas => 48
  | Api.AlterClientQuotas => 49
  | Api.DescribeUserScramCredentials => 50
  | Api.AlterUserScramCredentials => 51
  | Api.Vote => 52
  | Api.BeginQuorumEpoch => 53
  | Api.EndQuorumEpoch => 54
  | Api.DescribeQuorum => 55
  | Api.AlterIsr => 56
  | Api.UpdateFeatures => 57
  | Api.Envelope => 58
  end.

(** ** The cluster *)

(** Clusters and clients are handles; [None] is a null pointer. *)
Class MockNative (W : Type) := {
  rd_kafka_mock_cluster_new : nat → Z → W → option nat * W;
  rd_kafka_handle_mock_cluster : nat → W → option nat;
  rd_kafka_mock_cluster_destroy : nat → W → W;
  rd_kafka_mock_cluster_bootstraps : nat → W → string;
  rd_kafka_mock_clear_request_errors : nat → Z → W → W;
  rd_kafka_mock_push_request_errors_array : nat → Z → nat → list RDKafkaRespErr → W → W;
  rd_kafka_mock_topic_set_error : nat → string → RDKafkaRespErr → W → W;
  rd_kafka_mock_topic_create : nat → string → Z → Z → W → RDKafkaRespErr * W;
  rd_kafka_mock_partition_set_leader : nat → string → Z → Z → W → RDKafkaRespErr * W;
  rd_kafka_mock_partition_set_follower : nat → string → Z → Z → W → RDKafkaRespErr * W;
  rd_kafka_mock_partition_set_follower_wmarks : nat → string → Z → Z → Z → W → RDKafkaRespErr * W;
  rd_kafka_mock_broker_set_down : nat → Z → W → RDKafkaRespErr * W;
  rd_kafka_mock_broker_set_up : nat → Z → W → RDKafkaRespErr * W;
  rd_kafka_mock_broker_set_rtt : nat → Z → Z → W → RDKafkaRespErr * W;
  rd_kafka_mock_broker_set_rack : nat → Z → string → W → RDKafkaRespErr * W;
  rd_kafka_mock_coordinator_set : nat → string → string → Z → W → RDKafkaRespErr * W;
  rd_kafka_mock_set_apiversion : nat → Z → Z → Z → W → RDKafkaRespErr * W;
}.

(** [enum MockClusterClient], [struct MockCluster] and [enum MockCoordinator]. *)
Inductive MockClusterClient := Owned (client : nat) | Borrowed (client : nat).
Record MockCluster := { mock_cluster : nat; mock_client : MockClusterClient }.
Inductive MockCoordinator := Transaction_ (key : string) | Group_ (key : string).

Section mock.
Context {W : Type} `{!MockNative W}.

(** The macro [return_mock_op!]. *)
Definition return_mock_op (op : W → RDKafkaRespErr * W) : comp W (KafkaResult unit) :=
  err ← call op;
  mret (if resp_is_error err then Err (KafkaErrors.MockCluster (code_of err)) else Ok tt).

(** [CString::new(s)?]. *)
Definition mock_cstring (s : string) : comp W (KafkaResult string) := mret (map_err Nul (CString_new s)).

(** [MockCluster::new]; the entries of the default configuration are none. *)
Definition mock_new `{!ClientNative W} `{C : ConfNative} `{!ClientNew W} (config : ClientConfig) (context : nat)
    (broker_count : Z) : comp W (KafkaResult MockCluster) :=
  native_config ←? lift (create_native_config []);
  client ←? client_new config native_config RD_KAFKA_PRODUCER context;
  mc ← call (rd_kafka_mock_cluster_new client broker_count);
  mret (match mc with
        | None => Err (KafkaErrors.MockCluster Code.Fail)
        | Some mc => Ok {| mock_cluster := mc; mock_client := Owned client |}
        end).

(** [MockCluster::from_client]. *)
Definition mock_from_client (client : nat) (w : W) : option MockCluster :=
  match rd_kafka_handle_mock_cluster client w with
  | None => None
  | Some mc => Some {| mock_cluster := mc; mock_client := Borrowed client |}
  end.

Definition bootstrap_servers (m : MockCluster) (w : W) : string :=
  to_string_lossy (rd_kafka_mock_cluster_bootstraps (mock_cluster m) w).

Definition clear_request_errors (m : MockCluster) (api_key : RDKafkaApiKey) : comp W unit :=
  modify (rd_kafka_mock_clear_request_errors (mock_cluster m) (api_key_into api_key)).

Definition request_errors (m : MockCluster) (api_key : RDKafkaApiKey) (errors : list RDKafkaRespErr) : comp W unit :=
  modify (rd_kafka_mock_push_request_errors_array (mock_cluster m) (api_key_into api_key) (length errors) errors).

Definition topic_error (m : MockCluster) (topic : string) (error : RDKafkaRespErr) : comp W (KafkaResult unit) :=
  topic_c ←? mock_cstring topic;
  _ ← modify (rd_kafka_mock_topic_set_error (mock_cluster m) topic_c error);
  mret (Ok tt).

Definition create_topic (m : MockCluster) (topic : string) (partition_count replication_factor : Z)
    : comp W (KafkaResult unit) :=
  topic_c ←? mock_cstring topic;
  return_mock_op (rd_kafka_mock_topic_create (mock_cluster m) topic_c partition_count replication_factor).

Definition partition_leader (m : MockCluster) (topic : string) (partition : Z) (broker_id : option Z)
    : comp W (KafkaResult unit) :=
  topic_c ←? mock_cstring topic;
  return_mock_op (rd_kafka_mock_partition_set_leader (mock_cluster m) topic_c partition (default (-1) broker_id)).

Definition partition_follower (m : MockCluster) (topic : string) (partition broker_id : Z)
    : comp W (KafkaResult unit) :=
  topic_c ←? mock_cstring topic;
  return_mock_op (rd_kafka_mock_partition_set_follower (mock_cluster m) topic_c partition broker_id).

Definition follower_watermarks (m : MockCluster) (topic : string) (partition : Z)
    (low_watermark high_watermark : option Z) : comp W (KafkaResult unit) :=
  topic_c ←? mock_cstring topic;
  return_mock_op (rd_kafka_mock_partition_set_follower_wmarks (mock_cluster m) topic_c partition
                    (default (-1) low_watermark) (default (-1) high_watermark)).

Definition broker_down (m : MockCluster) (broker_id : Z) : comp W (KafkaResult unit) :=
  return_mock_op (rd_kafka_mock_broker_set_down (mock_cluster m) broker_id).

Definition broker_up (m : MockCluster) (broker_id : Z) : comp W (KafkaResult unit) :=
  return_mock_op (rd_kafka_mock_broker_set_up (mock_cluster m) broker_id).

(** [delay.as_millis().try_into().unwrap_or(c_int::MAX)]. *)
Definition rtt_millis (delay : Z) : Z :=
  if bool_decide (in_i32 (duration_as_millis delay)) then duration_as_millis delay else i32_max.

Definition broker_round_trip_time (m : MockCluster) (broker_id delay : Z) : comp W (KafkaResult unit) :=
  return_mock_op (rd_kafka_mock_broker_set_rtt (mock_cluster m) broker_id (rtt_millis delay)).

Definition broker_rack (m : MockCluster) (broker_id : Z) (rack : string) : comp W (KafkaResult unit) :=
  rack_c ←? mock_cstring rack;
  return_mock_op (rd_kafka_mock_broker_set_rack (mock_cluster m) broker_id rack_c).

Definition coordinator (m : MockCluster) (c : MockCoordinator) (broker_id : Z) : comp W (KafkaResult unit) :=
  let '(kind, key) := match c with
                      | Transaction_ key => ("transaction", key)
                      | Group_ key => ("group", key)
                      end in
  kind_c ←? mock_cstring kind;
  raw_c ←? mock_cstring key;
  return_mock_op (rd_kafka_mock_coordinator_set (mock_cluster m) kind_c raw_c broker_id).

Definition apiversion (m : MockCluster) (api_key : RDKafkaApiKey) (min_version max_version : option Z)
    : comp W (KafkaResult unit) :=
  return_mock_op (rd_kafka_mock_set_apiversion (mock_cluster m) (api_key_into api_key)
                    (default (-1) min_version) (default (-1) max_version)).

(** [impl Drop for MockCluster]. *)
Definition mock_drop (m : MockCluster) : comp W unit :=
  match mock_client m with
  | Owned _ => modify (rd_kafka_mock_cluster_destroy (mock_cluster m))
  | Borrowed _ => mret tt
  end.

End mock.

(** ** Properties *)

(** A string with an interior NUL is an error and never reaches the mock broker. *)
Theorem mock_strings_checked {W} `{!MockNative W} m s p (b : option Z) (id n r : Z) err (w : W) :
  nul_free s = false →
  Forall (λ op : comp W (KafkaResult unit), ∃ e, op w = Done (Err (Nul e), w))
    [topic_error m s err; create_topic m s n r; partition_leader m s p b; partition_follower m s p id;
     follower_watermarks m s p b b; broker_rack m id s; coordinator m (Transaction_ s) id;
     coordinator m (Group_ s) id].
Proof.
  unfold nul_free. destruct (nul_position s) as [i|] eqn:Es; [|done]. intros _.
  assert (mock_cstring (W := W) s = mret (Err (Nul (mkNulError i s)))) as Hc
    by (unfold mock_cstring, CString_new; by rewrite Es).
  repeat constructor; exists (mkNulError i s);
    unfold topic_error, create_topic, partition_leader, partition_follower, follower_watermarks, broker_rack,
      coordinator; by rewrite ?Hc.
Qed.

(** The round trip time is cut to the range of a C [int], in contrast to timeouts,
    which wrap: longer delays are never shorter for the broker. *)
Theorem mock_rtt_saturates d e : 0 ≤ d → d ≤ e →
  rtt_millis d = Z.min (duration_as_millis d) i32_max ∧ 0 ≤ rtt_millis d ≤ rtt_millis e.
Proof.
  intros Hd Hde. assert (∀ x, 0 ≤ x → rtt_millis x = Z.min (duration_as_millis x) i32_max) as Hr.
  { intros x Hx. unfold rtt_millis. assert (0 ≤ duration_as_millis x) by (apply Z.div_pos; done).
    unfold in_i32, i32_min, i32_max. case_bool_decide; lia. }
  rewrite !Hr by lia. assert (0 ≤ duration_as_millis d) by (apply Z.div_pos; done).
  assert (duration_as_millis d ≤ duration_as_millis e) by (apply Z.div_le_mono; done).
  unfold i32_max. lia.
Qed.

(** Every request key has its own number. *)
#[export] Instance api_key_into_inj : Inj (=) (=) api_key_into.
Proof. intros [] []; simpl; intros H; first [reflexivity | discriminate H]. Qed.
