(* ===== verification/Build.v ===== *)
(** * The build script of rdkafka-sys

    [rdkafka-sys/build.rs]: links an installed librdkafka, links a prebuilt one, or
    builds the bundled sources, with mklove or with CMake, with the optional
    libraries that the Cargo features ask for. The script reads and writes the
    environment, looks at files, runs commands and prints directives for Cargo; it
    ends, exits with a code, or panics. Files, commands, [pkg-config] and the [cmake]
    crate are the methods of [BuildWorld]. What is printed on standard error is left
    out, and so is what the commands and the two crates print themselves: the directives
    of this file are those that the script prints. Paths are those of Unix. *)

From Stdlib Require Import Ascii.
From stdpp Require Import strings gmap prelude.
From S2P Require Import Prelude.

Local Open Scope string_scope.
Local Open Scope list_scope.

(** ** Strings and paths *)

(** [str::split] at a character. *)
Fixpoint split_on (c : Ascii.ascii) (s : string) : list string :=
  match s with
  | EmptyString => [""]
  | String a s =>
      let l := split_on c s in
      if Ascii.eqb a c then "" :: l
      else match l with x :: l => String a x :: l | [] => [String a ""] end
  end.

Definition is_absolute (p : string) : bool := String.prefix "/" p.
Definition is_relative (p : string) : bool := negb (is_absolute p).

(** [Path::components().count()]: the root, a leading [.], and the names. *)
Definition component_count (p : string) : nat :=
  let parts := split_on "/"%char p in
  let names := filter (λ x, x ≠ "" ∧ x ≠ ".") parts in
  let lead := if is_absolute p then 1%nat else match parts with x :: _ => if String.eqb x "." then 1%nat else 0%nat | [] => 0%nat end in
  (lead + length names)%nat.

Definition ends_with_slash (p : string) : bool :=
  match last (String.list_ascii_of_string p) with Some a => Ascii.eqb a "/"%char | None => false end.

(** [Path::join]. *)
Definition path_join (dir p : string) : string :=
  if is_absolute p then p
  else if String.eqb dir "" || ends_with_slash dir then dir +:+ p
  else dir +:+ "/" +:+ p.

(** ** The world of the script *)

(** [cmake::Config] for the directory [librdkafka], as far as the script fills it in. *)
Record CmakeConfig := {
  defines : list (string * string);
  deps : list string;
  cmake_cflags : list string;
  cmake_cxxflags : list string;
}.

(** What is outside: files and the working directory, commands (whether one that could
    be run succeeded, and its exit code), the search of [pkg_config] for an installed
    librdkafka of at least a version, and [cmake::Config::build], which returns the
    directory it installed into, or fails. *)
Class BuildWorld (W : Type) := {
  path_exists : string → W → bool;
  set_current_dir : string → W → bool * W;
  canonicalize : string → W → option string;
  status : string → string → list string → gmap string string → W → result string (bool * option Z) * W;
  probe : string → W → bool;
  fs_copy : string → string → W → bool * W;
  cmake_build : CmakeConfig → gmap string string → W → option string * W;
}.

(** [canonicalize] returns an absolute path. *)
Class BuildWorldSpec (W : Type) `{!BuildWorld W} : Prop := {
  canonicalize_absolute p w q : canonicalize p w = Some q → is_absolute q = true;
}.

(** A command that was run: where, what, with which arguments and environment, and
    whether it succeeded. *)
Record Run := {
  dir : string;
  cmd : string;
  args : list string;
  run_env : gmap string string;
  succeeded : bool;
}.

(** A build with the [cmake] crate: with what, in which environment, and the directory
    that it installed into. *)
Record Made := { made_with : CmakeConfig; made_env : gmap string string; made_dst : option string }.

(** How the script can stop before its end. *)
Inductive Stop : Set :=
| Panicked (msg : string)
| Exited (code : Z).

Section build.
Context {W : Type} `{BW : !BuildWorld W}.

(** [stdout], [ran] and [made] are logs. *)
Record Sys := {
  env : gmap string string;
  world : W;
  stdout : list string;
  ran : list Run;
  made : list Made;
}.

Definition set_env (f : gmap string string → gmap string string) (s : Sys) : Sys :=
  {| env := f (env s); world := world s; stdout := stdout s; ran := ran s; made := made s |}.
Definition set_world (w : W) (s : Sys) : Sys :=
  {| env := env s; world := w; stdout := stdout s; ran := ran s; made := made s |}.

Definition script (A : Type) : Type := Sys → (Stop + A) * Sys.

#[global] Instance script_ret : MRet script := λ A a s, (inr a, s).
#[global] Instance script_bind : MBind script := λ A B k c s,
  match c s with (inr a, s') => k a s' | (inl e, s') => (inl e, s') end.

Definition stop {A} (e : Stop) : script A := λ s, (inl e, s).
Definition look {A} (f : Sys → A) : script A := λ s, (inr (f s), s).
Definition act {A} (f : W → A * W) : script A := λ s, let r := f (world s) in (inr r.1, set_world r.2 s).

Definition env_var (k : string) : script (option string) := look (λ s, env s !! k).
Definition set_var (k v : string) : script unit := λ s, (inr tt, set_env <[k := v]> s).
Definition println (l : string) : script unit := λ s,
  (inr tt, {| env := env s; world := world s; stdout := stdout s ++ [l]; ran := ran s; made := made s |}).
Definition exists_path (p : string) : script bool := look (λ s, path_exists p (world s)).

(** [Command::new(cmd).current_dir(dir).args(args).status()]. *)
Definition execute (d c : string) (a : list string) : script (result string (bool * option Z)) := λ s,
  let r := status d c a (env s) (world s) in
  (inr r.1, {| env := env s; world := r.2; stdout := stdout s;
               ran := ran s ++ [{| dir := d; cmd := c; args := a; run_env := env s;
                                   succeeded := match r.1 with Ok (b, _) => b | Err _ => false end |}];
               made := made s |}).

(** [config.build()]. *)
Definition config_build (c : CmakeConfig) : script (option string) := λ s,
  let r := cmake_build c (env s) (world s) in
  (inr r.1, {| env := env s; world := r.2; stdout := stdout s; ran := ran s;
               made := made s ++ [{| made_with := c; made_env := env s; made_dst := r.1 |}] |}).

Definition run_command_or_fail (d c : string) (a : list string) : script unit :=
  c' ← (if (1 <? component_count c)%nat && is_relative c then
          o ← look (λ s, canonicalize (path_join d c) (world s));
          match o with Some p => mret p | None => stop (Panicked "canonicalization failed") end
        else mret c);
  ret ← execute d c' a;
  match ret with
  | Ok (true, _) => mret tt
  | Ok (false, Some c) => stop (Panicked ("Command failed with error code " +:+ format_int c))
  | Ok (false, None) => stop (Panicked "Command got killed")
  | Err e => stop (Panicked ("Command failed with error: " +:+ e))
  end.

(** ** The flags of the mklove build *)

(** [env::var(..).is_ok()]. *)
Definition has (e : gmap string string) (k : string) : bool := bool_decide (is_Some (e !! k)).

Definition needs_curl (e : gmap string string) : bool :=
  has e "CARGO_FEATURE_CURL" || has e "CARGO_FEATURE_CURL_STATIC".

(** The three vectors that [build_librdkafka] fills. *)
Record Flags := { configure_flags : list string; cflags : list string; ldflags : list string }.

Definition push_configure (x : string) (f : Flags) : Flags :=
  {| configure_flags := configure_flags f ++ [x]; cflags := cflags f; ldflags := ldflags f |}.
Definition push_cflag (x : string) (f : Flags) : Flags :=
  {| configure_flags := configure_flags f; cflags := cflags f ++ [x]; ldflags := ldflags f |}.
Definition push_ldflag (x : string) (f : Flags) : Flags :=
  {| configure_flags := configure_flags f; cflags := cflags f; ldflags := ldflags f ++ [x] |}.

(** [if let Ok(v) = env::var(k)]. *)
Definition with_var (e : gmap string string) (k : string) (f : string → Flags → Flags) (x : Flags) : Flags :=
  match e !! k with Some v => f v x | None => x end.

Definition initial_flags (e : gmap string string) : Flags :=
  with_var e "LDFLAGS" push_ldflag (with_var e "CFLAGS" push_cflag
    {| configure_flags := []; cflags := []; ldflags := [] |}).

Definition ssl_flags (e : gmap string string) (x : Flags) : Flags :=
  if has e "CARGO_FEATURE_SSL" then
    with_var e "DEP_OPENSSL_ROOT"
      (λ openssl_root x, push_ldflag ("-L" +:+ openssl_root +:+ "/lib") (push_cflag ("-I" +:+ openssl_root +:+ "/include") x))
      (push_configure "--enable-ssl" x)
  else push_configure "--disable-ssl" x.

Definition gssapi_flags (e : gmap string string) (x : Flags) : Flags :=
  if has e "CARGO_FEATURE_GSSAPI" then
    with_var e "DEP_SASL2_ROOT"
      (λ sasl2_root x, push_ldflag ("-L" +:+ sasl2_root +:+ "/lib") (push_cflag ("-I" +:+ sasl2_root +:+ "/include") x))
      (push_configure "--enable-gssapi" x)
  else push_configure "--disable-gssapi" x.

Definition libz_flags (e : gmap string string) (x : Flags) : Flags :=
  if has e "CARGO_FEATURE_LIBZ" then
    with_var e "DEP_Z_ROOT"
      (λ z_root x, push_ldflag ("-L" +:+ z_root +:+ "/lib") (push_cflag ("-I" +:+ z_root +:+ "/include") x)) x
  else push_configure "--disable-zlib" x.

Definition curl_flags (e : gmap string string) (x : Flags) : Flags :=
  if needs_curl e then
    with_var e "DEP_CURL_ROOT"
      (λ curl_root x, push_cflag ("-I" +:+ curl_root +:+ "/include") (push_cflag "-DCURLSTATIC_LIB" x)) x
  else push_configure "--disable-curl" x.

Definition zstd_flags (e : gmap string string) (x : Flags) : Flags :=
  if has e "CARGO_FEATURE_ZSTD" then
    with_var e "DEP_ZSTD_ROOT"
      (λ zstd_root x, push_ldflag ("-L" +:+ zstd_root) (push_cflag ("-I" +:+ zstd_root +:+ "/include") x))
      (push_configure "--enable-zstd" x)
  else push_configure "--disable-zstd" x.

Definition lz4_flags (e : gmap string string) (x : Flags) : Flags :=
  if has e "CARGO_FEATURE_EXTERNAL_LZ4" then
    with_var e "DEP_LZ4_ROOT"
      (λ lz4_root x, push_ldflag ("-L" +:+ lz4_root) (push_cflag ("-I" +:+ lz4_root +:+ "/include") x))
      (push_configure "--enable-lz4-ext" x)
  else push_configure "--disable-lz4-ext" x.

Definition mklove_flags (e : gmap string string) : Flags :=
  lz4_flags e (zstd_flags e (curl_flags e (libz_flags e (gssapi_flags e (ssl_flags e (initial_flags e)))))).

(** [build_librdkafka] without the feature [cmake-build]. *)
Definition build_mklove (freebsd : bool) : script unit :=
  e ← look env;
  let flags := mklove_flags e in
  _ ← set_var "CFLAGS" (String.concat " " (cflags flags));
  _ ← set_var "LDFLAGS" (String.concat " " (ldflags flags));
  o ← env_var "OUT_DIR";
  match o with
  | None => stop (Panicked "OUT_DIR missing")
  | Some out_dir =>
      licensed ← exists_path (path_join out_dir "LICENSE");
      _ ← (if (licensed : bool) then mret tt
           else _ ← println "Cloning librdkafka"; run_command_or_fail "." "cp" ["-a"; "librdkafka/."; out_dir]);
      _ ← println "Configuring librdkafka";
      _ ← run_command_or_fail out_dir "./configure" (configure_flags flags);
      _ ← println "Compiling librdkafka";
      makeflags ← env_var "CARGO_MAKEFLAGS";
      _ ← match makeflags with Some m => set_var "MAKEFLAGS" m | None => mret tt end;
      _ ← run_command_or_fail out_dir (if freebsd then "gmake" else "make") ["libs"];
      _ ← println ("cargo:rustc-link-search=native=" +:+ out_dir +:+ "/src");
      _ ← println "cargo:rustc-link-lib=static=rdkafka";
      println ("cargo:root=" +:+ out_dir)
  end.

(** ** The CMake build *)

(** The configuration, and [cmake_library_paths]. *)
Record Cmake := { config : CmakeConfig; library_paths : list string }.

Definition define (k v : string) (c : Cmake) : Cmake :=
  {| config := {| defines := defines (config c) ++ [(k, v)]; deps := deps (config c);
                  cmake_cflags := cmake_cflags (config c); cmake_cxxflags := cmake_cxxflags (config c) |};
     library_paths := library_paths c |}.
Definition register_dep (d : string) (c : Cmake) : Cmake :=
  {| config := {| defines := defines (config c); deps := deps (config c) ++ [d];
                  cmake_cflags := cmake_cflags (config c); cmake_cxxflags := cmake_cxxflags (config c) |};
     library_paths := library_paths c |}.
(** [config.cflag(f); config.cxxflag(f)]. *)
Definition flag (f : string) (c : Cmake) : Cmake :=
  {| config := {| defines := defines (config c); deps := deps (config c);
                  cmake_cflags := cmake_cflags (config c) ++ [f];
                  cmake_cxxflags := cmake_cxxflags (config c) ++ [f] |};
     library_paths := library_paths c |}.
Definition push_path (p : string) (c : Cmake) : Cmake :=
  {| config := config c; library_paths := library_paths c ++ [p] |}.

Definition cmake_base : Cmake :=
  {| config :=
       {| defines := [("RDKAFKA_BUILD_STATIC", "1"); ("RDKAFKA_BUILD_TESTS", "0"); ("RDKAFKA_BUILD_EXAMPLES", "0");
                      ("CMAKE_INSTALL_LIBDIR", "lib"); ("CMAKE_POLICY_VERSION_MINIMUM", "3.5")];
          deps := []; cmake_cflags := []; cmake_cxxflags := [] |};
     library_paths := [] |}.

Definition cmake_libz (c : Cmake) : script Cmake :=
  e ← look env;
  mret (if has e "CARGO_FEATURE_LIBZ" then
          let c := register_dep "z" (define "WITH_ZLIB" "1" c) in
          match e !! "DEP_Z_ROOT" with Some z_root => push_path (z_root +:+ "/lib") c | None => c end
        else define "WITH_ZLIB" "0" c).

Definition cmake_curl (c : Cmake) : script Cmake :=
  e ← look env;
  if needs_curl e then
    let c := register_dep "curl" (define "WITH_CURL" "1" c) in
    match e !! "DEP_CURL_ROOT" with
    | None => mret c
    | Some curl_root =>
        let c := push_path (curl_root +:+ "/lib") (define "CURL_STATICLIB" "1" c) in
        let c := flag ("-L" +:+ curl_root +:+ "/lib") (flag ("-I" +:+ curl_root +:+ "/include") (flag "-DCURL_STATICLIB" c)) in
        ok ← act (fs_copy (curl_root +:+ "/build/libcurl.a") (curl_root +:+ "/lib/libcurl.a"));
        if (ok : bool) then mret c else stop (Panicked "called `Result::unwrap()` on an `Err` value")
    end
  else mret (define "WITH_CURL" "0" c).

Definition cmake_ssl (c : Cmake) : script Cmake :=
  e ← look env;
  mret (if has e "CARGO_FEATURE_SSL" then
          register_dep "openssl" (define "WITH_SASL_OAUTHBEARER" "1" (define "WITH_SASL_SCRAM" "1" (define "WITH_SSL" "1" c)))
        else define "WITH_SSL" "0" c).

Definition cmake_gssapi (c : Cmake) : script Cmake :=
  e ← look env;
  if has e "CARGO_FEATURE_GSSAPI" then
    let c := register_dep "sasl2" (define "WITH_SASL" "1" c) in
    match e !! "DEP_SASL2_ROOT" with
    | None => mret c
    | Some sasl2_root =>
        let c := push_path (sasl2_root +:+ "/lib") c in
        let c := flag ("-L" +:+ sasl2_root +:+ "/lib") (flag ("-I" +:+ sasl2_root +:+ "/include") c) in
        let existing := default "" (e !! "PKG_CONFIG_PATH") in
        let new_pkg_config_path := sasl2_root +:+ "/../sasl2" +:+ ":" +:+ existing in
        _ ← println ("Setting PKG_CONFIG_PATH to " +:+ new_pkg_config_path);
        _ ← set_var "PKG_CONFIG_PATH" new_pkg_config_path;
        mret c
    end
  else mret (define "WITH_SASL" "0" c).

Definition cmake_zstd (c : Cmake) : script Cmake :=
  e ← look env;
  mret (if has e "CARGO_FEATURE_ZSTD" then register_dep "zstd" (define "WITH_ZSTD" "1" c) else define "WITH_ZSTD" "0" c).

Definition cmake_lz4 (c : Cmake) : script Cmake :=
  e ← look env;
  mret (if has e "CARGO_FEATURE_EXTERNAL_LZ4" then register_dep "lz4" (define "ENABLE_LZ4_EXT" "1" c)
        else define "ENABLE_LZ4_EXT" "0" c).

(** [if let Ok(v) = env::var(k) { config.define(k, v); }]. *)
Definition cmake_define_var (k : string) (c : Cmake) : script Cmake :=
  v ← env_var k; mret (match v with Some v => define k v c | None => c end).

(** The configuration that the script builds up. *)
Definition configure_cmake : script Cmake :=
  c ← cmake_libz cmake_base;
  c ← cmake_curl c;
  c ← cmake_ssl c;
  c ← cmake_gssapi c;
  c ← cmake_zstd c;
  c ← cmake_lz4 c;
  c ← cmake_define_var "CMAKE_SYSTEM_NAME" c;
  cmake_define_var "CMAKE_MAKE_PROGRAM" c.

(** [build_librdkafka] with the feature [cmake-build]; [config.build()] panics when
    it fails. *)
Definition build_cmake : script unit :=
  c ← configure_cmake;
  _ ← (if bool_decide (library_paths c = []) then mret tt
       else set_var "CMAKE_LIBRARY_PATH" (String.concat ";" (library_paths c)));
  _ ← println "Configuring and compiling librdkafka";
  o ← config_build (config c);
  match o with
  | None => stop (Panicked "cmake failed")
  | Some dst =>
      _ ← println ("cargo:rustc-link-search=native=" +:+ dst +:+ "/lib");
      println "cargo:rustc-link-lib=static=rdkafka"
  end.

(** ** [main] *)

(** The compile-time configuration of the script. *)
Record Cfg := { pkg_version : string; freebsd : bool; cmake_feature : bool }.

Definition build_librdkafka (cfg : Cfg) : script unit :=
  if cmake_feature cfg then build_cmake else build_mklove (freebsd cfg).

(** The version of librdkafka in [X.Y.Z+RX.RY.RZ]. *)
Definition librdkafka_version (v : string) : option string :=
  match split_on "+"%char v with [_; x] => Some x | _ => None end.

Definition link_dynamic (cfg : Cfg) : script unit :=
  match librdkafka_version (pkg_version cfg) with
  | None => stop (Panicked "Version format is not valid")
  | Some v =>
      found ← look (λ s, probe v (world s));
      if (found : bool) then mret tt else stop (Exited 1)
  end.

Definition link_external : script unit :=
  o ← env_var "DEP_LIBRDKAFKA_STATIC_ROOT";
  match o with
  | Some rdkafka_dir =>
      _ ← println ("cargo:rustc-link-search=native=" +:+ rdkafka_dir +:+ "/src");
      _ ← println "cargo:rustc-link-lib=static=rdkafka";
      println ("cargo:root=" +:+ rdkafka_dir)
  | None => stop (Exited 1)
  end.

(** The directory is set, and the sources are fetched if they are missing. *)
Definition prepare : script unit :=
  inside ← exists_path "rdkafka-sys";
  _ ← (if (inside : bool) then
         ok ← act (set_current_dir "rdkafka-sys");
         if (ok : bool) then mret tt else stop (Panicked "assertion failed: env::set_current_dir(rdkafkasys_root).is_ok()")
       else mret tt);
  licensed ← exists_path "librdkafka/LICENSE";
  if (licensed : bool) then mret tt else run_command_or_fail "../" "git" ["submodule"; "update"; "--init"].

Definition main (cfg : Cfg) : script unit :=
  dynamic ← env_var "CARGO_FEATURE_DYNAMIC_LINKING";
  if bool_decide (is_Some dynamic) then link_dynamic cfg
  else
    external ← env_var "CARGO_FEATURE_STATIC_EXTERNAL";
    if bool_decide (is_Some external) then link_external
    else _ ← prepare; build_librdkafka cfg.

(** ** Logs *)

Definition is_directive (l : string) : bool := String.prefix "cargo:" l.
Definition directives (l : list string) : list string := filter (λ x, is_directive x = true) l.

(** The command is a name that is looked up, or an absolute path. *)
Definition safe_command (x : Run) : Prop := (component_count (cmd x) ≤ 1)%nat ∨ is_absolute (cmd x) = true.

Definition good_run (x : Run) : Prop := succeeded x = true ∧ safe_command x.

(** The commands of a script with the result [r]: all of them succeeded, or the
    last one failed and the script panicked. *)
Definition orderly_log {A} (r : Stop + A) (l : list Run) : Prop :=
  match r with
  | inr _ => Forall good_run l
  | inl e =>
      Forall good_run l
      ∨ ∃ l' x msg, l = l' ++ [x] ∧ Forall good_run l' ∧ succeeded x = false ∧ safe_command x ∧ e = Panicked msg
  end.

(** A part of the script that prints no directive and stops at the first failure. *)
Definition orderly {A} (c : script A) : Prop :=
  ∀ s r s', c s = (r, s') → ∃ l, ran s' = ran s ++ l ∧ directives (stdout s') = directives (stdout s)
    ∧ env s' !! "OUT_DIR" = env s !! "OUT_DIR" ∧ made s' = made s ∧ orderly_log r l.

Lemma orderly_log_cons {A} (r : Stop + A) l1 l2 : Forall good_run l1 → orderly_log r l2 → orderly_log r (l1 ++ l2).
Proof.
  intros H1 H2. destruct r as [e|a]; simpl in *; [|by apply Forall_app].
  destruct H2 as [H2|(l' & x & msg & -> & H2 & Hx)]; [left; by apply Forall_app|].
  right. exists (l1 ++ l'), x, msg. split; [by rewrite app_assoc|]. split; [by apply Forall_app|done].
Qed.

Ltac quiet := intros s r s' [= <- <-]; exists []; rewrite app_nil_r; split_and!; [done|done|done|done|constructor].

Lemma orderly_ret {A} (a : A) : orderly (mret a).
Proof. quiet. Qed.

Lemma orderly_stop {A} (e : Stop) : orderly (stop (A := A) e).
Proof. intros s r s' [= <- <-]. exists []. rewrite app_nil_r. split_and!; [done..|left; constructor]. Qed.

Lemma orderly_look {A} (f : Sys → A) : orderly (look f).
Proof. quiet. Qed.

Lemma orderly_act {A} (f : W → A * W) : orderly (act f).
Proof. quiet. Qed.

Lemma orderly_set_var k v : k ≠ "OUT_DIR" → orderly (set_var k v).
Proof. intros Hk s r s' [= <- <-]. exists []. rewrite app_nil_r. split_and!; [done|done| |done|constructor]. by apply lookup_insert_ne. Qed.

Lemma orderly_println l : is_directive l = false → orderly (println l).
Proof.
  intros Hl s r s' [= <- <-]. exists []. rewrite app_nil_r. split_and!; [done| |done|done|constructor].
  unfold directives. simpl. rewrite filter_app, filter_cons_False by congruence. by rewrite app_nil_r.
Qed.

Lemma orderly_bind {A B} (c : script A) (k : A → script B) : orderly c → (∀ a, orderly (k a)) → orderly (c ≫= k).
Proof.
  intros Hc Hk s r s'. unfold mbind, script_bind. destruct (c s) as [[e|a] s1] eqn:Hs.
  - intros [= <- <-]. by destruct (Hc _ _ _ Hs) as (l & Hr & Hd & He & Hm & Ho); exists l.
  - intros Hs'. destruct (Hc _ _ _ Hs) as (l & Hr & Hd & He & Hm & Ho).
    destruct (Hk a _ _ _ Hs') as (l' & Hr' & Hd' & He' & Hm' & Ho').
    exists (l ++ l'). rewrite Hr', Hr, app_assoc, Hd', Hd, He', He, Hm', Hm. split_and!; [done..|]. by apply orderly_log_cons.
Qed.

Lemma orderly_run `{!BuildWorldSpec W} d c a : orderly (run_command_or_fail d c a).
Proof.
  unfold run_command_or_fail.
  assert (∀ c', (component_count c' ≤ 1)%nat ∨ is_absolute c' = true → orderly (
    ret ← execute d c' a;
    match ret with
    | Ok (true, _) => mret tt
    | Ok (false, Some c) => stop (Panicked ("Command failed with error code " +:+ format_int c))
    | Ok (false, None) => stop (Panicked "Command got killed")
    | Err e => stop (Panicked ("Command failed with error: " +:+ e))
    end)) as Hx.
  { intros c' Hc' s r s'. unfold mbind, script_bind, execute. simpl.
    destruct (status d c' a (env s) (world s)) as [[[[] o]|e] w]; simpl; [|destruct o as [z|]|];
      intros [= <- <-]; eexists; (split; [reflexivity|split; [done|split; [done|split; [done|]]]]); simpl.
    - constructor; [|constructor]. by split.
    - right. by exists [], {| dir := d; cmd := c'; args := a; run_env := env s; succeeded := false |}; eexists.
    - right. by exists [], {| dir := d; cmd := c'; args := a; run_env := env s; succeeded := false |}; eexists.
    - right. by exists [], {| dir := d; cmd := c'; args := a; run_env := env s; succeeded := false |}; eexists. }
  destruct ((1 <? component_count c)%nat && is_relative c) eqn:Hc.
  - intros s r s'. unfold mbind at 1, script_bind at 1, look, mbind at 1, script_bind at 1.
    destruct (canonicalize (path_join d c) (world s)) as [p|] eqn:Hp.
    + apply Hx. right. by eapply canonicalize_absolute.
    + intros [= <- <-]. exists []. rewrite app_nil_r. split_and!; [done..|left; constructor].
  - apply (Hx c). apply andb_false_iff in Hc as [Hc|Hc].
    + left. apply Nat.ltb_ge in Hc. done.
    + right. unfold is_relative in Hc. by apply negb_false_iff in Hc.
Qed.

(** ** What is printed at the end *)

(** What a script that reaches its end leaves, given [OUT_DIR]: the builds with CMake
    and the directives. *)
Implicit Type D : option string → list Made → list string → Prop.

(** A script that is orderly, and leaves [D] if it reaches its end. *)
Definition emits (c : script unit) D : Prop :=
  ∀ s r s', c s = (r, s') → ∃ l, ran s' = ran s ++ l ∧ orderly_log r l
    ∧ match r with
      | inl _ => directives (stdout s') = directives (stdout s)
      | inr _ => ∃ ms ds, made s' = made s ++ ms ∧ directives (stdout s') = directives (stdout s) ++ ds
                   ∧ D (env s !! "OUT_DIR") ms ds
      end.

Lemma emits_bind {A} (c : script A) (k : A → script unit) D : orderly c → (∀ a, emits (k a) D) → emits (c ≫= k) D.
Proof.
  intros Hc Hk s r s'. unfold mbind, script_bind. destruct (c s) as [[e|a] s1] eqn:Hs.
  - intros [= <- <-]. destruct (Hc _ _ _ Hs) as (l & Hr & Hd & _ & _ & Ho). by exists l.
  - intros Hs'. destruct (Hc _ _ _ Hs) as (l & Hr & Hd & He & Hm & Ho). destruct (Hk a _ _ _ Hs') as (l' & Hr' & Ho' & Hd').
    exists (l ++ l'). rewrite Hr', Hr, app_assoc. split_and!; [done|by apply orderly_log_cons|].
    by rewrite <- Hd, <- He, <- Hm.
Qed.

Lemma emits_out_dir (k : option string → script unit) D :
  (∀ o, emits (k o) (λ _ ms ds, D o ms ds)) → emits (env_var "OUT_DIR" ≫= k) D.
Proof. intros Hk s r s' Hs. exact (Hk _ s r s' Hs). Qed.

Lemma emits_stop e D : emits (stop e) D.
Proof. intros s r s' [= <- <-]. exists []. rewrite app_nil_r. split_and!; [done|left; constructor|done]. Qed.

(** A build with CMake, and what the script does with the directory. *)
Lemma emits_build c (k : option string → script unit) D :
  (∀ dst, emits (k dst) (λ o ms ds, ∀ e, D o ({| made_with := c; made_env := e; made_dst := dst |} :: ms) ds)) →
  emits (config_build c ≫= k) D.
Proof.
  intros Hk s r s' Hs. destruct (Hk _ _ r s' Hs) as (l & Hl & Ho & Hd). exists l. split_and!; [done..|].
  destruct r; [done|]. destruct Hd as (ms & ds & Hm & Hd & HD). eexists _, ds. split; [|split; [done|apply HD]].
  rewrite Hm. simpl. by rewrite <- app_assoc.
Qed.

(** A line that is a directive, and the rest. *)
Lemma emits_println l (k : unit → script unit) D : is_directive l = true →
  emits (k tt) (λ o ms ds, D o ms (l :: ds)) → (∀ s, ∃ s', k tt s = (inr tt, s')) → emits (println l ≫= k) D.
Proof.
  intros Hl Hk Hend s r s' Hs. unfold mbind, script_bind, println in Hs.
  set (s1 := {| env := env s; world := world s; stdout := stdout s ++ [l]; ran := ran s; made := made s |}) in Hs.
  destruct (Hend s1) as [s2 He]. destruct (Hk s1 r s' Hs) as (l' & Hr & Ho & Hd). exists l'. split_and!; [done..|].
  rewrite Hs in He. injection He as -> <-. destruct Hd as (ms & ds & Hm & Hd & HD). exists ms, (l :: ds).
  split; [done|]. split; [|done].
  rewrite Hd. unfold s1, directives. simpl. rewrite filter_app, filter_cons_True by done. by rewrite <- app_assoc.
Qed.

Lemma emits_last l D : is_directive l = true → (∀ o, D o [] [l]) → emits (println l) D.
Proof.
  intros Hl HD s r s' [= <- <-]. exists []. rewrite app_nil_r. split_and!; [done|constructor|]. exists [], [l].
  rewrite app_nil_r. unfold directives. simpl. by rewrite filter_app, filter_cons_True by done.
Qed.

Ltac orderly :=
  repeat first
    [ progress intros
    | apply orderly_run
    | apply orderly_bind
    | apply orderly_ret | apply orderly_stop | apply orderly_look | apply orderly_act
    | apply orderly_set_var; discriminate
    | apply orderly_println; reflexivity
    | lazymatch goal with
      | |- orderly (if ?b then _ else _) => destruct b
      | |- orderly (match ?x with _ => _ end) => destruct x
      end ].

(** The directives that link a library in [dir/sub]. *)
Definition links (d sub : string) (root : bool) : list string :=
  ["cargo:rustc-link-search=native=" +:+ d +:+ sub; "cargo:rustc-link-lib=static=rdkafka"]
  ++ (if root then ["cargo:root=" +:+ d] else []).

Section triples.
Context `{!BuildWorldSpec W}.

Lemma orderly_prepare : orderly prepare.
Proof. unfold prepare, exists_path. orderly. Qed.

Lemma emits_links d sub D : (∀ o, D o [] (links d sub true)) →
  emits (_ ← println ("cargo:rustc-link-search=native=" +:+ d +:+ sub);
         _ ← println "cargo:rustc-link-lib=static=rdkafka";
         println ("cargo:root=" +:+ d)) D.
Proof.
  intros HD. apply emits_println; [done| |by eexists]. apply emits_println; [done| |by eexists].
  apply emits_last; [done|]. intros o. apply HD.
Qed.

Lemma emits_mklove fb : emits (build_mklove fb) (λ o ms ds, ∃ out, o = Some out ∧ ds = links out "/src" true).
Proof.
  unfold build_mklove. do 3 (apply emits_bind; [orderly|intros ?]). apply emits_out_dir. intros [out|]; [|apply emits_stop].
  apply emits_bind; [unfold exists_path; orderly|intros lic].
  do 4 (apply emits_bind; [orderly|intros ?]). apply emits_bind; [unfold env_var; orderly|intros mf].
  do 2 (apply emits_bind; [orderly|intros ?]). apply emits_links. eauto.
Qed.

Lemma orderly_configure_cmake : orderly configure_cmake.
Proof.
  unfold configure_cmake, cmake_libz, cmake_curl, cmake_ssl, cmake_gssapi, cmake_zstd, cmake_lz4, cmake_define_var, env_var.
  orderly.
Qed.

Lemma emits_cmake : emits build_cmake (λ _ ms ds, ∃ m dst, ms = [m] ∧ made_dst m = Some dst ∧ ds = links dst "/lib" false).
Proof.
  unfold build_cmake. apply emits_bind; [apply orderly_configure_cmake|intros c].
  do 2 (apply emits_bind; [orderly|intros ?]). apply emits_build. intros [dst|]; [|apply emits_stop].
  apply emits_println; [done| |by eexists]. apply emits_last; [done|]. intros o e. by do 2 eexists.
Qed.

End triples.

(** ** The reference for the flags *)



















(** ** The commands of the mklove build *)












(** ** The reference for the CMake configuration *)



























(** ** The theorems *)

Lemma has_env_var k s : bool_decide (is_Some (env s !! k)) = has (env s) k.
Proof. done. Qed.

(** The directives that the script has printed when it has succeeded, given its builds
    with CMake. *)
Definition linked (cfg : Cfg) (e : gmap string string) (ms : list Made) (ds : list string) : Prop :=
  if has e "CARGO_FEATURE_DYNAMIC_LINKING" then ds = []
  else if has e "CARGO_FEATURE_STATIC_EXTERNAL" then
    ∃ root, e !! "DEP_LIBRDKAFKA_STATIC_ROOT" = Some root ∧ ds = links root "/src" true
  else if cmake_feature cfg then ∃ m dst, ms = [m] ∧ made_dst m = Some dst ∧ ds = links dst "/lib" false
  else ∃ out, e !! "OUT_DIR" = Some out ∧ ds = links out "/src" true.

Lemma emits_external : ∀ s r s', link_external s = (r, s') → ran s' = ran s ∧
  match r with
  | inl _ => directives (stdout s') = directives (stdout s)
  | inr _ => ∃ root, env s !! "DEP_LIBRDKAFKA_STATIC_ROOT" = Some root
               ∧ directives (stdout s') = directives (stdout s) ++ links root "/src" true
  end.
Proof.
  intros s r s'. unfold link_external, env_var, println, mbind, script_bind, look. destruct (env s !! _) as [root|] eqn:Hr; intros [= <- <-]; [|done].
  split; [done|]. exists root. split; [done|]. unfold directives. simpl. rewrite !filter_app, <- !app_assoc.
  by rewrite !filter_cons_True, !filter_nil by done.
Qed.

Lemma main_linked `{!BuildWorldSpec W} cfg s r s' : main cfg s = (r, s') → stdout s = [] → ran s = [] → made s = [] →
  orderly_log r (ran s')
  ∧ match r with
    | inl _ => directives (stdout s') = []
    | inr _ => linked cfg (env s) (made s') (directives (stdout s'))
    end.
Proof.
  unfold main, linked. unfold mbind at 1, script_bind at 1, env_var at 1, look at 1. rewrite has_env_var. case_match.
  - unfold link_dynamic, mbind, script_bind, look, stop, mret, script_ret. intros Hs Ho Hr _.
    repeat case_match; simplify_eq/=; rewrite Ho, Hr; split; try done; by left.
  - unfold mbind at 1, script_bind at 1, env_var at 1, look at 1. rewrite has_env_var. case_match.
    + intros Hs Ho Hr _. destruct (emits_external _ _ _ Hs) as [Hr' Hd]. rewrite Hr', Hr. rewrite Ho in Hd. destruct r.
      * split; [by left|done].
      * split; [constructor|]. destruct Hd as (root & -> & ->). by exists root.
    + intros Hs Ho Hr Hma. assert (emits (prepare ≫= λ _, build_librdkafka cfg) (λ o ms ds,
        if cmake_feature cfg then ∃ m dst, ms = [m] ∧ made_dst m = Some dst ∧ ds = links dst "/lib" false
        else ∃ out, o = Some out ∧ ds = links out "/src" true)) as Hm.
      { apply emits_bind; [apply orderly_prepare|]. intros _. unfold build_librdkafka. destruct (cmake_feature cfg).
        - apply emits_cmake.
        - apply emits_mklove. }
      destruct (Hm s r s' Hs) as (l & Hl & Hlog & Hd). rewrite Hr in Hl. rewrite Ho in Hd. rewrite Hl. split; [done|].
      destruct r; [done|]. destruct Hd as (ms & ds & -> & -> & HD). by rewrite Hma.
Qed.



End build.

(** ** A simulated world *)

(** The paths that exist and the commands that fail. *)
Record BuildSim := { present : list string; failing : list string }.

#[export] Instance bsim : BuildWorld BuildSim := {|
  path_exists p w := bool_decide (p ∈ present w);
  set_current_dir _ w := (true, w);
  canonicalize p w := Some (if is_absolute p then p else "/" +:+ p);
  status _ c _ _ w := (Ok (if bool_decide (c ∈ failing w) then (false, Some 2%Z) else (true, Some 0%Z)), w);
  probe _ _ := true;
  fs_copy _ _ w := (true, w);
  cmake_build _ _ w := (Some "/out", w);
|}.

#[export] Instance bsim_spec : BuildWorldSpec BuildSim.
Proof. constructor. intros p w q [= <-]. destruct (is_absolute p) eqn:Hp; [done|]. by destruct p. Qed.

(** The script started in an environment. *)
Definition started (e : list (string * string)) (w : BuildSim) : Sys :=
  {| env := list_to_map e; world := w; stdout := []; ran := []; made := [] |}.

Definition demo_cfg (cmake : bool) : Cfg := {| pkg_version := "4.8.0+2.8.0"; freebsd := false; cmake_feature := cmake |}.
Definition demo_env : list (string * string) :=
  [("OUT_DIR", "/t"); ("CARGO_FEATURE_SSL", "1"); ("DEP_OPENSSL_ROOT", "/ssl"); ("CFLAGS", "-O2")].

(** C17: The build script is orderly: it runs commands one after the other and stops
    at the first that fails, with a panic; every command it runs is a bare name or an
    absolute path; it prints a directive for Cargo only if it succeeds, and then the
    directives that link the library it found or built: none of its own with dynamic
    linking, the prebuilt library's directory with an external one, the directory that
    its one CMake build returned as the place of installation, or [OUT_DIR]. *)
Theorem build_script_safe {W} `{!BuildWorld W, !BuildWorldSpec W} cfg (s : Sys) r s' :
  main cfg s = (r, s') → stdout s = [] → ran s = [] → made s = [] →
  orderly_log r (ran s')
  ∧ match r with
    | inl _ => directives (stdout s') = []
    | inr _ => linked cfg (env s) (made s') (directives (stdout s'))
    end.
Proof. apply main_linked. Qed.

Lemma build_script_safe_witness :
  (main (demo_cfg false) (started demo_env {| present := ["librdkafka/LICENSE"]; failing := ["make"] |})).1
    = inl (Panicked "Command failed with error code 2")
  ∧ let s := started demo_env {| present := ["librdkafka/LICENSE"]; failing := ["make"] |} in
    let rs := main (demo_cfg false) s in
    length (ran rs.2) = 3%nat ∧ orderly_log rs.1 (ran rs.2) ∧ directives (stdout rs.2) = [].
Proof.
  split; [vm_compute; reflexivity|]. intros s rs.
  split; [vm_compute; reflexivity|].
  destruct (build_script_safe (demo_cfg false) s rs.1 rs.2 (surjective_pairing _) eq_refl eq_refl eq_refl) as [Ho _].
  split; [exact Ho|vm_compute; reflexivity].
Defined.


