(* ===== verification/Runtime.v ===== *)
(** * Asynchronous runtimes

    The trait [AsyncRuntime] of [src/util.rs] and its implementation [NaiveRuntime]:
    [spawn] starts a thread that runs [futures_executor::block_on] on the task, and
    [delay_for] starts a thread that sleeps and then sends on a one-shot channel whose
    receiver is the future.

    The executor is not modelled: [block_on] is a parameter, and the futures of the
    delays may be polled by any task at any time, and dropped. The channel of
    [futures_channel] is a parameter too, with its documented behaviour in
    [ChannelSpec]. The threads of the delays, the tasks that poll and the clock form a
    step relation. *)

From stdpp Require Import list prelude.
From S2P Require Import Prelude Util.

Local Open Scope Z_scope.

(** ** One-shot channels *)

(** The sender of [()] and the receiver, with the task that last polled it. [send]
    consumes the sender, and returns the task that it wakes; [drop_rx] drops the
    receiver. *)
Class Channel (C : Type) := {
  channel : C;
  send : C → option nat * C;
  poll : nat → C → option (result unit unit) * C;
  drop_rx : C → C;
}.

Inductive ChannelView : Set :=
| Open (waker : option nat)
| Sent
| Closed.

Class ChannelSpec (C : Type) `{!Channel C} := {
  view : C → ChannelView;
  view_channel : view channel = Open None;
  send_open c w : view c = Open w → (send c).1 = w ∧ view (send c).2 = Sent;
  send_closed c : view c = Closed → (send c).1 = None ∧ view (send c).2 = Closed;
  poll_open c w i : view c = Open w → (poll i c).1 = None ∧ view (poll i c).2 = Open (Some i);
  poll_sent c i : view c = Sent → (poll i c).1 = Some (Ok tt);
  view_drop_rx c : view (drop_rx c) = Closed;
}.

(** ** Delays *)

(** The thread of a delay: before and during [thread::sleep], and after [send]. *)
Inductive timer : Type :=
| Starting (d : Z)
| Sleeping (wake_at : Z)
| Ended.

(** The future of a delay: not ready yet, ready at a time, or dropped. *)
Inductive future : Type :=
| Pending
| Completed (at_ : Z)
| Dropped.

(** A call of [delay_for]: its channel, its thread and its future. The last three
    fields record the call's time and argument, and the task that last found the
    delay pending and has not been woken since; no step depends on them. *)
Record delay (C : Type) := {
  chan : C;
  clockwork : timer;
  fut : future;
  asked_at : Z;
  duration : Z;
  parked : option nat;
}.
Arguments chan {C}.
Arguments clockwork {C}.
Arguments fut {C}.
Arguments asked_at {C}.
Arguments duration {C}.
Arguments parked {C}.

(** The clock, the delays, and what the threads of [spawn] run. *)
Record runtime (C B : Type) := { now : Z; delays : list (delay C); spawned : list B }.
Arguments now {C B}.
Arguments delays {C B}.
Arguments spawned {C B}.

(** The trait [AsyncRuntime], on a state. *)
Class AsyncRuntime (S Task Delay : Type) := {
  rt_spawn : Task → S → S;
  rt_delay_for : Z → S → Delay * S;
}.

Section runtime.
Context {C : Type} `{!Channel C} {Task B : Type} (block_on : Task → B).

Definition set_delay (c : nat) (x : delay C) (s : runtime C B) : runtime C B :=
  {| now := now s; delays := <[c := x]> (delays s); spawned := spawned s |}.

Definition tick (t : Z) (s : runtime C B) : runtime C B :=
  {| now := t; delays := delays s; spawned := spawned s |}.

(** [NaiveRuntime::spawn]. *)
Definition spawn (task : Task) (s : runtime C B) : runtime C B :=
  {| now := now s; delays := delays s; spawned := spawned s ++ [block_on task] |}.

(** [NaiveRuntime::delay_for]: the future, and the state with the channel and the new
    thread. *)
Definition delay_for (d : Z) (s : runtime C B) : nat * runtime C B :=
  (length (delays s),
   {| now := now s; spawned := spawned s;
      delays := delays s ++ [{| chan := channel; clockwork := Starting d; fut := Pending;
                                asked_at := now s; duration := d; parked := None |}] |}).

#[export] Instance NaiveRuntime : AsyncRuntime (runtime C B) Task nat :=
  {| rt_spawn := spawn; rt_delay_for := delay_for |}.

(** The poll of the future of [delay_for], [rx.map(|_| ())], by the task [i]. *)
Definition poll_delay (i : nat) (now : Z) (x : delay C) : bool * delay C :=
  let r := poll i (chan x) in
  let ready := match r.1 with Some (Ok _) | Some (Err _) => true | None => false end in
  (ready,
   {| chan := r.2; clockwork := clockwork x; fut := if ready then Completed now else fut x;
      asked_at := asked_at x; duration := duration x; parked := if ready then None else Some i |}).

(** The two steps of the thread of [delay_for]: [thread::sleep] begins, and [tx.send]
    after it, whose result is ignored. *)
Definition timer_start (x : delay C) (d : Z) (now : Z) : delay C :=
  {| chan := chan x; clockwork := Sleeping (now + d); fut := fut x;
     asked_at := asked_at x; duration := duration x; parked := parked x |}.
Definition timer_send (x : delay C) : option nat * delay C :=
  let r := send (chan x) in
  (r.1, {| chan := r.2; clockwork := Ended; fut := fut x; asked_at := asked_at x; duration := duration x;
           parked := if decide (parked x = r.1) then None else parked x |}).

(** The future is dropped, and with it the receiver. *)
Definition drop_delay (x : delay C) : delay C :=
  {| chan := drop_rx (chan x); clockwork := clockwork x; fut := Dropped;
     asked_at := asked_at x; duration := duration x; parked := None |}.

(** The steps of the thread of the delay [c], and of the clock. *)
Inductive own (c : nat) : runtime C B → runtime C B → Prop :=
| own_start x d s : delays s !! c = Some x → clockwork x = Starting d →
    own c s (set_delay c (timer_start x d (now s)) s)
| own_send x t s : delays s !! c = Some x → clockwork x = Sleeping t → t ≤ now s →
    own c s (set_delay c (timer_send x).2 s)
| own_tick t s : now s ≤ t → own c s (tick t s).

Inductive step : runtime C B → runtime C B → Prop :=
| step_spawn task s : step s (spawn task s)
| step_delay_for d s : 0 ≤ d → step s (delay_for d s).2
| step_poll c x i s : delays s !! c = Some x → fut x = Pending → step s (set_delay c (poll_delay i (now s) x).2 s)
| step_drop c x s : delays s !! c = Some x → step s (set_delay c (drop_delay x) s)
| step_own c s s' : own c s s' → step s s'.

Definition start (t : Z) : runtime C B := {| now := t; delays := []; spawned := [] |}.

(** ** The invariant *)

Context `{!ChannelSpec C}.

Definition due (x : delay C) : Z := asked_at x + duration x.

(** What the thread has still to do: to sleep until the delay is due, but no longer
    than the delay from now. *)
Definition timer_ok (now : Z) (x : delay C) : Prop :=
  match clockwork x with
  | Starting d => d = duration x
  | Sleeping t => due x ≤ t ∧ t ≤ now + duration x
  | Ended => due x ≤ now
  end.

(** What the channel holds: the task that is parked, until the thread sends. *)
Definition chan_ok (x : delay C) : Prop :=
  match fut x with
  | Pending => match clockwork x with
      | Ended => view (chan x) = Sent ∧ parked x = None
      | _ => view (chan x) = Open (parked x)
      end
  | Completed t => due x ≤ t ∧ clockwork x = Ended ∧ parked x = None
  | Dropped => view (chan x) = Closed ∧ parked x = None
  end.

Record delay_ok (now : Z) (x : delay C) : Prop := {
  ok_duration : 0 ≤ duration x;
  ok_asked : asked_at x ≤ now;
  ok_timer : timer_ok now x;
  ok_chan : chan_ok x;
}.

Definition wf (s : runtime C B) : Prop := ∀ c x, delays s !! c = Some x → delay_ok (now s) x.

Lemma wf_set_delay s c x : wf s → delay_ok (now s) x → wf (set_delay c x s).
Proof.
  intros Hw Hx c' y Hy. apply list_lookup_insert_Some in Hy as [(-> & <- & _)|[_ Hy]]; [done|]. by apply (Hw c').
Qed.

Lemma delay_ok_tick t t' x : t ≤ t' → delay_ok t x → delay_ok t' x.
Proof.
  intros Ht [H1 H2 H3 H4]. split; [done|lia| |done]. unfold timer_ok in *. destruct (clockwork x); [done|lia|lia].
Qed.

Lemma new_delay_ok d t : 0 ≤ d → delay_ok t
  {| chan := channel; clockwork := Starting d; fut := Pending; asked_at := t; duration := d; parked := None |}.
Proof. intros Hd. split; [done|done|done|apply view_channel]. Qed.

(** A poll: ready if the thread has sent, and else the task is parked. *)
Lemma poll_delay_cases t i x : delay_ok t x → fut x = Pending →
  delay_ok t (poll_delay i t x).2
  ∧ (poll_delay i t x).1 = match clockwork x with Ended => true | _ => false end.
Proof.
  intros [H1 H2 H3 H4] Hf. unfold chan_ok, timer_ok in H3, H4. rewrite Hf in H4. unfold poll_delay.
  destruct (clockwork x) as [d|u|] eqn:Hc.
  - destruct (poll_open _ _ i H4) as [-> Hv]. simpl. split; [|done].
    split; [done..|]. unfold chan_ok. simpl. by rewrite Hf.
  - destruct (poll_open _ _ i H4) as [-> Hv]. simpl. split; [|done].
    split; [done..|]. unfold chan_ok. simpl. by rewrite Hf.
  - rewrite (poll_sent _ i (proj1 H4)). simpl. split; [|done].
    split; [done..|]. done.
Qed.

Lemma drop_delay_ok t x : delay_ok t x → delay_ok t (drop_delay x).
Proof. intros [H1 H2 H3 H4]. split; [done..|]. split; [apply view_drop_rx|done]. Qed.

Lemma timer_start_ok t x d : delay_ok t x → clockwork x = Starting d → delay_ok t (timer_start x d t).
Proof.
  intros [H1 H2 H3 H4] Hc. unfold timer_ok in H3. rewrite Hc in H3. subst d. split; [done|done| |].
  - unfold timer_ok, due. simpl. lia.
  - unfold chan_ok in *. rewrite Hc in H4. simpl. destruct (fut x); [done|by destruct H4 as (_ & ? & _)|done].
Qed.

(** The thread sends: the task that is parked is the one that is woken. *)
Lemma timer_send_ok t u x : delay_ok t x → clockwork x = Sleeping u → u ≤ t →
  delay_ok t (timer_send x).2 ∧ (fut x = Pending → (timer_send x).1 = parked x ∧ view (chan (timer_send x).2) = Sent).
Proof.
  intros [H1 H2 H3 H4] Hc Hu. unfold timer_ok in H3. rewrite Hc in H3. unfold timer_send. unfold chan_ok in H4.
  rewrite Hc in H4. destruct (fut x) as [|v|] eqn:Hf; [|by destruct H4 as (_ & ? & _)|].
  - destruct (send_open _ _ H4) as [-> Hv]. simpl. split; [|done]. split; [done|done|unfold timer_ok, due in *; simpl; lia|].
    unfold chan_ok. simpl. by rewrite decide_True.
  - destruct H4 as [H4 Hp]. destruct (send_closed _ H4) as [-> Hv]. simpl. split; [|done].
    split; [done|done|unfold timer_ok, due in *; simpl; lia|]. unfold chan_ok. simpl. by rewrite decide_True.
Qed.

Lemma own_wf c s s' : own c s s' → wf s → wf s'.
Proof.
  intros [x d s1 Hx Hc|x t s1 Hx Hc Ht|t s1 Ht] Hw.
  - apply wf_set_delay; [done|]. apply timer_start_ok; [by apply (Hw c)|done].
  - apply wf_set_delay; [done|]. by eapply timer_send_ok; [apply (Hw c)|..].
  - intros c' x Hx. eapply delay_ok_tick; [done|]. by apply (Hw c').
Qed.

Lemma step_wf s s' : step s s' → wf s → wf s'.
Proof.
  intros [task s1|d s1 Hd|c x i s1 Hx Hf|c x s1 Hx|c s1 s2 Ho] Hw.
  - done.
  - intros c x Hx. apply lookup_app_Some in Hx as [Hx|[_ Hx]]; [by apply (Hw c)|].
    apply list_lookup_singleton_Some in Hx as [_ <-]. by apply new_delay_ok.
  - apply wf_set_delay; [done|]. by apply poll_delay_cases; [apply (Hw c)|].
  - apply wf_set_delay; [done|]. by apply drop_delay_ok, (Hw c).
  - by eapply own_wf.
Qed.

Lemma reachable_wf t s : rtc step (start t) s → wf s.
Proof.
  intros Hs. assert (wf (start t)) as Hw by (by intros c x Hx). revert Hw. induction Hs; eauto using step_wf.
Qed.

(** ** A delay comes to its end *)

Lemma lookup_set_delay s c x y : delays s !! c = Some x → delays (set_delay c y s) !! c = Some y.
Proof. intros Hx. simpl. apply list_lookup_insert_eq. by eapply lookup_lt_Some. Qed.

(** What the thread of a delay makes of it without help. *)
Definition completes (s : runtime C B) (c : nat) (x : delay C) : Prop :=
  ∃ s' x', rtc (own c) s s' ∧ now s' ≤ now s + duration x ∧ delays s' !! c = Some x' ∧ fut x' = Pending
    ∧ parked x' = None ∧ ∀ i, (poll_delay i (now s') x').1 = true.

Lemma sleeping_completes s c x u : wf s → delays s !! c = Some x → fut x = Pending → clockwork x = Sleeping u →
  completes s c x.
Proof.
  intros Hw Hx Hf Hc. pose proof (Hw c x Hx) as Hok. pose proof (ok_timer _ _ Hok) as Ht. unfold timer_ok in Ht.
  rewrite Hc in Ht. pose proof (ok_duration _ _ Hok) as Hd. set (s1 := tick (Z.max (now s) u) s).
  assert (own c s s1) as H1 by (apply own_tick; lia). pose proof (own_wf _ _ _ H1 Hw c x Hx) as Hok1.
  assert (u ≤ now s1) as Hu by (simpl; lia). destruct (timer_send_ok _ u x Hok1 Hc Hu) as [Hok2 _].
  assert (own c s1 (set_delay c (timer_send x).2 s1)) as H2 by (by eapply own_send).
  exists (set_delay c (timer_send x).2 s1), (timer_send x).2.
  split; [by eapply rtc_l, rtc_once|]. split; [simpl; lia|]. split; [by eapply lookup_set_delay|]. split; [done|].
  split; [|intros i; exact (proj2 (poll_delay_cases _ i _ Hok2 Hf))].
  pose proof (ok_chan _ _ Hok2) as Hch. unfold chan_ok in Hch. simpl in Hch. rewrite Hf in Hch. by destruct Hch.
Qed.

Lemma pending_completes s c x : wf s → delays s !! c = Some x → fut x = Pending → completes s c x.
Proof.
  intros Hw Hx Hf. pose proof (Hw c x Hx) as Hok. destruct (clockwork x) as [d|u|] eqn:Hc.
  - assert (own c s (set_delay c (timer_start x d (now s)) s)) as H1 by (by apply own_start).
    destruct (sleeping_completes (set_delay c (timer_start x d (now s)) s) c (timer_start x d (now s)) (now s + d))
      as (s' & x' & Hs & Hrest); [by eapply own_wf|by eapply lookup_set_delay|done..|].
    exists s', x'. split; [by eapply rtc_l|done].
  - by eapply sleeping_completes.
  - exists s, x. pose proof (ok_duration _ _ Hok). pose proof (ok_chan _ _ Hok) as Hch. unfold chan_ok in Hch.
    rewrite Hf, Hc in Hch. split; [done|]. split; [lia|]. split; [done|]. split; [done|]. split; [by destruct Hch|].
    intros i. rewrite (proj2 (poll_delay_cases _ i _ Hok Hf)). by rewrite Hc.
Qed.

End runtime.

(** ** A simulated channel *)

#[export] Instance view_channel_ops : Channel ChannelView := {|
  channel := Open None;
  send c := match c with Open w => (w, Sent) | _ => (None, c) end;
  poll i c := match c with Open _ => (None, Open (Some i)) | _ => (Some (Ok tt), c) end;
  drop_rx _ := Closed;
|}.

#[export, refine] Instance view_channel_spec : ChannelSpec ChannelView := {| view c := c |}.
Proof. all: by intros; simplify_eq/=. Defined.

(** ** The property *)

(** C19: the delays of [NaiveRuntime]. However tasks are spawned, and delays asked for,
    polled by any tasks and dropped, while the threads of the delays and the clock run:
    a delay is never ready before its duration has passed since [delay_for]; a task that
    found it pending is not forgotten, for once the thread of the delay has sent no task
    is left parked on it, and the next poll is ready; and from every state a pending
    delay can become ready by the steps of its own thread alone, whatever the tasks do,
    while the clock moves by no more than the duration. *)
Theorem naive_delay_correct {C} `{!Channel C, !ChannelSpec C} {Task B : Type} (block_on : Task → B) t0
    (s : runtime C B) c x :
  rtc (step block_on) (start t0) s → delays s !! c = Some x →
  (∀ t, fut x = Completed t → asked_at x + duration x ≤ t)
  ∧ (clockwork x = Ended → parked x = None ∧ (fut x = Pending → ∀ i, (poll_delay i (now s) x).1 = true))
  ∧ (fut x = Pending → ∃ s' x', rtc (own c) s s' ∧ now s' ≤ now s + duration x
       ∧ delays s' !! c = Some x' ∧ fut x' = Pending ∧ parked x' = None ∧ ∀ i, (poll_delay i (now s') x').1 = true).
Proof.
  intros Hs Hx. pose proof (reachable_wf block_on t0 s Hs) as Hw. pose proof (ok_chan _ _ (Hw c x Hx)) as Hch. unfold chan_ok in Hch. split_and!.
  - intros t Hf. rewrite Hf in Hch. by destruct Hch.
  - intros Hc. split; [rewrite Hc in Hch; destruct (fut x); by destruct_and? Hch|].
    intros Hf i. rewrite (proj2 (poll_delay_cases _ i _ (Hw c x Hx) Hf)). by rewrite Hc.
  - by apply pending_completes.
Qed.

(** A delay of five units, polled once before its thread starts. *)
Definition one_new : delay ChannelView :=
  {| chan := Open None; clockwork := Starting 5; fut := Pending; asked_at := 3; duration := 5; parked := None |}.
Definition one_parked : runtime ChannelView nat :=
  {| now := 3; spawned := [1%nat];
     delays := [{| chan := Open (Some 7%nat); clockwork := Starting 5; fut := Pending; asked_at := 3; duration := 5;
                   parked := Some 7%nat |}] |}.

Lemma one_parked_reachable : rtc (step id) (start 3) one_parked.
Proof.
  eapply rtc_l; [apply (step_spawn id 1%nat)|]. eapply rtc_l; [apply (step_delay_for id 5); lia|].
  apply rtc_once. exact (step_poll id 0%nat one_new 7%nat (delay_for 5 (spawn id 1%nat (start 3))).2 eq_refl eq_refl).
Qed.

Lemma naive_delay_correct_witness : ∃ s' x', rtc (own 0) one_parked s' ∧ now s' ≤ 8
  ∧ delays s' !! 0%nat = Some x' ∧ fut x' = Pending ∧ parked x' = None ∧ ∀ i, (poll_delay i (now s') x').1 = true.
Proof. exact (proj2 (proj2 (naive_delay_correct id 3 one_parked 0 _ one_parked_reachable eq_refl)) eq_refl). Defined.
