(* ===== verification/SimpleConsumer.v ===== *)
(** * The consumer example

    [examples/simple_consumer.rs]: [consume_and_print] receives messages, prints each
    of them with its headers and asks for its offset to be committed without waiting.
    The step relation [cstep] has a step for each point at which librdkafka can commit
    in the background or the program can stop, and a start after a stop. Logging is on
    (level info), so that the arguments of the log macros are evaluated. *)

From stdpp Require Import strings gmap prelude.
From S2P Require Import Prelude ErrorCodes KafkaErrors Util TopicPartitionList Config Message ClusterInfo Client.
From S2P Require Import BaseConsumer BaseProducer Traits Offsets.

Local Open Scope Z_scope.

(** ** Configuration and context *)

Definition consume_config (global : RDKafkaLogLevel) (brokers group_id : string) (assignor : option string)
    : ClientConfig :=
  let config :=
    set_log_level Level.Debug
      (config_set "enable.auto.commit" "true"
      (config_set "session.timeout.ms" "6000"
      (config_set "enable.partition.eof" "false"
      (config_set "bootstrap.servers" brokers
      (config_set "group.id" group_id
      (config_new global)))))) in
  match assignor with
  | Some assignor =>
      config_remove "session.timeout.ms"
        (config_set "group.protocol" "consumer"
        (config_set "group.remote.assignor" assignor config))
  | None => config
  end.

(** [CustomContext]: the provided [rebalance] with callbacks that log, and a commit
    callback that logs. *)
#[export] Instance CustomContext {W} `{!ClientNative W} `{!ConsumerNative W} : ConsumerContext W := {
  rebalance := default_rebalance (λ _ w, w) (λ _ w, w);
  commit_callback _ _ w := w;
  main_queue_min_poll_interval := default_min_poll_interval;
}.

#[export] Instance custom_group {W} `{O : OffsetsSpec W} : GroupContext W.
Proof. split; [intros e l w l' w'; apply default_rebalance_moves|by intros]. Qed.

(** The part of [consume_and_print] before the loop. *)
Definition consume_setup {W : Type} `{!ClientNative W} `{!ClientContext W} `{!ConsumerNative W}
    `{!GroupMetadataNative W} `{T : TplNative} `{C : ConfNative} `{!ClientNew W} (oc : bool)
    (global : RDKafkaLogLevel) (brokers group_id : string) (topics : list string) (assignor : option string)
    (entries : list (string * string)) (context : nat) : comp W StreamConsumer :=
  r ← create_with_context (consume_config global brokers group_id assignor) entries context;
  consumer ← expect_ok "Consumer creation failed" r;
  r ← Consumer.subscribe (Consumer := stream_consumer oc) consumer topics;
  _ ← expect_ok "Can't subscribe to specified topics" r;
  mret consumer.

(** ** The loop *)

(** The lines of the log. *)
Inductive entry :=
| KafkaErrorLine (e : KafkaError)
| PayloadErrorLine (e : Utf8Error)
| MessageLine (key : option bytes) (payload topic : string) (partition offset : Z) (timestamp : Timestamp)
| HeaderLine (h : Header bytes).

(** The payload that is printed, and whether decoding it is reported. *)
Definition payload_text (view : option (result Utf8Error string)) : list entry * string :=
  match view with
  | None => ([], "")
  | Some (Ok s) => ([], s)
  | Some (Err e) => ([PayloadErrorLine e], "")
  end.

Section loop.
Context `{N : HeadersNative} `{MN : !MessageNative}.

(** The two first log macros of a message; [topic] panics on a name that is not UTF-8. *)
Definition print_message (m : RDKafkaMessage) : outcome (list entry) :=
  let '(warning, text) := payload_text (payload_view (P := string) m) in
  t ← topic m;
  mret (warning ++ [MessageLine (message_key m) text t (partition m) (offset m) (timestamp m)]).

(** Where the loop is: at [recv]; with a message that is not printed yet; in the loop
    over its headers; at the commit; after a panic, with the message if it was not
    printed. *)
Inductive location :=
| Receiving
| Printing (m : RDKafkaMessage)
| Listing (m : RDKafkaMessage) (headers : HeadersIter RDKafkaHeaders)
| Committing (m : RDKafkaMessage)
| Stopped (m : option RDKafkaMessage).

(** What the loop does with what [recv] gives. *)
Definition received (r : EventPollResult (KafkaResult RDKafkaMessage)) : list entry * location :=
  match r with
  | Poll.Event (Ok m) => ([], Printing m)
  | Poll.Event (Err e) => ([KafkaErrorLine e], Receiving)
  | _ => ([], Receiving)
  end.

(** [if let Some(headers) = m.headers()]. *)
Definition printed (m : RDKafkaMessage) : location :=
  match headers m with Some h => Listing m (iter h) | None => Committing m end.

(** A message that was delivered and not printed. *)
Definition in_hand (l : location) : option RDKafkaMessage :=
  match l with Printing m => Some m | Stopped o => o | _ => None end.

Context {W : Type} `{!ClientNative W} `{!ClientContext W} `{!ConsumerNative W} `{T : TplNative}.
Context (queue : nat).
Context (conf : ClientConfig) (plog : tpart → Z → option (option bytes * option bytes)).
Context `{O : !OffsetsSpec W conf plog} `{!CommitSpec W}.

(** [lost]: the messages that were in hand when a run of the program ended; [restarts]:
    how often it was started again. *)
Record prog := { consumer : W; loc : location; log : list entry; lost : list RDKafkaMessage; restarts : nat }.

(** A step of the loop: the consumer after it, the lines that it prints, and where it goes. *)
Definition go (s : prog) (w : W) (lines : list entry) (l : location) : prog :=
  {| consumer := w; loc := l; log := log s ++ lines; lost := lost s; restarts := restarts s |}.

Inductive cstep : prog → prog → Prop :=
| cstep_recv s fuel r w : loc s = Receiving → poll_queue fuel queue (After 0) (consumer s) = Done (Some r, w) →
    cstep s (go s w (received r).1 (received r).2)
| cstep_print s m lines : loc s = Printing m → print_message m = Done lines →
    cstep s (go s (consumer s) lines (printed m))
| cstep_print_panic s m e : loc s = Printing m → print_message m = Panic e →
    cstep s (go s (consumer s) (payload_text (payload_view (P := string) m)).1 (Stopped (Some m)))
| cstep_header s m it h it' : loc s = Listing m it → next it = Done (Some h, it') →
    cstep s (go s (consumer s) [HeaderLine h] (Listing m it'))
| cstep_headers_end s m it it' : loc s = Listing m it → next it = Done (None, it') →
    cstep s (go s (consumer s) [] (Committing m))
| cstep_header_panic s m it e : loc s = Listing m it → next it = Panic e →
    cstep s (go s (consumer s) [] (Stopped None))
| cstep_commit s m w : loc s = Committing m → commit_message m Async (consumer s) = Done (Ok tt, w) →
    cstep s (go s w [] Receiving)
| cstep_commit_error s m e w : loc s = Committing m → commit_message m Async (consumer s) = Done (Err e, w) →
    cstep s (go s w [] (Stopped None))
| cstep_background s w : rtc group_step (offsets_of (consumer s)) (offsets_of w) →
    cstep s (go s w [] (loc s))
| cstep_restart s w : offsets_of w = offsets_at (committed_at (offsets_of (consumer s))) (origin (offsets_of (consumer s))) →
    cstep s {| consumer := w; loc := Receiving; log := log s;
               lost := lost s ++ option_list (in_hand (loc s)); restarts := S (restarts s) |}.

Definition prog_initial (s : prog) : Prop :=
  (∃ c, offsets_of (consumer s) = offsets_at c c) ∧ loc s = Receiving ∧ log s = [] ∧ lost s = [] ∧ restarts s = 0%nat.

Definition prog_reachable (s : prog) : Prop := ∃ s0, prog_initial s0 ∧ rtc cstep s0 s.

(** ** The invariant *)

(** The text of a message: its payload if that is UTF-8, and else nothing. *)
Definition text_of (payload : option bytes) : string :=
  match payload with Some b => default "" (from_utf8 b) | None => "" end.

(** What the log shows of a message. *)
Definition shown (entries : list entry) (p : tpart) (o : Z) (x : option bytes * option bytes) : Prop :=
  ∃ t ts, cstr_to_str (rd_kafka_topic_name (MessageNative := MN) p.1) = Some t
    ∧ MessageLine x.2 (text_of x.1) t p.2 o ts ∈ entries.

(** A message was printed, or was or is in hand. *)
Definition seen (entries : list entry) (ms : list RDKafkaMessage) (p : tpart) (o : Z) (x : option bytes * option bytes)
    : Prop :=
  shown entries p o x ∨ ∃ m, m ∈ ms ∧ message_part m = p ∧ msg_offset m = o.

Definition held (s : prog) : list RDKafkaMessage := lost s ++ option_list (in_hand (loc s)).

(** The message of a location has been delivered. *)
Definition loc_ok (f : gmap tpart Z) (l : location) : Prop :=
  match l with
  | Listing m _ | Committing m => below f (message_part m) (msg_offset m + 1)
  | Printing m => below f (message_part m) (msg_offset m + 1)
      ∧ plog (message_part m) (msg_offset m) = Some (payload m, message_key m)
  | _ => True
  end.

Record prog_inv (s : prog) (f : gmap tpart Z) : Prop := {
  pi_frontier : frontier_inv plog f (seen (log s) (held s)) (offsets_of (consumer s));
  pi_position : position_ok f None (offsets_of (consumer s));
  pi_loc : loc_ok f (loc s);
  pi_lost : (length (lost s) ≤ restarts s)%nat;
}.

Lemma seen_mono es es' ms ms' p o x : es ⊆ es' → ms ⊆ ms' → seen es ms p o x → seen es' ms' p o x.
Proof.
  intros He Hm [(t & ts & Ht & Hin)|(m & Hin & H1 & H2)]; [left; exists t, ts; by auto|right; exists m; by auto].
Qed.

Lemma payload_text_of (m : RDKafkaMessage) warning text :
  payload_text (payload_view (P := string) m) = (warning, text) → text = text_of (payload m).
Proof.
  unfold payload_view, text_of. destruct (payload m) as [b|]; simpl; [|by intros [= _ <-]].
  destruct (from_utf8 b); by intros [= _ <-].
Qed.

Lemma print_message_Done m lines : print_message m = Done lines →
  shown lines (message_part m) (msg_offset m) (payload m, message_key m).
Proof.
  unfold print_message. destruct (payload_text _) as [warning text] eqn:E.
  unfold topic, Message_borrowed. destruct (cstr_to_str (rd_kafka_topic_name (MessageNative := MN) (msg_rkt m))) as [t|] eqn:Et; [|done].
  intros [= <-]. exists t, (timestamp m). split; [exact Et|]. apply payload_text_of in E as ->.
  apply elem_of_app. right. by apply list_elem_of_singleton.
Qed.

Lemma grows_loc f f' l : grows f f' → loc_ok f l → loc_ok f' l.
Proof. intros Hg. destruct l; simpl; [done| |apply Hg|apply Hg|done]. intros [? ?]. split; [by apply Hg|done]. Qed.

(** A step of the loop that prints, and whose consumer moves as the group does. *)
Lemma go_inv s f w lines l : prog_inv s f → rtc group_step (offsets_of (consumer s)) (offsets_of w) →
  option_list (in_hand (loc s)) ⊆ option_list (in_hand l) → loc_ok f l → ∃ f', prog_inv (go s w lines l) f'.
Proof.
  intros [H1 H2 H3 H4] Hw Hh Hl. destruct (moves_frontier _ _ _ _ _ Hw H1) as (f' & Hg & H1' & H2').
  exists f'. split; simpl; [|by apply H2'|by eapply grows_loc|done].
  eapply frontier_mono, H1'. intros p o x _.
  apply seen_mono; [by apply list_subseteq_app_l|by apply list_subseteq_app_iff_l; set_solver].
Qed.

Lemma consume_recv_inv s f fuel r w : prog_inv s f → loc s = Receiving →
  poll_queue fuel queue (After 0) (consumer s) = Done (Some r, w) →
  ∃ f', prog_inv (go s w (received r).1 (received r).2) f'.
Proof.
  intros Hi Hl Hp%(poll_queue_moves conf plog). pose proof Hi as [H1 H2 _ H4].
  destruct r as [| |[m|e]]; simpl in *; [apply (go_inv _ f); rewrite ?Hl; done..| |apply (go_inv _ f); rewrite ?Hl; done].
  destruct Hp as (os & os' & Hm & Hd & Hm'). destruct (moves_frontier _ _ _ _ _ Hm H1) as (f1 & _ & Hf1 & Hp1).
  destruct (delivers_handled plog _ f1 (seen (log s) (held s)) (seen (log s) (lost s ++ [m])) os m os' Hd) as [H1' H2'].
  - done.
  - by apply Hp1.
  - intros p o x _. unfold held. rewrite Hl. simpl. rewrite app_nil_r. by apply seen_mono; [|apply list_subseteq_app_l].
  - right. exists m. split; [set_solver|done].
  - assert (plog (message_part m) (msg_offset m) = Some (payload m, message_key m)) as Hx by (by destruct Hd as (? & _ & _ & _ & ? & _)).
    destruct (moves_frontier _ _ _ _ _ Hm' H1') as (f2 & Hg2 & Hf2 & Hp2). exists f2.
    split; simpl; [|by apply Hp2|by split; [apply Hg2, advance_message|]|done]. by rewrite app_nil_r.
Qed.

Lemma consume_print_inv s f m lines : prog_inv s f → loc s = Printing m → print_message m = Done lines →
  prog_inv (go s (consumer s) lines (printed m)) f.
Proof.
  intros [H1 H2 H3 H4] Hl Hp%print_message_Done. rewrite Hl in H3. destruct H3 as [Hf Hx].
  assert (in_hand (printed m) = None) as Hn by (unfold printed; by destruct (headers m)).
  split; simpl; [|done|unfold printed; by destruct (headers m)|done].
  eapply frontier_mono, H1. intros p o x Hpx. unfold held. rewrite Hl. simpl. rewrite Hn, app_nil_r.
  intros [(t & ts & Ht & Hin)|(m' & [Hin|Hin%list_elem_of_singleton]%elem_of_app & <- & <-)].
  - left. exists t, ts. split; [done|]. apply elem_of_app. by left.
  - right. by exists m'.
  - subst m'. rewrite Hx in Hpx. injection Hpx as <-. left. destruct Hp as (t & ts & Ht & Hin). exists t, ts.
    split; [done|]. apply elem_of_app. by right.
Qed.

Lemma commit_inv s f m r w l : prog_inv s f → loc s = Committing m →
  commit_message m Async (consumer s) = Done (r, w) → in_hand l = None → loc_ok f l → prog_inv (go s w [] l) f.
Proof.
  intros [H1 H2 H3 H4] Hl Hc Hh Hk. rewrite Hl in H3. unfold held in H1. rewrite Hl in H1.
  apply comp_bind_Done in Hc as (e & w1 & He & [= _ <-]). unfold call in He.
  destruct (rd_kafka_commit_message _ _ _) as [e' w2] eqn:E. injection He as -> ->. apply com_message in E.
  split; simpl; [|by rewrite E; destruct (resp_is_error e)|done|done].
  unfold held. simpl. rewrite Hh, app_nil_r, E. destruct (resp_is_error e); [done|]. by apply frontier_commit.
Qed.

Lemma consume_step_inv s s' f : prog_inv s f → cstep s s' → ∃ f', prog_inv s' f'.
Proof.
  intros Hi Hs. pose proof Hi as [H1 H2 H3 H4].
  destruct Hs as [s fuel r w Hl Hp|s m lines Hl Hp|s m e Hl Hp|s m it h it' Hl Hn|s m it it' Hl Hn|s m it e Hl Hn
    |s m w Hl Hc|s m e w Hl Hc|s w Hm|s w Ho].
  - by eapply consume_recv_inv.
  - exists f. by apply consume_print_inv.
  - apply (go_inv _ f); rewrite ?Hl; done.
  - rewrite Hl in H3. apply (go_inv _ f); rewrite ?Hl; done.
  - rewrite Hl in H3. apply (go_inv _ f); rewrite ?Hl; done.
  - apply (go_inv _ f); rewrite ?Hl; done.
  - exists f. by eapply commit_inv.
  - exists f. by eapply commit_inv.
  - by apply (go_inv _ f).
  - exists f. split; simpl; rewrite ?Ho; [|apply position_restart|done|].
    + unfold held in *. simpl. rewrite app_nil_r. by apply frontier_restart.
    + rewrite length_app. destruct (in_hand (loc s)); simpl; lia.
Qed.

Lemma consume_reachable_inv s : prog_reachable s → ∃ f, prog_inv s f.
Proof.
  intros (s0 & ((c & Ho) & Hl & Hg & Hlo & Hr) & Hs).
  assert (∃ f, prog_inv s0 f) as Hi.
  { exists c. split; rewrite ?Ho, ?Hl, ?Hlo, ?Hr; [apply frontier_initial|apply position_restart|done|done]. }
  clear Ho Hl Hg Hlo Hr. induction Hs as [|s1 s2 s3 H1 _ IH]; [done|].
  destruct Hi as [f Hi]. apply IH. by eapply consume_step_inv.
Qed.

End loop.
Arguments prog {N} W.

(** The example leaves offsets to be stored on delivery. *)
Lemma consume_config_store global brokers group_id assignor :
  auto_offset_store (consume_config global brokers group_id assignor) = true.
Proof. by destruct assignor. Qed.

(** With an assignor the example asks for the new group protocol, which refuses a
    session timeout of the client; without one it sets the timeout and no protocol. *)
Theorem consume_config_protocol global brokers group_id assignor :
  let config := consume_config global brokers group_id assignor in
  config_get config "group.remote.assignor" = assignor
  ∧ config_get config "group.protocol" = (_ ← assignor; Some "consumer")
  ∧ (is_Some (config_get config "session.timeout.ms") ↔ assignor = None)
  ∧ config_get config "group.id" = Some group_id ∧ config_get config "bootstrap.servers" = Some brokers.
Proof. destruct assignor as [a|]; simpl; split_and!; try done; split; try done. by intros [x Hx]. Qed.

(** ** The property *)

Section delivered.
Context `{N : HeadersNative} `{MN : !MessageNative}.
Context {W : Type} `{!ClientNative W} `{!ClientContext W} `{!ConsumerNative W} `{T : TplNative}.
Context (global : RDKafkaLogLevel) (brokers group_id : string) (assignor : option string).
Context (plog : tpart → Z → option (option bytes * option bytes)).
Context `{O : !OffsetsSpec W (consume_config global brokers group_id assignor) plog} `{!CommitSpec W}.

(** C26: what is committed has been consumed, up to one message for each stop. However
    receiving, printing, commits in the background, commits that the program asks for,
    rebalances, resets, panics and restarts interleave, every message of the input below
    a committed offset, from where the group's reading of the partition originates, has
    been printed with its key, its place and its payload as text (nothing, if it is not
    UTF-8), or is the message in hand, or was the message in hand when a run of the
    program ended; and no more messages are lost in this way than there were restarts.
    The origin is what the group had committed before the program first ran, or the
    highest offset to which the reset policy has sent it since, because there was no
    committed offset or it was out of range: the example leaves [auto.offset.reset] at
    its default. *)
Theorem simple_consumer_delivery queue (s : prog W) :
  prog_reachable queue _ plog s →
  (length (lost s) ≤ restarts s)%nat
  ∧ ∀ p committed_offset, committed_at (offsets_of (consumer s)) !! p = Some committed_offset →
      ∃ b, origin (offsets_of (consumer s)) !! p = Some b ∧ ∀ o x, b ≤ o < committed_offset → plog p o = Some x →
        (∃ t ts, cstr_to_str (rd_kafka_topic_name (MessageNative := MN) p.1) = Some t
           ∧ MessageLine x.2 (match x.1 with Some b => default "" (from_utf8 b) | None => "" end) t p.2 o ts ∈ log s)
        ∨ ∃ m, m ∈ lost s ++ option_list (in_hand (loc s)) ∧ message_part m = p ∧ msg_offset m = o.
Proof.
  intros Hr. destruct (consume_reachable_inv queue _ plog s Hr) as (f & [H1 H2 H3 H4]). split; [done|].
  intros p c Hc. exact (frontier_committed _ _ _ _ _ _ H1 Hc).
Qed.

End delivered.

(** ** Simulated runs *)

Abbreviation print_config := (consume_config Level.Info "localhost" "group" None).

#[export] Instance print_spec : OffsetsSpec (csim true) print_config csim_log := csim_spec print_config.
#[export] Instance print_commit_spec : CommitSpec (csim true) (O := print_spec) := csim_commit_spec print_config.

Definition e_at (os : offsets) (l : location) (entries : list entry) (lost : list RDKafkaMessage) (n : nat)
    : prog (csim true) := {| consumer := mk_csim os; loc := l; log := entries; lost := lost; restarts := n |}.

Definition e_fresh : csim true := mk_csim (offsets_at ∅ ∅).
Definition e_assigned : csim true := run (poll_queue 3 0 (After 0)) e_fresh.
Definition e_received : csim true := run (poll_queue 3 0 (After 0)) e_assigned.

(** The first message is delivered, its offset is stored by that and committed in the
    background, and the program is killed before it prints: the message is never
    printed. *)
Definition e_skipped : prog (csim true) := e_at (offsets_at {[ csim_part := 1 ]} {[ csim_part := 0 ]}) Receiving [] [csim_message 0] 1.

Abbreviation e_step := (cstep 0 print_config csim_log).

Lemma e_delivered : rtc e_step (e_at (offsets_at ∅ ∅) Receiving [] [] 0)
  (e_at (cs_offsets e_received) (Printing (csim_message 0)) [] [] 0).
Proof.
  eapply rtc_l.
  { apply (cstep_recv 0 print_config csim_log (e_at (offsets_at ∅ ∅) Receiving [] [] 0) 3 Poll.None e_assigned);
      vm_compute; reflexivity. }
  apply rtc_once.
  apply (cstep_recv 0 print_config csim_log (e_at (cs_offsets e_assigned) Receiving [] [] 0) 3
    (Poll.Event (Ok (csim_message 0))) e_received); vm_compute; reflexivity.
Qed.

Lemma e_skipped_reachable : prog_reachable 0 print_config csim_log e_skipped.
Proof.
  exists (e_at (offsets_at ∅ ∅) Receiving [] [] 0). split; [by split; [exists ∅|]|].
  etransitivity; [exact e_delivered|]. eapply rtc_l.
  { apply (cstep_background 0 print_config csim_log (e_at (cs_offsets e_received) (Printing (csim_message 0)) [] [] 0)
      (mk_csim (set_committed csim_part 1 (cs_offsets e_received)))).
    apply rtc_once. exact (group_commit (cs_offsets e_received) csim_part 1 eq_refl). }
  apply rtc_once.
  exact (cstep_restart 0 print_config csim_log
    (e_at (set_committed csim_part 1 (cs_offsets e_received)) (Printing (csim_message 0)) [] [] 0)
    (mk_csim (offsets_at {[ csim_part := 1 ]} {[ csim_part := 0 ]})) eq_refl).
Qed.

Lemma simple_consumer_delivery_witness :
  (∃ t ts, cstr_to_str "topic" = Some t ∧ MessageLine None "v" t 0 0 ts ∈ log e_skipped)
  ∨ ∃ m, m ∈ [csim_message 0] ∧ message_part m = csim_part ∧ msg_offset m = 0.
Proof.
  destruct (proj2 (simple_consumer_delivery Level.Info "localhost" "group" None csim_log 0 e_skipped
    e_skipped_reachable) csim_part 1 eq_refl) as (b & Hb & Hd).
  assert (Some 0 = Some b) as [= <-] by exact Hb.
  exact (Hd 0 (Some (str_bytes "v"), None) (conj (Z.le_refl 0) eq_refl) eq_refl).
Defined.

(** The bound on lost messages is reached: with the configuration of the example a
    message can be committed, and so never be delivered again, although it was never
    printed, in a program that was stopped once. *)
Theorem simple_consumer_skips :
  prog_reachable 0 print_config csim_log e_skipped
  ∧ committed_at (offsets_of (consumer e_skipped)) !! csim_part = Some 1 ∧ is_Some (csim_log csim_part 0)
  ∧ log e_skipped = [] ∧ length (lost e_skipped) = restarts e_skipped.
Proof. split; [exact e_skipped_reachable|]. split; [done|]. split; [by eexists|done]. Qed.

(** A run without a stop: the first message is printed with its header, its commit is
    asked for, and done. *)
Definition e_line : entry := MessageLine None "v" "topic" 0 0 (Ts.CreateTime 1000).
Definition e_header : entry := HeaderLine (mkHeader "trace" (Some (str_bytes "1"))).
Definition e_headers (i : nat) : HeadersIter RDKafkaHeaders :=
  {| it_headers := [(str_bytes "trace", Some (str_bytes "1"))]; it_index := i |}.
Definition e_asked : csim true := run (commit_message (csim_message 0) Async) e_received.
Definition e_final : prog (csim true) :=
  e_at (set_committed csim_part 1 (set_committing [] (cs_offsets e_asked))) Receiving [e_line; e_header] [] 0.

Example simple_consumer_run : prog_reachable 0 print_config csim_log e_final.
Proof.
  exists (e_at (offsets_at ∅ ∅) Receiving [] [] 0). split; [by split; [exists ∅|]|].
  etransitivity; [exact e_delivered|]. set (os := cs_offsets e_received). set (m := csim_message 0).
  eapply rtc_l; [apply (cstep_print 0 print_config csim_log (e_at os (Printing m) [] [] 0) m [e_line]);
    vm_compute; reflexivity|].
  eapply rtc_l; [apply (cstep_header 0 print_config csim_log (e_at os (Listing m (e_headers 0)) [e_line] [] 0)
    m (e_headers 0) (mkHeader "trace" (Some (str_bytes "1"))) (e_headers 1)); vm_compute; reflexivity|].
  eapply rtc_l; [apply (cstep_headers_end 0 print_config csim_log
    (e_at os (Listing m (e_headers 1)) [e_line; e_header] [] 0) m (e_headers 1) (e_headers 1)); vm_compute; reflexivity|].
  eapply rtc_l; [apply (cstep_commit 0 print_config csim_log
    (e_at os (Committing m) [e_line; e_header] [] 0) m e_asked); vm_compute; reflexivity|].
  apply rtc_once. apply (cstep_background 0 print_config csim_log
    (e_at (cs_offsets e_asked) Receiving [e_line; e_header] [] 0) (consumer e_final)).
  apply rtc_once. exact (group_committed (cs_offsets e_asked) [] [] csim_part 1 eq_refl).
Qed.
