(* ===== verification/Roundtrip.v ===== *)
(** * The round trip and mocking examples

    [examples/roundtrip.rs], and [examples/mocking.rs], which runs the same program on
    a mock cluster. A spawned task produces one record after the other and waits for
    each delivery ([rstep], over the future producer and its polling thread); the main
    task measures how long the messages that it receives have travelled ([measure], on
    what [recv] and the clocks give). The histogram is a parameter. *)

From stdpp Require Import strings gmap prelude.
From S2P Require Import Prelude ErrorCodes KafkaErrors Util TopicPartitionList Config Message Client.
From S2P Require Import BaseConsumer BaseProducer FutureProducer Traits Acknowledged Offsets Mocking.

Local Open Scope Z_scope.

(** ** Creation *)

Definition roundtrip_producer_config (global : RDKafkaLogLevel) (brokers : string) : ClientConfig :=
  config_set "message.timeout.ms" "5000" (config_set "bootstrap.servers" brokers (config_new global)).

Definition roundtrip_consumer_config (global : RDKafkaLogLevel) (brokers : string) : ClientConfig :=
  config_set "group.id" "rust-rdkafka-roundtrip-example"
    (config_set "enable.auto.commit" "false"
    (config_set "session.timeout.ms" "6000"
    (config_set "bootstrap.servers" brokers
    (config_new global)))).

Definition mocking_producer_config (global : RDKafkaLogLevel) (brokers : string) : ClientConfig :=
  config_set "bootstrap.servers" brokers (config_new global).

Definition mocking_consumer_config (global : RDKafkaLogLevel) (brokers : string) : ClientConfig :=
  config_set "group.id" "rust-rdkafka-mock-example"
    (config_set "bootstrap.servers" brokers (config_new global)).

Definition unwrap_message : string := "called `Result::unwrap()` on an `Err` value".

Section create.
Context {W : Type} `{!ClientNative W} `{!ClientContext W} `{!ConsumerContext W} `{!ConsumerNative W}
  `{!GroupMetadataNative W} `{T : TplNative} `{C : ConfNative} `{!ClientNew W} `{!ProducerNew}.
Context (oc : bool) (default_context : nat) (wrap_context : nat → nat) (global : RDKafkaLogLevel).

(** The clients of both programs, and the subscription. *)
Definition create_clients (producer_config consumer_config : ClientConfig) (topic : string)
    (producer_entries consumer_entries : list (string * string)) : comp W (FutureProducer * StreamConsumer) :=
  r ← create (FromClientConfig0 := with_default_context default_context
        (FromClientConfigAndContext0 := future_producer_config wrap_context)) producer_config producer_entries;
  producer ← expect_ok "Producer creation error" r;
  r ← create (FromClientConfig0 := with_default_context default_context) consumer_config consumer_entries;
  consumer ← expect_ok "Consumer creation failed" r;
  r ← Consumer.subscribe (Consumer := stream_consumer oc) consumer [topic];
  _ ← expect_ok unwrap_message r;
  mret (producer, consumer).

Definition roundtrip_create (brokers topic : string) (producer_entries consumer_entries : list (string * string))
    : comp W (FutureProducer * StreamConsumer) :=
  create_clients (roundtrip_producer_config global brokers) (roundtrip_consumer_config global brokers) topic
    producer_entries consumer_entries.

(** The clients of the mocking example, on a cluster of three brokers. *)
Definition mocking_create `{!MockNative W} (mock_config : ClientConfig) (mock_context : nat)
    (producer_entries consumer_entries : list (string * string)) : comp W (FutureProducer * StreamConsumer) :=
  r ← mock_new mock_config mock_context 3;
  mock_cluster ← expect_ok unwrap_message r;
  r ← create_topic mock_cluster "test_topic" 32 3;
  _ ← expect_ok "Failed to create topic" r;
  w ← get;
  let servers := bootstrap_servers mock_cluster w in
  create_clients (mocking_producer_config global servers) (mocking_consumer_config global servers) "test_topic"
    producer_entries consumer_entries.

End create.

(** ** The clock *)

(** [now], with what [SystemTime::now] returns: nanoseconds since the epoch. *)
Definition now (system_time : Z) : outcome Z :=
  if system_time <? 0 then Panic unwrap_message
  else let millis := duration_as_millis system_time in
       if bool_decide (millis ≤ i64_max) then Done millis else Panic unwrap_message.

(** A [usize] operation whose exact result is [z]. *)
Definition arith_usize (overflow_checks : bool) (z : Z) : outcome Z :=
  if bool_decide (z ≤ usize_max) then Done z
  else if overflow_checks then Panic "attempt to add with overflow"
  else Done (as_usize z).

(** ** The task that produces *)

Section produce.
Context {W : Type} `{!ClientNative W} `{!ClientContext W} `{N : HeadersNative} `{!HeadersNativeSpec N}
  `{!MessageNative} `{!ProducerNative W} `{!Oneshot W OwnedDeliveryResult} `{!FutureSpec W} `{!AckSpec W}.
Context (oc : bool) (topic : string).

Definition dummy_record (i : Z) (timestamp : Z) : FutureRecord string string :=
  future_timestamp timestamp (future_payload "dummy" (future_key (format_int i) (future_to topic))).

(** Where the task is: before [send_result], at the await of its future, after a panic.
    [i] counts the turns. *)
Inductive task :=
| Ready
| Awaiting (rx : nat)
| Panicked.

Record producing := { world : pworld W (Box nat); at_task : task; i : Z }.

(** The task after [send_result(...).unwrap()]. *)
Definition sent_task (r : result (KafkaError * FutureRecord string string) nat) : task :=
  match r with Ok rx => Awaiting rx | Err _ => Panicked end.

(** The task after [.await.unwrap().unwrap()] and [i += 1]: where it is, and [i]. *)
Definition awaited (i : Z) (r : result unit OwnedDeliveryResult) : task * Z :=
  match r with
  | Ok (Ok _) => match arith_usize oc (i + 1) with Done i' => (Ready, i') | Panic _ => (Panicked, i) end
  | _ => (Panicked, i)
  end.

Inductive rstep : producing → producing → Prop :=
| rstep_send s system_time timestamp r w : at_task s = Ready → now system_time = Done timestamp →
    send_result (dummy_record (i s) timestamp) (world s) = Done (r, w) →
    rstep s {| world := w; at_task := sent_task r; i := i s |}
| rstep_clock s system_time e : at_task s = Ready → now system_time = Panic e →
    rstep s {| world := world s; at_task := Panicked; i := i s |}
| rstep_await s rx r : at_task s = Awaiting rx → delivery_future_poll rx (world s) = Some r →
    rstep s {| world := world s; at_task := (awaited (i s) r).1; i := (awaited (i s) r).2 |}
| rstep_thread s queue deadline w : producer_turn queue deadline (world s) = Done (tt, w) →
    rstep s {| world := w; at_task := at_task s; i := i s |}.

(** The producer is new. *)
Definition produce_initial (s : producing) : Prop := owed (world s) [] ∧ at_task s = Ready ∧ i s = 0.

Definition produce_reachable (s : producing) : Prop := ∃ s0, produce_initial s0 ∧ rtc rstep s0 s.

(** *** The invariant *)

Abbreviation sys w := ({| shared := w; tasks := ∅ |} : fsys W string string).

Definition dummy_content (i : Z) : content := (topic, Some (str_bytes "dummy"), Some (str_bytes (format_int i))).

(** The message that is awaited is with librdkafka, or its result is on its channel. *)
Definition awaiting_ok (w : W) (l : list (option nat * Box nat)) (g : gmap nat content) (rx : nat) (i : Z) : Prop :=
  g !! rx = Some (dummy_content i) ∧ (rx ∉ dropped w)
  ∧ ((∃ p, l = [(p, mkBox rx)]) ∧ (rx ∉ (sent w).*1) ∨ l = [] ∧ rx ∈ (sent w).*1).

Definition task_inv (w : W) (l : list (option nat * Box nat)) (g : gmap nat content) (i : Z) (t : task) : Prop :=
  match t with
  | Ready => l = []
  | Awaiting rx => awaiting_ok w l g rx i
  | Panicked => (length l ≤ 1)%nat
  end.

(** The records before [i] have been acknowledged. *)
Definition counted (acks : list content) (i : Z) : Prop := ∀ j, 0 ≤ j < i → dummy_content j ∈ acks.

Record produce_inv (s : producing) (l : list (option nat * Box nat)) (g : gmap nat content) : Prop := {
  pd_ack : ack_inv (sys (world s)) l g;
  pd_task : task_inv (pw (world s)) l g (i s) (at_task s);
  pd_count : counted (acked (pw (world s))) (i s);
  pd_pos : 0 ≤ i s;
}.

Lemma counted_mono acks acks' i : acks ⊆ acks' → counted acks i → counted acks' i.
Proof. intros Ha Hc j Hj. by apply Ha, Hc. Qed.

Lemma dummy_record_content i ts : record_content (dummy_record i ts) = dummy_content i.
Proof. done. Qed.

Lemma produce_send_inv s l g ts r w : produce_inv s l g → at_task s = Ready →
  send_result (dummy_record (i s) ts) (world s) = Done (r, w) →
  ∃ l' g', produce_inv {| world := w; at_task := sent_task r; i := i s |} l' g'.
Proof.
  intros [H1 H2 H3 H4] Ht Hr. rewrite Ht in H2. simpl in H2. subst l.
  pose proof (fi_owed _ _ (ak_future _ _ _ H1)) as Ho. simpl in Ho.
  destruct (ack_result _ _ _ _ _ _ H1 Hr) as (l' & c & Hc & Hrx & Hi).
  pose proof (fi_owed _ _ (ak_future _ _ _ Hi)) as Ho'. simpl in Ho'.
  pose proof (counted_mono _ _ _ (result_acked _ _ _ _ _ Ho Hr) H3) as Hcount.
  exists l', (<[c := dummy_content (i s)]> g). split; [done| |done|done]. simpl.
  destruct (send_result_run (dummy_record (i s) ts) _ _ Ho) as (r' & w' & c' & Hr' & Hs & Hf & Hop & Hx).
  rewrite Hr' in Hr. injection Hr as -> ->. destruct r as [rx|[e b]]; simpl.
  - rewrite (Hrx rx eq_refl) in *. destruct Hx as (-> & Hd & (_ & Hnd & Hns) & p & Ho2).
    split; [apply lookup_insert_eq|]. split; [done|]. left. split; [|done]. exists p.
    by apply Permutation_singleton_r, (owed_unique _ _ _ Ho').
  - destruct Hx as (_ & _ & Ho2). rewrite (Permutation_length (owed_unique _ _ _ Ho' Ho2)). simpl. lia.
Qed.

(** What a turn of the polling thread does to the awaited message. *)
Lemma task_settles ms (w w' : pworld W (Box nat)) l l' g k t : settles_by ms w l w' l' →
  task_inv (pw w) l g k t → task_inv (pw w') l' g k t.
Proof.
  intros (gone & new & Hp & _ & Hs & Hn & _ & _ & Hd & _)%settles_by_sent. destruct t as [|rx|]; simpl.
  - intros ->. symmetry in Hp. apply Permutation_nil_r in Hp. by apply app_nil in Hp as [_ ->].
  - intros (Hg & Hnd & Hl). split; [done|]. rewrite Hd. split; [done|]. rewrite Hs, fmap_app, Hn.
    destruct Hl as [[[p ->] Hns]|[-> Hin]].
    + symmetry in Hp. apply Permutation_singleton_r in Hp. destruct gone as [|x gone]; simpl in *.
      * left. subst l'. split; [by exists p|]. rewrite app_nil_r. done.
      * injection Hp as -> Hp. apply app_nil in Hp as [-> ->]. right. split; [done|]. apply elem_of_app. right.
        by apply list_elem_of_singleton.
    + symmetry in Hp. apply Permutation_nil_r in Hp. apply app_nil in Hp as [-> ->]. right. split; [done|]. apply elem_of_app. by left.
  - intros Hl. rewrite Hp, length_app in Hl. lia.
Qed.

Lemma produce_thread_inv s l g queue deadline w : produce_inv s l g → producer_turn queue deadline (world s) = Done (tt, w) →
  ∃ l', produce_inv {| world := w; at_task := at_task s; i := i s |} l' g.
Proof.
  intros [H1 H2 H3 H4] Hr. pose proof (fi_owed _ _ (ak_future _ _ _ H1)) as Ho. simpl in Ho.
  destruct (ack_serve _ _ _ _ _ _ H1 Hr) as (l' & [ms Hs] & Hi). exists l'.
  split; simpl; [done|by eapply task_settles| |done]. by eapply counted_mono, H3; eapply turn_acked.
Qed.

(** A result on the channel is that of the awaited message, and nothing is in flight. *)
Lemma await_result w l g rx k r : ack_inv (sys w) l g → awaiting_ok (pw w) l g rx k →
  delivery_future_poll rx w = Some r →
  l = [] ∧ ∃ d, r = Ok d ∧ (rx, d) ∈ sent (pw w).
Proof.
  intros Hi (Hg & Hnd & Hl) Hr. unfold delivery_future_poll in Hr. rewrite fut_receive in Hr.
  destruct (value_of rx (sent (pw w))) as [d|] eqn:E; [|by rewrite decide_False in Hr].
  injection Hr as <-. apply value_of_elem in E. split; [|by exists d].
  destruct Hl as [[_ Hns]|[? _]]; [|done]. destruct Hns. apply list_elem_of_fmap. by exists (rx, d).
Qed.

Lemma produce_await_inv s l g rx r : produce_inv s l g → at_task s = Awaiting rx →
  delivery_future_poll rx (world s) = Some r →
  produce_inv {| world := world s; at_task := (awaited (i s) r).1; i := (awaited (i s) r).2 |} l g.
Proof.
  intros [H1 H2 H3 H4] Ht Hr. rewrite Ht in H2.
  destruct (await_result _ _ _ _ _ _ H1 H2 Hr) as (-> & d & -> & Hin).
  destruct d as [d|e]; simpl; [|by split; simpl; [|lia|..]]. unfold arith_usize.
  assert (counted (acked (pw (world s))) (i s + 1)) as Hc.
  { intros j Hj. destruct (decide (j = i s)) as [->|]; [|apply H3; lia].
    exact (ak_sent _ _ _ H1 rx _ d (proj1 H2) Hin). }
  case_bool_decide; [|destruct oc]; split; simpl; try done; try lia.
  - intros j Hj. apply Hc. pose proof (Z.mod_le (i s + 1) (2 ^ 64)). unfold as_usize in Hj. lia.
  - unfold as_usize. apply Z.mod_pos_bound. lia.
Qed.

Lemma produce_step_inv s s' l g : produce_inv s l g → rstep s s' → ∃ l' g', produce_inv s' l' g'.
Proof.
  intros Hi Hs. destruct Hs as [s st ts r w Ht _ Hr|s st e Ht _|s rx r Ht Hr|s q dl w Hr].
  - by eapply produce_send_inv.
  - exists l, g. destruct Hi as [H1 H2 H3 H4]. rewrite Ht in H2. simpl in H2. subst l. split; simpl; [done|lia|done|done].
  - exists l, g. by eapply produce_await_inv.
  - destruct (produce_thread_inv _ _ _ _ _ _ Hi Hr) as [l' Hi']. by exists l', g.
Qed.

Lemma produce_reachable_inv s : produce_reachable s → ∃ l g, produce_inv s l g.
Proof.
  intros (s0 & (Ho & Ht & Hz) & Hs). assert (∃ l g, produce_inv s0 l g) as Hi.
  { exists [], ∅. split; rewrite ?Ht, ?Hz; [by apply ack_initial|done|intros j Hj; lia|lia]. }
  clear Ho Ht Hz. induction Hs as [|s1 s2 s3 H1 _ IH]; [done|]. apply IH. destruct Hi as (l & g & Hi). by eapply produce_step_inv.
Qed.

End produce.
Arguments producing W : clear implicits.

(** C27: the producing task is a closed loop. However the task and the polling thread of
    the producer interleave: the records of all earlier turns have been acknowledged,
    each with its number as the key; never more than one message is with librdkafka, so
    that a measured message does not wait behind others of the task; the future that is
    awaited is never canceled; and once librdkafka has nothing left to report, its result
    is there. *)
Theorem roundtrip_closed_loop {W} `{!ClientNative W} `{!ClientContext W} `{N : HeadersNative} `{!HeadersNativeSpec N}
    `{!MessageNative} `{!ProducerNative W} `{!Oneshot W OwnedDeliveryResult} `{!FutureSpec W} `{!AckSpec W}
    oc topic (s : producing W) :
  produce_reachable oc topic s →
  (∀ j, 0 ≤ j < i s → (topic, Some (str_bytes "dummy"), Some (str_bytes (format_int j))) ∈ acked (pw (world s)))
  ∧ (length (owes (pw (world s))) ≤ 1)%nat
  ∧ (∀ rx, at_task s = Awaiting rx →
       delivery_future_poll rx (world s) ≠ Some (Err tt)
       ∧ (owes (pw (world s)) = [] → ∃ d, delivery_future_poll rx (world s) = Some (Ok d))).
Proof.
  intros (l & g & [H1 H2 H3 _])%produce_reachable_inv. split; [exact H3|].
  destruct (fi_owed _ _ (ak_future _ _ _ H1)) as [_ Hp]. simpl in Hp.
  apply Permutation_length in Hp as Hn. rewrite length_fmap in Hn. split.
  - rewrite <- Hn. destruct (at_task s) as [|rx|]; simpl in H2; [subst; simpl; lia| |done].
    destruct H2 as (_ & _ & [[[p ->] _]|[-> _]]); simpl; lia.
  - intros rx Ht. rewrite Ht in H2. split.
    + intros Hr. by destruct (await_result _ _ _ _ _ _ _ H1 H2 Hr) as (_ & d & ? & _).
    + intros Ho. rewrite Ho in Hn. destruct H2 as (_ & Hnd & [[[p ->] _]|[_ Hin]]); [done|].
      unfold delivery_future_poll. rewrite fut_receive. destruct (value_of rx _) as [d|] eqn:E; [by exists d|].
      by apply value_of_None in E.
Qed.

(** One turn of the task. *)
Definition r_sent : pworld ksim (Box nat) := run (send_result (dummy_record "topic" 0 1000)) (ksim_at 0).
Definition r_served : pworld ksim (Box nat) := run (producer_turn 0 (At 1000)) r_sent.
Definition r_final : producing ksim := {| world := r_served; at_task := Ready; i := 1 |}.

Lemma r_final_reachable : produce_reachable true "topic" r_final.
Proof.
  exists {| world := ksim_at 0; at_task := Ready; i := 0 |}. split.
  { split; [|done]. split; [|done]. split; [constructor|]. intros p d []%elem_of_nil. }
  eapply rtc_l; [apply (rstep_send true "topic" {| world := ksim_at 0; at_task := Ready; i := 0 |} 1000000000 1000 (Ok 0%nat)
    r_sent); vm_compute; reflexivity|].
  eapply rtc_l; [apply (rstep_thread true "topic" {| world := r_sent; at_task := Awaiting 0; i := 0 |} 0 (At 1000) r_served);
    vm_compute; reflexivity|].
  apply rtc_once. apply (rstep_await true "topic" {| world := r_served; at_task := Awaiting 0; i := 0 |} 0 (Ok (Ok k_delivery)));
    vm_compute; reflexivity.
Qed.

Lemma roundtrip_closed_loop_witness :
  ("topic", Some (str_bytes "dummy"), Some (str_bytes "0")) ∈ acked (pw r_served).
Proof.
  exact (proj1 (roundtrip_closed_loop true "topic" r_final r_final_reachable) 0 (conj (Z.le_refl 0) eq_refl)).
Defined.

(** ** The measurement *)

(** What a turn of the loop of [main] sees: what [recv] gives, [start.elapsed()] read
    twice, and [SystemTime::now]. *)
Record turn := {
  answer : KafkaResult RDKafkaMessage;
  elapsed : Z;
  elapsed_again : Z;
  system_time : Z;
}.

Section measure.
Context `{N : HeadersNative} `{MN : !MessageNative} {Histogram : Type} (record : Z → Histogram → outcome Histogram).
Context (oc : bool).

(** [(now() - then) as u64]. *)
Definition latency (system_time sent_at : Z) : outcome Z :=
  n ← now system_time; d ← arith_i64 oc (n - sent_at); mret (d mod 2 ^ 64).

(** One turn: whether the loop goes on, and the histogram. *)
Definition measure_turn (t : turn) (latencies : Histogram) : outcome (bool * Histogram) :=
  message ← match answer t with Ok m => Done m | Err _ => Panic unwrap_message end;
  sent_at ← expect "called `Option::unwrap()` on a `None` value" (to_millis (timestamp message));
  if elapsed t <? duration_from_secs 10 then mret (true, latencies)
  else if elapsed_again t <? duration_from_secs 20 then
    v ← latency (system_time t) sent_at;
    latencies ← record v latencies;
    mret (true, latencies)
  else mret (false, latencies).

(** The loop on its first turns, and whether it has been left. *)
Fixpoint measure (ts : list turn) (latencies : Histogram) : outcome (bool * Histogram) :=
  match ts with
  | [] => mret (false, latencies)
  | t :: ts => measure_turn t latencies ≫= λ '((go, latencies) : bool * Histogram),
                 if go then measure ts latencies else mret (true, latencies)
  end.

(** *** What is measured *)

Fixpoint record_all (vs : list Z) (h : Histogram) : outcome Histogram :=
  match vs with [] => mret h | v :: vs => h ← record v h; record_all vs h end.

(** The time, in milliseconds, that the message of a turn has travelled. *)
Definition travelled (t : turn) : option Z :=
  match answer t with
  | Ok m => sent_at ← to_millis (timestamp m); Some (duration_as_millis (system_time t) - sent_at)
  | Err _ => None
  end.

(** The message arrives after the warm-up and before the end. *)
Definition in_window (t : turn) : Prop :=
  duration_from_secs 10 ≤ elapsed t ∧ elapsed_again t < duration_from_secs 20.

#[global] Instance in_window_dec t : Decision (in_window t).
Proof. unfold in_window. apply _. Defined.

Definition past (t : turn) : bool :=
  bool_decide (duration_from_secs 10 ≤ elapsed t ∧ duration_from_secs 20 ≤ elapsed_again t).

(** The readings of a clock that does not go back. *)
Fixpoint well_timed (last : Z) (ts : list turn) : Prop :=
  match ts with
  | [] => True
  | t :: ts => last ≤ elapsed t ≤ elapsed_again t ∧ well_timed (elapsed_again t) ts
  end.

(** A message with a time, which is not after the time at which it is received. *)
Definition plausible (t : turn) : Prop :=
  (∃ d, travelled t = Some d ∧ 0 ≤ d ≤ i64_max)
  ∧ 0 ≤ system_time t ∧ duration_as_millis (system_time t) ≤ i64_max.

(** A turn on such a message. *)
Lemma measure_turn_plausible t h : plausible t → ∃ d, travelled t = Some d
  ∧ measure_turn t h = if elapsed t <? duration_from_secs 10 then Done (true, h)
                       else if elapsed_again t <? duration_from_secs 20 then h' ← record d h; mret (true, h')
                       else Done (false, h).
Proof.
  intros ((d & Hd & Hb) & Hs & Hm). exists d. split; [done|]. unfold travelled in Hd. unfold measure_turn.
  destruct (answer t) as [m|]; [|done]. cbn [mbind outcome_bind]. destruct (to_millis (timestamp m)) as [sent_at|]; [|done].
  cbn [mbind outcome_bind expect]. simpl in Hd. injection Hd as Hd.
  case_match; [done|]. case_match; [|done]. unfold latency, now. destruct (Z.ltb_spec (system_time t) 0); [lia|].
  rewrite bool_decide_eq_true_2 by done. cbn [mbind outcome_bind]. rewrite Hd, arith_i64_in by (int_unfold; lia).
  cbn [mbind outcome_bind mret outcome_ret]. rewrite Z.mod_small; [done|]. unfold i64_max in *. lia.
Qed.

Lemma window_past last ts : duration_from_secs 20 ≤ last → well_timed last ts → filter in_window ts = [].
Proof.
  revert last. induction ts as [|t ts IH]; intros last Hl; [done|]. simpl. intros [Ht Hts].
  rewrite filter_cons_False; [apply (IH (elapsed_again t)); [lia|done]|]. unfold in_window. lia.
Qed.

(** The loop records the travel time of exactly the messages that arrive between ten
    and twenty seconds after its start, in their order, and ends at the first message
    after that, whatever the histogram does with the values. *)
Theorem measure_window last ts h : well_timed last ts → Forall plausible ts →
  measure ts h = (h' ← record_all (omap travelled (filter in_window ts)) h; mret (existsb past ts, h')).
Proof.
  revert last h. induction ts as [|t ts IH]; intros last h; [done|]. intros [Ht Hts] [Hp Hps]%Forall_cons.
  cbn [measure existsb]. destruct (measure_turn_plausible t h Hp) as (d & Hd & ->). unfold past at 1.
  destruct (Z.ltb_spec (elapsed t) (duration_from_secs 10)).
  - rewrite filter_cons_False by (unfold in_window; lia). rewrite bool_decide_eq_false_2 by lia.
    by apply (IH (elapsed_again t)).
  - destruct (Z.ltb_spec (elapsed_again t) (duration_from_secs 20)).
    + rewrite filter_cons_True by (by unfold in_window). rewrite bool_decide_eq_false_2 by lia.
      simpl. rewrite Hd. simpl. destruct (record d h) as [h'|]; [|done]. by apply (IH (elapsed_again t)).
    + rewrite filter_cons_False by (unfold in_window; lia). rewrite bool_decide_eq_true_2 by done.
      by rewrite (window_past (elapsed_again t)).
Qed.

(** A message from the future: the difference is negative and the cast wraps, so that
    the recorded latency is close to two to the power of 64 milliseconds. *)
Theorem latency_wraps system_time sent_at n : now system_time = Done n → n < sent_at → in_i64 (n - sent_at) →
  latency system_time sent_at = Done (2 ^ 64 - (sent_at - n)).
Proof.
  intros Hn Hlt Hi. unfold latency. rewrite Hn. simpl. rewrite arith_i64_in by done. simpl. f_equal.
  rewrite <- (Z.mod_small (2 ^ 64 - (sent_at - n)) (2 ^ 64)) by (int_unfold; lia).
  replace (2 ^ 64 - (sent_at - n)) with (n - sent_at + 1 * 2 ^ 64) by lia. by rewrite Z.mod_add.
Qed.

End measure.

(** Four messages, of which the two in the middle are measured. *)
Definition sample_turn (seconds latency : Z) : turn :=
  {| answer := Ok sample_message; elapsed := duration_from_secs seconds; elapsed_again := duration_from_secs seconds + 1;
     system_time := duration_from_millis (1000 + latency) |}.

Example measure_sample :
  measure (λ v h, Done (h ++ [v])) true
    [sample_turn 9 1; sample_turn 10 2; sample_turn 19 3; sample_turn 20 4; sample_turn 21 5] []
  = Done (true, [2; 3]).
Proof. vm_compute. reflexivity. Qed.

Example latency_wraps_sample : latency true (duration_from_millis 1000) 1001 = Done (2 ^ 64 - 1).
Proof. vm_compute. reflexivity. Qed.
