(* ===== verification/SimpleProducer.v ===== *)
(** * The producer example

    [examples/simple_producer.rs]: [produce] makes five futures, each of which sends a
    message and waits for its delivery, and then awaits them in order. The futures are
    async blocks, which do nothing until they are polled: the model starts a send when
    the loop of [produce] first polls its future. The program runs beside the thread
    that polls the producer. *)

From stdpp Require Import strings gmap prelude.
From S2P Require Import Prelude ErrorCodes KafkaErrors Util Config Message Client BaseProducer FutureProducer.

Local Open Scope Z_scope.

(** The configuration of the producer. *)
Definition produce_config (global : RDKafkaLogLevel) (brokers : string) : ClientConfig :=
  config_set "message.timeout.ms" "5000" (config_set "bootstrap.servers" brokers (config_new global)).

(** [(0..5)]. *)
Definition message_count : nat := 5.

Section produce.
Context {W : Type} `{!ClientNative W} `{!ClientContext W} `{N : HeadersNative} `{!HeadersNativeSpec N}
  `{!MessageNative} `{!ProducerNative W} `{!Oneshot W OwnedDeliveryResult} `{!FutureSpec W}.
Context (topic_name : string).

(** [OwnedHeaders::new().insert(Header { key: "header_key", value: Some("header_value") })]. *)
Definition message_headers : comp RDKafkaHeaders unit := insert_header (mkHeader "header_key" (Some "header_value")).

Definition message_record (i : nat) (headers : RDKafkaHeaders) : FutureRecord string string :=
  future_headers headers
    (future_key ("Key " +:+ format_int (Z.of_nat i))
    (future_payload ("Message " +:+ format_int (Z.of_nat i))
    (future_to topic_name))).

(** Where the loop over the futures is: it has awaited the futures before [i], or it
    awaits the future [i], whose send has started. *)
Inductive location :=
| Before (i : nat)
| Within (i : nat).

(** [results] are the values of the futures that were awaited. *)
Record prod := { sys : fsys W string string; at_loc : location; results : list OwnedDeliveryResult }.

(** The loop after a poll of the future [i]. *)
Definition awaited (i : nat) (t : send_task string string) (rs : list OwnedDeliveryResult)
    : location * list OwnedDeliveryResult :=
  match st_state t with
  | Returned r => (Before (S i), rs ++ [r])
  | _ => (Within i, rs)
  end.

Inductive pstep : prod → prod → Prop :=
| pstep_begin s i h t sh : at_loc s = Before i → (i < message_count)%nat →
    message_headers headers_new = Done (tt, h) →
    send_start (message_record i h) (After (duration_from_secs 0)) (shared (sys s)) = Done (t, sh) →
    pstep s {| sys := {| shared := sh; tasks := <[i := t]> (tasks (sys s)) |}; at_loc := Within i; results := results s |}
| pstep_await s i t t' sh : at_loc s = Within i → tasks (sys s) !! i = Some t →
    send_resume t (shared (sys s)) = Done (t', sh) →
    pstep s {| sys := {| shared := sh; tasks := <[i := t']> (tasks (sys s)) |};
               at_loc := (awaited i t' (results s)).1; results := (awaited i t' (results s)).2 |}
| pstep_thread s queue deadline sh : producer_turn queue deadline (shared (sys s)) = Done (tt, sh) →
    pstep s {| sys := {| shared := sh; tasks := tasks (sys s) |}; at_loc := at_loc s; results := results s |}.

Definition prod_initial (s : prod) : Prop := future_initial (sys s) ∧ at_loc s = Before 0 ∧ results s = [].

Definition preachable (s : prod) : Prop := ∃ s0, prod_initial s0 ∧ rtc pstep s0 s.

(** ** The invariant *)

(** Only the future that is awaited can have its sender with librdkafka. *)
Definition current (s : prod) (l : list (option nat * Box nat)) : Prop :=
  match at_loc s with
  | Before i => l = [] ∧ length (results s) = i
  | Within i => length (results s) = i
      ∧ ∃ t, tasks (sys s) !! i = Some t ∧ (∀ d, d ∈ l.*2 → d = mkBox (st_rx t)) ∧ (st_state t ≠ Waiting → l = [])
  end.

Record prod_inv (s : prod) (l : list (option nat * Box nat)) : Prop := {
  pi_future : future_inv (sys s) l;
  pi_current : current s l;
  pi_started j t : tasks (sys s) !! j = Some t → (j < length (results s))%nat ∨ at_loc s = Within j;
}.

Lemma no_second_box (l : list (option nat * Box nat)) c :
  (∀ d, d ∈ l.*2 → d = mkBox c) → mkBox c ∉ l.*2 → l = [].
Proof. intros Hl Hc. destruct l as [|[p d] l]; [done|]. destruct Hc. rewrite (Hl d); left. Qed.

(** A send that has its result is not with librdkafka any more. *)
Lemma returned_sent (s : fsys W string string) l i t t' sh r : future_inv s l → tasks s !! i = Some t →
  send_resume t (shared s) = Done (t', sh) → st_state t = Waiting → st_state t' = Returned r → mkBox (st_rx t) ∉ l.*2.
Proof.
  intros Hi Ht Hr Hw Hret Hin. destruct (fi_tasks _ _ Hi i t Ht) as [_ Hok]. rewrite Hw in Hok. destruct Hok as [Hd _].
  rewrite (waiting_resume t _ Hw Hd) in Hr. destruct (value_of _ _) as [x|] eqn:Hv.
  - destruct (fi_flying _ _ Hi _ Hin) as (_ & _ & Hs). apply value_of_elem in Hv. apply Hs.
    apply list_elem_of_fmap. by exists (st_rx t, x).
  - injection Hr as <- <-. congruence.
Qed.

Lemma begin_inv s l i h t sh : prod_inv s l → at_loc s = Before i →
  send_start (message_record i h) (After (duration_from_secs 0)) (shared (sys s)) = Done (t, sh) →
  prod_inv {| sys := {| shared := sh; tasks := <[i := t]> (tasks (sys s)) |}; at_loc := Within i; results := results s |} l.
Proof.
  intros [Hf Hc Hs] Hl Hr. unfold current in Hc. rewrite Hl in Hc. destruct Hc as [-> Hn]. split; [by eapply spawn_inv| |].
  - split; [done|]. exists t. simpl. rewrite lookup_insert_eq. split; [done|]. split; [|done]. intros d Hd. by apply elem_of_nil in Hd.
  - simpl. intros j u. destruct (decide (j = i)) as [->|Hne]; [by right|]. rewrite lookup_insert_ne by done.
    intros Hu. destruct (Hs j u Hu) as [|Hj]; [by left|]. by rewrite Hl in Hj.
Qed.

(** After a poll that does not leave it waiting, the future has no sender. *)
Lemma resume_empty (s : fsys W string string) l l' i t t' sh : future_inv s l → tasks s !! i = Some t →
  send_resume t (shared s) = Done (t', sh) → hands_over l l' t' →
  (∀ d, d ∈ l.*2 → d = mkBox (st_rx t)) → (st_state t ≠ Waiting → l = []) → st_state t' ≠ Waiting → l' = [].
Proof.
  intros Hf Ht Hr [->|[? _]] Hd Hw Hn; [|done].
  assert (st_state t = Waiting ∨ st_state t ≠ Waiting) as [Est|Est] by (destruct (st_state t); (by left) || (by right)); [|by apply Hw].
  apply (no_second_box _ (st_rx t)); [done|]. pose proof (fi_tasks _ _ Hf i t Ht) as [_ Hok]. rewrite Est in Hok.
  pose proof Hr as Hr'. rewrite (waiting_resume t _ Est (proj1 Hok)) in Hr'. destruct (value_of _ _) as [r|].
  - injection Hr' as <- _. by eapply (returned_sent s l i t _ sh r).
  - injection Hr' as <- _. done.
Qed.

Lemma await_inv s l i t t' sh : prod_inv s l → at_loc s = Within i → tasks (sys s) !! i = Some t →
  send_resume t (shared (sys s)) = Done (t', sh) →
  ∃ l', prod_inv {| sys := {| shared := sh; tasks := <[i := t']> (tasks (sys s)) |};
                    at_loc := (awaited i t' (results s)).1; results := (awaited i t' (results s)).2 |} l'.
Proof.
  intros [Hf Hc Hs] Hl Ht Hr. unfold current in Hc. rewrite Hl in Hc. destruct Hc as (Hn & t0 & Ht0 & Hd & Hw).
  rewrite Ht in Ht0. injection Ht0 as <-. subst i.
  destruct (resume_inv _ _ _ _ _ _ Hf Ht Hr) as (l' & Hf' & Hh). exists l'. pose proof (resume_rx _ _ _ _ Hr) as Hrx.
  assert (st_state t' ≠ Waiting → l' = []) as He by (intros Hn; by apply (resume_empty (sys s) l l' _ t t' sh Hf Ht Hr Hh Hd Hw)).
  assert (∀ d, d ∈ l'.*2 → d = mkBox (st_rx t')) as Hd'.
  { rewrite Hrx. destruct Hh as [->|[_ [p ->]]]; [done|]. simpl. intros d [->|Hin]%elem_of_cons; [by rewrite Hrx|auto]. }
  assert (∀ j u, <[length (results s) := t']> (tasks (sys s)) !! j = Some u →
    (j < length (results s))%nat ∨ j = length (results s)) as Hj.
  { intros j u. destruct (decide (j = length (results s))) as [->|Hne]; [by right|]. rewrite lookup_insert_ne by done.
    intros Hu. destruct (Hs j u Hu) as [|Hj]; [by left|]. rewrite Hl in Hj. injection Hj as ->. by right. }
  split; [done| |].
  - unfold current, awaited. simpl. destruct (st_state t') eqn:Est; simpl;
      try (split; [done|]; exists t'; by rewrite lookup_insert_eq, Est). rewrite length_app. simpl. split; [by apply He|lia].
  - simpl. intros j u Hu%Hj. unfold awaited. destruct (st_state t'); simpl; destruct Hu as [Hlt | ->]; auto;
      left; rewrite length_app; simpl; lia.
Qed.

Lemma polled_inv s l q dl sh : prod_inv s l → producer_turn q dl (shared (sys s)) = Done (tt, sh) →
  ∃ l', prod_inv {| sys := {| shared := sh; tasks := tasks (sys s) |}; at_loc := at_loc s; results := results s |} l'.
Proof.
  intros [Hf Hc Hs] Hr. destruct (producer_turn_settles q dl _ l (fi_owed _ _ Hf)) as (sh' & l' & Hr' & Hst).
  rewrite Hr' in Hr. injection Hr as ->. exists l'. split; [by eapply future_inv_settles| |done].
  assert (∀ d, d ∈ l'.*2 → d ∈ l.*2) as Hsub.
  { destruct Hst as (ms & gone & Hp & _). intros d Hd. rewrite Hp, fmap_app. apply elem_of_app. by right. }
  assert (l = [] → l' = []) as Hnil.
  { intros ->. destruct l' as [|x l']; [done|]. assert (x.2 ∈ ([] : list (Box nat))) as Hx by (apply Hsub; left).
    by apply elem_of_nil in Hx. }
  unfold current in *. simpl. destruct (at_loc s) as [i|i]; [by destruct Hc as [Hc Hn]; split; [apply Hnil|]|].
  destruct Hc as (Hn & t & Ht & Hd & Hw). split; [done|]. exists t. auto.
Qed.

Lemma preachable_inv s : preachable s → ∃ l, prod_inv s l.
Proof.
  intros (s0 & (Hf & Hl & Hr) & Hst). assert (∃ l, prod_inv s0 l) as Hi.
  { exists []. split; [by apply future_initial_inv| |].
    - unfold current. by rewrite Hl, Hr.
    - intros j t. destruct Hf as [_ ->]. by rewrite lookup_empty. }
  clear Hf Hl Hr. induction Hst as [|s0 s1 s2 Hs _ IH]; [done|]. apply IH. destruct Hi as [l Hi].
  destruct Hs as [s0 i h t sh Hl _ _ Ht|s0 i t t' sh Hl Ht Hr|s0 q dl sh Hr].
  - exists l. by eapply begin_inv.
  - by eapply await_inv.
  - by eapply polled_inv.
Qed.

Lemma same_boxes_length (l : list (option nat * Box nat)) c :
  NoDup l.*2 → (∀ d, d ∈ l.*2 → d = mkBox c) → (length l ≤ 1)%nat.
Proof.
  destruct l as [|x [|y l]]; simpl; [lia..|]. intros Hn Hd. apply NoDup_cons in Hn as [Hx _]. destruct Hx.
  rewrite (Hd x.2), (Hd y.2); [left|right; left|left].
Qed.

Lemma prod_inv_owes s l : prod_inv s l → (length (owes (pw (shared (sys s)))) ≤ 1)%nat.
Proof.
  intros [Hf Hc _]. destruct (fi_owed _ _ Hf) as [_ Hp]. apply Permutation_length in Hp. rewrite length_fmap in Hp.
  change (inflight (Box nat) (pw (shared (sys s)))) with (owes (pw (shared (sys s)))) in Hp. rewrite <- Hp.
  unfold current in Hc. destruct (at_loc s) as [i|i]; [destruct Hc as [-> _]; simpl; lia|].
  destruct Hc as (_ & t & _ & Hd & _). by apply (same_boxes_length _ (st_rx t)); [apply Hf|].
Qed.

End produce.

(** C20: The example sends its messages strictly one at a time: at any time at most one
    of them is with librdkafka, and when the send of a message has started the results
    of all the messages before it have been received. *)
Theorem simple_producer_waits {W} `{!ClientNative W} `{!ClientContext W} `{N : HeadersNative} `{!HeadersNativeSpec N}
    `{!MessageNative} `{!ProducerNative W} `{!Oneshot W OwnedDeliveryResult} `{!FutureSpec W} topic_name (s : prod) :
  preachable topic_name s →
  (length (owes (pw (shared (sys s)))) ≤ 1)%nat
  ∧ ∀ i j t, tasks (sys s) !! j = Some t → (i < j)%nat → is_Some (results s !! i).
Proof.
  intros [l Hi]%preachable_inv. split; [by eapply prod_inv_owes|]. intros i j t Ht Hij. apply lookup_lt_is_Some.
  destruct (pi_started _ _ Hi j t Ht) as [?|Hl]; [lia|]. pose proof (pi_current _ _ Hi) as Hc. unfold current in Hc.
  rewrite Hl in Hc. destruct Hc as [Hn _]. lia.
Qed.

(** The first message is with librdkafka. *)
Lemma simple_producer_waits_witness :
  ∃ s : prod (W := fsim), length (owes (pw (shared (sys s)))) = 1%nat ∧ at_loc s = Within 0
    ∧ ∀ i j t, tasks (sys s) !! j = Some t → (i < j)%nat → is_Some (results s !! i).
Proof.
  assert (∃ s : prod (W := fsim), preachable "topic" s ∧ length (owes (pw (shared (sys s)))) = 1%nat ∧ at_loc s = Within 0)
    as (s & Hs & Hn & Hl).
  { eexists. split.
    - exists {| sys := idle_system; at_loc := Before 0; results := [] |}. split.
      + split; [split; [apply fsim_owed|done]|done].
      + eapply rtc_l; [|eapply rtc_l; [|apply rtc_refl]].
        * eapply (pstep_begin "topic" _ 0); [reflexivity|unfold message_count; lia|vm_compute; reflexivity..].
        * eapply (pstep_await "topic" _ 0); [reflexivity|apply lookup_insert_eq|vm_compute; reflexivity].
    - split; reflexivity. }
  exists s. split; [done|]. split; [done|]. exact (proj2 (simple_producer_waits "topic" s Hs)).
Defined.
