(* ===== verification/MetadataExample.v ===== *)
(** * The metadata example

    [examples/metadata.rs]: [print_metadata] fetches the metadata of a cluster and
    prints it, with the watermarks of the partitions if they are asked for. A line of
    output is modelled by the values that it shows; additions and subtractions are
    those of a build with overflow checks. *)

From stdpp Require Import strings gmap prelude.
From S2P Require Import Prelude ErrorCodes KafkaErrors Util ClusterInfo Client.

Local Open Scope Z_scope.

(** What is printed. *)
Inductive line : Type :=
| ClusterLine (broker_count topic_count : nat) (orig_broker_name : string) (orig_broker_id : Z)
| BrokerLine (id : Z) (host : string) (port : Z)
| TopicLine (name : string) (error : option RDKafkaRespErr)
| PartitionLine (id leader : Z) (replicas isr : list Z) (error : option RDKafkaRespErr)
| WatermarkLine (low high difference : Z)
| TotalLine (message_count : Z).

Definition is_i64 (z : Z) : bool := (- 2 ^ 63 <=? z) && (z <? 2 ^ 63).

(** [a - b] and [a + b] on [i64]. *)
Definition i64_sub (a b : Z) : outcome Z :=
  if is_i64 (a - b) then Done (a - b) else Panic "attempt to subtract with overflow".
Definition i64_add (a b : Z) : outcome Z :=
  if is_i64 (a + b) then Done (a + b) else Panic "attempt to add with overflow".

Section print.
Context {W : Type} `{!ClientNative W}.
Context (fetch_offsets : bool).

(** The body of the loop over the partitions of a topic: its lines, and the count. *)
Definition print_partition (topic : Metadata.RDKafkaMetadataTopic) (partition : Metadata.RDKafkaMetadataPartition)
    (message_count : Z) : comp W (list line * Z) :=
  replicas ← lift (Metadata.replicas partition);
  isr ← lift (Metadata.isr partition);
  let l := PartitionLine (Metadata.partition_id partition) (Metadata.leader partition) replicas isr
             (Metadata.partition_error partition) in
  if fetch_offsets then
    name ← lift (Metadata.topic_name topic);
    r ← fetch_watermarks name (Metadata.partition_id partition) (After (duration_from_secs 1));
    let '(low, high) := match r with Ok lh => lh | Err _ => (-1, -1) end in
    d ← lift (i64_sub high low);
    count ← lift (i64_add message_count d);
    mret ([l; WatermarkLine low high d], count)
  else mret ([l], message_count).

Fixpoint print_partitions (topic : Metadata.RDKafkaMetadataTopic) (ps : list Metadata.RDKafkaMetadataPartition)
    (message_count : Z) : comp W (list line * Z) :=
  match ps with
  | [] => mret ([], message_count)
  | p :: ps =>
      '(l, count) ← print_partition topic p message_count;
      '(l', count) ← print_partitions topic ps count;
      mret (l ++ l', count)
  end.

(** The body of the loop over the topics. *)
Definition print_topic (topic : Metadata.RDKafkaMetadataTopic) (message_count : Z) : comp W (list line * Z) :=
  name ← lift (Metadata.topic_name topic);
  ps ← lift (Metadata.partitions topic);
  '(l, count) ← print_partitions topic ps message_count;
  mret (TopicLine name (Metadata.topic_error topic) :: l ++ (if fetch_offsets then [TotalLine count] else []), count).

Fixpoint print_topics (ts : list Metadata.RDKafkaMetadataTopic) (message_count : Z) : comp W (list line * Z) :=
  match ts with
  | [] => mret ([], message_count)
  | t :: ts =>
      '(l, count) ← print_topic t message_count;
      '(l', count) ← print_topics ts count;
      mret (l ++ l', count)
  end.

Fixpoint print_brokers (bs : list Metadata.RDKafkaMetadataBroker) : comp W (list line) :=
  match bs with
  | [] => mret []
  | b :: bs =>
      host ← lift (Metadata.host b);
      l ← print_brokers bs;
      mret (BrokerLine (Metadata.broker_id b) host (Metadata.port b) :: l)
  end.

(** [print_metadata], with the consumer created. *)
Definition print_metadata (topic : option string) (timeout : Z) : comp W (list line) :=
  r ← fetch_metadata topic (After timeout);
  metadata ← lift (match r with Ok m => Done m | Err _ => Panic "Failed to fetch metadata" end);
  bs ← lift (Metadata.brokers metadata);
  ts ← lift (Metadata.topics metadata);
  name ← lift (Metadata.orig_broker_name metadata);
  lb ← print_brokers bs;
  '(lt, _) ← print_topics ts 0;
  mret (ClusterLine (length bs) (length ts) name (Metadata.orig_broker_id metadata) :: lb ++ lt).

(** ** The totals *)

(** The differences that lines show. *)
Definition differences (ls : list line) : list Z :=
  omap (λ l, match l with WatermarkLine _ _ d => Some d | _ => None end) ls.

Definition sum (l : list Z) : Z := foldr Z.add 0 l.

Lemma sum_app l l' : sum (l ++ l') = sum l + sum l'.
Proof. induction l as [|x l IH]; [done|]. simpl. rewrite IH. lia. Qed.

Lemma differences_app l l' : differences (l ++ l') = differences l ++ differences l'.
Proof. apply omap_app. Qed.

(** Every total is what the count was, with all the differences above it; and the
    count is all the differences. *)
Definition totals (from : Z) (ls : list line) (to : Z) : Prop :=
  to = from + sum (differences ls)
  ∧ ∀ pre n post, ls = pre ++ TotalLine n :: post → n = from + sum (differences pre).

Lemma totals_app from mid to ls ls' : totals from ls mid → totals mid ls' to → totals from (ls ++ ls') to.
Proof.
  intros [H1 H2] [H3 H4]. split; [rewrite differences_app, sum_app; lia|]. intros pre n post He.
  apply app_eq_app in He as (k & [[-> He]|[-> He]]).
  - destruct k as [|x k]; simpl in *.
    + pose proof (H4 [] n post (eq_sym He)) as Hn. rewrite app_nil_r in H1. simpl in Hn. lia.
    + injection He as <- ->. by apply (H2 pre n k).
  - pose proof (H4 k n post He) as Hn. rewrite differences_app, sum_app. lia.
Qed.

Lemma totals_plain from l : (∀ n, l ≠ TotalLine n) → differences [l] = [] → totals from [l] from.
Proof.
  intros Hl Hd. split; [rewrite Hd; simpl; lia|]. intros [|x pre] n post; simpl.
  - intros [= He _]. by destruct (Hl n).
  - intros [= _ He]. by destruct pre.
Qed.

Lemma totals_nil from : totals from [] from.
Proof. split; [simpl; lia|]. by intros [] n post. Qed.

Lemma lift_Done {A} (o : outcome A) (w : W) a w' : lift o w = Done (a, w') → o = Done a ∧ w' = w.
Proof. unfold lift. destruct o; by intros [= <- <-]. Qed.

Lemma print_partition_totals t p c w r w' : print_partition t p c w = Done (r, w') → totals c r.1 r.2.
Proof.
  unfold print_partition. intros Hr. apply comp_bind_Done in Hr as (rs & w1 & [_ ->]%lift_Done & Hr).
  apply comp_bind_Done in Hr as (sy & w2 & [_ ->]%lift_Done & Hr). destruct fetch_offsets.
  - apply comp_bind_Done in Hr as (nm & w3 & [_ ->]%lift_Done & Hr). apply comp_bind_Done in Hr as (x & w3 & _ & Hr).
    destruct (match x with Ok lh => lh | Err _ => (-1, -1) end) as [low high].
    apply comp_bind_Done in Hr as (d & w4 & [Hd ->]%lift_Done & Hr).
    apply comp_bind_Done in Hr as (cnt & w4 & [Hc ->]%lift_Done & [= <- <-]). simpl.
    unfold i64_add in Hc. destruct (is_i64 (c + d)); [|done]. injection Hc as <-.
    apply (totals_app c c _ [_] [_]); [by apply totals_plain|]. split; [simpl; lia|].
    intros [|y pre] n post; simpl; [done|]. intros [= _ He]. by destruct pre.
  - injection Hr as <- <-. simpl. by apply totals_plain.
Qed.

Lemma print_partitions_totals t ps c w r w' : print_partitions t ps c w = Done (r, w') → totals c r.1 r.2.
Proof.
  revert c w r w'. induction ps as [|p ps IH]; intros c w r w'; simpl.
  - intros [= <- <-]. apply totals_nil.
  - intros Hr. apply comp_bind_Done in Hr as ([l c1] & w1 & H1%print_partition_totals & Hr).
    apply comp_bind_Done in Hr as ([l' c2] & w2 & H2%IH & [= <- <-]). by eapply totals_app.
Qed.

Lemma print_topic_totals t c w r w' : print_topic t c w = Done (r, w') → totals c r.1 r.2.
Proof.
  unfold print_topic. intros Hr. apply comp_bind_Done in Hr as (nm & w1 & [_ ->]%lift_Done & Hr).
  apply comp_bind_Done in Hr as (ps & w1 & [_ ->]%lift_Done & Hr).
  apply comp_bind_Done in Hr as ([l c1] & w1 & H1%print_partitions_totals & [= <- <-]). simpl in *.
  apply (totals_app c c c1 [_]); [by apply totals_plain|]. eapply totals_app; [exact H1|].
  destruct fetch_offsets; [|apply totals_nil]. split; [simpl; lia|].
  intros [|y pre] n post; simpl; [intros [= -> _]; simpl; lia|]. intros [= _ He]. by destruct pre.
Qed.

Lemma print_topics_totals ts c w r w' : print_topics ts c w = Done (r, w') → totals c r.1 r.2.
Proof.
  revert c w r w'. induction ts as [|t ts IH]; intros c w r w'; simpl.
  - intros [= <- <-]. apply totals_nil.
  - intros Hr. apply comp_bind_Done in Hr as ([l c1] & w1 & H1%print_topic_totals & Hr).
    apply comp_bind_Done in Hr as ([l' c2] & w2 & H2%IH & [= <- <-]). by eapply totals_app.
Qed.

Lemma print_brokers_totals bs c w l w' : print_brokers bs w = Done (l, w') → totals c l c.
Proof.
  revert w l w'. induction bs as [|b bs IH]; intros w l w'; simpl.
  - intros [= <- <-]. apply totals_nil.
  - intros Hr. apply comp_bind_Done in Hr as (h & w1 & [_ ->]%lift_Done & Hr).
    apply comp_bind_Done in Hr as (l' & w2 & H2%IH & [= <- <-]). apply (totals_app c c c [_]); [by apply totals_plain|done].
Qed.

Lemma print_metadata_totals topic timeout w ls w' : print_metadata topic timeout w = Done (ls, w') →
  ∃ n, totals 0 ls n.
Proof.
  unfold print_metadata. intros Hr. apply comp_bind_Done in Hr as (r & w1 & _ & Hr).
  apply comp_bind_Done in Hr as (m & w2 & [_ ->]%lift_Done & Hr). apply comp_bind_Done in Hr as (bs & w2 & [_ ->]%lift_Done & Hr).
  apply comp_bind_Done in Hr as (ts & w2 & [_ ->]%lift_Done & Hr). apply comp_bind_Done in Hr as (nm & w2 & [_ ->]%lift_Done & Hr).
  apply comp_bind_Done in Hr as (lb & w2 & Hb%(print_brokers_totals _ 0) & Hr).
  apply comp_bind_Done in Hr as ([lt c] & w3 & Ht%print_topics_totals & [= <- <-]). exists c.
  apply (totals_app 0 0 c [_]); [by apply totals_plain|]. by eapply totals_app.
Qed.

End print.

(** ** A simulated cluster *)

(** Two topics with one partition each, of three and of four messages. *)
Definition demo_partition : Metadata.RDKafkaMetadataPartition :=
  {| Metadata.p_id := 0; Metadata.p_err := RD_KAFKA_RESP_ERR_NO_ERROR; Metadata.p_leader := 1;
     Metadata.replica_cnt := 1; Metadata.p_replicas := Some [1]; Metadata.isr_cnt := 1; Metadata.p_isrs := Some [1] |}.
Definition demo_topic (name : string) : Metadata.RDKafkaMetadataTopic :=
  {| Metadata.t_topic := name; Metadata.partition_cnt := 1; Metadata.t_partitions := Some [demo_partition];
     Metadata.t_err := RD_KAFKA_RESP_ERR_NO_ERROR |}.
Definition demo_metadata : Metadata.RDKafkaMetadata :=
  {| Metadata.broker_cnt := 1; Metadata.m_brokers := Some [{| Metadata.b_id := 1; Metadata.b_host := "host"; Metadata.b_port := 9092 |}];
     Metadata.topic_cnt := 2; Metadata.m_topics := Some [demo_topic "a"; demo_topic "b"];
     Metadata.m_orig_broker_id := 1; Metadata.m_orig_broker_name := "host" |}.

Inductive msim : Set := Msim.

#[export] Instance msim_native : ClientNative msim := {
  clock _ := 0;
  rd_kafka_queue_poll _ _ w := (None, w);
  rd_kafka_oauthbearer_set_token _ _ _ w := (RD_KAFKA_RESP_ERR_NO_ERROR, [], w);
  rd_kafka_oauthbearer_set_token_failure _ w := w;
  rd_kafka_rebalance_protocol _ := None;
  rd_kafka_topic_new _ w := (None, w);
  rd_kafka_metadata _ _ _ w := (RD_KAFKA_RESP_ERR_NO_ERROR, Some demo_metadata, w);
  rd_kafka_query_watermark_offsets t _ _ _ w :=
    (RD_KAFKA_RESP_ERR_NO_ERROR, (0, if String.eqb t "a" then 3 else 4), w);
  rd_kafka_clusterid _ w := (None, w);
  rd_kafka_list_groups _ _ w := (RD_KAFKA_RESP_ERR_NO_ERROR, None, w);
  rd_kafka_fatal_error w := (RD_KAFKA_RESP_ERR_NO_ERROR, [], w);
  rd_kafka_queue_new w := (None, w);
  rd_kafka_queue_get_consumer w := (None, w);
  rd_kafka_queue_get_main w := (None, w);
}.

Definition totals_of (ls : list line) : list Z := omap (λ l, match l with TotalLine n => Some n | _ => None end) ls.

(** The total that is printed with a topic counts the messages of all the partitions
    printed so far, those of the topics before it included. *)
Theorem metadata_totals_cumulative {W} `{!ClientNative W} fetch_offsets topic timeout (w : W) ls w' :
  print_metadata fetch_offsets topic timeout w = Done (ls, w') →
  ∀ pre n post, ls = pre ++ TotalLine n :: post → n = sum (differences pre).
Proof. intros [c [_ Ht]]%print_metadata_totals pre n post He. apply (Ht pre n post He). Qed.

(** The topic [b] has four messages, and the total under it is seven. *)
Example metadata_totals_demo :
  match print_metadata true None 0 Msim with
  | Done (ls, _) => differences ls = [3; 4] ∧ totals_of ls = [3; 7]
  | Panic _ => False
  end.
Proof. by vm_compute. Qed.
