(* ===== verification/AsyncProcessing.v ===== *)
(** * The asynchronous processing example

    [examples/asynchronous_processing.rs]: [run_async_processor] detaches every message
    of a stream and spawns a task for it, which computes a result on a thread of its
    own and produces it. The step relation [step] interleaves the stream, the tasks and
    the thread that polls the producer. The records of the tasks are numbered in the
    order of the messages. *)

From stdpp Require Import strings gmap prelude.
From S2P Require Import Prelude ErrorCodes KafkaErrors Util TopicPartitionList Config Message Client.
From S2P Require Import BaseConsumer BaseProducer FutureProducer Acknowledged Offsets AtLeastOnce.

Local Open Scope Z_scope.

(** The configurations of [run_async_processor]. *)
Definition input_config (global : RDKafkaLogLevel) (brokers group_id : string) : ClientConfig :=
  config_set "enable.auto.commit" "false"
    (config_set "session.timeout.ms" "6000"
    (config_set "enable.partition.eof" "false"
    (config_set "bootstrap.servers" brokers
    (config_set "group.id" group_id
    (config_new global))))).

Definition output_config (global : RDKafkaLogLevel) (brokers : string) : ClientConfig :=
  config_set "message.timeout.ms" "5000" (config_set "bootstrap.servers" brokers (config_new global)).

(** [expensive_computation], which also sleeps. *)
Definition expensive_computation `{N : HeadersNative} (msg : OwnedMessage) : string :=
  match payload_view (P := string) msg with
  | Some (Ok payload) => "Payload len for " +:+ payload +:+ " is " +:+ format_int (Z.of_nat (length (str_bytes payload)))
  | Some (Err _) => "Message payload is not a string"
  | None => "No payload"
  end.

Section processor.
Context {Wp : Type} `{!ClientNative Wp} `{!ClientContext Wp} `{N : HeadersNative} `{!HeadersNativeSpec N}
  `{!MessageNative} `{!ProducerNative Wp} `{!Oneshot Wp OwnedDeliveryResult} `{!FutureSpec Wp} `{!AckSpec Wp}.
Context {Wc : Type} `{!ClientNative Wc} `{!ClientContext Wc} `{!ConsumerContext Wc} `{!ConsumerNative Wc} `{T : TplNative}.
Context (output_topic : string) (queue : nat).

(** The record that a task produces. *)
Definition result_record (m : OwnedMessage) : FutureRecord string string :=
  future_payload (expensive_computation m) (future_key "some key" (future_to output_topic)).

(** A spawned task: in [expensive_computation], in the wait for the producer, and
    after it has printed the result. *)
Inductive progress :=
| Computing
| Producing
| Printed (r : OwnedDeliveryResult).

(** The stream, up to its first error, after which the processor panics. *)
Inductive stream_state := Streaming | Failed (e : KafkaError).

Record proc := {
  out : fsys Wp string string;
  inp : Wc;
  stream : stream_state;
  taken : list RDKafkaMessage;
  jobs : list (OwnedMessage * progress);
}.

(** The closure of [try_for_each], on what the stream gives. *)
Definition received (r : EventPollResult (KafkaResult RDKafkaMessage)) (s : proc) : outcome proc :=
  match r with
  | Poll.Event (Ok m) =>
      owned_message ← detach m;
      mret {| out := out s; inp := inp s; stream := stream s; taken := taken s ++ [m];
              jobs := jobs s ++ [(owned_message, Computing)] |}
  | Poll.Event (Err e) => mret {| out := out s; inp := inp s; stream := Failed e; taken := taken s; jobs := jobs s |}
  | _ => mret s
  end.

Definition with_inp (w : Wc) (s : proc) : proc :=
  {| out := out s; inp := w; stream := stream s; taken := taken s; jobs := jobs s |}.
Definition with_out (p : fsys Wp string string) (s : proc) : proc :=
  {| out := p; inp := inp s; stream := stream s; taken := taken s; jobs := jobs s |}.
Definition with_job (k : nat) (m : OwnedMessage) (p : progress) (s : proc) : proc :=
  {| out := out s; inp := inp s; stream := stream s; taken := taken s; jobs := <[k := (m, p)]> (jobs s) |}.

(** The value of a send that has completed. *)
Definition sent_result (p : fsys Wp string string) (k : nat) : option OwnedDeliveryResult :=
  t ← tasks p !! k; match st_state t with Returned r => Some r | _ => None end.

Inductive step : proc → proc → Prop :=
| step_recv s fuel r w s' : stream s = Streaming → poll_queue fuel queue (After 0) (inp s) = Done (Some r, w) →
    received r (with_inp w s) = Done s' → step s s'
| step_computed s k m t sh : jobs s !! k = Some (m, Computing) →
    send_start (result_record m) (After (duration_from_secs 0)) (shared (out s)) = Done (t, sh) →
    step s (with_job k m Producing (with_out {| shared := sh; tasks := <[k := t]> (tasks (out s)) |} s))
| step_resume s k t t' sh : tasks (out s) !! k = Some t → send_resume t (shared (out s)) = Done (t', sh) →
    step s (with_out {| shared := sh; tasks := <[k := t']> (tasks (out s)) |} s)
| step_thread s q dl sh : producer_turn q dl (shared (out s)) = Done (tt, sh) →
    step s (with_out {| shared := sh; tasks := tasks (out s) |} s)
| step_print s k m r : jobs s !! k = Some (m, Producing) → sent_result (out s) k = Some r → step s (with_job k m (Printed r) s).

Definition initial (s : proc) : Prop := future_initial (out s) ∧ stream s = Streaming ∧ taken s = [] ∧ jobs s = [].

(** ** The invariant *)

(** What is known of a task. *)
Definition job_ok (p : fsys Wp string string) (asked : gmap nat (FutureRecord string string)) (k : nat)
    (m : OwnedMessage) (x : progress) : Prop :=
  match x with
  | Computing => tasks p !! k = None
  | Producing => asked !! k = Some (result_record m)
  | Printed (Ok _) => record_content (result_record m) ∈ acked (pw (shared p))
  | Printed (Err _) => True
  end.

Record proc_inv (s : proc) (asked : gmap nat (FutureRecord string string)) : Prop := {
  pr_traced : traced (out s) asked;
  pr_jobs : Forall2 (λ m j, detach m = Done j.1) (taken s) (jobs s);
  pr_job k m x : jobs s !! k = Some (m, x) → job_ok (out s) asked k m x;
  pr_tasks k : jobs s !! k = None → tasks (out s) !! k = None;
}.

Lemma job_ok_mono p p' asked k m x : (tasks p !! k = None → tasks p' !! k = None) →
  acked (pw (shared p)) ⊆ acked (pw (shared p')) → job_ok p asked k m x → job_ok p' asked k m x.
Proof. intros Ht Ha. unfold job_ok. destruct x as [| |[]]; auto. Qed.

(** A step of the producer that starts no send. *)
Lemma out_inv s asked p : proc_inv s asked → traced p asked → acked (pw (shared (out s))) ⊆ acked (pw (shared p)) →
  (∀ k, tasks (out s) !! k = None → tasks p !! k = None) → proc_inv (with_out p s) asked.
Proof.
  intros [H1 H2 H3 H4] Ht Ha Hk. split; simpl; [done|done| |auto]. intros k m x Hx.
  by apply (job_ok_mono (out s)); [apply Hk| |apply H3].
Qed.

Lemma received_inv r s asked s' : proc_inv s asked → received r s = Done s' → proc_inv s' asked.
Proof.
  intros [H1 H2 H3 H4] Hr. unfold received in Hr. destruct r as [| |[m|e]]; try (by injection Hr as <-).
  destruct (detach m) as [om|] eqn:Hd; [|done]. injection Hr as <-. split; simpl; [done|by apply Forall2_app; [|constructor]| |].
  - intros k m' x Hx. apply lookup_app_Some in Hx as [Hx|[Hge Hx]]; [by apply H3|].
    apply list_lookup_singleton_Some in Hx as [Hk [= <- <-]]. simpl. apply H4, lookup_ge_None. lia.
  - intros k Hk. apply lookup_ge_None in Hk. rewrite length_app in Hk. apply H4, lookup_ge_None. lia.
Qed.

Lemma computed_inv s asked k m t sh : proc_inv s asked → jobs s !! k = Some (m, Computing) →
  send_start (result_record m) (After (duration_from_secs 0)) (shared (out s)) = Done (t, sh) →
  proc_inv (with_job k m Producing (with_out {| shared := sh; tasks := <[k := t]> (tasks (out s)) |} s))
    (<[k := result_record m]> asked).
Proof.
  intros [H1 H2 H3 H4] Hk Hr. pose proof (H3 k m _ Hk) as Hn. pose proof (spawn_acked _ _ _ _ _ Hr) as Ha. split; simpl.
  - by eapply traced_spawn.
  - destruct (Forall2_lookup_r _ _ _ _ _ H2 Hk) as (m0 & Hm0 & Hd). rewrite <- (list_insert_id _ _ _ Hm0). by apply Forall2_insert.
  - intros j m' x Hx. destruct (decide (j = k)) as [->|Hne].
    + rewrite list_lookup_insert_eq in Hx by (by eapply lookup_lt_Some). injection Hx as <- <-. simpl. apply lookup_insert_eq.
    + rewrite list_lookup_insert_ne in Hx by done. specialize (H3 j m' x Hx). unfold job_ok in *. simpl in *.
      destruct x as [| |[]]; [by rewrite lookup_insert_ne|by rewrite lookup_insert_ne|auto|done].
  - intros j Hj. apply lookup_ge_None in Hj. rewrite length_insert in Hj. apply lookup_lt_Some in Hk.
    rewrite lookup_insert_ne by lia. apply H4, lookup_ge_None. lia.
Qed.

Lemma print_inv s asked k m r : proc_inv s asked → jobs s !! k = Some (m, Producing) → sent_result (out s) k = Some r →
  proc_inv (with_job k m (Printed r) s) asked.
Proof.
  intros [H1 H2 H3 H4] Hk Hr. pose proof (H3 k m _ Hk) as Hn. simpl in Hn. split; simpl; [done| | |].
  - destruct (Forall2_lookup_r _ _ _ _ _ H2 Hk) as (m0 & Hm0 & Hd). rewrite <- (list_insert_id _ _ _ Hm0). by apply Forall2_insert.
  - intros j m' x Hx. destruct (decide (j = k)) as [->|Hne].
    + rewrite list_lookup_insert_eq in Hx by (by eapply lookup_lt_Some). injection Hx as <- <-. simpl.
      destruct r as [d|e]; [|done]. unfold sent_result in Hr. destruct (tasks (out s) !! k) as [t|] eqn:Ht; [|done]. simpl in Hr.
      destruct (st_state t) eqn:Est; try done. injection Hr as ->. by eapply traced_returned.
    + rewrite list_lookup_insert_ne in Hx by done. by apply H3.
  - intros j Hj. apply lookup_ge_None in Hj. rewrite length_insert in Hj. by apply H4, lookup_ge_None.
Qed.

Lemma step_inv s s' asked : proc_inv s asked → step s s' → ∃ asked', proc_inv s' asked'.
Proof.
  intros Hi Hs. destruct Hs as [s fuel r w s' _ _ Hr|s k m t sh Hk Hr|s k t t' sh Ht Hr|s q dl sh Hr|s k m r Hk Hr].
  - exists asked. eapply received_inv; [|done]. by destruct Hi.
  - eexists. by eapply computed_inv.
  - exists asked. destruct (traced_owed _ _ (pr_traced _ _ Hi)) as [l Ho]. apply (out_inv s); [done| | |].
    + eapply traced_step; [apply Hi|by eapply fstep_resume|]. intros j u. pose proof (resume_rx _ _ _ _ Hr).
      simpl. intros [[<- <-]|[_ ?]]%lookup_insert_Some; eauto.
    + by apply (resume_acked _ _ _ _ _ Ho Hr).
    + intros j Hj. simpl. rewrite lookup_insert_ne; [done|]. intros ->. congruence.
  - exists asked. destruct (traced_owed _ _ (pr_traced _ _ Hi)) as [l Ho]. apply (out_inv s); [done| | |done].
    + eapply traced_step; [apply Hi|by eapply fstep_poll|]. intros j u Hu. by exists u.
    + by apply (turn_acked _ _ _ _ _ Ho Hr).
  - exists asked. by apply print_inv.
Qed.

Lemma steps_inv s s' : rtc step s s' → ∀ asked, proc_inv s asked → ∃ asked', proc_inv s' asked'.
Proof.
  induction 1 as [s|s s1 s' Hs _ IH]; intros asked Hi; [by exists asked|]. destruct (step_inv _ _ _ Hi Hs) as [a Ha]. by apply (IH a).
Qed.

Lemma initial_inv s : initial s → proc_inv s ∅.
Proof.
  intros (Hf & _ & Ht & Hj). split; rewrite ?Ht, ?Hj; [by apply traced_initial|constructor|done|].
  intros k _. destruct Hf as [_ ->]. apply lookup_empty.
Qed.

(** An error of the stream is final. *)
Lemma failed_final s s' e : rtc step s s' → stream s = Failed e → stream s' = Failed e ∧ taken s' = taken s.
Proof.
  induction 1 as [s|s s1 s' Hs _ IH]; intros Hf; [done|].
  assert (stream s1 = Failed e ∧ taken s1 = taken s) as [H1 H2].
  { destruct Hs as [s fuel r w s2 Hst _ _|s k m t sh _ _|s k t t' sh _ _|s q dl sh _|s k m r _ _]; try done. congruence. }
  destruct (IH H1) as [H3 H4]. by rewrite H4.
Qed.

End processor.

(** C25: Every message that the processor takes from the stream is processed by exactly
    one task, in every interleaving: the tasks are those of the messages that were
    taken, in their order, each with the detached message; a task that prints a
    delivery has had the result of the computation on its message, with its key,
    acknowledged on the output topic; and the first error that the stream gives ends
    it: nothing is taken after it. *)
Theorem async_processing_correct {Wp} `{!ClientNative Wp} `{!ClientContext Wp} `{N : HeadersNative} `{!HeadersNativeSpec N}
    `{!MessageNative} `{!ProducerNative Wp} `{!Oneshot Wp OwnedDeliveryResult} `{!FutureSpec Wp} `{!AckSpec Wp}
    {Wc} `{!ClientNative Wc} `{!ClientContext Wc} `{!ConsumerContext Wc} `{!ConsumerNative Wc} `{T : TplNative}
    output_topic queue (s0 s : proc (Wp := Wp) (Wc := Wc)) :
  initial s0 → rtc (step output_topic queue) s0 s →
  Forall2 (λ m j, detach m = Done j.1) (taken s) (jobs s)
  ∧ (∀ k m d, jobs s !! k = Some (m, Printed (Ok d)) →
       (output_topic, Some (str_bytes (expensive_computation m)), Some (str_bytes "some key")) ∈ acked (pw (shared (out s))))
  ∧ (∀ e s', stream s = Failed e → rtc (step output_topic queue) s s' → stream s' = Failed e ∧ taken s' = taken s).
Proof.
  intros Hi Hs. destruct (steps_inv _ _ _ _ Hs ∅ (initial_inv output_topic _ Hi)) as [asked Hp]. split_and!; [apply Hp| |].
  - intros k m d Hk. exact (pr_job _ _ _ Hp k m _ Hk).
  - intros e s' He Hs'. by eapply failed_final.
Qed.

(** One message, from its arrival to the printed delivery. *)
Definition d_message : OwnedMessage :=
  match detach (csim_message 0) with Done m => m | Panic _ => owned_message_new None None "" Ts.NotAvailable 0 0 None end.
Definition d_record : FutureRecord string string := result_record "out" d_message.
Definition d_task (st : send_state string string) : send_task string string :=
  {| st_start := 0; st_timeout := After 0; st_rx := 0; st_state := st |}.
Definition d_spawned : send_task string string := d_task (Sending (into_base_record d_record (mkBox 0%nat))).
Definition d_started : pworld ksim (Box nat) := run (send_start d_record (After 0)) (ksim_at 0).
Definition d_waiting : pworld ksim (Box nat) := run (send_resume d_spawned) d_started.
Definition d_served : pworld ksim (Box nat) := run (producer_turn 0 (At 1000)) d_waiting.

Definition d_state (p : fsys ksim string string) (c : csim false) (ms : list RDKafkaMessage)
    (js : list (OwnedMessage * progress)) : proc (Wp := ksim) (Wc := csim false) :=
  {| out := p; inp := c; stream := Streaming; taken := ms; jobs := js |}.
Definition d_out (sh : pworld ksim (Box nat)) (st : send_state string string) : fsys ksim string string :=
  {| shared := sh; tasks := {[ 0%nat := d_task st ]} |}.
Definition d_idle : fsys ksim string string := {| shared := ksim_at 0; tasks := ∅ |}.
Definition d_start : proc (Wp := ksim) (Wc := csim false) := d_state d_idle c_fresh [] [].
Definition d_final : proc (Wp := ksim) (Wc := csim false) :=
  d_state (d_out d_served (Returned (Ok k_delivery))) c_received [csim_message 0] [(d_message, Printed (Ok k_delivery))].

Lemma d_start_initial : initial d_start.
Proof. split; [|done]. split; [|done]. split; [|done]. split; [constructor|]. intros p d []%elem_of_nil. Qed.

Lemma d_resume sh sh' st st' c ms js : send_resume (d_task st) sh = Done (d_task st', sh') →
  step "out" 0 (d_state (d_out sh st) c ms js) (d_state (d_out sh' st') c ms js).
Proof.
  intros Hr. pose proof (step_resume "out" 0%nat (d_state (d_out sh st) c ms js) 0 _ _ _ (lookup_singleton_eq _ _) Hr) as Hs.
  unfold with_out in Hs. simpl in Hs. by rewrite insert_singleton_eq in Hs.
Qed.

Lemma d_final_reachable : rtc (step "out" 0) d_start d_final.
Proof.
  eapply rtc_l; [apply (step_recv "out" 0%nat d_start 3 Poll.None c_assigned (d_state d_idle c_assigned [] [])); vm_compute; reflexivity|].
  eapply rtc_l; [apply (step_recv "out" 0%nat _ 3 (Poll.Event (Ok (csim_message 0))) c_received
    (d_state d_idle c_received [csim_message 0] [(d_message, Computing)])); vm_compute; reflexivity|].
  eapply rtc_l; [apply (step_computed "out" 0%nat _ 0 d_message d_spawned d_started); vm_compute; reflexivity|].
  eapply rtc_l; [apply (d_resume d_started d_waiting _ Waiting); vm_compute; reflexivity|].
  eapply rtc_l; [apply (step_thread "out" 0%nat _ 0 (At 1000) d_served); vm_compute; reflexivity|].
  eapply rtc_l; [apply (d_resume d_served d_served Waiting (Returned (Ok k_delivery))); vm_compute; reflexivity|].
  eapply rtc_l; [apply (step_print "out" 0%nat _ 0 d_message (Ok k_delivery)); vm_compute; reflexivity|].
  apply rtc_refl.
Qed.

Lemma async_processing_correct_witness :
  expensive_computation d_message = "Payload len for v is 1"
  ∧ ("out", Some (str_bytes (expensive_computation d_message)), Some (str_bytes "some key")) ∈ acked (pw (shared (out d_final))).
Proof.
  split; [vm_compute; reflexivity|].
  exact (proj1 (proj2 (async_processing_correct "out" 0 d_start d_final d_start_initial d_final_reachable)) 0%nat d_message k_delivery eq_refl).
Defined.
